(** * Sass prefix resolver: shallow embedding and verified properties

    The development follows the TypeScript sources of the extension:
    - [JS]: the string primitives and the regular expressions the scanners use;
    - [Path]: the POSIX behaviour of Node's [path] functions the resolver calls;
    - [FileSystem]: [fileExists], [readFile] and [readPackageJson] over a host;
    - [ModuleResolver], [UseResolver], [SassParser]: the parser classes that
      do not recurse over files;
    - [Eff]: asynchronous code over the set of visited files, and
      [ForwardResolver], the two traversals of re-export chains;
    - [DefinitionProvider]: the definition-lookup facade;
    - [CacheManager], [CachedFileSystem]: the cache of file contents and the
      reads with the cache written out;
    - [CompletionProvider]: the completion facade;
    - [Scenario]: small workspaces on which the lookups are run.

    Strings are sequences of 8-bit code units (the Latin-1 range of the
    UTF-16 code units of a JavaScript string); lines and columns are 0-indexed
    natural numbers as in the sources. An [await] is sequential: the model
    runs one lookup at a time, on a host that does not change meanwhile. *)

From Stdlib Require Import Strings.String Strings.Ascii Arith.PeanoNat ZArith Bool Lia.
From stdpp Require Import base option strings gmap list.

#[local] Open Scope string_scope.

(* ===================================================================== *)
(** ** JavaScript string primitives and the scanners' regular expressions *)
(* ===================================================================== *)

Module JS.

Definition code (c : ascii) : nat := nat_of_ascii c.

Definition between (lo hi : nat) (c : ascii) : bool :=
  Nat.leb lo (code c) && Nat.leb (code c) hi.

Definition isChar (k : nat) (c : ascii) : bool := Nat.eqb (code c) k.

(** [\w] *)
Definition isWordChar (c : ascii) : bool :=
  between 97 122 c || between 65 90 c || between 48 57 c || isChar 95 c.

(** [\s], which is also the set [String.prototype.trim] strips:
    TAB, LF, VT, FF, CR, space and NBSP in the Latin-1 range. *)
Definition isSpace (c : ascii) : bool :=
  between 9 13 c || isChar 32 c || isChar 160 c.

(** The line terminators that [.] refuses. *)
Definition isLineTerminator (c : ascii) : bool := isChar 10 c || isChar 13 c.

(** [[\w-]] *)
Definition isNameChar (c : ascii) : bool := isWordChar c || isChar 45 c.

(** [[\w$-]] *)
Definition isMemberChar (c : ascii) : bool := isNameChar c || isChar 36 c.

(** [[\w$.-]] *)
Definition isTokenChar (c : ascii) : bool := isMemberChar c || isChar 46 c.

(** The class of the two quote characters, double and single. *)
Definition isQuote (c : ascii) : bool := isChar 34 c || isChar 39 c.

Definition LF : ascii := "010"%char.
Definition dquote : ascii := "034"%char.

Definition isEmpty (s : string) : bool :=
  match s with EmptyString => true | String _ _ => false end.

Fixpoint drop (n : nat) (s : string) : string :=
  match n, s with
  | 0, _ => s
  | S _, EmptyString => EmptyString
  | S k, String _ s' => drop k s'
  end.

Fixpoint take (n : nat) (s : string) : string :=
  match n, s with
  | 0, _ => EmptyString
  | S _, EmptyString => EmptyString
  | S k, String c s' => String c (take k s')
  end.

(** [s.substring(a)] *)
Definition substringFrom (a : nat) (s : string) : string := drop a s.

(** [s.substring(a, b)]: the two indices are swapped when [a > b]. *)
Definition substring (a b : nat) (s : string) : string :=
  take (Nat.max a b - Nat.min a b) (drop (Nat.min a b) s).

(** [s.startsWith(p)] *)
Definition startsWith (p s : string) : bool := String.prefix p s.

(** [s[i]], [None] for [undefined]. *)
Definition charAt (i : nat) (s : string) : option ascii := String.get i s.

Fixpoint existsChar (p : ascii -> bool) (s : string) : bool :=
  match s with
  | EmptyString => false
  | String c s' => p c || existsChar p s'
  end.

(** [re.test(s[i])] for a one-character class [re]: beyond the end of [s]
    the argument is [undefined], which [test] converts to the text
    undefined before it searches it. *)
Definition testAt (p : ascii -> bool) (i : nat) (s : string) : bool :=
  match charAt i s with
  | Some c => p c
  | None => existsChar p "undefined"
  end.

Fixpoint indexOfAux (p s : string) (i : nat) : option nat :=
  if String.prefix p s then Some i
  else match s with
       | EmptyString => None
       | String _ s' => indexOfAux p s' (S i)
       end.

(** [s.indexOf(p)] and [s.indexOf(p, from)]; [None] for [-1]. *)
Definition indexOf (p s : string) : option nat := indexOfAux p s 0.
Definition indexOfFrom (p s : string) (from : nat) : option nat :=
  indexOfAux p (drop from s) from.

(** [s.includes(p)] *)
Definition includes (p s : string) : bool :=
  match indexOf p s with Some _ => true | None => false end.

Fixpoint trimStart (s : string) : string :=
  match s with
  | EmptyString => EmptyString
  | String c s' => if isSpace c then trimStart s' else s
  end.

Fixpoint trimEnd (s : string) : string :=
  match s with
  | EmptyString => EmptyString
  | String c s' =>
      let t := trimEnd s' in
      if isSpace c && isEmpty t then EmptyString else String c t
  end.

(** [s.trim()] *)
Definition trim (s : string) : string := trimEnd (trimStart s).

(** [s.split(sep)] for a one-character separator. *)
Fixpoint split (sep : ascii) (s : string) : list string :=
  match s with
  | EmptyString => [EmptyString]
  | String c s' =>
      if Ascii.eqb c sep then EmptyString :: split sep s'
      else match split sep s' with
           | h :: t => String c h :: t
           | [] => [String c EmptyString]
           end
  end.

(** The longest prefix of [s] whose characters satisfy [p], and the rest:
    a greedy [[class]*]. *)
Fixpoint span (p : ascii -> bool) (s : string) : string * string :=
  match s with
  | EmptyString => (EmptyString, EmptyString)
  | String c s' =>
      if p c then let '(r, rest) := span p s' in (String c r, rest)
      else (EmptyString, s)
  end.

(** A literal: the rest of [s] behind the prefix [l]. *)
Fixpoint lit (l s : string) : option string :=
  match l with
  | EmptyString => Some s
  | String a l' =>
      match s with
      | String b s' => if Ascii.eqb a b then lit l' s' else None
      | EmptyString => None
      end
  end.

(** The last character of a string. *)
Fixpoint last (s : string) : option ascii :=
  match s with
  | EmptyString => None
  | String c EmptyString => Some c
  | String _ s' => last s'
  end.

(** [l.map((x, i) => ...)]: the elements with their indices. *)
Fixpoint enumerateFrom {A : Type} (i : nat) (l : list A) : list (nat * A) :=
  match l with
  | [] => []
  | x :: t => (i, x) :: enumerateFrom (S i) t
  end.
Definition enumerate {A : Type} (l : list A) : list (nat * A) := enumerateFrom 0 l.

(** *** Regular expressions

    A pattern is embedded as the function that tries it at the start of a
    string and yields its captures and the length of the match. Every
    pattern of the sources is deterministic: each greedy run is followed by
    a character outside the run's class, so the first attempt of the
    backtracking matcher is its only one. *)
Definition Matcher (A : Type) : Type := string -> option (A * nat).

Definition consumed (s rest : string) : nat := String.length s - String.length rest.

(** [Array.from(s.matchAll(re))] for a global pattern: the matches from
    left to right with their [index], each search resuming where the
    previous match ended ([skip] counts the characters still covered by it). *)
Fixpoint scanFrom {A : Type} (m : Matcher A) (s : string) (idx skip : nat)
  : list (nat * A) :=
  match skip with
  | S k =>
      match s with
      | EmptyString => []
      | String _ s' => scanFrom m s' (S idx) k
      end
  | 0 =>
      match m s with
      | Some (a, len) =>
          (idx, a) :: match s with
                      | EmptyString => []
                      | String _ s' => scanFrom m s' (S idx) (Nat.pred len)
                      end
      | None =>
          match s with
          | EmptyString => []
          | String _ s' => scanFrom m s' (S idx) 0
          end
      end
  end.

Definition matchAll {A : Type} (m : Matcher A) (s : string) : list (nat * A) :=
  scanFrom m s 0 0.

(** [s.match(re)] for a pattern without the global flag: the leftmost match. *)
Fixpoint searchFrom {A : Type} (m : Matcher A) (s : string) (idx : nat)
  : option (nat * A) :=
  match m s with
  | Some (a, _) => Some (idx, a)
  | None =>
      match s with
      | EmptyString => None
      | String _ s' => searchFrom m s' (S idx)
      end
  end.
Definition search {A : Type} (m : Matcher A) (s : string) : option (nat * A) :=
  searchFrom m s 0.

(** [\s+] *)
Definition spaces1 (s : string) : option string :=
  let '(ws, rest) := span isSpace s in
  if isEmpty ws then None else Some rest.

(** The quoted path: a quote, a non-empty run of characters other than
    quotes (the capture), and a quote. *)
Definition quoted (s : string) : option (string * string) :=
  match s with
  | String q s1 =>
      if isQuote q then
        let '(p, rest) := span (fun c => negb (isQuote c)) s1 in
        if isEmpty p then None
        else match rest with
             | String _ rest' => Some (p, rest')
             | EmptyString => None
             end
      else None
  | EmptyString => None
  end.

(** The optional group [\s+as\s+([\w-]+)-\*] of the [@forward] pattern. The run [[\w-]+]
    is greedy and [*] lies outside its class, so the group matches exactly
    when the longest run ends with a hyphen behind at least one character
    and [*] follows; the prefix, [match[2]] and a hyphen, is then the whole
    run. *)
Definition asPrefix (s : string) : option (string * string) :=
  match spaces1 s with
  | Some s1 =>
      match lit "as" s1 with
      | Some s2 =>
          match spaces1 s2 with
          | Some s3 =>
              let '(run, rest) := span isNameChar s3 in
              match last run, rest with
              | Some c, String star rest' =>
                  if isChar 45 c && Nat.leb 2 (String.length run) && isChar 42 star
                  then Some (run, rest')
                  else None
              | _, _ => None
              end
          | None => None
          end
      | None => None
      end
  | None => None
  end.

(** [/@forward\s+Q([^Q]+)Q(?:G)?/g], where [Q] stands for the class of
    the two quote characters and [G] for the group above; the captures are
    the path and [match[2] ? `${match[2]}-` : null]. *)
Definition FORWARD_PATTERN : Matcher (string * option string) := fun s =>
  match lit "@forward" s with
  | Some s1 =>
      match spaces1 s1 with
      | Some s2 =>
          match quoted s2 with
          | Some (p, s3) =>
              match asPrefix s3 with
              | Some (pre, s4) => Some ((p, Some pre), consumed s s4)
              | None => Some ((p, None), consumed s s3)
              end
          | None => None
          end
      | None => None
      end
  | None => None
  end.

(** [(?:\s+as\s+([\w-]+))?] of the [@use] pattern. *)
Definition asNamespace (s : string) : option (string * string) :=
  match spaces1 s with
  | Some s1 =>
      match lit "as" s1 with
      | Some s2 =>
          match spaces1 s2 with
          | Some s3 =>
              let '(run, rest) := span isNameChar s3 in
              if isEmpty run then None else Some (run, rest)
          | None => None
          end
      | None => None
      end
  | None => None
  end.

(** [/@use\s+Q([^Q]+)Q(?:\s+as\s+([\w-]+))?/g], with [Q] as above. *)
Definition USE_PATTERN : Matcher (string * option string) := fun s =>
  match lit "@use" s with
  | Some s1 =>
      match spaces1 s1 with
      | Some s2 =>
          match quoted s2 with
          | Some (p, s3) =>
              match asNamespace s3 with
              | Some (ns, s4) => Some ((p, Some ns), consumed s s4)
              | None => Some ((p, None), consumed s s3)
              end
          | None => None
          end
      | None => None
      end
  | None => None
  end.

(** [/@mixin\s+([\w-]+)(?:\s*\(|\s*\{)/g] *)
Definition MIXIN_PATTERN : Matcher string := fun s =>
  match lit "@mixin" s with
  | Some s1 =>
      match spaces1 s1 with
      | Some s2 =>
          let '(name, s3) := span isNameChar s2 in
          if isEmpty name then None
          else
            let '(_, s4) := span isSpace s3 in
            match s4 with
            | String c s5 =>
                if isChar 40 c || isChar 123 c then Some (name, consumed s s5)
                else None
            | EmptyString => None
            end
      | None => None
      end
  | None => None
  end.

(** [/\$[\w-]+\s*:/g]; the captures are the matched text without its
    [\s*:] tail, as [fullMatch.replace(/\s*:$/, '')] leaves it, and
    [fullMatch.length]. *)
Definition VARIABLE_PATTERN : Matcher (string * nat) := fun s =>
  match s with
  | String d s1 =>
      if isChar 36 d then
        let '(name, s2) := span isNameChar s1 in
        if isEmpty name then None
        else
          let '(_, s3) := span isSpace s2 in
          match s3 with
          | String c s4 =>
              if isChar 58 c
              then Some ((String d name, consumed s s4), consumed s s4)
              else None
          | EmptyString => None
          end
      else None
  | EmptyString => None
  end.

(** [new RegExp(`${escapedVarName}\\s*:`, 'g')]. The source escapes the
    sigil of the name and nothing else, so that a name holding another
    special character of regular expressions would be read as a pattern.
    The model takes the name as a literal: it stands for the source on
    the names made of the characters [[\w$-]] only, as are the names
    that the scanner captures. *)
Definition variablePattern (variableName : string) : Matcher unit := fun s =>
  match lit variableName s with
  | Some s1 =>
      let '(_, s2) := span isSpace s1 in
      match s2 with
      | String c s3 => if isChar 58 c then Some (tt, consumed s s3) else None
      | EmptyString => None
      end
  | None => None
  end.

(** [\b] between the last character of the text just matched and the next
    character of the input. *)
Definition wordBoundary (before : option ascii) (rest : string) : bool :=
  let w1 := match before with Some c => isWordChar c | None => false end in
  let w2 := match rest with String c _ => isWordChar c | EmptyString => false end in
  xorb w1 w2.

(** [new RegExp(`\\$\\s*${paramName}\\b`)] *)
Definition parameterPattern (paramName : string) : Matcher unit := fun s =>
  match s with
  | String d s1 =>
      if isChar 36 d then
        let '(ws, s2) := span isSpace s1 in
        match lit paramName s2 with
        | Some s3 =>
            let before :=
              match last paramName with
              | Some c => Some c
              | None => match last ws with Some c => Some c | None => Some d end
              end in
            if wordBoundary before s3 then Some (tt, consumed s s3) else None
        | None => None
        end
      else None
  | EmptyString => None
  end.

(** The capture of [(.+)]: the characters up to the next line terminator. *)
Definition restOfLine (s : string) : string :=
  fst (span (fun c => negb (isLineTerminator c)) s).

(** [/\$\s*([\w-]+)(?:\s*:\s*(.+))?/]; the captures are the name and
    [match[2]?.trim() || null]. Behind the colon [\s*] is greedy: when a
    character is left it is not a space and [(.+)] runs from it to the end
    of its line; when none is left, [(.+)] can only be given spaces back,
    which trim to the empty text, or the group fails: [null] either way. *)
Definition PARAMETER_PATTERN : Matcher (string * option string) := fun s =>
  match s with
  | String d s1 =>
      if isChar 36 d then
        let '(_, s2) := span isSpace s1 in
        let '(name, s3) := span isNameChar s2 in
        if isEmpty name then None
        else
          let '(_, s4) := span isSpace s3 in
          match s4 with
          | String c s5 =>
              if isChar 58 c then
                let '(_, s6) := span isSpace s5 in
                let v := trim (restOfLine s6) in
                Some ((name, if isEmpty v then None else Some v),
                      consumed s (JS.drop (String.length (restOfLine s6)) s6))
              else Some ((name, None), consumed s s3)
          | EmptyString => Some ((name, None), consumed s s3)
          end
      else None
  | EmptyString => None
  end.

(** [s.endsWith(suffix)] *)
Definition endsWith (suffix s : string) : bool :=
  Nat.leb (String.length suffix) (String.length s)
  && String.eqb (drop (String.length s - String.length suffix) s) suffix.

(** [/\$\s*([\w-]+)/g]; the captures are the name and [match[0].length]. *)
Definition argumentPattern : Matcher (string * nat) := fun s =>
  match s with
  | String d s1 =>
      if isChar 36 d then
        let '(_, s2) := span isSpace s1 in
        let '(name, s3) := span isNameChar s2 in
        if isEmpty name then None
        else Some ((name, consumed s s3), consumed s s3)
      else None
  | EmptyString => None
  end.

(** [while (start > 0 && re.test(line[start - 1])) start--] *)
Fixpoint scanBack (p : ascii -> bool) (line : string) (start : nat) : nat :=
  match start with
  | 0 => 0
  | S k => if testAt p k line then scanBack p line k else start
  end.

(** [while (end < line.length && re.test(line[end])) end++]: [end] moves
    over the longest run of the class that starts at it. *)
Definition scanForward (p : ascii -> bool) (line : string) (e : nat) : nat :=
  e + String.length (fst (span p (drop e line))).

(** [/@include\s+([\w-]+)\.([\w-]+)\s*\(/g] *)
Definition includePattern : Matcher (string * string) := fun s =>
  match lit "@include" s with
  | Some s1 =>
      match spaces1 s1 with
      | Some s2 =>
          let '(ns, s3) := span isNameChar s2 in
          if isEmpty ns then None
          else match s3 with
               | String dot s4 =>
                   if isChar 46 dot then
                     let '(mx, s5) := span isNameChar s4 in
                     if isEmpty mx then None
                     else
                       let '(_, s6) := span isSpace s5 in
                       match s6 with
                       | String c s7 =>
                           if isChar 40 c then Some ((ns, mx), consumed s s7) else None
                       | EmptyString => None
                       end
                   else None
               | EmptyString => None
               end
      | None => None
      end
  | None => None
  end.

End JS.

(* ===================================================================== *)
(** ** Results of asynchronous calls *)
(* ===================================================================== *)

(** An awaited call resolves with a value or rejects. The recursive
    traversals and the directory walk are defined with fuel; [Exhausted]
    marks a model that ran out of it, and is shown never to arise. *)
Inductive outcome (A : Type) : Type :=
| Returned (a : A)
| Thrown
| Exhausted.
Arguments Returned {A} a.
Arguments Thrown {A}.
Arguments Exhausted {A}.

(* ===================================================================== *)
(** ** Node's [path] module, POSIX flavour *)
(* ===================================================================== *)

Module Path.
Import JS.

Definition slash : ascii := "/"%char.
Definition isSlash (c : ascii) : bool := isChar 47 c.

Fixpoint chars (s : string) : list ascii :=
  match s with
  | EmptyString => []
  | String c s' => c :: chars s'
  end.

(** The scan of [dirname] from the last index down to index [1]:
    [cs] holds the characters at the indices [i], [i - 1], ..., [1]. *)
Fixpoint dirnameEnd (cs : list ascii) (i : nat) (matchedSlash : bool) : option nat :=
  match cs with
  | [] => None
  | c :: rest =>
      if isSlash c then
        if matchedSlash then dirnameEnd rest (Nat.pred i) true else Some i
      else dirnameEnd rest (Nat.pred i) false
  end.

(** [path.dirname(p)] *)
Definition dirname (p : string) : string :=
  match p with
  | EmptyString => "."
  | String c0 tl =>
      let hasRoot := isSlash c0 in
      match dirnameEnd (rev (chars tl)) (String.length tl) true with
      | None => if hasRoot then "/" else "."
      | Some e => if hasRoot && Nat.eqb e 1 then "//" else take e p
      end
  end.

(** The scan of [basename] from the last index down to [0]: [cs] holds the
    characters at the indices [i], ..., [0]; [e] is the end found so far. *)
Fixpoint basenameScan (cs : list ascii) (i : nat) (matchedSlash : bool)
    (e : option nat) : nat * option nat :=
  match cs with
  | [] => (0, e)
  | c :: rest =>
      if isSlash c then
        if matchedSlash then basenameScan rest (Nat.pred i) true e
        else (S i, e)
      else
        match e with
        | None => basenameScan rest (Nat.pred i) false (Some (S i))
        | Some _ => basenameScan rest (Nat.pred i) matchedSlash e
        end
  end.

(** [path.basename(p)] *)
Definition basename (p : string) : string :=
  match basenameScan (rev (chars p)) (Nat.pred (String.length p)) true None with
  | (_, None) => EmptyString
  | (start, Some e) => substring start e p
  end.

(** [normalizeString]: the segments of the path with [.] and empty
    segments dropped and [..] resolved against the segments kept so far
    ([acc], innermost first). *)
Fixpoint normalizeSegments (allowAboveRoot : bool) (segs acc : list string)
  : list string :=
  match segs with
  | [] => rev acc
  | seg :: rest =>
      if String.eqb seg "" || String.eqb seg "." then
        normalizeSegments allowAboveRoot rest acc
      else if String.eqb seg ".." then
        match acc with
        | top :: below =>
            if String.eqb top ".." then
              normalizeSegments allowAboveRoot rest
                (if allowAboveRoot then ".." :: acc else acc)
            else normalizeSegments allowAboveRoot rest below
        | [] =>
            normalizeSegments allowAboveRoot rest
              (if allowAboveRoot then [".."] else [])
        end
      else normalizeSegments allowAboveRoot rest (seg :: acc)
  end.

Fixpoint joinWith (sep : string) (l : list string) : string :=
  match l with
  | [] => EmptyString
  | [x] => x
  | x :: t => x +:+ sep +:+ joinWith sep t
  end.

Definition normalizeString (p : string) (allowAboveRoot : bool) : string :=
  joinWith "/" (normalizeSegments allowAboveRoot (split slash p) []).

(** [path.normalize(p)] *)
Definition normalize (p : string) : string :=
  match p with
  | EmptyString => "."
  | String c0 _ =>
      let isAbsolute := isSlash c0 in
      let trailingSeparator :=
        match JS.last p with Some c => isSlash c | None => false end in
      let n := normalizeString p (negb isAbsolute) in
      if isEmpty n then
        if isAbsolute then "/" else if trailingSeparator then "./" else "."
      else
        let n' := if trailingSeparator then n +:+ "/" else n in
        if isAbsolute then "/" +:+ n' else n'
  end.

(** [path.join(a, b)] *)
Definition join (a b : string) : string :=
  match isEmpty a, isEmpty b with
  | true, true => "."
  | true, false => normalize b
  | false, true => normalize a
  | false, false => normalize (a +:+ "/" +:+ b)
  end.

(** The right-to-left accumulation of [path.resolve]: arguments are
    prepended until an absolute one has been seen. *)
Fixpoint resolveAcc (rargs : list string) (resolvedPath : string)
    (resolvedAbsolute : bool) : string * bool :=
  match rargs with
  | [] => (resolvedPath, resolvedAbsolute)
  | p :: rest =>
      if resolvedAbsolute then (resolvedPath, resolvedAbsolute)
      else if isEmpty p then resolveAcc rest resolvedPath resolvedAbsolute
      else resolveAcc rest (p +:+ "/" +:+ resolvedPath) (startsWith "/" p)
  end.

(** [path.resolve(a, b)] in a process whose working directory is [cwd]. *)
Definition resolve (cwd a b : string) : string :=
  let '(resolvedPath, resolvedAbsolute) := resolveAcc [b; a; cwd] EmptyString false in
  let n := normalizeString resolvedPath (negb resolvedAbsolute) in
  if resolvedAbsolute then "/" +:+ n
  else if isEmpty n then "." else n.

End Path.

(* ===================================================================== *)
(** ** The records of [types/index.ts] *)
(* ===================================================================== *)

Module UseStatement.
Record t : Type := mk { path : string; namespace : string; line : nat }.
End UseStatement.

Module ForwardStatement.
(** [prefix] is [None] for [null]; a prefix, when present, ends with its
    hyphen. *)
Record t : Type := mk { path : string; prefix : option string; line : nat }.
End ForwardStatement.

Module MixinParameter.
Record t : Type :=
  mk { name : string; defaultValue : option string; line : nat; column : nat }.
End MixinParameter.

Module MixinDefinition.
Record t : Type :=
  mk { name : string; filePath : string; line : nat; column : nat;
       parameters : option (list MixinParameter.t) }.
End MixinDefinition.

Module VariableDefinition.
Record t : Type :=
  mk { name : string; filePath : string; line : nat; column : nat;
       value : option string }.
End VariableDefinition.

(** [MixinDefinition | VariableDefinition] *)
Inductive Member : Type :=
| MixinMember (d : MixinDefinition.t)
| VariableMember (d : VariableDefinition.t).

Inductive MemberKind : Type := KMixin | KVariable.

Inductive CursorTarget : Type := OnNamespace | OnMember.

Module ResolutionContext.
Record t : Type :=
  mk { token : string; namespace : string; member : string;
       currentFilePath : string; workspaceRoot : string;
       cursorTarget : CursorTarget }.
End ResolutionContext.

(** [vscode.Location]: a file and a 0-indexed position. *)
Module Location.
Record t : Type := mk { filePath : string; line : nat; column : nat }.
End Location.

(** A value that a manifest holds under a key, as far as the resolver tells
    values apart: a text; a value of another type that JavaScript takes as
    true (a number other than zero, [true], an object, an array); or a value
    of another type that it takes as false ([null], [false], zero). *)
Inductive JsonValue : Type :=
| JsonText (s : string)
| JsonTruthy
| JsonFalsy.

(** The two fields of a package manifest the resolver reads; [None] for a
    key that the manifest does not hold ([undefined]). *)
Module SassPackageJson.
Record t : Type := mk { sass : option JsonValue; style : option JsonValue }.
End SassPackageJson.

(* ===================================================================== *)
(** ** [utils/fileSystem.ts] over a host *)
(* ===================================================================== *)

(** The host of one lookup.
    - [entries]: the paths for which [fs.promises.access(p, R_OK)] succeeds,
      files and directories alike;
    - [texts]: what [readFile] resolves to. [readFile] reads through the
      cache: it returns the cached text of a path or else the text on disk,
      which it stores under the same path, so within a lookup the text of a
      path does not change and is a function of the path. A path without a
      text is one whose read rejects (a missing file, a directory);
    - [cwd]: the working directory of the process, as [path.resolve] sees it;
    - [JSON_parse]: the runtime's [JSON.parse] on a manifest, restricted to
      the two fields read, whatever the types of their values; [None] when
      it throws or yields a value taken as false. *)
Record Host : Type := {
  entries : gset string;
  texts : gmap string string;
  cwd : string;
  JSON_parse : string -> option SassPackageJson.t
}.

Module FileSystem.

Definition readFile (h : Host) (filePath : string) : outcome string :=
  match texts h !! filePath with
  | Some content => Returned content
  | None => Thrown
  end.

Definition fileExists (h : Host) (filePath : string) : bool :=
  bool_decide (filePath ∈ entries h).

(** The [try]/[catch] of [readPackageJson] turns every failure into [null]. *)
Definition readPackageJson (h : Host) (packagePath : string)
  : option SassPackageJson.t :=
  match readFile h packagePath with
  | Returned content => JSON_parse h content
  | _ => None
  end.

End FileSystem.

(* ===================================================================== *)
(** ** [parser/moduleResolver.ts] *)
(* ===================================================================== *)

Module ModuleResolver.
Import JS FileSystem.

(** [for (const candidate of candidates) if (await fileExists(candidate)) return candidate] *)
Definition firstExisting (h : Host) (candidates : list string) : option string :=
  List.find (fileExists h) candidates.

Definition relativeCandidates (basePath : string) : list string :=
  [ basePath +:+ ".scss";
    basePath +:+ ".sass";
    basePath +:+ "/_index.scss";
    basePath +:+ "/_index.sass";
    basePath +:+ "/index.scss";
    basePath +:+ "/index.sass";
    Path.join (Path.dirname basePath) ("_" +:+ Path.basename basePath +:+ ".scss");
    Path.join (Path.dirname basePath) ("_" +:+ Path.basename basePath +:+ ".sass") ].

Definition resolveRelativePath (h : Host) (modulePath currentFilePath : string)
  : option string :=
  let currentDir := Path.dirname currentFilePath in
  let basePath := Path.resolve (cwd h) currentDir modulePath in
  firstExisting h (relativeCandidates basePath).

(** A JavaScript string is truthy when it is not empty. *)
Definition truthy (o : option string) : option string :=
  match o with
  | Some s => if isEmpty s then None else Some s
  | None => None
  end.

(** Whether JavaScript takes the value of a field as true. *)
Definition isTruthy (v : option JsonValue) : bool :=
  match v with
  | Some (JsonText s) => negb (isEmpty s)
  | Some JsonTruthy => true
  | Some JsonFalsy | None => false
  end.

(** [packageJson.sass || packageJson.style] *)
Definition sassEntry (packageJson : SassPackageJson.t) : option JsonValue :=
  if isTruthy (SassPackageJson.sass packageJson)
  then SassPackageJson.sass packageJson
  else SassPackageJson.style packageJson.

(** [path.join(packagePath, sassEntry)]: [path.join] throws a [TypeError]
    on an argument that is not a text. *)
Definition joinEntry (packagePath : string) (entry : option JsonValue)
  : outcome string :=
  match entry with
  | Some (JsonText s) => Returned (Path.join packagePath s)
  | _ => Thrown
  end.

(** The first part of [resolveInNodeModules]: the entry of the manifest,
    when the manifest exists, parses, names an entry and the entry exists.
    An entry that is taken as true and is no text makes [path.join] throw;
    nothing between there and the facades catches it. *)
Definition manifestEntry (h : Host) (packagePath : string)
  : outcome (option string) :=
  let packageJsonPath := Path.join packagePath "package.json" in
  if fileExists h packageJsonPath then
    match readPackageJson h packageJsonPath with
    | Some packageJson =>
        let entry := sassEntry packageJson in
        if isTruthy entry then
          match joinEntry packagePath entry with
          | Returned entryPath =>
              Returned (if fileExists h entryPath then Some entryPath else None)
          | Thrown => Thrown
          | Exhausted => Exhausted
          end
        else Returned None
    | None => Returned None
    end
  else Returned None.

Definition packageCandidates (packagePath : string) : list string :=
  [ Path.join packagePath "index.scss";
    Path.join packagePath "_index.scss";
    Path.join packagePath "index.sass";
    Path.join packagePath "_index.sass";
    packagePath +:+ ".scss";
    packagePath +:+ ".sass";
    Path.join (Path.dirname packagePath) ("_" +:+ Path.basename packagePath +:+ ".scss");
    Path.join (Path.dirname packagePath) ("_" +:+ Path.basename packagePath +:+ ".sass") ].

Definition resolveInNodeModules (h : Host) (modulePath nodeModulesPath : string)
  : outcome (option string) :=
  let packagePath := Path.join nodeModulesPath modulePath in
  match manifestEntry h packagePath with
  | Returned (Some entryPath) => Returned (Some entryPath)
  | Returned None => Returned (firstExisting h (packageCandidates packagePath))
  | Thrown => Thrown
  | Exhausted => Exhausted
  end.

(** The [while (true)] of [resolvePackagePath], one unit of fuel per
    directory visited. *)
Fixpoint walkUp (fuel : nat) (h : Host) (modulePath workspaceRoot currentDir : string)
  : outcome (option string) :=
  match fuel with
  | 0 => Exhausted
  | S fuel' =>
      let nodeModulesPath := Path.join currentDir "node_modules" in
      let resolved :=
        if fileExists h nodeModulesPath
        then resolveInNodeModules h modulePath nodeModulesPath
        else Returned None in
      match resolved with
      | Returned (Some r) => Returned (Some r)
      | Returned None =>
          let parentDir := Path.dirname currentDir in
          if String.eqb parentDir currentDir || String.eqb currentDir workspaceRoot
          then Returned None
          else walkUp fuel' h modulePath workspaceRoot parentDir
      | Thrown => Thrown
      | Exhausted => Exhausted
      end
  end.

(** The measure that every step of the walk to a parent other than the
    directory itself decreases: the two roots have none left. *)
Definition walkMeasure (p : string) : nat :=
  if String.eqb p "/" || String.eqb p "." then 0 else S (String.length p).

(** The measure of the starting directory bounds the walk. *)
Definition walkFuel (currentDir : string) : nat := String.length currentDir + 3.

Definition resolvePackagePath (h : Host)
    (modulePath currentFilePath workspaceRoot : string) : outcome (option string) :=
  let currentDir := Path.dirname currentFilePath in
  walkUp (walkFuel currentDir) h modulePath workspaceRoot currentDir.

Definition resolveModule (h : Host)
    (modulePath currentFilePath workspaceRoot : string) : outcome (option string) :=
  if startsWith "sass:" modulePath then Returned None
  else if startsWith "./" modulePath || startsWith "../" modulePath
  then Returned (resolveRelativePath h modulePath currentFilePath)
  else resolvePackagePath h modulePath currentFilePath workspaceRoot.

End ModuleResolver.

(* ===================================================================== *)
(** ** [parser/useResolver.ts] *)
(* ===================================================================== *)

Module UseResolver.
Import JS.

(** The last element of [path.split('/')], then [replace(/^sass:/, '')],
    [replace(/\.(scss|sass)$/, '')] and [replace(/^_/, '')]. *)
Definition extractDefaultNamespace (path : string) : string :=
  let lastPart := List.last (split Path.slash path) EmptyString in
  let withoutPrefix :=
    if startsWith "sass:" lastPart then substringFrom 5 lastPart else lastPart in
  let withoutExtension :=
    if endsWith ".scss" withoutPrefix || endsWith ".sass" withoutPrefix
    then JS.take (String.length withoutPrefix - 5) withoutPrefix
    else withoutPrefix in
  if startsWith "_" withoutExtension then substringFrom 1 withoutExtension
  else withoutExtension.

Definition parseUseStatements (content : string) : list UseStatement.t :=
  flat_map
    (fun '(lineNumber, line) =>
       if startsWith "//" (trim line) then []
       else
         map (fun '(_, (path, ns)) =>
                UseStatement.mk path
                  (match ns with
                   | Some namespace => namespace
                   | None => extractDefaultNamespace path
                   end)
                  lineNumber)
             (matchAll USE_PATTERN line))
    (enumerate (split LF content)).

Definition findUseByNamespace (content namespace : string) : option UseStatement.t :=
  List.find (fun stmt => String.eqb (UseStatement.namespace stmt) namespace)
            (parseUseStatements content).

End UseResolver.

(* ===================================================================== *)
(** ** [parser/sassParser.ts] *)
(* ===================================================================== *)

Module SassParser.
Import JS.

(** The loop state of [extractArgumentsString]. *)
Record ArgScan : Type :=
  mkArgScan { argsString : string; depth : nat; foundStart : bool }.

Inductive ArgStep : Type :=
| ArgsDone (args : string)
| ArgsMore (st : ArgScan).

Definition push (s : string) (c : ascii) : string := s +:+ String c EmptyString.

(** The inner [for] over the characters of one line. *)
Fixpoint scanArgsLine (line : string) (st : ArgScan) : ArgStep :=
  match line with
  | EmptyString => ArgsMore st
  | String char rest =>
      let st1 :=
        if isChar 40 char
        then mkArgScan (argsString st) (S (depth st)) true
        else st in
      if isChar 40 char && Nat.eqb (depth st1) 1 then scanArgsLine rest st1
      else if foundStart st1 && Nat.ltb 0 (depth st1) then
        if isChar 41 char then
          if Nat.eqb (Nat.pred (depth st1)) 0 then ArgsDone (argsString st1)
          else scanArgsLine rest
                 (mkArgScan (push (argsString st1) char) (Nat.pred (depth st1))
                            (foundStart st1))
        else scanArgsLine rest
               (mkArgScan (push (argsString st1) char) (depth st1) (foundStart st1))
      else scanArgsLine rest st1
  end.

(** The outer [for] over the lines; [None] for [null]. *)
Fixpoint scanArgsLines (lines : list string) (st : ArgScan) : option string :=
  match lines with
  | [] => None
  | line :: rest =>
      match scanArgsLine line st with
      | ArgsDone args => Some args
      | ArgsMore st' =>
          scanArgsLines rest
            (if foundStart st' && Nat.ltb 0 (depth st')
             then mkArgScan (push (argsString st') LF) (depth st') (foundStart st')
             else st')
      end
  end.

Definition extractArgumentsString (lines : list string) (startLine : nat)
  : option string :=
  scanArgsLines (List.skipn startLine lines) (mkArgScan EmptyString 0 false).

(** The loop of [splitArguments]; its depth counter may go negative. *)
Fixpoint splitArgumentsLoop (s current : string) (depth : Z) (tokens : list string)
  : list string :=
  match s with
  | EmptyString =>
      if isEmpty (trim current) then tokens else tokens ++ [trim current]
  | String char rest =>
      let d1 := if isChar 40 char || isChar 123 char then (depth + 1)%Z else depth in
      let d2 := if isChar 41 char || isChar 125 char then (d1 - 1)%Z else d1 in
      if isChar 44 char && Z.eqb d2 0
      then splitArgumentsLoop rest EmptyString d2 (tokens ++ [trim current])
      else splitArgumentsLoop rest (push current char) d2 tokens
  end.

Definition splitArguments (argsString : string) : list string :=
  splitArgumentsLoop argsString EmptyString 0%Z [].

(** The ten lines from [startLine] on are searched for the parameter's
    token; without a match the position is the mixin's line, column 0. *)
Definition calculateParameterPosition (paramName : string) (lines : list string)
    (startLine : nat) : nat * nat :=
  let window := List.firstn 10 (List.skipn startLine (enumerate lines)) in
  match
    List.find (fun '(_, line) =>
                 match search (parameterPattern paramName) line with
                 | Some _ => true
                 | None => false
                 end) window
  with
  | Some (i, line) =>
      match search (parameterPattern paramName) line with
      | Some (index, _) => (i, index)
      | None => (startLine, 0)
      end
  | None => (startLine, 0)
  end.

Definition parseParameter (token : string) (lines : list string) (baseLine : nat)
  : option MixinParameter.t :=
  match search PARAMETER_PATTERN token with
  | Some (_, (name, defaultValue)) =>
      let '(line, column) := calculateParameterPosition name lines baseLine in
      Some (MixinParameter.mk name defaultValue line column)
  | None => None
  end.

Definition parseMixinParameters (content mixinName : string) (startLine : nat)
  : list MixinParameter.t :=
  let lines := split LF content in
  match extractArgumentsString lines startLine with
  | Some argsString =>
      if Nat.eqb (String.length (trim argsString)) 0 then []
      else omap (fun token => parseParameter token lines startLine)
                (splitArguments argsString)
  | None => []
  end.

(** The matches of the mixin pattern on the lines that are not line
    comments, as (line, column, name), in the order the loops meet them. *)
Definition mixinMatches (content : string) : list (nat * nat * string) :=
  flat_map
    (fun '(lineNumber, line) =>
       if startsWith "//" (trim line) then []
       else map (fun '(index, name) => (lineNumber, index, name))
                (matchAll MIXIN_PATTERN line))
    (enumerate (split LF content)).

Definition findMixinDefinition (content mixinName filePath : string)
  : option MixinDefinition.t :=
  match
    List.find (fun '(_, _, foundMixinName) => String.eqb foundMixinName mixinName)
              (mixinMatches content)
  with
  | Some (lineNumber, column, _) =>
      Some (MixinDefinition.mk mixinName filePath lineNumber column
              (Some (parseMixinParameters content mixinName lineNumber)))
  | None => None
  end.

(** The matches of [variablePattern] on the lines that are not line
    comments, as (line, column). *)
Definition variableMatches (content variableName : string) : list (nat * nat) :=
  flat_map
    (fun '(lineNumber, line) =>
       if startsWith "//" (trim line) then []
       else map (fun '(index, _) => (lineNumber, index))
                (matchAll (variablePattern variableName) line))
    (enumerate (split LF content)).

Definition findVariableDefinition (content variableName filePath : string)
  : option VariableDefinition.t :=
  match variableMatches content variableName with
  | (lineNumber, column) :: _ =>
      Some (VariableDefinition.mk variableName filePath lineNumber column None)
  | [] => None
  end.

(** The enumeration that leaves [parameters] out. *)
Definition findAllMixinDefinitions (content filePath : string)
  : list MixinDefinition.t :=
  map (fun '(lineNumber, column, mixinName) =>
         MixinDefinition.mk mixinName filePath lineNumber column None)
      (mixinMatches content).

Definition findAllMixinDefinitionsWithParams (content filePath : string)
  : list MixinDefinition.t :=
  map (fun '(lineNumber, column, mixinName) =>
         MixinDefinition.mk mixinName filePath lineNumber column
           (Some (parseMixinParameters content mixinName lineNumber)))
      (mixinMatches content).

(** [afterColon], cut at the first semicolon when there is one, trimmed;
    [None] for an empty text ([value || undefined]). *)
Definition variableValue (line : string) (column fullLength : nat) : option string :=
  let afterColon := substringFrom (column + fullLength) line in
  let value :=
    match indexOf ";" afterColon with
    | Some semicolonIndex => trim (substring 0 semicolonIndex afterColon)
    | None => trim afterColon
    end in
  if isEmpty value then None else Some value.

(** The loop of [findAllVariableDefinitions] with its block-comment flag. *)
Fixpoint variableLines (filePath : string) (lines : list (nat * string))
    (inBlockComment : bool) : list VariableDefinition.t :=
  match lines with
  | [] => []
  | (lineNumber, line) :: rest =>
      let inBlockComment1 := if includes "/*" line then true else inBlockComment in
      if includes "*/" line then variableLines filePath rest false
      else if inBlockComment1 then variableLines filePath rest inBlockComment1
      else if startsWith "//" (trim line) then variableLines filePath rest inBlockComment1
      else
        map (fun '(column, (varName, fullLength)) =>
               VariableDefinition.mk varName filePath lineNumber column
                 (variableValue line column fullLength))
            (matchAll VARIABLE_PATTERN line)
        ++ variableLines filePath rest inBlockComment1
  end.

Definition findAllVariableDefinitions (content filePath : string)
  : list VariableDefinition.t :=
  variableLines filePath (enumerate (split LF content)) false.

End SassParser.

(* ===================================================================== *)
(** ** Asynchronous code over the set of visited files *)
(* ===================================================================== *)

(** The traversals of the forward resolver mutate a set of file paths (the
    field [visitedFiles], or the set handed to [findAllForwardedMembers]) and
    may reject. A computation takes the set and yields its outcome with the
    set as it leaves it. *)
Module Eff.

Definition M (A : Type) : Type := gset string -> outcome A * gset string.

Definition ret {A : Type} (a : A) : M A := fun visited => (Returned a, visited).

Definition bind {A B : Type} (m : M A) (k : A -> M B) : M B := fun visited =>
  match m visited with
  | (Returned a, visited') => k a visited'
  | (Thrown, visited') => (Thrown, visited')
  | (Exhausted, visited') => (Exhausted, visited')
  end.

(** [await] of a call that does not touch the set. *)
Definition await {A : Type} (o : outcome A) : M A := fun visited => (o, visited).

(** [visitedFiles.has(p)], [.add(p)], [.delete(p)] and [.clear()] *)
Definition has (p : string) : M bool := fun visited =>
  (Returned (bool_decide (p ∈ visited)), visited).
Definition add (p : string) : M unit := fun visited =>
  (Returned tt, {[p]} ∪ visited).
Definition delete (p : string) : M unit := fun visited =>
  (Returned tt, visited ∖ {[p]}).
Definition clear : M unit := fun _ => (Returned tt, ∅).

(** [try { m } finally { f }] for a cleanup [f] that completes normally. *)
Definition finally {A : Type} (m : M A) (f : M unit) : M A := fun visited =>
  let '(o, visited') := m visited in
  match f visited' with
  | (Returned _, visited'') => (o, visited'')
  | (Thrown, visited'') => (Thrown, visited'')
  | (Exhausted, visited'') => (Exhausted, visited'')
  end.

(** [try { m } catch (error) { handler }] *)
Definition catch {A : Type} (m : M A) (handler : M A) : M A := fun visited =>
  match m visited with
  | (Thrown, visited') => handler visited'
  | r => r
  end.

End Eff.

Declare Scope eff_scope.
Delimit Scope eff_scope with eff.
Notation "x <- m ;; k" := (Eff.bind m (fun x => k))
  (at level 100, m at next level, right associativity) : eff_scope.
Notation "m ;; k" := (Eff.bind m (fun _ => k))
  (at level 100, right associativity) : eff_scope.

(* ===================================================================== *)
(** ** [parser/forwardResolver.ts] *)
(* ===================================================================== *)

(** The result of [findForwardedMember]. *)
Module ForwardedMember.
Record t : Type := mk { originalName : string; filePath : string }.
End ForwardedMember.

Module ForwardResolver.
Import JS FileSystem.
#[local] Open Scope eff_scope.

Definition parseForwardStatements (content : string) : list ForwardStatement.t :=
  flat_map
    (fun '(lineNumber, line) =>
       if startsWith "//" (trim line) then []
       else map (fun '(_, (path, prefix)) => ForwardStatement.mk path prefix lineNumber)
                (matchAll FORWARD_PATTERN line))
    (enumerate (split LF content)).

(** The body of [if (statement.prefix)] in [findForwardedMember]: the
    original name behind a statement, [None] where the loop continues with
    the next statement because the prefix does not match. *)
Definition originalNameFor (memberName : string) (statement : ForwardStatement.t)
  : option string :=
  match ModuleResolver.truthy (ForwardStatement.prefix statement) with
  | Some prefix =>
      let isVariable := startsWith "$" memberName in
      let nameWithoutDollar :=
        if isVariable then substringFrom 1 memberName else memberName in
      if startsWith prefix nameWithoutDollar then
        let baseName := substringFrom (String.length prefix) nameWithoutDollar in
        Some (if isVariable then "$" +:+ baseName else baseName)
      else None
  | None => Some memberName
  end.

(** The [for] loop of [findForwardedMember]; [self] is the method itself,
    called on the forwarded file. *)
Fixpoint forwardLoop (h : Host)
    (self : string -> string -> string -> Eff.M (option ForwardedMember.t))
    (memberName currentFilePath workspaceRoot : string)
    (statements : list ForwardStatement.t) : Eff.M (option ForwardedMember.t) :=
  match statements with
  | [] => Eff.ret None
  | statement :: rest =>
      match originalNameFor memberName statement with
      | None => forwardLoop h self memberName currentFilePath workspaceRoot rest
      | Some originalName =>
          resolved <- Eff.await (ModuleResolver.resolveModule h
                        (ForwardStatement.path statement) currentFilePath workspaceRoot) ;;
          match resolved with
          | None => forwardLoop h self memberName currentFilePath workspaceRoot rest
          | Some resolvedPath =>
              forwardedContent <- Eff.await (readFile h resolvedPath) ;;
              nestedResult <- self forwardedContent originalName resolvedPath ;;
              match nestedResult with
              | Some r => Eff.ret (Some r)
              | None => Eff.ret (Some (ForwardedMember.mk originalName resolvedPath))
              end
          end
      end
  end.

(** [findForwardedMember] with one unit of fuel per file entered. *)
Fixpoint findForwardedMemberFuel (fuel : nat) (h : Host)
    (content memberName currentFilePath workspaceRoot : string)
  : Eff.M (option ForwardedMember.t) :=
  visited <- Eff.has currentFilePath ;;
  if (visited : bool) then Eff.ret None
  else
    match fuel with
    | 0 => Eff.await Exhausted
    | S fuel' =>
        Eff.add currentFilePath ;;
        Eff.finally
          (forwardLoop h
             (fun c m p => findForwardedMemberFuel fuel' h c m p workspaceRoot)
             memberName currentFilePath workspaceRoot
             (parseForwardStatements content))
          (Eff.delete currentFilePath)
    end.

(** A file is entered only when it is not on the stack of visited files,
    and every file entered below the first one exists, so one more unit
    than there are entries covers every descent. *)
Definition traversalFuel (h : Host) : nat := S (size (entries h)).

Definition findForwardedMember (h : Host)
    (content memberName currentFilePath workspaceRoot : string)
  : Eff.M (option ForwardedMember.t) :=
  findForwardedMemberFuel (traversalFuel h) h content memberName
    currentFilePath workspaceRoot.

Definition clearVisitedFiles : Eff.M unit := Eff.clear.

Definition memberName (m : Member) : string :=
  match m with
  | MixinMember d => MixinDefinition.name d
  | VariableMember d => VariableDefinition.name d
  end.

(** [member.name = ...]: every definition object is created by the scanner
    call that lists it and is held by one array at a time, so the
    assignment is the update of that element. *)
Definition setName (m : Member) (name : string) : Member :=
  match m with
  | MixinMember d =>
      MixinMember (MixinDefinition.mk name (MixinDefinition.filePath d)
                     (MixinDefinition.line d) (MixinDefinition.column d)
                     (MixinDefinition.parameters d))
  | VariableMember d =>
      VariableMember (VariableDefinition.mk name (VariableDefinition.filePath d)
                        (VariableDefinition.line d) (VariableDefinition.column d)
                        (VariableDefinition.value d))
  end.

Definition nameWithoutDollar (name : string) : string :=
  if startsWith "$" name then substringFrom 1 name else name.

(** [nameWithoutDollar.startsWith('_')] *)
Definition isPrivate (m : Member) : bool :=
  startsWith "_" (nameWithoutDollar (memberName m)).

(** The renaming under [if (statement.prefix)]. *)
Definition applyPrefix (prefix : option string) (m : Member) : Member :=
  match ModuleResolver.truthy prefix with
  | Some p =>
      if startsWith "$" (memberName m)
      then setName m ("$" +:+ p +:+ nameWithoutDollar (memberName m))
      else setName m (p +:+ memberName m)
  | None => m
  end.

Definition directMembers (type : MemberKind) (content filePath : string)
  : list Member :=
  match type with
  | KMixin => map MixinMember (SassParser.findAllMixinDefinitionsWithParams content filePath)
  | KVariable => map VariableMember (SassParser.findAllVariableDefinitions content filePath)
  end.

(** The [for] loop of [findAllForwardedMembers]. *)
Fixpoint forwardAllLoop (h : Host)
    (self : string -> string -> Eff.M (list Member))
    (currentFilePath workspaceRoot : string) (type : MemberKind)
    (statements : list ForwardStatement.t) : Eff.M (list Member) :=
  match statements with
  | [] => Eff.ret []
  | statement :: rest =>
      resolved <- Eff.await (ModuleResolver.resolveModule h
                    (ForwardStatement.path statement) currentFilePath workspaceRoot) ;;
      match resolved with
      | None => forwardAllLoop h self currentFilePath workspaceRoot type rest
      | Some resolvedPath =>
          forwardedContent <- Eff.await (readFile h resolvedPath) ;;
          let members := directMembers type forwardedContent resolvedPath in
          let direct :=
            map (applyPrefix (ForwardStatement.prefix statement))
                (List.filter (fun m => negb (isPrivate m)) members) in
          nestedMembers <- self forwardedContent resolvedPath ;;
          let nested :=
            map (applyPrefix (ForwardStatement.prefix statement)) nestedMembers in
          others <- forwardAllLoop h self currentFilePath workspaceRoot type rest ;;
          Eff.ret (direct ++ nested ++ others)%list
      end
  end.

Fixpoint findAllForwardedMembersFuel (fuel : nat) (h : Host)
    (content currentFilePath workspaceRoot : string) (type : MemberKind)
  : Eff.M (list Member) :=
  visited <- Eff.has currentFilePath ;;
  if (visited : bool) then Eff.ret []
  else
    match fuel with
    | 0 => Eff.await Exhausted
    | S fuel' =>
        Eff.add currentFilePath ;;
        Eff.finally
          (forwardAllLoop h
             (fun c p => findAllForwardedMembersFuel fuel' h c p workspaceRoot type)
             currentFilePath workspaceRoot type
             (parseForwardStatements content))
          (Eff.delete currentFilePath)
    end.

(** [findAllForwardedMembers]; the set [visitedFiles] is the state the
    computation runs in, a new empty one when the caller passes none. *)
Definition findAllForwardedMembers (h : Host)
    (content currentFilePath workspaceRoot : string) (type : MemberKind)
  : Eff.M (list Member) :=
  findAllForwardedMembersFuel (traversalFuel h) h content
    currentFilePath workspaceRoot type.

End ForwardResolver.

(* ===================================================================== *)
(** ** [providers/definitionProvider.ts] *)
(* ===================================================================== *)

(** What the facade reads of a [vscode.TextDocument]: its path, the texts of
    its lines and the workspace folder that contains it, if any. *)
Module TextDocument.
Record t : Type :=
  mk { fsPath : string; lines : list string; workspaceFolder : option string }.

(** [document.lineAt(n).text]; [lineAt] throws outside the document. *)
Definition lineAt (d : t) (n : nat) : outcome string :=
  match List.nth_error (lines d) n with
  | Some text => Returned text
  | None => Thrown
  end.
End TextDocument.

Module Position.
Record t : Type := mk { line : nat; character : nat }.
End Position.

Module IncludeContext.
Record t : Type := mk { namespace : string; mixinName : string; argumentName : string }.
End IncludeContext.

Module DefinitionProvider.
Import JS FileSystem.
#[local] Open Scope eff_scope.

(** The scans of [extractContext] on the text of the cursor's line. *)
Definition extractContextOn (line : string) (cursorChar : nat)
    (fsPath : string) (workspaceFolder : option string)
  : option ResolutionContext.t :=
  let afterWord := Nat.ltb 0 cursorChar && testAt isMemberChar (cursorChar - 1) line in
  if (Nat.leb (String.length line) cursorChar || negb (testAt isTokenChar cursorChar line))
     && negb afterWord
  then None
  else
    let start0 :=
      if Nat.ltb cursorChar (String.length line) && testAt isMemberChar cursorChar line
      then Some cursorChar
      else if afterWord then Some (cursorChar - 1)
      else None in
    match start0 with
    | None => None
    | Some start0 =>
        let start1 := scanBack isMemberChar line start0 in
        let start :=
          if Nat.ltb 0 start1
             && match charAt (start1 - 1) line with
                | Some c => isChar 46 c
                | None => false
                end
          then scanBack isNameChar line (start1 - 1)
          else start1 in
        let end_ := scanForward isMemberChar line cursorChar in
        let token := substring start end_ line in
        match indexOf "." token with
        | None => None
        | Some dotIndex =>
            let namespace := substring 0 dotIndex token in
            let member := substringFrom (dotIndex + 1) token in
            if isEmpty namespace || isEmpty member then None
            else
              let cursorInToken := cursorChar - start in
              let cursorTarget :=
                if Nat.leb cursorInToken dotIndex then OnNamespace else OnMember in
              match workspaceFolder with
              | None => None
              | Some workspaceRoot =>
                  Some (ResolutionContext.mk token namespace member fsPath
                          workspaceRoot cursorTarget)
              end
        end
    end.

Definition extractContext (document : TextDocument.t) (position : Position.t)
  : outcome (option ResolutionContext.t) :=
  match TextDocument.lineAt document (Position.line position) with
  | Returned line =>
      Returned (extractContextOn line (Position.character position)
                  (TextDocument.fsPath document)
                  (TextDocument.workspaceFolder document))
  | Thrown => Thrown
  | Exhausted => Exhausted
  end.

Fixpoint matchingParenLoop (s : string) (i : nat) (depth : Z) : option nat :=
  match s with
  | EmptyString => None
  | String c rest =>
      let d1 := if isChar 40 c then (depth + 1)%Z else depth in
      if isChar 41 c then
        if Z.eqb (d1 - 1) 0 then Some i
        else matchingParenLoop rest (S i) (d1 - 1)%Z
      else matchingParenLoop rest (S i) d1
  end.

(** [None] for [-1]. *)
Definition findMatchingParen (line : string) (startIndex : nat) : option nat :=
  matchingParenLoop (drop startIndex line) startIndex 0%Z.

Definition extractArgumentNameAtCursor (line : string)
    (cursorPos argsStart argsEnd : nat) : option string :=
  let argsString := substring (argsStart + 1) argsEnd line in
  let relativePos := (Z.of_nat cursorPos - Z.of_nat argsStart - 1)%Z in
  match
    List.find (fun '(matchStart, (_, matchLength)) =>
                 Z.leb (Z.of_nat matchStart) relativePos
                 && Z.leb relativePos (Z.of_nat (matchStart + matchLength)))
              (matchAll argumentPattern argsString)
  with
  | Some (_, (name, _)) => Some name
  | None => None
  end.

(** The [for] loop of [extractIncludeCallContext] over the matches of the
    include pattern. *)
Fixpoint includeCallLoop (line : string) (cursorChar : nat)
    (matches : list (nat * (string * string))) : option IncludeContext.t :=
  match matches with
  | [] => None
  | (matchStart, (namespace, mixinName)) :: rest =>
      match indexOfFrom "(" line matchStart with
      | None => includeCallLoop line cursorChar rest
      | Some parenStart =>
          match findMatchingParen line parenStart with
          | None => includeCallLoop line cursorChar rest
          | Some parenEnd =>
              if Nat.leb cursorChar parenStart || Nat.leb parenEnd cursorChar
              then includeCallLoop line cursorChar rest
              else
                match ModuleResolver.truthy
                        (extractArgumentNameAtCursor line cursorChar parenStart parenEnd)
                with
                | Some argumentName =>
                    Some (IncludeContext.mk namespace mixinName argumentName)
                | None => includeCallLoop line cursorChar rest
                end
          end
      end
  end.

Definition extractIncludeCallContext (document : TextDocument.t)
    (position : Position.t) : outcome (option IncludeContext.t) :=
  match TextDocument.lineAt document (Position.line position) with
  | Returned line =>
      Returned (includeCallLoop line (Position.character position)
                  (matchAll includePattern line))
  | Thrown => Thrown
  | Exhausted => Exhausted
  end.

Definition resolveDefinition (h : Host) (context : ResolutionContext.t)
  : Eff.M (option Location.t) :=
  Eff.catch
    (currentContent <- Eff.await (readFile h (ResolutionContext.currentFilePath context)) ;;
     match UseResolver.findUseByNamespace currentContent
             (ResolutionContext.namespace context) with
     | None => Eff.ret None
     | Some useStatement =>
         resolved <- Eff.await (ModuleResolver.resolveModule h
                       (UseStatement.path useStatement)
                       (ResolutionContext.currentFilePath context)
                       (ResolutionContext.workspaceRoot context)) ;;
         match resolved with
         | None => Eff.ret None
         | Some moduleFilePath =>
             match ResolutionContext.cursorTarget context with
             | OnNamespace => Eff.ret (Some (Location.mk moduleFilePath 0 0))
             | OnMember =>
                 moduleContent <- Eff.await (readFile h moduleFilePath) ;;
                 let isVariable := startsWith "$" (ResolutionContext.member context) in
                 ForwardResolver.clearVisitedFiles ;;
                 forwardedResult <-
                   ForwardResolver.findForwardedMember h moduleContent
                     (ResolutionContext.member context) moduleFilePath
                     (ResolutionContext.workspaceRoot context) ;;
                 let '(targetFilePath, targetMemberName) :=
                   match forwardedResult with
                   | Some r => (ForwardedMember.filePath r, ForwardedMember.originalName r)
                   | None => (moduleFilePath, ResolutionContext.member context)
                   end in
                 targetContent <- Eff.await (readFile h targetFilePath) ;;
                 if isVariable then
                   match SassParser.findVariableDefinition targetContent
                           targetMemberName targetFilePath with
                   | None => Eff.ret None
                   | Some definition =>
                       Eff.ret (Some (Location.mk
                                        (VariableDefinition.filePath definition)
                                        (VariableDefinition.line definition)
                                        (VariableDefinition.column definition)))
                   end
                 else
                   match SassParser.findMixinDefinition targetContent
                           targetMemberName targetFilePath with
                   | None => Eff.ret None
                   | Some definition =>
                       Eff.ret (Some (Location.mk
                                        (MixinDefinition.filePath definition)
                                        (MixinDefinition.line definition)
                                        (MixinDefinition.column definition)))
                   end
             end
         end
     end)
    (Eff.ret None).

(** [a || b] on texts. *)
Definition orElse (a : option string) (b : string) : string :=
  match ModuleResolver.truthy a with
  | Some s => s
  | None => b
  end.

Definition resolveArgumentDefinition (h : Host) (includeContext : IncludeContext.t)
    (document : TextDocument.t) : Eff.M (option Location.t) :=
  match TextDocument.workspaceFolder document with
  | None => Eff.ret None
  | Some workspaceRoot =>
      let currentFilePath := TextDocument.fsPath document in
      currentContent <- Eff.await (readFile h currentFilePath) ;;
      match UseResolver.findUseByNamespace currentContent
              (IncludeContext.namespace includeContext) with
      | None => Eff.ret None
      | Some useStatement =>
          resolved <- Eff.await (ModuleResolver.resolveModule h
                        (UseStatement.path useStatement) currentFilePath workspaceRoot) ;;
          match resolved with
          | None => Eff.ret None
          | Some moduleFilePath =>
              moduleContent <- Eff.await (readFile h moduleFilePath) ;;
              ForwardResolver.clearVisitedFiles ;;
              forwardedResult <-
                ForwardResolver.findForwardedMember h moduleContent
                  (IncludeContext.mixinName includeContext) moduleFilePath workspaceRoot ;;
              let targetFilePath :=
                orElse (option_map ForwardedMember.filePath forwardedResult)
                       moduleFilePath in
              let targetMixinName :=
                orElse (option_map ForwardedMember.originalName forwardedResult)
                       (IncludeContext.mixinName includeContext) in
              targetContent <- Eff.await (readFile h targetFilePath) ;;
              match SassParser.findMixinDefinition targetContent
                      targetMixinName targetFilePath with
              | None => Eff.ret None
              | Some mixinDef =>
                  match MixinDefinition.parameters mixinDef with
                  | None | Some [] => Eff.ret None
                  | Some parameters =>
                      match
                        List.find (fun p => String.eqb (MixinParameter.name p)
                                              (IncludeContext.argumentName includeContext))
                                  parameters
                      with
                      | None => Eff.ret None
                      | Some targetParam =>
                          Eff.ret (Some (Location.mk targetFilePath
                                           (MixinParameter.line targetParam)
                                           (MixinParameter.column targetParam)))
                      end
                  end
              end
          end
      end
  end.

Definition provideDefinition (h : Host) (document : TextDocument.t)
    (position : Position.t) : Eff.M (option Location.t) :=
  Eff.catch
    (includeContext <- Eff.await (extractIncludeCallContext document position) ;;
     match includeContext with
     | Some includeContext => resolveArgumentDefinition h includeContext document
     | None =>
         context <- Eff.await (extractContext document position) ;;
         match context with
         | None => Eff.ret None
         | Some context => resolveDefinition h context
         end
     end)
    (Eff.ret None).

End DefinitionProvider.

(* ===================================================================== *)
(** ** [utils/cache.ts] and the cached reads of [utils/fileSystem.ts] *)
(* ===================================================================== *)

(** [CachedFile] of [types/index.ts]; the timestamp is the value of
    [Date.now()] at the time the entry was set. *)
Module CachedFile.
Record t : Type := mk { content : string; timestamp : nat }.
End CachedFile.

Module CacheManager.

(** The private [Map] of the manager, from file paths to entries. *)
Abbreviation t := (gmap string CachedFile.t).

(** [new Map()] *)
Definition create : t := ∅.

(** [get]: an entry is an object, so [if (cached)] holds of every entry,
    also of one whose content is the empty text. *)
Definition get (cache : t) (filePath : string) : option string :=
  match cache !! filePath with
  | Some cached => Some (CachedFile.content cached)
  | None => None
  end.

Definition set (now : nat) (cache : t) (filePath content : string) : t :=
  <[filePath := CachedFile.mk content now]> cache.

Definition clear (cache : t) : t := ∅.

Definition getSize (cache : t) : nat := size cache.

(** The listener of [onDidChangeTextDocument], on the path of the
    document that changed. *)
Definition onDidChangeTextDocument (cache : t) (uri : string) : t :=
  if bool_decide (is_Some (cache !! uri)) then delete uri cache else cache.

(** The listener of [onDidDeleteFiles], on the paths of the deleted files. *)
Definition onDidDeleteFiles (cache : t) (files : list string) : t :=
  foldl (fun c path => if bool_decide (is_Some (c !! path)) then delete path c else c)
        cache files.

End CacheManager.

(** The reads with the cache written out. [disk] holds what
    [fs.promises.readFile] resolves to, path by path; it rejects on a path
    without a text. *)
Module CachedFileSystem.

Definition readFile (disk : gmap string string) (now : nat) (filePath : string)
    (cache : CacheManager.t) : outcome string * CacheManager.t :=
  match CacheManager.get cache filePath with
  | Some cached => (Returned cached, cache)
  | None =>
      match disk !! filePath with
      | Some content => (Returned content, CacheManager.set now cache filePath content)
      | None => (Thrown, cache)
      end
  end.

(** [readPackageJson]: every failure, of the read or of [JSON.parse],
    yields [null]; the cache is as the read leaves it. *)
Definition readPackageJson (parse : string -> option SassPackageJson.t)
    (disk : gmap string string) (now : nat) (packagePath : string)
    (cache : CacheManager.t) : option SassPackageJson.t * CacheManager.t :=
  match readFile disk now packagePath cache with
  | (Returned content, cache') => (parse content, cache')
  | (_, cache') => (None, cache')
  end.

(** [readDirectory]: [dirs] holds what [fs.promises.readdir] resolves to;
    a failure yields the empty list. *)
Definition readDirectory (dirs : gmap string (list string)) (dirPath : string)
  : list string :=
  match dirs !! dirPath with
  | Some names => names
  | None => []
  end.

(** What a read resolves to, path by path: the cached text, or else the
    text on disk. *)
Definition view (disk : gmap string string) (cache : CacheManager.t)
  : gmap string string :=
  (CachedFile.content <$> cache) ∪ disk.

End CachedFileSystem.

(* ===================================================================== *)
(** ** [providers/completionProvider.ts] *)
(* ===================================================================== *)

(** [vscode.Range]. *)
Module Range.
Record t : Type := mk { start : Position.t; end_ : Position.t }.
End Range.

Inductive CompletionItemKind : Type := KindVariable | KindFunction | KindProperty.

(** The [insertText] of an item: a text, or a [vscode.SnippetString]. *)
Inductive InsertText : Type :=
| PlainText (value : string)
| SnippetString (value : string).

(** The fields of a [vscode.CompletionItem] that the provider sets; [None]
    for a field left [undefined]. *)
Module CompletionItem.
Record t : Type :=
  mk { label : string; kind : CompletionItemKind;
       detail : option string; documentation : option string;
       insertText : option InsertText; filterText : option string;
       range : option Range.t }.
End CompletionItem.

Inductive NamespaceMemberFilter : Type := FilterMixin | FilterVariable | FilterBoth.

Inductive CompletionContext : Type :=
| MixinArgumentContext (namespace : option string) (mixinName : string)
| NamespaceMemberContext (namespace : string) (memberFilter : NamespaceMemberFilter)
    (typedLength : nat)
| ScopeVariableContext.

Module CompletionProvider.
Import JS FileSystem.
#[local] Open Scope eff_scope.

(** [new vscode.Position(line, character)], which throws on a negative
    argument; [line] is the line of a position and never negative. *)
Definition newPosition (line : nat) (character : Z) : outcome Position.t :=
  if Z.ltb character 0 then Thrown
  else Returned (Position.mk line (Z.to_nat character)).

Definition isBefore (a b : Position.t) : bool :=
  Nat.ltb (Position.line a) (Position.line b)
  || Nat.eqb (Position.line a) (Position.line b)
     && Nat.ltb (Position.character a) (Position.character b).

(** [new vscode.Range(start, end)]: the earlier position becomes the
    start. *)
Definition newRange (a b : Position.t) : Range.t :=
  if isBefore a b then Range.mk a b else Range.mk b a.

(** The tail [\s*\([^)]*$] of the pattern of a mixin call: spaces, an
    opening parenthesis, and no closing one up to the end of the text. *)
Definition openCallToEnd (s : string) : bool :=
  match snd (span isSpace s) with
  | String c rest => isChar 40 c && negb (existsChar (isChar 41) rest)
  | EmptyString => false
  end.

(** [/@include\s+(?:([\w-]+)\.)?([\w-]+)\s*\([^)]*$/]; the captures are
    [match[1]], absent when the optional group takes no part in the match,
    and [match[2]]. The group is tried first; when the match fails behind
    it, the pattern is tried without it. *)
Definition mixinArgumentPattern : Matcher (option string * string) := fun s =>
  match lit "@include" s with
  | Some s1 =>
      match spaces1 s1 with
      | Some s2 =>
          let '(run, s3) := span isNameChar s2 in
          if isEmpty run then None
          else
            let withGroup :=
              match s3 with
              | String dot s4 =>
                  if isChar 46 dot then
                    let '(mixinName, s5) := span isNameChar s4 in
                    if isEmpty mixinName then None
                    else if openCallToEnd s5 then Some (Some run, mixinName)
                    else None
                  else None
              | EmptyString => None
              end in
            match withGroup with
            | Some captures => Some (captures, String.length s)
            | None =>
                if openCallToEnd s3 then Some ((None, run), String.length s)
                else None
            end
      | None => None
      end
  | None => None
  end.

(** [/([\w-]+)\.(D|W)$/], where [D] stands for [\$[\w-]*] and [W] for
    [[\w-]*]; the captures are the namespace and what is typed behind the
    dot. The alternative with the dollar sign is tried first. *)
Definition namespaceMemberPattern : Matcher (string * string) := fun s =>
  let '(namespace, s1) := span isNameChar s in
  if isEmpty namespace then None
  else
    match s1 with
    | String dot s2 =>
        if isChar 46 dot then
          let withDollar :=
            match s2 with
            | String d s3 =>
                if isChar 36 d then
                  let '(run, s4) := span isNameChar s3 in
                  if isEmpty s4 then Some (String d run) else None
                else None
            | EmptyString => None
            end in
          match withDollar with
          | Some typed => Some ((namespace, typed), String.length s)
          | None =>
              let '(run, s4) := span isNameChar s2 in
              if isEmpty s4 then Some ((namespace, run), String.length s) else None
          end
        else None
    | EmptyString => None
    end.

(** [\$[\w-]*$] *)
Definition dollarToEnd (s : string) : bool :=
  match s with
  | String d s1 => isChar 36 d && isEmpty (snd (span isNameChar s1))
  | EmptyString => false
  end.

(** [[\s:,(]] *)
Definition isScopeSeparator (c : ascii) : bool :=
  isSpace c || isChar 58 c || isChar 44 c || isChar 40 c.

(** [/(?:^|[\s:,(])\$[\w-]*$/.test(text)]: the dollar sign stands at the
    start of the text, or behind a separator anywhere in it. *)
Definition scopeVariableTest (text : string) : bool :=
  dollarToEnd text
  || match
       search (fun s =>
                 match s with
                 | String c s1 =>
                     if isScopeSeparator c && dollarToEnd s1
                     then Some (tt, String.length s) else None
                 | EmptyString => None
                 end) text
     with
     | Some _ => true
     | None => false
     end.

(** [/@include\s+/] *)
Definition includeKeywordPattern : Matcher unit := fun s =>
  match lit "@include" s with
  | Some s1 =>
      match spaces1 s1 with
      | Some s2 => Some (tt, consumed s s2)
      | None => None
      end
  | None => None
  end.

(** [/[\w-]+\s*:/] *)
Definition propertyColonPattern : Matcher unit := fun s =>
  let '(name, s1) := span isNameChar s in
  if isEmpty name then None
  else
    match snd (span isSpace s1) with
    | String c s2 => if isChar 58 c then Some (tt, consumed s s2) else None
    | EmptyString => None
    end.

(** [re.test(text)] for a pattern without flags. *)
Definition test {A : Type} (m : Matcher A) (text : string) : bool :=
  match search m text with
  | Some _ => true
  | None => false
  end.

Definition determineMemberFilter (textBeforeCursor typedAfterDot : string)
  : NamespaceMemberFilter :=
  if startsWith "$" typedAfterDot then FilterVariable
  else if test includeKeywordPattern textBeforeCursor then FilterMixin
  else if test propertyColonPattern textBeforeCursor then FilterVariable
  else FilterBoth.

(** The three patterns of [getCompletionContext] on the text before the
    cursor; [None] for [null]. *)
Definition completionContextOf (textBeforeCursor : string) : option CompletionContext :=
  match search mixinArgumentPattern textBeforeCursor with
  | Some (_, (namespace, mixinName)) =>
      Some (MixinArgumentContext (ModuleResolver.truthy namespace) mixinName)
  | None =>
      match search namespaceMemberPattern textBeforeCursor with
      | Some (_, (namespace, typedAfterDot)) =>
          Some (NamespaceMemberContext namespace
                  (determineMemberFilter textBeforeCursor typedAfterDot)
                  (String.length typedAfterDot))
      | None =>
          if scopeVariableTest textBeforeCursor then Some ScopeVariableContext
          else None
      end
  end.

Definition getCompletionContext (document : TextDocument.t) (position : Position.t)
  : outcome (option CompletionContext) :=
  match TextDocument.lineAt document (Position.line position) with
  | Returned lineText =>
      Returned (completionContextOf
                  (substring 0 (Position.character position) lineText))
  | Thrown => Thrown
  | Exhausted => Exhausted
  end.

(** [v.value] and [m.parameters] on an element of a list of definitions;
    a definition of the other kind has no such property. *)
Definition memberValue (m : Member) : option string :=
  match m with
  | VariableMember d => VariableDefinition.value d
  | MixinMember _ => None
  end.
Definition memberParameters (m : Member) : option (list MixinParameter.t) :=
  match m with
  | MixinMember d => MixinDefinition.parameters d
  | VariableMember _ => None
  end.

(** [v.value ? `${v.name}: ${v.value}` : v.name] *)
Definition variableDetail (v : Member) : string :=
  match ModuleResolver.truthy (memberValue v) with
  | Some value => ForwardResolver.memberName v +:+ ": " +:+ value
  | None => ForwardResolver.memberName v
  end.

(** A call of [findAllForwardedMembers] without its last argument: it
    runs on a new set and leaves the resolver's own set alone. *)
Definition withNewSet {A : Type} (m : Eff.M A) : Eff.M A := fun visited =>
  (fst (m ∅), visited).

(** The loop over [allVars] of [provideNamespaceMemberCompletion]. *)
Fixpoint namespaceVariableItems (replaceRange : Range.t) (allVars : list Member)
    (seen : gset string) : list CompletionItem.t :=
  match allVars with
  | [] => []
  | v :: rest =>
      let nameWithoutDollar :=
        ForwardResolver.nameWithoutDollar (ForwardResolver.memberName v) in
      if startsWith "_" nameWithoutDollar
      then namespaceVariableItems replaceRange rest seen
      else if bool_decide (ForwardResolver.memberName v ∈ seen)
      then namespaceVariableItems replaceRange rest seen
      else
        let displayName := "$" +:+ nameWithoutDollar in
        CompletionItem.mk displayName KindVariable (Some (variableDetail v)) None
          (Some (PlainText displayName)) None (Some replaceRange)
        :: namespaceVariableItems replaceRange rest
             ({[ForwardResolver.memberName v]} ∪ seen)
  end.

Definition parameterText (p : MixinParameter.t) : string :=
  let paramName := "$" +:+ MixinParameter.name p in
  match ModuleResolver.truthy (MixinParameter.defaultValue p) with
  | Some defaultValue => paramName +:+ ": " +:+ defaultValue
  | None => paramName
  end.

Definition paramsStr (m : Member) : string :=
  match memberParameters m with
  | Some parameters => Path.joinWith ", " (map parameterText parameters)
  | None => EmptyString
  end.

(** The loop over [allMixins] of [provideNamespaceMemberCompletion]. *)
Fixpoint namespaceMixinItems (replaceRange : Range.t) (allMixins : list Member)
    (seen : gset string) : list CompletionItem.t :=
  match allMixins with
  | [] => []
  | m :: rest =>
      if startsWith "_" (ForwardResolver.memberName m)
      then namespaceMixinItems replaceRange rest seen
      else if bool_decide (ForwardResolver.memberName m ∈ seen)
      then namespaceMixinItems replaceRange rest seen
      else
        CompletionItem.mk (ForwardResolver.memberName m) KindFunction
          (Some (if isEmpty (paramsStr m) then "()"
                 else "(" +:+ paramsStr m +:+ ")"))
          (Some ("`@mixin " +:+ ForwardResolver.memberName m
                 +:+ "(" +:+ paramsStr m +:+ ")`"))
          None None (Some replaceRange)
        :: namespaceMixinItems replaceRange rest
             ({[ForwardResolver.memberName m]} ∪ seen)
  end.

(** [content] is [document.getText()], the text the editor holds. *)
Definition provideNamespaceMemberCompletion (h : Host) (document : TextDocument.t)
    (content : string) (position : Position.t) (namespace : string)
    (memberFilter : NamespaceMemberFilter) (typedLength : nat)
  : Eff.M (list CompletionItem.t) :=
  replaceStart <- Eff.await
    (newPosition (Position.line position)
       (Z.of_nat (Position.character position) - Z.of_nat typedLength)) ;;
  let replaceRange := newRange replaceStart position in
  match UseResolver.findUseByNamespace content namespace with
  | None => Eff.ret []
  | Some useStatement =>
      if startsWith "sass:" (UseStatement.path useStatement) then Eff.ret []
      else
        match TextDocument.workspaceFolder document with
        | None => Eff.ret []
        | Some workspaceRoot =>
            let currentFilePath := TextDocument.fsPath document in
            resolved <- Eff.await (ModuleResolver.resolveModule h
                          (UseStatement.path useStatement)
                          currentFilePath workspaceRoot) ;;
            match ModuleResolver.truthy resolved with
            | None => Eff.ret []
            | Some moduleFilePath =>
                moduleContent <- Eff.await (readFile h moduleFilePath) ;;
                variableItems <-
                  match memberFilter with
                  | FilterVariable | FilterBoth =>
                      let directVars :=
                        SassParser.findAllVariableDefinitions
                          moduleContent moduleFilePath in
                      forwardedVars <-
                        withNewSet (ForwardResolver.findAllForwardedMembers h
                                      moduleContent moduleFilePath workspaceRoot
                                      KVariable) ;;
                      Eff.ret (namespaceVariableItems replaceRange
                                 (map VariableMember directVars ++ forwardedVars)%list
                                 ∅)
                  | FilterMixin => Eff.ret []
                  end ;;
                mixinItems <-
                  match memberFilter with
                  | FilterMixin | FilterBoth =>
                      let directMixins :=
                        SassParser.findAllMixinDefinitionsWithParams
                          moduleContent moduleFilePath in
                      forwardedMixins <-
                        withNewSet (ForwardResolver.findAllForwardedMembers h
                                      moduleContent moduleFilePath workspaceRoot
                                      KMixin) ;;
                      Eff.ret (namespaceMixinItems replaceRange
                                 (map MixinMember directMixins ++ forwardedMixins)%list
                                 ∅)
                  | FilterVariable => Eff.ret []
                  end ;;
                Eff.ret (variableItems ++ mixinItems)%list
            end
        end
  end.

(** [/\$([\w-]+)\s*:/g]; the capture is the name. *)
Definition enteredArgumentPattern : Matcher string := fun s =>
  match s with
  | String d s1 =>
      if isChar 36 d then
        let '(name, s2) := span isNameChar s1 in
        if isEmpty name then None
        else
          match snd (span isSpace s2) with
          | String c s3 => if isChar 58 c then Some (name, consumed s s3) else None
          | EmptyString => None
          end
      else None
  | EmptyString => None
  end.

(** The set [enteredArgs]. *)
Definition enteredArgs (textBeforeCursor : string) : gset string :=
  list_to_set (map snd (matchAll enteredArgumentPattern textBeforeCursor)).

Definition argumentItem (param : MixinParameter.t) : CompletionItem.t :=
  CompletionItem.mk ("$" +:+ MixinParameter.name param) KindProperty
    (Some (match ModuleResolver.truthy (MixinParameter.defaultValue param) with
           | Some defaultValue => "(optional) default: " +:+ defaultValue
           | None => "(required)"
           end))
    None
    (Some (SnippetString ("\$" +:+ MixinParameter.name param +:+ ": ${0}")))
    None None.

(** [target] holds [targetFilePath] and [targetMixinName]; it is [None]
    where the method returns the empty list before it has them. *)
Definition provideMixinArgumentCompletion (h : Host) (document : TextDocument.t)
    (content : string) (position : Position.t) (namespace : option string)
    (mixinName : string) : Eff.M (list CompletionItem.t) :=
  match TextDocument.workspaceFolder document with
  | None => Eff.ret []
  | Some workspaceRoot =>
      let currentFilePath := TextDocument.fsPath document in
      let currentContent := content in
      target <-
        match ModuleResolver.truthy namespace with
        | Some namespace =>
            match UseResolver.findUseByNamespace currentContent namespace with
            | None => Eff.ret None
            | Some useStatement =>
                if startsWith "sass:" (UseStatement.path useStatement)
                then Eff.ret None
                else
                  resolved <- Eff.await (ModuleResolver.resolveModule h
                                (UseStatement.path useStatement)
                                currentFilePath workspaceRoot) ;;
                  match ModuleResolver.truthy resolved with
                  | None => Eff.ret None
                  | Some moduleFilePath =>
                      moduleContent <- Eff.await (readFile h moduleFilePath) ;;
                      ForwardResolver.clearVisitedFiles ;;
                      forwardedResult <-
                        ForwardResolver.findForwardedMember h moduleContent
                          mixinName moduleFilePath workspaceRoot ;;
                      Eff.ret
                        (Some (DefinitionProvider.orElse
                                 (option_map ForwardedMember.filePath forwardedResult)
                                 moduleFilePath,
                               DefinitionProvider.orElse
                                 (option_map ForwardedMember.originalName
                                    forwardedResult)
                                 mixinName))
                  end
            end
        | None => Eff.ret (Some (currentFilePath, mixinName))
        end ;;
      match target with
      | None => Eff.ret []
      | Some (targetFilePath, targetMixinName) =>
          targetContent <- Eff.await (readFile h targetFilePath) ;;
          match SassParser.findMixinDefinition targetContent targetMixinName
                  targetFilePath with
          | None => Eff.ret []
          | Some mixinDef =>
              match MixinDefinition.parameters mixinDef with
              | None | Some [] => Eff.ret []
              | Some parameters =>
                  lineText <- Eff.await
                    (TextDocument.lineAt document (Position.line position)) ;;
                  let textBeforeCursor :=
                    substring 0 (Position.character position) lineText in
                  let entered := enteredArgs textBeforeCursor in
                  Eff.ret
                    (map argumentItem
                       (List.filter
                          (fun param =>
                             negb (bool_decide (MixinParameter.name param ∈ entered)))
                          parameters))
              end
          end
      end
  end.

(** The loop over [localVars] of [provideScopeVariableCompletion]; it
    yields the items it pushes and the set [seen] as it leaves it. *)
Fixpoint localVariableItems (localVars : list VariableDefinition.t)
    (seen : gset string) : list CompletionItem.t * gset string :=
  match localVars with
  | [] => ([], seen)
  | v :: rest =>
      let nameWithoutDollar :=
        ForwardResolver.nameWithoutDollar (VariableDefinition.name v) in
      if startsWith "_" nameWithoutDollar then localVariableItems rest seen
      else
        let key := VariableDefinition.name v in
        if bool_decide (key ∈ seen) then localVariableItems rest seen
        else
          let '(items, seen') := localVariableItems rest ({[key]} ∪ seen) in
          (CompletionItem.mk (VariableDefinition.name v) KindVariable
             (Some (variableDetail (VariableMember v))) None
             (Some (PlainText nameWithoutDollar)) None None
           :: items, seen')
  end.

(** The loop over [allVars] of one [@use] statement. *)
Fixpoint moduleVariableItems (position : Position.t) (namespace : string)
    (allVars : list Member) (seen : gset string)
  : outcome (list CompletionItem.t * gset string) :=
  match allVars with
  | [] => Returned ([], seen)
  | v :: rest =>
      let nameWithoutDollar :=
        ForwardResolver.nameWithoutDollar (ForwardResolver.memberName v) in
      if startsWith "_" nameWithoutDollar
      then moduleVariableItems position namespace rest seen
      else
        let label := namespace +:+ ".$" +:+ nameWithoutDollar in
        if bool_decide (label ∈ seen)
        then moduleVariableItems position namespace rest seen
        else
          match newPosition (Position.line position)
                  (Z.of_nat (Position.character position) - 1) with
          | Returned startPos =>
              match moduleVariableItems position namespace rest ({[label]} ∪ seen) with
              | Returned (items, seen') =>
                  Returned
                    (CompletionItem.mk label KindVariable (Some (variableDetail v))
                       None
                       (Some (PlainText (namespace +:+ ".$" +:+ nameWithoutDollar)))
                       (Some ("$" +:+ namespace +:+ ".$" +:+ nameWithoutDollar))
                       (Some (newRange startPos position))
                     :: items, seen')
              | Thrown => Thrown
              | Exhausted => Exhausted
              end
          | Thrown => Thrown
          | Exhausted => Exhausted
          end
  end.

(** The loop over [useStatements]. *)
Fixpoint useStatementItems (h : Host) (position : Position.t)
    (currentFilePath workspaceRoot : string) (useStatements : list UseStatement.t)
    (seen : gset string) : Eff.M (list CompletionItem.t) :=
  match useStatements with
  | [] => Eff.ret []
  | stmt :: rest =>
      if startsWith "sass:" (UseStatement.path stmt)
      then useStatementItems h position currentFilePath workspaceRoot rest seen
      else
        resolved <- Eff.await (ModuleResolver.resolveModule h
                      (UseStatement.path stmt) currentFilePath workspaceRoot) ;;
        match ModuleResolver.truthy resolved with
        | None => useStatementItems h position currentFilePath workspaceRoot rest seen
        | Some moduleFilePath =>
            moduleContent <- Eff.await (readFile h moduleFilePath) ;;
            let directVars :=
              SassParser.findAllVariableDefinitions moduleContent moduleFilePath in
            forwardedVars <-
              withNewSet (ForwardResolver.findAllForwardedMembers h
                            moduleContent moduleFilePath workspaceRoot KVariable) ;;
            pushed <- Eff.await
              (moduleVariableItems position (UseStatement.namespace stmt)
                 (map VariableMember directVars ++ forwardedVars)%list seen) ;;
            others <- useStatementItems h position currentFilePath workspaceRoot
                        rest (snd pushed) ;;
            Eff.ret (fst pushed ++ others)%list
        end
  end.

Definition provideScopeVariableCompletion (h : Host) (document : TextDocument.t)
    (content : string) (position : Position.t) : Eff.M (list CompletionItem.t) :=
  match TextDocument.workspaceFolder document with
  | None => Eff.ret []
  | Some workspaceRoot =>
      let currentFilePath := TextDocument.fsPath document in
      let localVars :=
        SassParser.findAllVariableDefinitions content currentFilePath in
      let '(localItems, seen) := localVariableItems localVars ∅ in
      moduleItems <- useStatementItems h position currentFilePath workspaceRoot
                       (UseResolver.parseUseStatements content) seen ;;
      Eff.ret (localItems ++ moduleItems)%list
  end.

Definition provideCompletionItems (h : Host) (document : TextDocument.t)
    (content : string) (position : Position.t) : Eff.M (list CompletionItem.t) :=
  Eff.catch
    (completionContext <- Eff.await (getCompletionContext document position) ;;
     match completionContext with
     | None =>
         Eff.await (TextDocument.lineAt document (Position.line position)) ;;
         Eff.ret []
     | Some (MixinArgumentContext namespace mixinName) =>
         provideMixinArgumentCompletion h document content position
           namespace mixinName
     | Some (NamespaceMemberContext namespace memberFilter typedLength) =>
         provideNamespaceMemberCompletion h document content position
           namespace memberFilter typedLength
     | Some ScopeVariableContext =>
         provideScopeVariableCompletion h document content position
     end)
    (Eff.ret []).

End CompletionProvider.

(* ===================================================================== *)
(** ** Concrete workspaces *)
(* ===================================================================== *)

(** Small workspaces under [/w] on which the lookups are run. *)
Module Scenario.
Import JS.

Definition text (lines : list string) : string :=
  Path.joinWith (String LF EmptyString) lines.

(** [s] between double quotes. *)
Definition quote (s : string) : string :=
  String dquote EmptyString +:+ s +:+ String dquote EmptyString.

(** A host with the given files, each readable and holding its lines, and
    the given directories; no manifest parses. *)
Definition host (files : list (string * list string)) (dirs : list string) : Host :=
  {| entries := list_to_set (map fst files ++ dirs)%list;
     texts := list_to_map (map (fun '(p, ls) => (p, text ls)) files);
     cwd := "/w";
     JSON_parse := fun _ => None |}.

Definition root : string := "/w".
Definition main : string := "/w/main.scss".
Definition fileA : string := "/w/a.scss".
Definition fileB : string := "/w/b.scss".
Definition fileC : string := "/w/c.scss".

Definition document (lines : list string) : TextDocument.t :=
  TextDocument.mk main lines (Some root).

Definition prefixA : list string := [ "@forward " +:+ quote "./b" +:+ " as p-*;" ].


(** *** Nested renaming: [a] forwards [b] as [p-*], [b] forwards [c] as
    [q-*], [c] defines [$primary]. *)
Definition nestedB : list string := [ "@forward " +:+ quote "./c" +:+ " as q-*;" ].
Definition nestedC : list string := [ "$primary: #336699;" ].
Definition nestedHost : Host :=
  host [ (fileA, prefixA); (fileB, nestedB); (fileC, nestedC) ] [ root ].



(** *** A cycle: [a] forwards [b] and [b] forwards [a]. *)
Definition cycleMain : list string :=
  [ "@use " +:+ quote "./a" +:+ " as m;"; ".x { @include m.ghost; }" ].
Definition cycleA : list string := [ "@forward " +:+ quote "./b" +:+ ";" ].
Definition cycleB : list string := [ "@forward " +:+ quote "./a" +:+ ";" ].
Definition cycleHost : Host :=
  host [ (main, cycleMain); (fileA, cycleA); (fileB, cycleB) ] [ root ].

(** *** Private members: [a] forwards [b] as [p-*]; [b] defines a private
    mixin, a private variable and a public one of each. *)
Definition privateMain : list string :=
  [ "@use " +:+ quote "./a" +:+ " as m;";
    ".x { @include m.p-_internal; color: m.$p-_hidden; }";
    "@use " +:+ quote "./b" +:+ " as n;";
    ".y { @include n._internal; color: n.$_hidden; }" ].
Definition privateB : list string :=
  [ "@mixin _internal { margin: 0; }";
    "@mixin shown { margin: 0; }";
    "$_hidden: 1px;";
    "$shown: 2px;" ].
Definition privateHost : Host :=
  host [ (main, privateMain); (fileA, prefixA); (fileB, privateB) ] [ root ].

(** *** A direct import: [main] uses [a], [a] defines the mixin [go]. *)
Definition useMain : list string :=
  [ "@use " +:+ quote "./a" +:+ " as m;"; ".x { @include m.go; }" ].
Definition useA : list string := [ "@mixin go() {}" ].
Definition useHost : Host := host [ (main, useMain); (fileA, useA) ] [ root ].

(** *** Parameters: a mixin with two default-valued parameters, and one
    whose parameter list runs over more than ten lines. *)
Definition paramsMain : list string :=
  [ "@use " +:+ quote "./a" +:+ " as m;";
    ".x { @include m.button($size: large, $variant: ghost); }";
    ".y { @include m.grid($c01: 1, $c11: 2); }" ].
Definition paramsA : list string :=
  [ "@mixin button($size: medium, $variant: solid) { }";
    "@mixin grid(";
    "  $c01: 1,";
    "  $c02: 2,";
    "  $c03: 3,";
    "  $c04: 4,";
    "  $c05: 5,";
    "  $c06: 6,";
    "  $c07: 7,";
    "  $c08: 8,";
    "  $c09: 9,";
    "  $c10: 10,";
    "  $c11: 11";
    ") { }" ].
Definition paramsHost : Host := host [ (main, paramsMain); (fileA, paramsA) ] [ root ].

(** *** A package without a usable manifest entry, with both a flat file
    and an index file. *)
Definition packageMain : list string := [ "@use " +:+ quote "pkg" +:+ ";" ].
Definition packageHost : Host :=
  host [ (main, packageMain);
         ("/w/node_modules/pkg.scss", [ "$flat: 1;" ]);
         ("/w/node_modules/pkg/index.scss", [ "$index: 1;" ]) ]
       [ root; "/w/node_modules"; "/w/node_modules/pkg" ].

(** *** A module path that resolves to a directory: reading it fails. *)
Definition brokenHost : Host :=
  host [ (main, useMain) ] [ root; fileA ].

End Scenario.

(* ===================================================================== *)
(** ** Notions used in the statements *)
(* ===================================================================== *)

Import JS FileSystem ForwardResolver DefinitionProvider.

(** A statement the loop of [findForwardedMember] leaves behind: its prefix
    does not match the member, or its module path does not resolve. *)
Definition skipped (h : Host) (memberName currentFilePath workspaceRoot : string)
    (statement : ForwardStatement.t) : Prop :=
  originalNameFor memberName statement = None
  \/ ModuleResolver.resolveModule h (ForwardStatement.path statement)
       currentFilePath workspaceRoot = Returned None.

(** The location of a definition found by the scanner. *)
Definition locationOfMixin (d : MixinDefinition.t) : Location.t :=
  Location.mk (MixinDefinition.filePath d) (MixinDefinition.line d)
    (MixinDefinition.column d).
Definition locationOfVariable (d : VariableDefinition.t) : Location.t :=
  Location.mk (VariableDefinition.filePath d) (VariableDefinition.line d)
    (VariableDefinition.column d).

(** Steps 7 and 8 of [resolveDefinition]: the scan of the target file. *)
Definition scanTarget (h : Host) (isVariable : bool)
    (targetFilePath targetMemberName : string) : outcome (option Location.t) :=
  match FileSystem.readFile h targetFilePath with
  | Returned targetContent =>
      Returned
        (if isVariable
         then option_map locationOfVariable
                (SassParser.findVariableDefinition targetContent targetMemberName
                   targetFilePath)
         else option_map locationOfMixin
                (SassParser.findMixinDefinition targetContent targetMemberName
                   targetFilePath))
  | Thrown => Thrown
  | Exhausted => Exhausted
  end.

(** The definitions of a list that are not private. *)
Definition public (members : list Member) : list Member :=
  List.filter (fun m => negb (isPrivate m)) members.

(** The definitions of a forwarded file that a statement exposes: the public
    ones, renamed by the statement's prefix. *)
Definition exposed (statement : ForwardStatement.t) (members : list Member)
  : list Member :=
  map (applyPrefix (ForwardStatement.prefix statement)) (public members).

(** The re-exports of [content], a file at [currentFilePath], that resolve
    lead into the set [F]. *)
Definition forwardsInto (h : Host) (workspaceRoot : string) (F : gset string)
    (content currentFilePath : string) : Prop :=
  forall st q,
    In st (parseForwardStatements content) ->
    ModuleResolver.resolveModule h (ForwardStatement.path st) currentFilePath
      workspaceRoot = Returned (Some q) ->
    q ∈ F.

(** A module graph: a set of files closed under the re-exports that resolve. *)
Definition moduleGraph (h : Host) (workspaceRoot : string) (F : gset string) : Prop :=
  forall p c,
    p ∈ F -> readFile h p = Returned c -> forwardsInto h workspaceRoot F c p.

Definition memberFile (m : Member) : string :=
  match m with
  | MixinMember d => MixinDefinition.filePath d
  | VariableMember d => VariableDefinition.filePath d
  end.


(** A definition as renamed by the prefixes of the statements it came
    through, the outermost first. *)
Definition renamedBy (prefixes : list (option string)) (d : Member) : Member :=
  fold_right applyPrefix d prefixes.


(** The token of a parameter, a dollar sign, optional spaces, the name and a
    word boundary, stands at [column] of [lineText]. *)
Definition tokenAt (paramName lineText : string) (column : nat) : Prop :=
  exists len, parameterPattern paramName (JS.drop column lineText) = Some (tt, len).

(** [column] is the first place of [lineText] where the token stands. *)
Definition firstTokenAt (paramName lineText : string) (column : nat) : Prop :=
  tokenAt paramName lineText column
  /\ forall k, k < column -> parameterPattern paramName (JS.drop k lineText) = None.

(** No token of the parameter stands in [lineText]. *)
Definition tokenFree (paramName lineText : string) : Prop :=
  forall k, parameterPattern paramName (JS.drop k lineText) = None.

(** What [calculateParameterPosition] finds for a parameter of a mixin
    defined at [startLine]: the first token in the ten lines from there, or
    column 0 of [startLine] when these hold no token. *)
Definition parameterPositionSpec (paramName : string) (lines : list string)
    (startLine line column : nat) : Prop :=
  (exists lineText,
      startLine <= line < startLine + 10
      /\ List.nth_error lines line = Some lineText
      /\ firstTokenAt paramName lineText column
      /\ forall j t, startLine <= j < line ->
                     List.nth_error lines j = Some t -> tokenFree paramName t)
  \/ (line = startLine /\ column = 0
      /\ forall j t, startLine <= j < startLine + 10 ->
                     List.nth_error lines j = Some t -> tokenFree paramName t).

(** The manifest of the package gives no usable entry: there is no manifest,
    or it cannot be read or parsed, or it names no entry (none that
    JavaScript takes as true), or the entry it names is a text and the file
    of that name does not exist. *)
Definition noUsableEntry (h : Host) (packagePath : string) : Prop :=
  let packageJsonPath := Path.join packagePath "package.json" in
  fileExists h packageJsonPath = false
  \/ readPackageJson h packageJsonPath = None
  \/ (exists packageJson,
         readPackageJson h packageJsonPath = Some packageJson
         /\ (ModuleResolver.isTruthy (ModuleResolver.sassEntry packageJson) = false
             \/ exists entry,
                 ModuleResolver.sassEntry packageJson = Some (JsonText entry)
                 /\ fileExists h (Path.join packagePath entry) = false)).

(** [p] is the first of the [candidates], in their order, that exists. *)
Definition firstThatExists (h : Host) (candidates : list string) (p : string) : Prop :=
  exists before after,
    candidates = (before ++ p :: after)%list
    /\ p ∈ entries h
    /\ Forall (fun c => c ∉ entries h) before.

(** A computation that does not run out of fuel. *)
Definition terminates {A : Type} (m : Eff.M A) : Prop :=
  forall visited, fst (m visited) <> Exhausted.

(** The host [h] in a process whose working directory is [dir]. *)
Definition withCwd (h : Host) (dir : string) : Host :=
  {| entries := entries h; texts := texts h; cwd := dir; JSON_parse := JSON_parse h |}.

(** The file [manifestPath] exists and is a manifest that parses and whose
    entry ([sass], or else [style]) is a value that JavaScript takes as
    true and that is no text. *)
Definition nonTextEntry (h : Host) (manifestPath : string) : Prop :=
  fileExists h manifestPath = true
  /\ exists packageJson,
       readPackageJson h manifestPath = Some packageJson
       /\ ModuleResolver.sassEntry packageJson = Some JsonTruthy.

(** Every character of [s] satisfies [p]. *)
Fixpoint allChars (p : ascii -> bool) (s : string) : bool :=
  match s with
  | EmptyString => true
  | String c s' => p c && allChars p s'
  end.

(** A run of [p] cannot go on into [rest]. *)
Definition stopsAt (p : ascii -> bool) (rest : string) : Prop :=
  match rest with
  | EmptyString => True
  | String c _ => p c = false
  end.

Definition notLF (c : ascii) : bool := negb (Ascii.eqb c LF).

(** A character of a quoted path on one line. *)
Definition pathChar (c : ascii) : bool := negb (isQuote c) && notLF c.

(** The text of a statement on one line: the keyword with its space, the
    path between two quote characters, a clause and a semicolon. *)
Definition statementText (keyword : string) (q1 q2 : ascii) (path : string)
    (clause : string) : string :=
  keyword +:+ String q1 (path +:+ String q2 (clause +:+ ";")).

Definition useText (q1 q2 : ascii) (path : string) (namespace : option string) : string :=
  statementText "@use " q1 q2 path
    (match namespace with Some ns => " as " +:+ ns | None => "" end).

(** [stem] is what stands between [as] and the star. *)
Definition forwardText (q1 q2 : ascii) (path : string) (stem : option string) : string :=
  statementText "@forward " q1 q2 path
    (match stem with Some s => " as " +:+ s +:+ "*" | None => "" end).

Definition notSlash (c : ascii) : bool := negb (Ascii.eqb c Path.slash).

Definition withoutParameters (d : MixinDefinition.t) : MixinDefinition.t :=
  MixinDefinition.mk (MixinDefinition.name d) (MixinDefinition.filePath d)
    (MixinDefinition.line d) (MixinDefinition.column d) None.

(** The position [(line1, column1)] is not behind [(line2, column2)]. *)
Definition notBehind (line1 column1 line2 column2 : nat) : Prop :=
  line1 < line2 \/ (line1 = line2 /\ column1 <= column2).

(** The text of line [n] of [content]. *)
Definition lineOf (content : string) (n : nat) : option string :=
  List.nth_error (split LF content) n.

(** Among the [lines], numbered from [i0], one from line [i] on and before
    line [n] holds the end of a block comment. *)
Definition closedBefore (lines : list string) (i0 n i : nat) : Prop :=
  exists k lineK,
    i <= k < n /\ List.nth_error lines (k - i0) = Some lineK
    /\ includes "*/" lineK = true.

Definition isBracket (c : ascii) : bool :=
  isChar 40 c || isChar 41 c || isChar 123 c || isChar 125 c.

(** The pieces of [s] between its commas, trimmed; a blank piece behind the
    last comma is left out. *)
Definition commaPieces (s : string) : list string :=
  let parts := split ","%char s in
  let final := trim (List.last parts EmptyString) in
  (map trim (removelast parts) ++ (if isEmpty final then [] else [final]))%list.

(** What [findForwardedMember] keeps of a member name on the way to a hit:
    the name [original] is [member] with a leading part taken off, behind
    the sigil when the member is a variable. *)
Definition strippedTo (member original : string) : Prop :=
  String.length original <= String.length member
  /\ (startsWith "$" member = true ->
      startsWith "$" original = true
      /\ exists stripped,
           member = "$" +:+ stripped +:+ ForwardResolver.nameWithoutDollar original)
  /\ (allChars isNameChar member = true ->
      allChars isNameChar original = true
      /\ exists stripped, member = stripped +:+ original).

(** A member of the kind asked for, under a name with the sigil of its
    kind: a variable with it, a mixin without. *)
Definition wellSigiled (type : MemberKind) (m : Member) : Prop :=
  match type, m with
  | KMixin, MixinMember d => startsWith "$" (MixinDefinition.name d) = false
  | KVariable, VariableMember d => startsWith "$" (VariableDefinition.name d) = true
  | _, _ => False
  end.

(** The number of characters of [s] that satisfy [p]. *)
Fixpoint countChars (p : ascii -> bool) (s : string) : Z :=
  match s with
  | EmptyString => 0%Z
  | String c s' => ((if p c then 1 else 0) + countChars p s')%Z
  end.

(** How many more parentheses [s] opens than it closes. *)
Definition parenBalance (s : string) : Z :=
  (countChars (isChar 40) s - countChars (isChar 41) s)%Z.

Definition notDot (c : ascii) : bool := negb (Ascii.eqb c "."%char).

(** The cursor of [line] is on an argument of an include call: a call of
    [namespace.mixinName] starts at [matchStart], its parentheses are at
    [parenStart] and [parenEnd], and between them a dollar token of the
    argument's name starts at [tokenStart], at or before the cursor, and
    ends at or behind it. *)
Definition argumentUnderCursor (line : string) (cursorChar : nat)
    (context : IncludeContext.t) : Prop :=
  exists matchStart parenStart parenEnd tokenStart tokenLength,
    (exists len, includePattern (JS.drop matchStart line)
                 = Some ((IncludeContext.namespace context,
                          IncludeContext.mixinName context), len))
    /\ indexOfFrom "(" line matchStart = Some parenStart
    /\ findMatchingParen line parenStart = Some parenEnd
    /\ parenStart < tokenStart <= cursorChar
    /\ cursorChar <= tokenStart + tokenLength
    /\ cursorChar < parenEnd
    /\ argumentPattern (substring tokenStart parenEnd line)
       = Some ((IncludeContext.argumentName context, tokenLength), tokenLength)
    /\ IncludeContext.argumentName context <> EmptyString
    /\ allChars isNameChar (IncludeContext.argumentName context) = true.

(** What [provideNamespaceMemberCompletion] offers under a filter: an item
    that replaces [replaceRange], a variable under its name with the dollar
    sign or a mixin under its name without one, never a private member. *)
Definition namespaceItemSpec (memberFilter : NamespaceMemberFilter)
    (replaceRange : Range.t) (item : CompletionItem.t) : Prop :=
  CompletionItem.range item = Some replaceRange
  /\ startsWith "_" (ForwardResolver.nameWithoutDollar (CompletionItem.label item)) = false
  /\ match CompletionItem.kind item with
     | KindVariable =>
         memberFilter <> FilterMixin
         /\ startsWith "$" (CompletionItem.label item) = true
         /\ CompletionItem.insertText item = Some (PlainText (CompletionItem.label item))
     | KindFunction =>
         memberFilter <> FilterVariable
         /\ startsWith "$" (CompletionItem.label item) = false
         /\ CompletionItem.insertText item = None
     | KindProperty => False
     end.

(** What [provideScopeVariableCompletion] offers at [position]: a variable
    of the document under its own name, inserted without the dollar sign
    that is typed already, or a variable of an imported module under
    namespace, dot and name, which replaces the one character before the
    cursor. No private name is offered. *)
Definition scopeItemSpec (position : Position.t) (item : CompletionItem.t) : Prop :=
  CompletionItem.kind item = KindVariable
  /\ ((CompletionItem.range item = None
       /\ CompletionItem.filterText item = None
       /\ CompletionItem.insertText item
          = Some (PlainText (ForwardResolver.nameWithoutDollar (CompletionItem.label item)))
       /\ startsWith "_" (ForwardResolver.nameWithoutDollar (CompletionItem.label item))
          = false)
      \/ (exists namespace name,
            CompletionItem.label item = namespace +:+ ".$" +:+ name
            /\ startsWith "_" name = false
            /\ CompletionItem.insertText item = Some (PlainText (CompletionItem.label item))
            /\ CompletionItem.filterText item = Some ("$" +:+ CompletionItem.label item)
            /\ 1 <= Position.character position
            /\ CompletionItem.range item
               = Some (Range.mk (Position.mk (Position.line position)
                                   (Position.character position - 1)) position))).

(** A document that imports the module [b] of the workspace with private
    members and defines two variables of its own, one of them private; its
    last line ends behind a dollar sign. *)
Definition scopeLines : list string :=
  [ "@use " +:+ Scenario.quote "./b" +:+ " as n;";
    "$local: 1px;";
    "$_mine: 2px;";
    ".x { width: $" ].

(** A document that imports [a] and defines a variable of its own; its last
    line ends behind a dollar sign. *)
Definition brokenLines : list string :=
  [ "@use " +:+ Scenario.quote "./a" +:+ " as m;";
    "$local: 1px;";
    ".x { width: $" ].


(* ===================================================================== *)
(** * Properties *)
(* ===================================================================== *)

#[local] Set Warnings "-clear-no-such-hyp".

(** ** The walk towards the root ends *)

Module PathFacts.
Import JS Path ModuleResolver.

Lemma length_take n s : String.length (JS.take n s) = Nat.min n (String.length s).
Proof.
  revert s; induction n as [|n IH]; intros [|c s]; simpl; auto.
Qed.

Lemma dirnameEnd_bound cs i ms e :
  dirnameEnd cs i ms = Some e -> e <= i /\ (ms = true -> e <= Nat.pred i).
Proof.
  revert i ms; induction cs as [|c rest IH]; intros i ms; simpl; [discriminate|].
  destruct (isSlash c).
  - destruct ms.
    + intros H. apply IH in H as [H1 _]. split; [lia | intros _; exact H1].
    + intros [= <-]. split; [lia | discriminate].
  - intros H. apply IH in H as [H1 _]. split; [lia | intros _; exact H1].
Qed.

Lemma dirnameEnd_Some_nonempty cs i ms e : dirnameEnd cs i ms = Some e -> cs <> [].
Proof. destruct cs; [discriminate | discriminate]. Qed.

Lemma walkMeasure_le p : walkMeasure p <= S (String.length p).
Proof. unfold walkMeasure. destruct (_ || _); lia. Qed.

Lemma dirname_measure p : dirname p <> p -> walkMeasure (dirname p) < walkMeasure p.
Proof.
  destruct p as [|c0 tl]; [intros _; vm_compute; lia|].
  unfold dirname.
  destruct (dirnameEnd (rev (chars tl)) (String.length tl) true) as [e|] eqn:E.
  - intros _.
    pose proof (dirnameEnd_bound _ _ _ _ E) as [_ Hb]. specialize (Hb eq_refl).
    assert (Hlen : 2 <= String.length tl).
    { destruct tl as [|c1 [|c2 tl']]; simpl in *; try lia.
      - discriminate.
      - destruct (isSlash c1); discriminate. }
    assert (Hp : walkMeasure (String c0 tl) = S (S (String.length tl))).
    { unfold walkMeasure. destruct tl as [|c1 tl']; simpl in Hlen; [lia|].
      destruct c0 as [[] [] [] [] [] [] [] []]; reflexivity. }
    rewrite Hp.
    destruct (isSlash c0 && Nat.eqb e 1).
    + vm_compute walkMeasure at 1. lia.
    + etransitivity; [apply Nat.lt_succ_r, walkMeasure_le|].
      rewrite length_take. simpl String.length. lia.
  - assert (Hr : forall r, (r = "/" \/ r = ".") -> r <> String c0 tl ->
                   (r = "/" -> isSlash c0 = true) -> (r = "." -> isSlash c0 = false) ->
                   walkMeasure r < walkMeasure (String c0 tl)).
    { intros r Hr Hne H1 H2.
      assert (walkMeasure r = 0) as -> by (destruct Hr; subst; reflexivity).
      unfold walkMeasure.
      destruct (String.eqb_spec (String c0 tl) "/") as [E1|N1].
      - exfalso. destruct Hr as [->| ->]; [congruence|].
        specialize (H2 eq_refl). injection E1 as -> _. discriminate.
      - destruct (String.eqb_spec (String c0 tl) ".") as [E2|N2].
        + exfalso. destruct Hr as [->| ->]; [|congruence].
          specialize (H1 eq_refl). injection E2 as -> _. discriminate.
        + simpl. lia. }
    destruct (isSlash c0) eqn:Es; intros Hne; apply Hr; auto; try discriminate.
Qed.
End PathFacts.

(** ** Module resolution is total and yields existing paths *)

Module ResolverFacts.
Import JS FileSystem ModuleResolver PathFacts.

Lemma manifestEntry_total h packagePath :
  manifestEntry h packagePath <> Exhausted.
Proof.
  unfold manifestEntry. destruct (fileExists h _); [|done].
  destruct (readPackageJson h _) as [pj|]; [|done]. cbv zeta.
  destruct (isTruthy (sassEntry pj)); [|done].
  by destruct (sassEntry pj) as [[e| |]|].
Qed.

Lemma resolveInNodeModules_total h modulePath nodeModulesPath :
  resolveInNodeModules h modulePath nodeModulesPath <> Exhausted.
Proof.
  unfold resolveInNodeModules.
  pose proof (manifestEntry_total h (Path.join nodeModulesPath modulePath)).
  by destruct (manifestEntry h _) as [[e|]| |].
Qed.

Lemma walkUp_total h modulePath workspaceRoot fuel currentDir :
  walkMeasure currentDir < fuel ->
  walkUp fuel h modulePath workspaceRoot currentDir <> Exhausted.
Proof.
  revert currentDir; induction fuel as [|fuel IH]; intros currentDir Hm; [lia|].
  simpl.
  assert (Hstep : (if String.eqb (Path.dirname currentDir) currentDir
                      || String.eqb currentDir workspaceRoot
                   then Returned None
                   else walkUp fuel h modulePath workspaceRoot (Path.dirname currentDir))
                  <> Exhausted).
  { destruct (String.eqb_spec (Path.dirname currentDir) currentDir) as [E|N];
      simpl; [done|].
    destruct (String.eqb currentDir workspaceRoot); [done|].
    apply IH. pose proof (dirname_measure _ N). lia. }
  destruct (fileExists h _); [|done].
  pose proof (resolveInNodeModules_total h modulePath
                (Path.join currentDir "node_modules")).
  by destruct (resolveInNodeModules h _ _) as [[r|]| |].
Qed.

(** Module resolution comes to an end: it returns or it throws. *)
Lemma resolveModule_total h modulePath currentFilePath workspaceRoot :
  resolveModule h modulePath currentFilePath workspaceRoot <> Exhausted.
Proof.
  unfold resolveModule.
  destruct (startsWith "sass:" modulePath); [done|].
  destruct (_ || _); [done|].
  apply walkUp_total. unfold walkFuel.
  pose proof (walkMeasure_le (Path.dirname currentFilePath)). lia.
Qed.

Lemma fileExists_entries h p : fileExists h p = true <-> p ∈ entries h.
Proof. unfold fileExists. apply bool_decide_eq_true. Qed.

Lemma firstExisting_exists h candidates p :
  firstExisting h candidates = Some p -> p ∈ entries h.
Proof.
  intros H. apply List.find_some in H as [_ H]. by apply fileExists_entries.
Qed.

(** [firstExisting] is the first candidate, in the order of the list,
    that exists. *)
Lemma firstExisting_spec h candidates :
  match firstExisting h candidates with
  | Some p =>
      exists before after,
        candidates = (before ++ p :: after)%list
        /\ p ∈ entries h /\ Forall (fun c => c ∉ entries h) before
  | None => Forall (fun c => c ∉ entries h) candidates
  end.
Proof.
  unfold firstExisting.
  induction candidates as [|c rest IH]; simpl; [constructor|].
  destruct (fileExists h c) eqn:E.
  - exists [], rest. split; [reflexivity|]. split; [by apply fileExists_entries|constructor].
  - assert (c ∉ entries h) by (rewrite <- fileExists_entries; congruence).
    destruct (List.find (fileExists h) rest) as [p|].
    + destruct IH as (before & after & -> & Hp & Hb).
      exists (c :: before), after. split; [reflexivity|]. split; [done|by constructor].
    + by constructor.
Qed.

Lemma manifestEntry_exists h packagePath p :
  manifestEntry h packagePath = Returned (Some p) -> p ∈ entries h.
Proof.
  unfold manifestEntry.
  destruct (fileExists h _); [|discriminate].
  destruct (readPackageJson h _) as [pj|]; [|discriminate]. cbv zeta.
  destruct (isTruthy (sassEntry pj)); [|discriminate].
  destruct (sassEntry pj) as [[e| |]|]; try discriminate. cbn [joinEntry].
  destruct (fileExists h (Path.join packagePath e)) eqn:E; [|discriminate].
  intros [= <-]. by apply fileExists_entries.
Qed.

Lemma resolveInNodeModules_exists h modulePath nodeModulesPath p :
  resolveInNodeModules h modulePath nodeModulesPath = Returned (Some p) ->
  p ∈ entries h.
Proof.
  unfold resolveInNodeModules.
  destruct (manifestEntry h _) as [[e|]| |] eqn:E; try discriminate.
  - intros [= <-]. by eapply manifestEntry_exists.
  - intros H.
  assert (H' : firstExisting h (packageCandidates (Path.join nodeModulesPath modulePath))
               = Some p) by congruence.
  exact (firstExisting_exists _ _ _ H').
Qed.

Lemma walkUp_exists h modulePath workspaceRoot fuel currentDir p :
  walkUp fuel h modulePath workspaceRoot currentDir = Returned (Some p) ->
  p ∈ entries h.
Proof.
  revert currentDir; induction fuel as [|fuel IH]; intros currentDir; [discriminate|].
  simpl.
  destruct (fileExists h _).
  - destruct (resolveInNodeModules h _ _) as [[r|]| |] eqn:E; try discriminate.
    + intros [= <-]. by eapply resolveInNodeModules_exists.
    + destruct (_ || _); [discriminate | apply IH].
  - destruct (_ || _); [discriminate | apply IH].
Qed.

Lemma resolveModule_exists h modulePath currentFilePath workspaceRoot p :
  resolveModule h modulePath currentFilePath workspaceRoot = Returned (Some p) ->
  p ∈ entries h.
Proof.
  unfold resolveModule.
  destruct (startsWith "sass:" modulePath); [discriminate|].
  destruct (_ || _).
  - intros [= H]. by eapply firstExisting_exists.
  - apply walkUp_exists.
Qed.

End ResolverFacts.

(** ** The traversals: visited set, fuel and the equations of the source *)

Module EffFacts.
Import Eff.

Lemma bind_ret {A B} (a : A) (k : A -> M B) s : bind (ret a) k s = k a s.
Proof. reflexivity. Qed.

Lemma bind_await {A B} (o : outcome A) (k : A -> M B) s :
  bind (await o) k s =
  match o with
  | Returned a => k a s
  | Thrown => (Thrown, s)
  | Exhausted => (Exhausted, s)
  end.
Proof. by destruct o. Qed.

Lemma bind_has {B} p (k : bool -> M B) s :
  bind (has p) k s = k (bool_decide (p ∈ s)) s.
Proof. reflexivity. Qed.

Lemma bind_add {B} p (k : unit -> M B) s : bind (add p) k s = k tt ({[p]} ∪ s).
Proof. reflexivity. Qed.

Lemma bind_clear {B} (k : unit -> M B) s : bind clear k s = k tt ∅.
Proof. reflexivity. Qed.

Lemma finally_delete {A} (m : M A) p s :
  finally m (delete p) s = (fst (m s), snd (m s) ∖ {[p]}).
Proof. unfold finally, delete. by destruct (m s). Qed.

Lemma bind_outcome {A B} (m : M A) (k : A -> M B) s :
  bind m k s =
  match fst (m s) with
  | Returned a => k a (snd (m s))
  | Thrown => (Thrown, snd (m s))
  | Exhausted => (Exhausted, snd (m s))
  end.
Proof. unfold bind. by destruct (m s) as [[]]. Qed.

Lemma catch_outcome {A} (m handler : M A) s :
  catch m handler s =
  match fst (m s) with
  | Thrown => handler (snd (m s))
  | _ => m s
  end.
Proof. unfold catch. by destruct (m s) as [[]]. Qed.
End EffFacts.

Module TraversalFacts.
Import JS FileSystem ForwardResolver ResolverFacts EffFacts.

Lemma size_visited_le h (visited : gset string) :
  size (entries h ∖ visited) <= size (entries h).
Proof. apply subseteq_size. set_solver. Qed.

Lemma size_visited_lt h (visited : gset string) p :
  p ∈ entries h -> p ∉ visited ->
  size (entries h ∖ ({[p]} ∪ visited)) < size (entries h ∖ visited).
Proof. intros Hp Hv. apply subset_size. set_solver. Qed.

Lemma add_delete (visited : gset string) p :
  p ∉ visited -> ({[p]} ∪ visited) ∖ {[p]} = visited.
Proof. set_solver. Qed.

(** *** [findForwardedMember] *)

Section Loop.
Context (h : Host) (currentFilePath workspaceRoot : string).

Lemma forwardLoop_frame self s statements member :
  (forall c o p, snd (self c o p s) = s) ->
  snd (forwardLoop h self member currentFilePath workspaceRoot statements s) = s.
Proof.
  intros Hself. induction statements as [|st rest IH]; simpl; [reflexivity|].
  destruct (originalNameFor member st) as [o|]; [|exact IH].
  rewrite bind_await.
  destruct (ModuleResolver.resolveModule h _ _ _) as [[p|]| |]; try reflexivity; [|exact IH].
  rewrite bind_await.
  destruct (readFile h p) as [c| |]; try reflexivity.
  rewrite bind_outcome. specialize (Hself c o p).
  destruct (self c o p s) as [[[r|]| |] s']; simpl in *; congruence.
Qed.

Lemma forwardLoop_ext self1 self2 s statements member :
  (forall c o p, p ∈ entries h -> self1 c o p s = self2 c o p s) ->
  forwardLoop h self1 member currentFilePath workspaceRoot statements s
  = forwardLoop h self2 member currentFilePath workspaceRoot statements s.
Proof.
  intros Hself. induction statements as [|st rest IH]; simpl; [reflexivity|].
  destruct (originalNameFor member st) as [o|]; [|exact IH].
  rewrite !bind_await.
  destruct (ModuleResolver.resolveModule h _ _ _) as [[p|]| |] eqn:E;
    try reflexivity; [|exact IH].
  apply resolveModule_exists in E.
  rewrite !bind_await.
  destruct (readFile h p) as [c| |]; try reflexivity.
  rewrite !bind_outcome. by rewrite Hself.
Qed.

Lemma forwardLoop_total self s statements member :
  (forall c o p, p ∈ entries h -> fst (self c o p s) <> Exhausted) ->
  fst (forwardLoop h self member currentFilePath workspaceRoot statements s)
  <> Exhausted.
Proof.
  intros Hself. induction statements as [|st rest IH]; simpl; [discriminate|].
  destruct (originalNameFor member st) as [o|]; [|exact IH].
  rewrite bind_await.
  pose proof (resolveModule_total h (ForwardStatement.path st) currentFilePath
                workspaceRoot) as T.
  destruct (ModuleResolver.resolveModule h (ForwardStatement.path st) currentFilePath workspaceRoot)
    as [[p|]| |] eqn:E; [|exact IH|discriminate|done].
  apply resolveModule_exists in E.
  rewrite bind_await.
  destruct (readFile h p) as [c| |] eqn:R; try discriminate.
  { rewrite bind_outcome. specialize (Hself c o p E).
    destruct (self c o p s) as [[[r|]| |] s']; simpl in *; congruence. }
  unfold readFile in R. destruct (texts h !! p); discriminate.
Qed.
End Loop.

Lemma findForwardedMemberFuel_visited h fuel content member cur root visited :
  cur ∈ visited ->
  findForwardedMemberFuel fuel h content member cur root visited
  = (Returned None, visited).
Proof.
  intros Hv. destruct fuel; simpl; rewrite bind_has, bool_decide_eq_true_2; auto.
Qed.

Lemma findForwardedMemberFuel_enter h fuel content member cur root visited :
  cur ∉ visited ->
  findForwardedMemberFuel (S fuel) h content member cur root visited
  = let r := forwardLoop h (fun c m p => findForwardedMemberFuel fuel h c m p root)
               member cur root (parseForwardStatements content) ({[cur]} ∪ visited) in
    (fst r, snd r ∖ {[cur]}).
Proof.
  intros Hv. simpl.
  rewrite bind_has, bool_decide_eq_false_2, bind_add, finally_delete; auto.
Qed.

Lemma findForwardedMemberFuel_frame h fuel content member cur root visited :
  snd (findForwardedMemberFuel fuel h content member cur root visited) = visited.
Proof.
  revert content member cur visited.
  induction fuel as [|fuel IH]; intros content member cur visited;
    (destruct (decide (cur ∈ visited)) as [Hv|Hv];
     [by rewrite findForwardedMemberFuel_visited|]).
  - simpl. by rewrite bind_has, bool_decide_eq_false_2.
  - rewrite findForwardedMemberFuel_enter by done. cbv zeta. unfold snd at 1.
    rewrite forwardLoop_frame by (intros; apply IH).
    by apply add_delete.
Qed.

Lemma findForwardedMemberFuel_enough h root n :
  forall content member p visited,
    p ∈ entries h -> size (entries h ∖ visited) <= n ->
    (forall k, n <= k ->
       findForwardedMemberFuel k h content member p root visited
       = findForwardedMemberFuel n h content member p root visited)
    /\ fst (findForwardedMemberFuel n h content member p root visited) <> Exhausted.
Proof.
  induction n as [|n IH]; intros content member p visited Hp Hsize;
    (destruct (decide (p ∈ visited)) as [Hv|Hv];
     [split; [intros k _|]; rewrite !findForwardedMemberFuel_visited by done;
      [reflexivity | discriminate]|]).
  - exfalso. assert (size (entries h ∖ visited) = 0) as Hz by lia.
    apply size_empty_inv in Hz. set_solver.
  - assert (Hs : size (entries h ∖ ({[p]} ∪ visited)) <= n).
    { pose proof (size_visited_lt h visited p Hp Hv). lia. }
    split.
    + intros [|k] Hk; [lia|].
      rewrite !findForwardedMemberFuel_enter by done. cbv zeta.
      erewrite forwardLoop_ext; [reflexivity|].
      intros c o q Hq. apply (proj1 (IH c o q _ Hq Hs)). lia.
    + rewrite findForwardedMemberFuel_enter by done. cbv zeta. unfold fst at 1.
      apply forwardLoop_total. intros c o q Hq. apply (IH c o q _ Hq Hs).
Qed.

(** The method satisfies the equation of its source text: the recursive
    call is the method itself. *)
Lemma findForwardedMember_unfold h content member cur root visited :
  findForwardedMember h content member cur root visited =
  if bool_decide (cur ∈ visited) then (Returned None, visited)
  else
    let r := forwardLoop h (fun c m p => findForwardedMember h c m p root)
               member cur root (parseForwardStatements content) ({[cur]} ∪ visited) in
    (fst r, visited).
Proof.
  unfold findForwardedMember, traversalFuel.
  case_bool_decide as Hv; [by apply findForwardedMemberFuel_visited|].
  rewrite findForwardedMemberFuel_enter by done. cbv zeta.
  rewrite forwardLoop_frame by (intros; apply findForwardedMemberFuel_frame).
  rewrite add_delete by done. f_equal. f_equal.
  apply forwardLoop_ext. intros c o q Hq. symmetry.
  apply (proj1 (findForwardedMemberFuel_enough h root (size (entries h)) c o q _ Hq
                  (size_visited_le _ _))).
  lia.
Qed.

Lemma findForwardedMember_frame h content member cur root visited :
  snd (findForwardedMember h content member cur root visited) = visited.
Proof. apply findForwardedMemberFuel_frame. Qed.

Lemma findForwardedMember_total h content member cur root visited :
  fst (findForwardedMember h content member cur root visited) <> Exhausted.
Proof.
  rewrite findForwardedMember_unfold. case_bool_decide; [discriminate|]. cbv zeta.
  unfold fst at 1. apply forwardLoop_total. intros c o q Hq.
  apply (findForwardedMemberFuel_enough h root (S (size (entries h))) c o q _ Hq).
  pose proof (size_visited_le h ({[cur]} ∪ visited)). lia.
Qed.

(** *** [findAllForwardedMembers] *)

Section LoopAll.
Context (h : Host) (currentFilePath workspaceRoot : string) (type : MemberKind).

Lemma forwardAllLoop_frame self s statements :
  (forall c p, snd (self c p s) = s) ->
  snd (forwardAllLoop h self currentFilePath workspaceRoot type statements s) = s.
Proof.
  intros Hself. induction statements as [|st rest IH]; simpl; [reflexivity|].
  rewrite bind_await.
  destruct (ModuleResolver.resolveModule h _ _ _) as [[p|]| |]; try reflexivity; [|exact IH].
  rewrite bind_await.
  destruct (readFile h p) as [c| |]; try reflexivity.
  rewrite bind_outcome. rewrite Hself.
  destruct (fst (self c p s)) as [nested| |]; try reflexivity.
  rewrite bind_outcome. rewrite IH.
  by destruct (fst (forwardAllLoop _ _ _ _ _ _ _)).
Qed.

Lemma forwardAllLoop_ext self1 self2 s statements :
  (forall c p, p ∈ entries h -> self1 c p s = self2 c p s) ->
  (forall c p, snd (self2 c p s) = s) ->
  forwardAllLoop h self1 currentFilePath workspaceRoot type statements s
  = forwardAllLoop h self2 currentFilePath workspaceRoot type statements s.
Proof.
  intros Hself Hframe. induction statements as [|st rest IH]; simpl; [reflexivity|].
  rewrite !bind_await.
  destruct (ModuleResolver.resolveModule h _ _ _) as [[p|]| |] eqn:E;
    try reflexivity; [|exact IH].
  apply resolveModule_exists in E.
  rewrite !bind_await.
  destruct (readFile h p) as [c| |]; try reflexivity.
  rewrite !(bind_outcome (self1 _ _)), !(bind_outcome (self2 _ _)).
  rewrite Hself, Hframe by done.
  destruct (fst (self2 c p s)) as [nested| |]; try reflexivity.
  rewrite !bind_outcome. by rewrite IH.
Qed.

Lemma forwardAllLoop_total self s statements :
  (forall c p, p ∈ entries h -> fst (self c p s) <> Exhausted) ->
  (forall c p, snd (self c p s) = s) ->
  fst (forwardAllLoop h self currentFilePath workspaceRoot type statements s)
  <> Exhausted.
Proof.
  intros Hself Hframe. induction statements as [|st rest IH]; simpl; [discriminate|].
  rewrite bind_await.
  pose proof (resolveModule_total h (ForwardStatement.path st) currentFilePath
                workspaceRoot) as T.
  destruct (ModuleResolver.resolveModule h (ForwardStatement.path st) currentFilePath workspaceRoot)
    as [[p|]| |] eqn:E; [|exact IH|discriminate|done].
  apply resolveModule_exists in E.
  rewrite bind_await.
  destruct (readFile h p) as [c| |] eqn:R; try discriminate.
  { rewrite bind_outcome, Hframe. specialize (Hself c p E).
    destruct (fst (self c p s)) as [nested| |]; try done.
    rewrite bind_outcome.
    by destruct (fst (forwardAllLoop _ _ _ _ _ _ _)). }
  unfold readFile in R. destruct (texts h !! p); discriminate.
Qed.
End LoopAll.

Lemma findAllForwardedMembersFuel_visited h fuel content cur root type visited :
  cur ∈ visited ->
  findAllForwardedMembersFuel fuel h content cur root type visited
  = (Returned [], visited).
Proof.
  intros Hv. destruct fuel; simpl; rewrite bind_has, bool_decide_eq_true_2; auto.
Qed.

Lemma findAllForwardedMembersFuel_enter h fuel content cur root type visited :
  cur ∉ visited ->
  findAllForwardedMembersFuel (S fuel) h content cur root type visited
  = let r := forwardAllLoop h
               (fun c p => findAllForwardedMembersFuel fuel h c p root type)
               cur root type (parseForwardStatements content) ({[cur]} ∪ visited) in
    (fst r, snd r ∖ {[cur]}).
Proof.
  intros Hv. simpl.
  rewrite bind_has, bool_decide_eq_false_2, bind_add, finally_delete; auto.
Qed.

Lemma findAllForwardedMembersFuel_frame h fuel content cur root type visited :
  snd (findAllForwardedMembersFuel fuel h content cur root type visited) = visited.
Proof.
  revert content cur visited.
  induction fuel as [|fuel IH]; intros content cur visited;
    (destruct (decide (cur ∈ visited)) as [Hv|Hv];
     [by rewrite findAllForwardedMembersFuel_visited|]).
  - simpl. by rewrite bind_has, bool_decide_eq_false_2.
  - rewrite findAllForwardedMembersFuel_enter by done. cbv zeta. unfold snd at 1.
    rewrite forwardAllLoop_frame by (intros; apply IH).
    by apply add_delete.
Qed.

Lemma findAllForwardedMembersFuel_enough h root type n :
  forall content p visited,
    p ∈ entries h -> size (entries h ∖ visited) <= n ->
    (forall k, n <= k ->
       findAllForwardedMembersFuel k h content p root type visited
       = findAllForwardedMembersFuel n h content p root type visited)
    /\ fst (findAllForwardedMembersFuel n h content p root type visited) <> Exhausted.
Proof.
  induction n as [|n IH]; intros content p visited Hp Hsize;
    (destruct (decide (p ∈ visited)) as [Hv|Hv];
     [split; [intros k _|]; rewrite !findAllForwardedMembersFuel_visited by done;
      [reflexivity | discriminate]|]).
  - exfalso. assert (size (entries h ∖ visited) = 0) as Hz by lia.
    apply size_empty_inv in Hz. set_solver.
  - assert (Hs : size (entries h ∖ ({[p]} ∪ visited)) <= n).
    { pose proof (size_visited_lt h visited p Hp Hv). lia. }
    split.
    + intros [|k] Hk; [lia|].
      rewrite !findAllForwardedMembersFuel_enter by done. cbv zeta.
      erewrite forwardAllLoop_ext; [reflexivity| |].
      * intros c q Hq. apply (proj1 (IH c q _ Hq Hs)). lia.
      * intros. apply findAllForwardedMembersFuel_frame.
    + rewrite findAllForwardedMembersFuel_enter by done. cbv zeta. unfold fst at 1.
      apply forwardAllLoop_total.
      * intros c q Hq. apply (IH c q _ Hq Hs).
      * intros. apply findAllForwardedMembersFuel_frame.
Qed.

Lemma findAllForwardedMembers_frame h content cur root type visited :
  snd (findAllForwardedMembers h content cur root type visited) = visited.
Proof. apply findAllForwardedMembersFuel_frame. Qed.

Lemma findAllForwardedMembers_unfold h content cur root type visited :
  findAllForwardedMembers h content cur root type visited =
  if bool_decide (cur ∈ visited) then (Returned [], visited)
  else
    let r := forwardAllLoop h (fun c p => findAllForwardedMembers h c p root type)
               cur root type (parseForwardStatements content) ({[cur]} ∪ visited) in
    (fst r, visited).
Proof.
  unfold findAllForwardedMembers, traversalFuel.
  case_bool_decide as Hv; [by apply findAllForwardedMembersFuel_visited|].
  rewrite findAllForwardedMembersFuel_enter by done. cbv zeta.
  rewrite forwardAllLoop_frame by (intros; apply findAllForwardedMembersFuel_frame).
  rewrite add_delete by done. f_equal. f_equal.
  apply forwardAllLoop_ext.
  - intros c q Hq. symmetry.
    apply (proj1 (findAllForwardedMembersFuel_enough h root type (size (entries h)) c q _ Hq
                    (size_visited_le _ _))).
    lia.
  - intros. apply findAllForwardedMembersFuel_frame.
Qed.

Lemma findAllForwardedMembers_total h content cur root type visited :
  fst (findAllForwardedMembers h content cur root type visited) <> Exhausted.
Proof.
  rewrite findAllForwardedMembers_unfold. case_bool_decide; [discriminate|]. cbv zeta.
  unfold fst at 1. apply forwardAllLoop_total.
  - intros c q Hq.
    apply (findAllForwardedMembersFuel_enough h root type (S (size (entries h))) c q _ Hq).
    pose proof (size_visited_le h ({[cur]} ∪ visited)). lia.
  - intros. apply findAllForwardedMembers_frame.
Qed.

End TraversalFacts.

Import ResolverFacts EffFacts TraversalFacts.

(** ** The embedding on sample inputs *)

Module Examples.
Import Scenario.

(** The [@forward] pattern: a prefix needs the wildcard behind its hyphen. *)
Example forward_with_prefix :
parseForwardStatements ("@forward " +:+ quote "./src/list" +:+ " as list-*;")
= [ForwardStatement.mk "./src/list" (Some "list-") 0].
Proof. vm_compute. reflexivity. Qed.

Example forward_without_wildcard :
parseForwardStatements ("@forward './b' as p;  @forward './c';")
= [ForwardStatement.mk "./b" None 0; ForwardStatement.mk "./c" None 0].
Proof. vm_compute. reflexivity. Qed.

Example forward_in_line_comment :
parseForwardStatements ("  // @forward './b' as p-*;") = [].
Proof. vm_compute. reflexivity. Qed.

(** The [@use] pattern and the default namespace. *)
Example use_statements :
UseResolver.parseUseStatements
  ("@use './a' as m; @use 'sass:math'; @use '@pkg/_x.scss';")
= [UseStatement.mk "./a" "m" 0; UseStatement.mk "sass:math" "math" 0;
   UseStatement.mk "@pkg/_x.scss" "x" 0].
Proof. vm_compute. reflexivity. Qed.

(** The mixin pattern yields the column of the keyword. *)
Example mixin_matches :
SassParser.mixinMatches (text ["// @mixin no {"; "  @mixin a-b ($x) {} @mixin c{"])
= [(1, 2, "a-b"); (1, 21, "c")].
Proof. vm_compute. reflexivity. Qed.

(** A parameter list over several lines with a nested call. *)
Example parameters_over_lines :
SassParser.parseMixinParameters
  (text ["@mixin m("; "  $a: f(1, 2),"; "  $b"; ") {}"]) "m" 0
= [MixinParameter.mk "a" (Some "f(1, 2)") 1 2; MixinParameter.mk "b" None 2 2].
Proof. vm_compute. reflexivity. Qed.

(** Variables: values up to the semicolon, block comments skipped. *)
Example variable_definitions :
SassParser.findAllVariableDefinitions
  (text ["$a : 1; $b-c: x y"; "/* $d: 1;"; "$e: 2; */"; "$f: 3"]) "/w/v.scss"
= [VariableDefinition.mk "$a" "/w/v.scss" 0 0 (Some "1");
   VariableDefinition.mk "$b-c" "/w/v.scss" 0 8 (Some "x y");
   VariableDefinition.mk "$f" "/w/v.scss" 3 0 (Some "3")].
Proof. vm_compute. reflexivity. Qed.

(** Node's [path] functions. *)
Example dirname_samples :
map Path.dirname ["/w/src/a.scss"; "/a"; "/"; "a"; ""; "a/b/"; "a//b"]
= ["/w/src"; "/"; "/"; "."; "."; "a"; "a/"].
Proof. vm_compute. reflexivity. Qed.

Example basename_samples :
map Path.basename ["/w/src/a.scss"; "/a"; "/"; "a/b/"; "@pkg/x"]
= ["a.scss"; "a"; ""; "b"; "x"].
Proof. vm_compute. reflexivity. Qed.

Example join_samples :
[Path.join "/w/node_modules" "@pkg/x"; Path.join "/w/node_modules/x" "../y/lib.scss";
 Path.join "" "_x.scss"; Path.join "a/" "./b/"]
= ["/w/node_modules/@pkg/x"; "/w/node_modules/y/lib.scss"; "_x.scss"; "a/b/"].
Proof. vm_compute. reflexivity. Qed.

Example resolve_samples :
[Path.resolve "/cwd" "/w/src" "./a"; Path.resolve "/cwd" "/w/src" "../lib/b";
 Path.resolve "/cwd" "src" "./a"]
= ["/w/src/a"; "/w/lib/b"; "/cwd/src/a"].
Proof. vm_compute. reflexivity. Qed.

(** Relative resolution: the flat file before the index file. *)
Example relative_flat_before_index :
ModuleResolver.resolveModule
  (host [("/w/x.scss", []); ("/w/x/_index.scss", [])] ["/w"; "/w/x"])
  "./x" "/w/main.scss" "/w"
= Returned (Some "/w/x.scss").
Proof. vm_compute. reflexivity. Qed.

(** A manifest entry bypasses the candidates of the package. *)
Example manifest_entry_wins :
ModuleResolver.resolveModule
  {| entries := list_to_set ["/w"; "/w/node_modules"; "/w/node_modules/@pkg/x";
                             "/w/node_modules/@pkg/x/package.json";
                             "/w/node_modules/@pkg/x/index.scss";
                             "/w/node_modules/@pkg/x/lib/main.scss"];
     texts := {[ "/w/node_modules/@pkg/x/package.json" := "manifest" ]};
     cwd := "/w";
     JSON_parse := fun _ => Some (SassPackageJson.mk None (Some (JsonText "lib/main.scss"))) |}
  "@pkg/x" "/w/src/main.scss" "/w"
= Returned (Some "/w/node_modules/@pkg/x/lib/main.scss").
Proof. vm_compute. reflexivity. Qed.

(** The cursor on the member, behind it, and on other places of the line. *)
Example cursor_positions :
map (fun c => match extractContextOn ".x { @include m.go; }" c main (Some root) with
              | Some context => Some (ResolutionContext.token context)
              | None => None
              end) [13; 14; 15; 16; 17; 18; 19]
= [None; None; None; Some "m.go"; Some "m.go"; Some "m.go"; None].
Proof. vm_compute. reflexivity. Qed.

End Examples.

(** ** The scanners: what a match is *)

Lemma drop_drop a b s : JS.drop a (JS.drop b s) = JS.drop (b + a) s.
Proof.
  revert s; induction b as [|b IH]; intros s; simpl; [done|].
  destruct s as [|c s]; [by destruct a|]. apply IH.
Qed.

Lemma scanFrom_matches {A} (m : Matcher A) s idx skip i a :
  In (i, a) (scanFrom m s idx skip) ->
  idx <= i /\ exists len, m (JS.drop (i - idx) s) = Some (a, len).
Proof.
  revert idx skip. induction s as [|c s IH]; intros idx skip.
  - destruct skip; simpl; [|done].
    destruct (m EmptyString) as [[a' len]|] eqn:E; [|done].
    intros [[= <- <-]|[]]. split; [lia|]. rewrite Nat.sub_diag. eauto.
  - assert (Hrec : forall k, In (i, a) (scanFrom m s (S idx) k) ->
                     idx <= i /\ exists len, m (JS.drop (i - idx) (String c s)) = Some (a, len)).
    { intros k H. apply IH in H as [Hle [len Hm]]. split; [lia|].
      exists len. by replace (i - idx) with (S (i - S idx)) by lia. }
    destruct skip; simpl; [|apply Hrec].
    destruct (m (String c s)) as [[a' len]|] eqn:E; [|apply Hrec].
    intros [[= <- <-]|H]; [|by eapply Hrec].
    split; [lia|]. rewrite Nat.sub_diag. eauto.
Qed.

Lemma matchAll_matches {A} (m : Matcher A) s i a :
  In (i, a) (matchAll m s) -> exists len, m (JS.drop i s) = Some (a, len).
Proof.
  intros H. apply scanFrom_matches in H as [_ [len H]].
  rewrite Nat.sub_0_r in H. eauto.
Qed.

Lemma enumerateFrom_nth {A} (l : list A) i n x :
  In (n, x) (enumerateFrom i l) -> i <= n /\ List.nth_error l (n - i) = Some x.
Proof.
  revert i; induction l as [|y l IH]; intros i; simpl; [done|].
  intros [[= <- <-]|H].
  - by rewrite Nat.sub_diag.
  - apply IH in H as [Hle H]. split; [lia|].
    by replace (n - i) with (S (n - S i)) by lia.
Qed.

Lemma mixinMatches_spec content l c name :
  In (l, c, name) (SassParser.mixinMatches content) ->
  exists lineText len,
    List.nth_error (split LF content) l = Some lineText
    /\ MIXIN_PATTERN (JS.drop c lineText) = Some (name, len).
Proof.
  unfold SassParser.mixinMatches. rewrite in_flat_map.
  intros ([n line] & Hin & H).
  destruct (startsWith "//" (trim line)); [done|].
  apply in_map_iff in H as ([i nm] & [= <- <- <-] & Hm).
  apply enumerateFrom_nth in Hin as [_ Hin]. rewrite Nat.sub_0_r in Hin.
  apply matchAll_matches in Hm as [len Hm]. eauto.
Qed.

Lemma variableLines_spec filePath lines inBlockComment d :
  In d (SassParser.variableLines filePath lines inBlockComment) ->
  exists lineText len,
    In (VariableDefinition.line d, lineText) lines
    /\ VARIABLE_PATTERN (JS.drop (VariableDefinition.column d) lineText)
       = Some ((VariableDefinition.name d, len), len)
    /\ VariableDefinition.value d
       = SassParser.variableValue lineText (VariableDefinition.column d) len
    /\ VariableDefinition.filePath d = filePath.
Proof.
  revert inBlockComment. induction lines as [|[n line] rest IH]; intros b; simpl; [done|].
  assert (Hrest : forall b', In d (SassParser.variableLines filePath rest b') ->
            exists lineText len,
              ((n, line) = (VariableDefinition.line d, lineText)
               \/ In (VariableDefinition.line d, lineText) rest)
              /\ VARIABLE_PATTERN (JS.drop (VariableDefinition.column d) lineText)
                 = Some ((VariableDefinition.name d, len), len)
              /\ VariableDefinition.value d
                 = SassParser.variableValue lineText (VariableDefinition.column d) len
              /\ VariableDefinition.filePath d = filePath).
  { intros b' H. apply IH in H as (lt & len & Hin & H). exists lt, len. tauto. }
  destruct (includes "*/" line); [apply Hrest|].
  destruct (if includes "/*" line then true else b); [apply Hrest|].
  destruct (startsWith "//" (trim line)); [apply Hrest|].
  rewrite in_app_iff, in_map_iff. intros [([col [name len]] & <- & Hm)|H]; [|by eapply Hrest].
  simpl. apply matchAll_matches in Hm as [len' Hm].
  assert (len' = len) as ->.
  { unfold VARIABLE_PATTERN in Hm.
    destruct (JS.drop col line) as [|c0 s1]; [done|].
    destruct (isChar 36 c0); [|done].
    destruct (span isNameChar s1) as [nm s2]. destruct (isEmpty nm); [done|].
    destruct (span isSpace s2) as [ws s3]. destruct s3 as [|c1 s4]; [done|].
    destruct (isChar 58 c1); [|done]. by injection Hm as _ <- <-. }
  exists line, len. auto.
Qed.

(** ** Re-export chains: the single-member search *)

Lemma forwardLoop_skip h self member cur root before rest s :
  Forall (skipped h member cur root) before ->
  forwardLoop h self member cur root (before ++ rest) s
  = forwardLoop h self member cur root rest s.
Proof.
  induction 1 as [|st before Hst _ IH]; [reflexivity|]. simpl.
  destruct Hst as [E|E].
  - by rewrite E.
  - destruct (originalNameFor member st); [|exact IH].
    by rewrite bind_await, E.
Qed.


Lemma forwardLoop_hit h self member cur root st rest s o p :
  originalNameFor member st = Some o ->
  ModuleResolver.resolveModule h (ForwardStatement.path st) cur root = Returned (Some p) ->
  forwardLoop h self member cur root (st :: rest) s
  = match readFile h p with
    | Returned c =>
        match fst (self c o p s) with
        | Returned (Some nested) => (Returned (Some nested), snd (self c o p s))
        | Returned None => (Returned (Some (ForwardedMember.mk o p)), snd (self c o p s))
        | Thrown => (Thrown, snd (self c o p s))
        | Exhausted => (Exhausted, snd (self c o p s))
        end
    | Thrown => (Thrown, s)
    | Exhausted => (Exhausted, s)
    end.
Proof.
  intros Ho Hp. simpl. rewrite Ho, bind_await, Hp, bind_await.
  destruct (readFile h p) as [c| |]; try reflexivity.
  rewrite bind_outcome. by destruct (fst (self c o p s)) as [[nested|]| |].
Qed.

(** The equation of a search that meets its first hop. *)
Lemma findForwardedMember_first_hop h content member cur root visited
    before after st o p :
  cur ∉ visited ->
  parseForwardStatements content = (before ++ st :: after)%list ->
  Forall (skipped h member cur root) before ->
  originalNameFor member st = Some o ->
  ModuleResolver.resolveModule h (ForwardStatement.path st) cur root
  = Returned (Some p) ->
  findForwardedMember h content member cur root visited =
  (match readFile h p with
   | Returned c =>
       match fst (findForwardedMember h c o p root ({[cur]} ∪ visited)) with
       | Returned (Some nested) => Returned (Some nested)
       | Returned None => Returned (Some (ForwardedMember.mk o p))
       | Thrown => Thrown
       | Exhausted => Exhausted
       end
   | Thrown => Thrown
   | Exhausted => Exhausted
   end, visited).
Proof.
  intros Hv Hparse Hbefore Ho Hp.
  rewrite findForwardedMember_unfold, bool_decide_eq_false_2 by done.
  cbv zeta. rewrite Hparse, forwardLoop_skip by done.
  rewrite (forwardLoop_hit _ _ _ _ _ _ _ _ _ _ Ho Hp).
  destruct (readFile h p) as [c| |]; try reflexivity.
  by destruct (fst (findForwardedMember h c o p root _)) as [[nested|]| |].
Qed.



(** ** The facade on a member *)

Lemma resolveDefinition_on_member h context cD u moduleFilePath moduleContent visited :
  readFile h (ResolutionContext.currentFilePath context) = Returned cD ->
  UseResolver.findUseByNamespace cD (ResolutionContext.namespace context) = Some u ->
  ModuleResolver.resolveModule h (UseStatement.path u)
    (ResolutionContext.currentFilePath context)
    (ResolutionContext.workspaceRoot context) = Returned (Some moduleFilePath) ->
  ResolutionContext.cursorTarget context = OnMember ->
  readFile h moduleFilePath = Returned moduleContent ->
  resolveDefinition h context visited =
  (match fst (findForwardedMember h moduleContent (ResolutionContext.member context)
                moduleFilePath (ResolutionContext.workspaceRoot context) ∅) with
   | Returned forwardedResult =>
       match
         scanTarget h (startsWith "$" (ResolutionContext.member context))
           (match forwardedResult with
            | Some r => ForwardedMember.filePath r
            | None => moduleFilePath
            end)
           (match forwardedResult with
            | Some r => ForwardedMember.originalName r
            | None => ResolutionContext.member context
            end)
       with
       | Returned location => Returned location
       | Thrown => Returned None
       | Exhausted => Exhausted
       end
   | Thrown => Returned None
   | Exhausted => Exhausted
   end, ∅).
Proof.
  intros HcD Hu Hm Ht Hc. unfold resolveDefinition.
  rewrite catch_outcome, bind_await, HcD, Hu, bind_await, Hm, Ht, bind_await, Hc.
  unfold clearVisitedFiles. rewrite bind_clear, bind_outcome, findForwardedMember_frame.
  destruct (fst (findForwardedMember _ _ _ _ _ _)) as [fr| |]; try reflexivity.
  unfold scanTarget.
  destruct fr as [r|]; rewrite bind_await.
  - destruct (readFile h (ForwardedMember.filePath r)) as [tc| |]; try reflexivity.
    destruct (startsWith "$" _);
      [destruct (SassParser.findVariableDefinition _ _ _)
      |destruct (SassParser.findMixinDefinition _ _ _)]; reflexivity.
  - rewrite Hc.
    destruct (startsWith "$" _);
      [destruct (SassParser.findVariableDefinition _ _ _)
      |destruct (SassParser.findMixinDefinition _ _ _)]; reflexivity.
Qed.

Lemma prefix_append p s : String.prefix p (p +:+ s) = true.
Proof.
  induction p as [|c p IH]; simpl; [by destruct s|].
  by destruct (ascii_dec c c).
Qed.

Lemma drop_append p s : JS.drop (String.length p) (p +:+ s) = s.
Proof. induction p as [|c p IH]; simpl; auto. Qed.

Lemma truthy_nonempty s : s <> EmptyString -> ModuleResolver.truthy (Some s) = Some s.
Proof. by destruct s. Qed.



Lemma findForwardedMember_no_statements h content member cur root visited :
  parseForwardStatements content = [] ->
  findForwardedMember h content member cur root visited = (Returned None, visited).
Proof.
  intros Hp. rewrite findForwardedMember_unfold. case_bool_decide; [done|].
  by rewrite Hp.
Qed.

Lemma findMixinDefinition_filePath content name filePath d :
  SassParser.findMixinDefinition content name filePath = Some d ->
  MixinDefinition.filePath d = filePath /\ MixinDefinition.name d = name.
Proof.
  unfold SassParser.findMixinDefinition.
  destruct (List.find _ _) as [[[l c] n]|]; [|discriminate]. by intros [= <-].
Qed.




(** ** Re-export chains: the enumeration *)

Lemma forwardAllLoop_step h self cur root type st rest s p c :
  ModuleResolver.resolveModule h (ForwardStatement.path st) cur root = Returned (Some p) ->
  readFile h p = Returned c ->
  (forall c' p', snd (self c' p' s) = s) ->
  forwardAllLoop h self cur root type (st :: rest) s =
  (match fst (self c p s) with
   | Returned nestedMembers =>
       match fst (forwardAllLoop h self cur root type rest s) with
       | Returned others =>
           Returned (exposed st (directMembers type c p)
                     ++ map (applyPrefix (ForwardStatement.prefix st)) nestedMembers
                     ++ others)%list
       | Thrown => Thrown
       | Exhausted => Exhausted
       end
   | Thrown => Thrown
   | Exhausted => Exhausted
   end, s).
Proof.
  intros Hp Hc Hframe. simpl.
  rewrite bind_await, Hp, bind_await, Hc, bind_outcome, Hframe.
  destruct (fst (self c p s)) as [nested| |]; try reflexivity.
  rewrite bind_outcome, forwardAllLoop_frame by done.
  by destruct (fst (forwardAllLoop _ _ _ _ _ _ _)).
Qed.

Lemma findAllForwardedMembers_no_statements h content cur root type visited :
  parseForwardStatements content = [] ->
  findAllForwardedMembers h content cur root type visited = (Returned [], visited).
Proof.
  intros Hp. rewrite findAllForwardedMembers_unfold. case_bool_decide; [done|].
  by rewrite Hp.
Qed.

(** The enumeration of a file with one resolvable, readable re-export. *)
Lemma findAllForwardedMembers_single h content cur root type visited st p c :
  cur ∉ visited ->
  parseForwardStatements content = [st] ->
  ModuleResolver.resolveModule h (ForwardStatement.path st) cur root = Returned (Some p) ->
  readFile h p = Returned c ->
  findAllForwardedMembers h content cur root type visited =
  (match fst (findAllForwardedMembers h c p root type ({[cur]} ∪ visited)) with
   | Returned nestedMembers =>
       Returned (exposed st (directMembers type c p)
                 ++ map (applyPrefix (ForwardStatement.prefix st)) nestedMembers)%list
   | Thrown => Thrown
   | Exhausted => Exhausted
   end, visited).
Proof.
  intros Hv Hparse Hp Hc.
  rewrite findAllForwardedMembers_unfold, bool_decide_eq_false_2 by done. cbv zeta.
  rewrite Hparse, (forwardAllLoop_step _ _ _ _ _ _ _ _ _ _ Hp Hc)
    by (intros; apply findAllForwardedMembers_frame).
  simpl. destruct (fst (findAllForwardedMembers h c p root type _)); try reflexivity.
  by rewrite app_nil_r.
Qed.





(** ** Cycles and the depth of the traversals *)

Section Graph.
Context (h : Host) (root : string) (F : gset string).
Hypothesis closed : moduleGraph h root F.

Lemma forwardLoop_ext_graph self1 self2 s statements member cur :
  (forall st q c o,
      In st statements ->
      ModuleResolver.resolveModule h (ForwardStatement.path st) cur root
      = Returned (Some q) ->
      readFile h q = Returned c ->
      self1 c o q s = self2 c o q s) ->
  forwardLoop h self1 member cur root statements s
  = forwardLoop h self2 member cur root statements s.
Proof.
  induction statements as [|st rest IH]; intros Hself; simpl; [reflexivity|].
  assert (IH' := IH (fun st' q c o Hin => Hself st' q c o (or_intror Hin))).
  destruct (originalNameFor member st) as [o|]; [|exact IH'].
  rewrite !bind_await.
  destruct (ModuleResolver.resolveModule h _ _ _) as [[p|]| |] eqn:E;
    try reflexivity; [|exact IH'].
  rewrite !bind_await.
  destruct (readFile h p) as [c| |] eqn:R; try reflexivity.
  rewrite !bind_outcome. by rewrite (Hself st p c o (or_introl eq_refl) E R).
Qed.

Lemma findForwardedMemberFuel_enough_graph n :
  forall content member p visited,
    p ∈ F -> forwardsInto h root F content p -> size (F ∖ visited) <= n ->
    forall k, n <= k ->
      findForwardedMemberFuel k h content member p root visited
      = findForwardedMemberFuel n h content member p root visited.
Proof.
  induction n as [|n IH]; intros content member p visited Hp Hinto Hsize k Hk;
    (destruct (decide (p ∈ visited)) as [Hv|Hv];
     [by rewrite !findForwardedMemberFuel_visited|]).
  - exfalso. assert (size (F ∖ visited) = 0) as Hz by lia.
    apply size_empty_inv in Hz. set_solver.
  - assert (Hs : size (F ∖ ({[p]} ∪ visited)) <= n).
    { assert (size (F ∖ ({[p]} ∪ visited)) < size (F ∖ visited)); [|lia].
      apply subset_size. set_solver. }
    destruct k as [|k]; [lia|].
    rewrite !findForwardedMemberFuel_enter by done. cbv zeta.
    erewrite forwardLoop_ext_graph; [reflexivity|].
    intros st q c o Hin Hq Hc.
    apply IH; [by eapply Hinto | by eapply closed; [eapply Hinto|] | done | lia].
Qed.

Lemma forwardAllLoop_ext_graph self1 self2 s statements cur type :
  (forall st q c,
      In st statements ->
      ModuleResolver.resolveModule h (ForwardStatement.path st) cur root
      = Returned (Some q) ->
      readFile h q = Returned c ->
      self1 c q s = self2 c q s) ->
  (forall c p, snd (self2 c p s) = s) ->
  forwardAllLoop h self1 cur root type statements s
  = forwardAllLoop h self2 cur root type statements s.
Proof.
  induction statements as [|st rest IH]; intros Hself Hframe; simpl; [reflexivity|].
  assert (IH' := IH (fun st' q c Hin => Hself st' q c (or_intror Hin)) Hframe).
  rewrite !bind_await.
  destruct (ModuleResolver.resolveModule h _ _ _) as [[p|]| |] eqn:E;
    try reflexivity; [|exact IH'].
  rewrite !bind_await.
  destruct (readFile h p) as [c| |] eqn:R; try reflexivity.
  rewrite !(bind_outcome (self1 _ _)), !(bind_outcome (self2 _ _)).
  rewrite (Hself st p c (or_introl eq_refl) E R), Hframe.
  destruct (fst (self2 c p s)) as [nested| |]; try reflexivity.
  rewrite !bind_outcome. by rewrite IH'.
Qed.

Lemma findAllForwardedMembersFuel_enough_graph type n :
  forall content p visited,
    p ∈ F -> forwardsInto h root F content p -> size (F ∖ visited) <= n ->
    forall k, n <= k ->
      findAllForwardedMembersFuel k h content p root type visited
      = findAllForwardedMembersFuel n h content p root type visited.
Proof.
  induction n as [|n IH]; intros content p visited Hp Hinto Hsize k Hk;
    (destruct (decide (p ∈ visited)) as [Hv|Hv];
     [by rewrite !findAllForwardedMembersFuel_visited|]).
  - exfalso. assert (size (F ∖ visited) = 0) as Hz by lia.
    apply size_empty_inv in Hz. set_solver.
  - assert (Hs : size (F ∖ ({[p]} ∪ visited)) <= n).
    { assert (size (F ∖ ({[p]} ∪ visited)) < size (F ∖ visited)); [|lia].
      apply subset_size. set_solver. }
    destruct k as [|k]; [lia|].
    rewrite !findAllForwardedMembersFuel_enter by done. cbv zeta.
    erewrite forwardAllLoop_ext_graph; [reflexivity| |].
    + intros st q c Hin Hq Hc.
      apply IH; [by eapply Hinto | by eapply closed; [eapply Hinto|] | done | lia].
    + intros. apply findAllForwardedMembersFuel_frame.
Qed.
End Graph.

(** More fuel than [traversalFuel] changes nothing. *)
Lemma findForwardedMemberFuel_stable h content member cur root visited k :
  traversalFuel h <= k ->
  findForwardedMemberFuel k h content member cur root visited
  = findForwardedMember h content member cur root visited.
Proof.
  unfold findForwardedMember, traversalFuel. intros Hk.
  destruct (decide (cur ∈ visited)) as [Hv|Hv];
    [by rewrite !findForwardedMemberFuel_visited|].
  destruct k as [|k]; [lia|].
  rewrite !findForwardedMemberFuel_enter by done. cbv zeta.
  erewrite forwardLoop_ext; [reflexivity|].
  intros c o q Hq.
  apply (proj1 (findForwardedMemberFuel_enough h root (size (entries h)) c o q _ Hq
                  (size_visited_le _ _))).
  lia.
Qed.

Lemma findAllForwardedMembersFuel_stable h content cur root type visited k :
  traversalFuel h <= k ->
  findAllForwardedMembersFuel k h content cur root type visited
  = findAllForwardedMembers h content cur root type visited.
Proof.
  unfold findAllForwardedMembers, traversalFuel. intros Hk.
  destruct (decide (cur ∈ visited)) as [Hv|Hv];
    [by rewrite !findAllForwardedMembersFuel_visited|].
  destruct k as [|k]; [lia|].
  rewrite !findAllForwardedMembersFuel_enter by done. cbv zeta.
  erewrite forwardAllLoop_ext; [reflexivity| |].
  - intros c q Hq.
    apply (proj1 (findAllForwardedMembersFuel_enough h root type (size (entries h)) c q _ Hq
                    (size_visited_le _ _))).
    lia.
  - intros. apply findAllForwardedMembersFuel_frame.
Qed.

(** The depth of either traversal is at most the number of files of the
    module graph that are not on the stack: that much fuel gives the result
    of the method. *)
Lemma traversal_depth_bound h root F content cur visited k :
  moduleGraph h root F -> cur ∈ F -> forwardsInto h root F content cur ->
  size (F ∖ visited) <= k ->
  (forall member,
      findForwardedMemberFuel k h content member cur root visited
      = findForwardedMember h content member cur root visited)
  /\ (forall type,
         findAllForwardedMembersFuel k h content cur root type visited
         = findAllForwardedMembers h content cur root type visited).
Proof.
  intros Hclosed Hcur Hinto Hk.
  set (big := Nat.max k (traversalFuel h)).
  split.
  - intros member.
    rewrite <- (findForwardedMemberFuel_stable h content member cur root visited big)
      by (unfold big; lia).
    rewrite (findForwardedMemberFuel_enough_graph h root F Hclosed k content member cur
               visited Hcur Hinto Hk big) by (unfold big; lia).
    reflexivity.
  - intros type.
    rewrite <- (findAllForwardedMembersFuel_stable h content cur root type visited big)
      by (unfold big; lia).
    rewrite (findAllForwardedMembersFuel_enough_graph h root F Hclosed type k content cur
               visited Hcur Hinto Hk big) by (unfold big; lia).
    reflexivity.
Qed.

Lemma applyPrefix_None m : applyPrefix None m = m.
Proof. reflexivity. Qed.

Lemma map_applyPrefix_None members : map (applyPrefix None) members = members.
Proof. induction members as [|m l IH]; simpl; [done|]. by rewrite IH. Qed.

Lemma exposed_passthrough st members :
  ForwardStatement.prefix st = None -> exposed st members = public members.
Proof. intros Hp. unfold exposed. by rewrite Hp, map_applyPrefix_None. Qed.

Lemma originalNameFor_passthrough st member :
  ForwardStatement.prefix st = None -> originalNameFor member st = Some member.
Proof. intros Hp. unfold originalNameFor. by rewrite Hp. Qed.

(** C4 (counterexample). In the cycle of [a] and [b], neither file defines
    [ghost], and [findForwardedMember] does not return an absent result for
    it: it returns the hop into [a]. *)
Lemma cycle_member_search_is_not_absent :
  SassParser.findMixinDefinition (Scenario.text Scenario.cycleA) "ghost" Scenario.fileA = None
  /\ SassParser.findMixinDefinition (Scenario.text Scenario.cycleB) "ghost" Scenario.fileB = None
  /\ fst (findForwardedMember Scenario.cycleHost (Scenario.text Scenario.cycleA)
            "ghost" Scenario.fileA Scenario.root ∅)
     = Returned (Some (ForwardedMember.mk "ghost" Scenario.fileA))
  /\ fst (findForwardedMember Scenario.cycleHost (Scenario.text Scenario.cycleA)
            "ghost" Scenario.fileA Scenario.root ∅)
     <> Returned None.
Proof.
  assert (E : fst (findForwardedMember Scenario.cycleHost (Scenario.text Scenario.cycleA)
                     "ghost" Scenario.fileA Scenario.root ∅)
              = Returned (Some (ForwardedMember.mk "ghost" Scenario.fileA)))
    by (vm_compute; reflexivity).
  repeat split; try (vm_compute; reflexivity); try exact E.
  rewrite E. discriminate.
Qed.

(** C4 (amended). [A] forwards to [B] and [B] forwards to [A], both without
    a prefix. Both traversals terminate without looping. The enumeration
    returns the public definitions made directly in the two files and nothing
    else, hence the empty list when the files define nothing. The search for
    a member does not return an absent result: the guard refuses the edge
    back into [A], so the search in [B] reports its hop, and the result is the
    member under its own name in [A]. For every module graph, a set of files
    closed under the re-exports that resolve, the guard bounds the depth of
    both traversals by the number of files of the graph that are not yet on
    the stack: that much fuel yields the result of the method, which is never
    the exhaustion of the fuel. *)
Theorem cyclic_forwards_terminate
    (h : Host) (root A B cA cB : string) (stB stA : ForwardStatement.t) :
  (parseForwardStatements cA = [stB] ->
   ForwardStatement.prefix stB = None ->
   ModuleResolver.resolveModule h (ForwardStatement.path stB) A root = Returned (Some B) ->
   readFile h B = Returned cB ->
   parseForwardStatements cB = [stA] ->
   ForwardStatement.prefix stA = None ->
   ModuleResolver.resolveModule h (ForwardStatement.path stA) B root = Returned (Some A) ->
   readFile h A = Returned cA ->
   A <> B ->
   (forall member,
       findForwardedMember h cA member A root ∅
       = (Returned (Some (ForwardedMember.mk member A)), ∅))
   /\ (forall type,
          findAllForwardedMembers h cA A root type ∅
          = (Returned (public (directMembers type cB B)
                       ++ public (directMembers type cA A))%list, ∅)))
  /\ (forall (F : gset string) content cur visited k,
         moduleGraph h root F -> cur ∈ F -> forwardsInto h root F content cur ->
         size (F ∖ visited) <= k ->
         (forall member,
             findForwardedMemberFuel k h content member cur root visited
             = findForwardedMember h content member cur root visited
             /\ fst (findForwardedMember h content member cur root visited) <> Exhausted)
         /\ (forall type,
                findAllForwardedMembersFuel k h content cur root type visited
                = findAllForwardedMembers h content cur root type visited
                /\ fst (findAllForwardedMembers h content cur root type visited)
                   <> Exhausted)).
Proof.
  split.
  - intros HpA HpreB HB HcB HpB HpreA HA HcA HAB.
    assert (HBv : B ∉ ({[A]} ∪ ∅ : gset string)) by set_solver.
    assert (HAv : A ∈ ({[B]} ∪ ({[A]} ∪ ∅) : gset string)) by set_solver.
    split.
    + intros member.
      rewrite (findForwardedMember_first_hop h cA member A root ∅ [] [] stB member B);
        [|apply not_elem_of_empty|done|apply List.Forall_nil
         |by apply originalNameFor_passthrough|done].
      rewrite HcB.
      rewrite (findForwardedMember_first_hop h cB member B root _ [] [] stA member A);
        [|done|done|apply List.Forall_nil|by apply originalNameFor_passthrough|done].
      rewrite HcA.
      rewrite (findForwardedMember_unfold h cA member A root), bool_decide_eq_true_2 by done.
      reflexivity.
    + intros type.
      rewrite (findAllForwardedMembers_single h cA A root type ∅ stB B cB)
        by (done || apply not_elem_of_empty).
      rewrite (findAllForwardedMembers_single h cB B root type _ stA A cA HBv HpB HA HcA).
      rewrite (findAllForwardedMembers_unfold h cA A root type), bool_decide_eq_true_2 by done.
      cbn [fst]. rewrite !exposed_passthrough by done.
      by rewrite HpreA, HpreB, !map_applyPrefix_None, app_nil_r.
  - intros F content cur visited k Hclosed Hcur Hinto Hk.
    destruct (traversal_depth_bound h root F content cur visited k Hclosed Hcur Hinto Hk)
      as [H1 H2].
    split.
    + intros member. split; [apply H1 | apply findForwardedMember_total].
    + intros type. split; [apply H2 | apply findAllForwardedMembers_total].
Qed.

Lemma cyclic_forwards_terminate_witness :
  (forall member,
      findForwardedMember Scenario.cycleHost (Scenario.text Scenario.cycleA) member
        Scenario.fileA Scenario.root ∅
      = (Returned (Some (ForwardedMember.mk member Scenario.fileA)), ∅))
  /\ (forall type,
         findAllForwardedMembers Scenario.cycleHost (Scenario.text Scenario.cycleA)
           Scenario.fileA Scenario.root type ∅
         = (Returned [], ∅))
  /\ (forall member,
         findForwardedMemberFuel 2 Scenario.cycleHost (Scenario.text Scenario.cycleA)
           member Scenario.fileA Scenario.root ∅
         = findForwardedMember Scenario.cycleHost (Scenario.text Scenario.cycleA)
             member Scenario.fileA Scenario.root ∅).
Proof.
  pose proof (cyclic_forwards_terminate Scenario.cycleHost Scenario.root
                Scenario.fileA Scenario.fileB
                (Scenario.text Scenario.cycleA) (Scenario.text Scenario.cycleB)
                (ForwardStatement.mk "./b" None 0) (ForwardStatement.mk "./a" None 0))
    as [Hcycle Hdepth].
  assert (Hc := Hcycle ltac:(vm_compute; reflexivity) ltac:(reflexivity)
                  ltac:(vm_compute; reflexivity) ltac:(vm_compute; reflexivity)
                  ltac:(vm_compute; reflexivity) ltac:(reflexivity)
                  ltac:(vm_compute; reflexivity) ltac:(vm_compute; reflexivity)
                  ltac:(discriminate)).
  split; [exact (proj1 Hc)|]. split.
  - intros type. rewrite (proj2 Hc type). by destruct type.
  - intros member.
    refine (proj1 (proj1 (Hdepth {[Scenario.fileA; Scenario.fileB]}
                            (Scenario.text Scenario.cycleA) Scenario.fileA ∅ 2 _ _ _ _)
                     member)).
    + intros p c Hp Hc' st q Hin Hq.
      assert (p = Scenario.fileA \/ p = Scenario.fileB) as [-> | ->] by set_solver.
      * vm_compute in Hc'. injection Hc' as <-.
        vm_compute in Hin. destruct Hin as [<-|[]].
        vm_compute in Hq. injection Hq as <-. set_solver.
      * vm_compute in Hc'. injection Hc' as <-.
        vm_compute in Hin. destruct Hin as [<-|[]].
        vm_compute in Hq. injection Hq as <-. set_solver.
    + set_solver.
    + intros st q Hin Hq.
      vm_compute in Hin. destruct Hin as [<-|[]].
      vm_compute in Hq. injection Hq as <-. set_solver.
    + vm_compute. lia.
Defined.

(** ** Privacy: what the enumerations list *)

Lemma memberFile_setName m name : memberFile (setName m name) = memberFile m.
Proof. by destruct m. Qed.

Lemma memberFile_applyPrefix prefix m : memberFile (applyPrefix prefix m) = memberFile m.
Proof.
  unfold applyPrefix. destruct (ModuleResolver.truthy prefix); [|done].
  destruct (startsWith "$" (memberName m)); apply memberFile_setName.
Qed.









Lemma memberFile_renamedBy prefixes d : memberFile (renamedBy prefixes d) = memberFile d.
Proof.
  induction prefixes as [|p ps IH]; simpl; [done|]. by rewrite memberFile_applyPrefix.
Qed.



(** ** The position of a mixin definition *)


Lemma span_append p s : s = fst (span p s) +:+ snd (span p s).
Proof.
  induction s as [|c s IH]; simpl; [done|].
  destruct (p c); [|done]. destruct (span p s) as [r rest]. simpl in *. by rewrite IH at 1.
Qed.


Lemma prefix_startsWith p s : startsWith p (p +:+ s) = true.
Proof. apply prefix_append. Qed.



Lemma catch_never_throws {A} (m : Eff.M (option A)) s :
  fst (Eff.catch m (Eff.ret None) s) <> Thrown.
Proof. rewrite catch_outcome. by destruct (m s) as [[] s']. Qed.

Lemma resolveDefinition_never_throws h context visited :
  fst (resolveDefinition h context visited) <> Thrown.
Proof. apply catch_never_throws. Qed.

(** The facade on a cursor that [extractContext] places on a member. *)
Lemma provideDefinition_on_context h document position context visited :
  extractIncludeCallContext document position = Returned None ->
  extractContext document position = Returned (Some context) ->
  provideDefinition h document position visited
  = resolveDefinition h context visited.
Proof.
  intros Hi Hc. unfold provideDefinition.
  rewrite catch_outcome, bind_await, Hi, bind_await, Hc.
  pose proof (resolveDefinition_never_throws h context visited) as Hn.
  by destruct (fst (resolveDefinition h context visited)).
Qed.




(** ** The position of a mixin parameter *)

Lemma searchFrom_Some {A} (m : Matcher A) s idx i a :
  searchFrom m s idx = Some (i, a) ->
  idx <= i
  /\ (exists len, m (JS.drop (i - idx) s) = Some (a, len))
  /\ forall k, k < i - idx -> m (JS.drop k s) = None.
Proof.
  revert idx. induction s as [|c s IH]; intros idx; simpl.
  - destruct (m EmptyString) as [[a' len]|] eqn:E; [|done].
    intros [= <- <-]. rewrite Nat.sub_diag. repeat split; [lia|eauto|lia].
  - destruct (m (String c s)) as [[a' len]|] eqn:E.
    + intros [= <- <-]. rewrite Nat.sub_diag. repeat split; [lia|eauto|lia].
    + intros H. apply IH in H as (Hle & [len Hm] & Hbefore).
      replace (i - idx) with (S (i - S idx)) by lia.
      repeat split; [lia|eauto|].
      intros [|k] Hk; [done|]. simpl. apply Hbefore. lia.
Qed.

Lemma searchFrom_None {A} (m : Matcher A) s idx :
  searchFrom m s idx = None -> forall k, m (JS.drop k s) = None.
Proof.
  revert idx. induction s as [|c s IH]; intros idx; simpl.
  - destruct (m EmptyString) as [[a' len]|] eqn:E; [done|]. intros _ k. by destruct k.
  - destruct (m (String c s)) as [[a' len]|] eqn:E; [done|].
    intros H [|k]; [done|]. simpl. by eapply IH.
Qed.

Lemma search_token paramName lineText column :
  search (parameterPattern paramName) lineText = Some (column, tt) ->
  firstTokenAt paramName lineText column.
Proof.
  intros H. apply searchFrom_Some in H as (_ & Hm & Hbefore).
  rewrite Nat.sub_0_r in *. by split.
Qed.

Lemma search_tokenFree paramName lineText :
  search (parameterPattern paramName) lineText = None -> tokenFree paramName lineText.
Proof. intros H k. by eapply searchFrom_None. Qed.

Lemma skipn_enumerateFrom {A} (l : list A) i n :
  List.skipn n (enumerateFrom i l) = enumerateFrom (i + n) (List.skipn n l).
Proof.
  revert i l; induction n as [|n IH]; intros i l; simpl.
  - by rewrite Nat.add_0_r.
  - destruct l as [|x l]; simpl; [done|]. rewrite IH. f_equal. lia.
Qed.

Lemma nth_error_skipn {A} (l : list A) n k :
  List.nth_error (List.skipn n l) k = List.nth_error l (n + k).
Proof.
  revert l; induction n as [|n IH]; intros l; simpl; [done|].
  destruct l as [|x l]; simpl; [by destruct k|]. apply IH.
Qed.

(** The first element of a window of an enumerated list that satisfies [f],
    with everything before it in the window failing [f]. *)
Lemma find_window {A} (f : A -> bool) n :
  forall (l : list A) i,
    match List.find (fun '(_, x) => f x) (List.firstn n (enumerateFrom i l)) with
    | Some (j, x) =>
        i <= j < i + n /\ List.nth_error l (j - i) = Some x /\ f x = true
        /\ forall k t, i <= k < j -> List.nth_error l (k - i) = Some t -> f t = false
    | None =>
        forall k t, i <= k < i + n -> List.nth_error l (k - i) = Some t -> f t = false
    end.
Proof.
  induction n as [|n IH]; intros l i; simpl.
  - intros k t Hk. lia.
  - destruct l as [|x l]; simpl.
    + intros k t _. by destruct (k - i).
    + destruct (f x) eqn:Ex.
      * rewrite Nat.sub_diag. repeat split; try done; lia.
      * specialize (IH l (S i)).
        destruct (List.find _ _) as [[j y]|].
        -- destruct IH as (Hj & Hn & Hy & Hb).
           replace (j - i) with (S (j - S i)) by lia. repeat split; try done; try lia.
           intros k t Hk. destruct (decide (k = i)) as [->|Hne].
           ++ rewrite Nat.sub_diag. by intros [= <-].
           ++ replace (k - i) with (S (k - S i)) by lia. apply Hb. lia.
        -- intros k t Hk. destruct (decide (k = i)) as [->|Hne].
           ++ rewrite Nat.sub_diag. by intros [= <-].
           ++ replace (k - i) with (S (k - S i)) by lia. apply IH. lia.
Qed.

Lemma calculateParameterPosition_spec paramName lines startLine :
  parameterPositionSpec paramName lines startLine
    (fst (SassParser.calculateParameterPosition paramName lines startLine))
    (snd (SassParser.calculateParameterPosition paramName lines startLine)).
Proof.
  unfold SassParser.calculateParameterPosition, enumerate.
  rewrite skipn_enumerateFrom. simpl.
  set (f := fun line : string =>
              match search (parameterPattern paramName) line with
              | Some _ => true
              | None => false
              end).
  pose proof (find_window f 10 (List.skipn startLine lines) startLine) as H.
  assert (Hfree : forall t, f t = false -> tokenFree paramName t).
  { intros t Ht. apply search_tokenFree. unfold f in Ht.
    by destruct (search (parameterPattern paramName) t). }
  change (List.find _ _) with
    (List.find (fun '(_, x) => f x)
       (List.firstn 10 (enumerateFrom startLine (List.skipn startLine lines)))).
  destruct (List.find _ _) as [[j x]|].
  - destruct H as (Hj & Hn & Hx & Hb). unfold f in Hx.
    destruct (search (parameterPattern paramName) x) as [[index []]|] eqn:Es; [|done].
    left. exists x. simpl. rewrite nth_error_skipn in Hn.
    replace (startLine + (j - startLine)) with j in Hn by lia.
    repeat split; try done; try lia.
    + by apply search_token.
    + by apply search_token.
    + intros k t Hk Ht. apply Hfree, (Hb k t Hk).
      rewrite nth_error_skipn. by replace (startLine + (k - startLine)) with k by lia.
  - right. simpl. repeat split; try done.
    intros k t Hk Ht. apply Hfree, (H k t Hk).
    rewrite nth_error_skipn. by replace (startLine + (k - startLine)) with k by lia.
Qed.

Lemma parseMixinParameters_position content mixinName startLine p :
  In p (SassParser.parseMixinParameters content mixinName startLine) ->
  parameterPositionSpec (MixinParameter.name p) (split LF content) startLine
    (MixinParameter.line p) (MixinParameter.column p).
Proof.
  unfold SassParser.parseMixinParameters.
  destruct (SassParser.extractArgumentsString _ _) as [args|]; [|done].
  destruct (Nat.eqb _ 0); [done|].
  rewrite <- list_elem_of_In, list_elem_of_omap.
  intros (token & _ & Hp). unfold SassParser.parseParameter in Hp.
  destruct (search PARAMETER_PATTERN token) as [[i [name dv]]|]; [|done].
  pose proof (calculateParameterPosition_spec name (split LF content) startLine) as H.
  destruct (SassParser.calculateParameterPosition _ _ _) as [l c].
  by injection Hp as <-.
Qed.

Lemma findMixinDefinition_parameters content name filePath d :
  SassParser.findMixinDefinition content name filePath = Some d ->
  MixinDefinition.parameters d
  = Some (SassParser.parseMixinParameters content name (MixinDefinition.line d)).
Proof.
  unfold SassParser.findMixinDefinition.
  destruct (List.find _ _) as [[[l c] n]|]; [|done]. by intros [= <-].
Qed.




(** ** The fallback of package resolution *)

Lemma manifestEntry_None h packagePath :
  noUsableEntry h packagePath
  <-> ModuleResolver.manifestEntry h packagePath = Returned None.
Proof.
  unfold noUsableEntry, ModuleResolver.manifestEntry. cbv zeta.
  destruct (fileExists h (Path.join packagePath "package.json")); [|by split; auto].
  destruct (readPackageJson h _) as [pj|]; [|by split; auto].
  destruct (ModuleResolver.isTruthy (ModuleResolver.sassEntry pj)) eqn:Et.
  - destruct (ModuleResolver.sassEntry pj) as [[e| |]|] eqn:Ee;
      cbn [ModuleResolver.joinEntry].
    + destruct (fileExists h (Path.join packagePath e)) eqn:Ex.
      * split; [|done].
        intros [|[|(pj' & [= <-] & [|(e' & He & Hx)])]]; congruence.
      * split; [done|]. intros _. right. right. exists pj. split; [done|].
        right. by exists e.
    + split; [|done].
      intros [|[|(pj' & [= <-] & [|(e' & He & Hx)])]]; congruence.
    + discriminate Et.
    + discriminate Et.
  - split; [done|]. intros _. right. right. exists pj. split; [done|]. by left.
Qed.

(** C8 (counterexample). The package [pkg] has no manifest; both the flat
    file [pkg.scss] and [pkg/index.scss] exist. The candidate order of
    relative resolution, rooted at the package directory, selects the flat
    file; the resolver selects the index file. *)
Lemma package_fallback_is_not_the_relative_order :
  noUsableEntry Scenario.packageHost "/w/node_modules/pkg"
  /\ ModuleResolver.firstExisting Scenario.packageHost
       (ModuleResolver.relativeCandidates "/w/node_modules/pkg")
     = Some "/w/node_modules/pkg.scss"
  /\ ModuleResolver.resolveInNodeModules Scenario.packageHost "pkg" "/w/node_modules"
     = Returned (Some "/w/node_modules/pkg/index.scss")
  /\ ModuleResolver.resolveModule Scenario.packageHost "pkg" Scenario.main Scenario.root
     = Returned (Some "/w/node_modules/pkg/index.scss")
  /\ ModuleResolver.resolveInNodeModules Scenario.packageHost "pkg" "/w/node_modules"
     <> Returned
          (ModuleResolver.firstExisting Scenario.packageHost
             (ModuleResolver.relativeCandidates
                (Path.join "/w/node_modules" "pkg"))).
Proof.
  split; [left; vm_compute; reflexivity|].
  repeat split; try (vm_compute; reflexivity).
  vm_compute. discriminate.
Qed.

(** C8 (amended). When the manifest of the package gives no usable entry,
    the resolver tries, in this order, [<pkg>/index.scss], [<pkg>/_index.scss],
    [<pkg>/index.sass], [<pkg>/_index.sass], [<pkg>.scss], [<pkg>.sass],
    [<dir>/_<base>.scss] and [<dir>/_<base>.sass], where [<pkg>] is the
    package directory, [<dir>] its parent and [<base>] its last segment; the
    first candidate that exists is the result, and there is none when no
    candidate exists. *)
Theorem package_fallback_order (h : Host) (modulePath nodeModulesPath : string) :
  let packagePath := Path.join nodeModulesPath modulePath in
  let sibling extension :=
    Path.join (Path.dirname packagePath)
      ("_" +:+ Path.basename packagePath +:+ extension) in
  let candidates :=
    [ Path.join packagePath "index.scss";
      Path.join packagePath "_index.scss";
      Path.join packagePath "index.sass";
      Path.join packagePath "_index.sass";
      packagePath +:+ ".scss";
      packagePath +:+ ".sass";
      sibling ".scss";
      sibling ".sass" ] in
  noUsableEntry h packagePath ->
  match ModuleResolver.resolveInNodeModules h modulePath nodeModulesPath with
  | Returned (Some p) => firstThatExists h candidates p
  | Returned None => Forall (fun c => c ∉ entries h) candidates
  | Thrown | Exhausted => False
  end.
Proof.
  intros packagePath sibling candidates Hno.
  apply manifestEntry_None in Hno.
  unfold ModuleResolver.resolveInNodeModules. fold packagePath. rewrite Hno.
  pose proof (firstExisting_spec h candidates) as S.
  change (ModuleResolver.packageCandidates packagePath) with candidates.
  by destruct (ModuleResolver.firstExisting h candidates).
Qed.

Lemma package_fallback_order_witness :
  firstThatExists Scenario.packageHost
    [ "/w/node_modules/pkg/index.scss"; "/w/node_modules/pkg/_index.scss";
      "/w/node_modules/pkg/index.sass"; "/w/node_modules/pkg/_index.sass";
      "/w/node_modules/pkg.scss"; "/w/node_modules/pkg.sass";
      "/w/node_modules/_pkg.scss"; "/w/node_modules/_pkg.sass" ]
    "/w/node_modules/pkg/index.scss".
Proof.
  pose proof (package_fallback_order Scenario.packageHost "pkg" "/w/node_modules") as W.
  cbv zeta in W.
  assert (Hno : noUsableEntry Scenario.packageHost (Path.join "/w/node_modules" "pkg"))
    by (left; vm_compute; reflexivity).
  specialize (W Hno).
  replace (ModuleResolver.resolveInNodeModules Scenario.packageHost "pkg" "/w/node_modules")
    with (Returned (Some "/w/node_modules/pkg/index.scss")) in W
    by (vm_compute; reflexivity).
  exact W.
Defined.

(** ** The facade never throws *)

Lemma terminates_ret {A} (a : A) : terminates (Eff.ret a).
Proof. by intros s. Qed.

Lemma terminates_await {A} (o : outcome A) : o <> Exhausted -> terminates (Eff.await o).
Proof. by intros H s. Qed.

Lemma terminates_bind {A B} (m : Eff.M A) (k : A -> Eff.M B) :
  terminates m -> (forall a, terminates (k a)) -> terminates (Eff.bind m k).
Proof.
  intros Hm Hk s. rewrite bind_outcome. specialize (Hm s).
  destruct (fst (m s)); try done. apply Hk.
Qed.

Lemma terminates_catch {A} (m handler : Eff.M A) :
  terminates m -> terminates handler -> terminates (Eff.catch m handler).
Proof.
  intros Hm Hh s. rewrite catch_outcome. specialize (Hm s).
  destruct (fst (m s)) eqn:E; [by rewrite E | apply Hh | done].
Qed.

Lemma terminates_clear : terminates Eff.clear.
Proof. by intros s. Qed.

Lemma readFile_not_exhausted h p : readFile h p <> Exhausted.
Proof. unfold readFile. by destruct (texts h !! p). Qed.

Lemma resolveModule_not_exhausted h modulePath cur root :
  ModuleResolver.resolveModule h modulePath cur root <> Exhausted.
Proof. apply resolveModule_total. Qed.

Lemma lineAt_not_exhausted document n : TextDocument.lineAt document n <> Exhausted.
Proof. unfold TextDocument.lineAt. by destruct (List.nth_error _ _). Qed.

Lemma terminates_findForwardedMember h content member cur root :
  terminates (findForwardedMember h content member cur root).
Proof. intros s. apply findForwardedMember_total. Qed.

Ltac terminates_step :=
  match goal with
  | |- terminates (Eff.ret _) => apply terminates_ret
  | |- terminates (Eff.bind _ _) => apply terminates_bind; [|intros ?]
  | |- terminates (Eff.await _) => apply terminates_await
  | |- terminates (Eff.catch _ _) => apply terminates_catch
  | |- terminates ForwardResolver.clearVisitedFiles => apply terminates_clear
  | |- terminates (findForwardedMember _ _ _ _ _) => apply terminates_findForwardedMember
  | |- terminates (match ?x with _ => _ end) => destruct x
  | |- terminates (let '(_, _) := ?x in _) => destruct x
  | |- readFile _ _ <> Exhausted => apply readFile_not_exhausted
  | |- ModuleResolver.resolveModule _ _ _ _ <> Exhausted => apply resolveModule_not_exhausted
  end.

Lemma terminates_resolveDefinition h context : terminates (resolveDefinition h context).
Proof. unfold resolveDefinition. repeat terminates_step. Qed.

Lemma terminates_resolveArgumentDefinition h includeContext document :
  terminates (resolveArgumentDefinition h includeContext document).
Proof. unfold resolveArgumentDefinition. repeat terminates_step. Qed.

Lemma terminates_provideDefinition h document position :
  terminates (provideDefinition h document position).
Proof.
  unfold provideDefinition. repeat terminates_step.
  - unfold extractIncludeCallContext.
    pose proof (lineAt_not_exhausted document (Position.line position)).
    by destruct (TextDocument.lineAt _ _).
  - apply terminates_resolveArgumentDefinition.
  - unfold extractContext.
    pose proof (lineAt_not_exhausted document (Position.line position)).
    by destruct (TextDocument.lineAt _ _).
  - apply terminates_resolveDefinition.
Qed.

Lemma provideDefinition_returns h document position visited :
  exists result visited',
    provideDefinition h document position visited = (Returned result, visited').
Proof.
  pose proof (terminates_provideDefinition h document position visited) as Ht.
  pose proof (catch_never_throws
                (A := Location.t)
                (Eff.bind (Eff.await (extractIncludeCallContext document position))
                   (fun includeContext =>
                      match includeContext with
                      | Some includeContext =>
                          resolveArgumentDefinition h includeContext document
                      | None =>
                          Eff.bind (Eff.await (extractContext document position))
                            (fun context =>
                               match context with
                               | None => Eff.ret None
                               | Some context => resolveDefinition h context
                               end)
                      end)) visited) as Hn.
  change (fst (provideDefinition h document position visited) <> Thrown) in Hn.
  destruct (provideDefinition h document position visited) as [[r| |] v']; try done.
  eauto.
Qed.

(** The facade on a cursor in the argument list of a call. *)
Lemma provideDefinition_on_argument h document position includeContext visited :
  extractIncludeCallContext document position = Returned (Some includeContext) ->
  provideDefinition h document position visited
  = match fst (resolveArgumentDefinition h includeContext document visited) with
    | Thrown =>
        (Returned None,
         snd (resolveArgumentDefinition h includeContext document visited))
    | _ => resolveArgumentDefinition h includeContext document visited
    end.
Proof.
  intros Hi. unfold provideDefinition. by rewrite catch_outcome, bind_await, Hi.
Qed.

(** The facade on an argument, once the module of the call is read: the
    search through the re-exports, the read of the target file and the scan
    for the mixin and its parameter. *)
Lemma resolveArgumentDefinition_on_module h includeContext document root cD u A cA visited :
  TextDocument.workspaceFolder document = Some root ->
  readFile h (TextDocument.fsPath document) = Returned cD ->
  UseResolver.findUseByNamespace cD (IncludeContext.namespace includeContext) = Some u ->
  ModuleResolver.resolveModule h (UseStatement.path u) (TextDocument.fsPath document) root
  = Returned (Some A) ->
  readFile h A = Returned cA ->
  resolveArgumentDefinition h includeContext document visited =
  (match fst (findForwardedMember h cA (IncludeContext.mixinName includeContext) A root ∅)
   with
   | Returned forwardedResult =>
       let targetFilePath :=
         orElse (option_map ForwardedMember.filePath forwardedResult) A in
       let targetMixinName :=
         orElse (option_map ForwardedMember.originalName forwardedResult)
           (IncludeContext.mixinName includeContext) in
       match readFile h targetFilePath with
       | Returned targetContent =>
           Returned
             match SassParser.findMixinDefinition targetContent targetMixinName
                     targetFilePath with
             | None => None
             | Some mixinDef =>
                 match MixinDefinition.parameters mixinDef with
                 | None | Some [] => None
                 | Some parameters =>
                     option_map
                       (fun targetParam =>
                          Location.mk targetFilePath (MixinParameter.line targetParam)
                            (MixinParameter.column targetParam))
                       (List.find
                          (fun p => String.eqb (MixinParameter.name p)
                                      (IncludeContext.argumentName includeContext))
                          parameters)
                 end
             end
       | Thrown => Thrown
       | Exhausted => Exhausted
       end
   | Thrown => Thrown
   | Exhausted => Exhausted
   end, ∅).
Proof.
  intros Hw HcD Hu HA HcA. unfold resolveArgumentDefinition.
  rewrite Hw, bind_await, HcD, Hu, bind_await, HA, bind_await, HcA.
  unfold clearVisitedFiles. rewrite bind_clear, bind_outcome, findForwardedMember_frame.
  destruct (fst (findForwardedMember _ _ _ _ _ _)) as [fr| |]; try reflexivity.
  cbv zeta. rewrite bind_await.
  destruct (readFile h (orElse (option_map ForwardedMember.filePath fr) A))
    as [tc| |]; try reflexivity.
  destruct (SassParser.findMixinDefinition _ _ _) as [d|]; [|reflexivity].
  destruct (MixinDefinition.parameters d) as [[|p0 ps]|]; try reflexivity.
  by destruct (List.find _ _).
Qed.

(** C9. The definition lookup never throws to its caller: for every host,
    document, position and set of visited files it returns a result. Every
    ordinary miss yields the absent result. With the cursor on a reference
    [alias.member]: no token under the cursor, no import for the alias, a
    module path that does not resolve, a member without definition in the
    target file. With the cursor on an argument of a call: a document
    outside every workspace folder, no import for the alias, a module path
    that does not resolve, no definition of the mixin in the target file of
    the search (whatever the search through the re-exports returned), a
    mixin without parameter list or with an empty one, an argument that is
    no parameter of the mixin. An exception raised inside the resolution (a
    line outside the document, a read that fails, a module resolution or a
    search through the re-exports that throws) is caught at the facade and
    yields the absent result as well. *)
Theorem definition_lookup_never_throws :
  (forall (h : Host) (document : TextDocument.t) (position : Position.t)
          (visited : gset string),
      exists result visited',
        provideDefinition h document position visited = (Returned result, visited'))
  /\ (forall (h : Host) (document : TextDocument.t) (position : Position.t)
             (visited : gset string),
         extractIncludeCallContext document position = Returned None ->
         (extractContext document position = Returned None ->
          provideDefinition h document position visited = (Returned None, visited))
         /\ (forall context cD,
                extractContext document position = Returned (Some context) ->
                readFile h (ResolutionContext.currentFilePath context) = Returned cD ->
                (UseResolver.findUseByNamespace cD (ResolutionContext.namespace context)
                 = None ->
                 provideDefinition h document position visited = (Returned None, visited))
                /\ (forall u,
                       UseResolver.findUseByNamespace cD
                         (ResolutionContext.namespace context) = Some u ->
                       ModuleResolver.resolveModule h (UseStatement.path u)
                         (ResolutionContext.currentFilePath context)
                         (ResolutionContext.workspaceRoot context) = Returned None ->
                       provideDefinition h document position visited
                       = (Returned None, visited))
                /\ (forall u moduleFilePath moduleContent forwardedResult,
                       UseResolver.findUseByNamespace cD
                         (ResolutionContext.namespace context) = Some u ->
                       ModuleResolver.resolveModule h (UseStatement.path u)
                         (ResolutionContext.currentFilePath context)
                         (ResolutionContext.workspaceRoot context)
                       = Returned (Some moduleFilePath) ->
                       ResolutionContext.cursorTarget context = OnMember ->
                       readFile h moduleFilePath = Returned moduleContent ->
                       fst (findForwardedMember h moduleContent
                              (ResolutionContext.member context) moduleFilePath
                              (ResolutionContext.workspaceRoot context) ∅)
                       = Returned forwardedResult ->
                       scanTarget h (startsWith "$" (ResolutionContext.member context))
                         (match forwardedResult with
                          | Some r => ForwardedMember.filePath r
                          | None => moduleFilePath
                          end)
                         (match forwardedResult with
                          | Some r => ForwardedMember.originalName r
                          | None => ResolutionContext.member context
                          end) = Returned None ->
                       provideDefinition h document position visited
                       = (Returned None, ∅))))
  /\ (forall (h : Host) (document : TextDocument.t) (position : Position.t)
             (visited : gset string) (includeContext : IncludeContext.t),
         extractIncludeCallContext document position = Returned (Some includeContext) ->
         (TextDocument.workspaceFolder document = None ->
          provideDefinition h document position visited = (Returned None, visited))
         /\ (forall root cD,
                TextDocument.workspaceFolder document = Some root ->
                readFile h (TextDocument.fsPath document) = Returned cD ->
                (UseResolver.findUseByNamespace cD
                   (IncludeContext.namespace includeContext) = None ->
                 provideDefinition h document position visited = (Returned None, visited))
                /\ (forall u,
                       UseResolver.findUseByNamespace cD
                         (IncludeContext.namespace includeContext) = Some u ->
                       ModuleResolver.resolveModule h (UseStatement.path u)
                         (TextDocument.fsPath document) root = Returned None ->
                       provideDefinition h document position visited
                       = (Returned None, visited))
                /\ (forall u moduleFilePath moduleContent forwardedResult targetContent,
                       UseResolver.findUseByNamespace cD
                         (IncludeContext.namespace includeContext) = Some u ->
                       ModuleResolver.resolveModule h (UseStatement.path u)
                         (TextDocument.fsPath document) root
                       = Returned (Some moduleFilePath) ->
                       readFile h moduleFilePath = Returned moduleContent ->
                       fst (findForwardedMember h moduleContent
                              (IncludeContext.mixinName includeContext) moduleFilePath
                              root ∅)
                       = Returned forwardedResult ->
                       let targetFilePath :=
                         orElse (option_map ForwardedMember.filePath forwardedResult)
                           moduleFilePath in
                       let targetMixinName :=
                         orElse (option_map ForwardedMember.originalName forwardedResult)
                           (IncludeContext.mixinName includeContext) in
                       readFile h targetFilePath = Returned targetContent ->
                       (SassParser.findMixinDefinition targetContent targetMixinName
                          targetFilePath = None ->
                        provideDefinition h document position visited
                        = (Returned None, ∅))
                       /\ (forall mixinDef,
                              SassParser.findMixinDefinition targetContent targetMixinName
                                targetFilePath = Some mixinDef ->
                              (MixinDefinition.parameters mixinDef = None ->
                               provideDefinition h document position visited
                               = (Returned None, ∅))
                              /\ (MixinDefinition.parameters mixinDef = Some [] ->
                                  provideDefinition h document position visited
                                  = (Returned None, ∅))
                              /\ (forall parameters,
                                     MixinDefinition.parameters mixinDef
                                     = Some parameters ->
                                     List.find
                                       (fun p =>
                                          String.eqb (MixinParameter.name p)
                                            (IncludeContext.argumentName includeContext))
                                       parameters = None ->
                                     provideDefinition h document position visited
                                     = (Returned None, ∅))))))
  /\ (forall (h : Host) (document : TextDocument.t) (position : Position.t)
             (visited : gset string),
         (TextDocument.lineAt document (Position.line position) = Thrown ->
          provideDefinition h document position visited = (Returned None, visited))
         /\ (forall context,
                extractIncludeCallContext document position = Returned None ->
                extractContext document position = Returned (Some context) ->
                readFile h (ResolutionContext.currentFilePath context) = Thrown ->
                provideDefinition h document position visited = (Returned None, visited))
         /\ (forall includeContext,
                extractIncludeCallContext document position
                = Returned (Some includeContext) ->
                fst (resolveArgumentDefinition h includeContext document visited) = Thrown ->
                provideDefinition h document position visited
                = (Returned None,
                   snd (resolveArgumentDefinition h includeContext document visited)))
         /\ (forall context cD u,
                extractIncludeCallContext document position = Returned None ->
                extractContext document position = Returned (Some context) ->
                readFile h (ResolutionContext.currentFilePath context) = Returned cD ->
                UseResolver.findUseByNamespace cD (ResolutionContext.namespace context)
                = Some u ->
                (ModuleResolver.resolveModule h (UseStatement.path u)
                   (ResolutionContext.currentFilePath context)
                   (ResolutionContext.workspaceRoot context) = Thrown ->
                 provideDefinition h document position visited = (Returned None, visited))
                /\ (forall moduleFilePath,
                       ModuleResolver.resolveModule h (UseStatement.path u)
                         (ResolutionContext.currentFilePath context)
                         (ResolutionContext.workspaceRoot context)
                       = Returned (Some moduleFilePath) ->
                       ResolutionContext.cursorTarget context = OnMember ->
                       (readFile h moduleFilePath = Thrown ->
                        provideDefinition h document position visited
                        = (Returned None, visited))
                       /\ (forall moduleContent,
                              readFile h moduleFilePath = Returned moduleContent ->
                              (fst (findForwardedMember h moduleContent
                                      (ResolutionContext.member context) moduleFilePath
                                      (ResolutionContext.workspaceRoot context) ∅)
                               = Thrown ->
                               provideDefinition h document position visited
                               = (Returned None, ∅))
                              /\ (forall forwardedResult,
                                     fst (findForwardedMember h moduleContent
                                            (ResolutionContext.member context)
                                            moduleFilePath
                                            (ResolutionContext.workspaceRoot context) ∅)
                                     = Returned forwardedResult ->
                                     scanTarget h
                                       (startsWith "$" (ResolutionContext.member context))
                                       (match forwardedResult with
                                        | Some r => ForwardedMember.filePath r
                                        | None => moduleFilePath
                                        end)
                                       (match forwardedResult with
                                        | Some r => ForwardedMember.originalName r
                                        | None => ResolutionContext.member context
                                        end) = Thrown ->
                                     provideDefinition h document position visited
                                     = (Returned None, ∅)))))
         /\ (forall includeContext root,
                extractIncludeCallContext document position
                = Returned (Some includeContext) ->
                TextDocument.workspaceFolder document = Some root ->
                (readFile h (TextDocument.fsPath document) = Thrown ->
                 provideDefinition h document position visited = (Returned None, visited))
                /\ (forall cD u,
                       readFile h (TextDocument.fsPath document) = Returned cD ->
                       UseResolver.findUseByNamespace cD
                         (IncludeContext.namespace includeContext) = Some u ->
                       (ModuleResolver.resolveModule h (UseStatement.path u)
                          (TextDocument.fsPath document) root = Thrown ->
                        provideDefinition h document position visited
                        = (Returned None, visited))
                       /\ (forall moduleFilePath,
                              ModuleResolver.resolveModule h (UseStatement.path u)
                                (TextDocument.fsPath document) root
                              = Returned (Some moduleFilePath) ->
                              (readFile h moduleFilePath = Thrown ->
                               provideDefinition h document position visited
                               = (Returned None, visited))
                              /\ (forall moduleContent,
                                     readFile h moduleFilePath = Returned moduleContent ->
                                     (fst (findForwardedMember h moduleContent
                                             (IncludeContext.mixinName includeContext)
                                             moduleFilePath root ∅) = Thrown ->
                                      provideDefinition h document position visited
                                      = (Returned None, ∅))
                                     /\ (forall forwardedResult,
                                            fst (findForwardedMember h moduleContent
                                                   (IncludeContext.mixinName includeContext)
                                                   moduleFilePath root ∅)
                                            = Returned forwardedResult ->
                                            readFile h
                                              (orElse
                                                 (option_map ForwardedMember.filePath
                                                    forwardedResult) moduleFilePath)
                                            = Thrown ->
                                            provideDefinition h document position visited
                                            = (Returned None, ∅))))))).
Proof.
  split; [exact provideDefinition_returns|]. split; [|split].
  - intros h document position visited Hi. split.
    + intros Hc. unfold provideDefinition.
      by rewrite catch_outcome, bind_await, Hi, bind_await, Hc.
    + intros context cD Hc HcD.
      rewrite (provideDefinition_on_context _ _ _ _ _ Hi Hc).
      split; [|split].
      * intros Hu. unfold resolveDefinition.
        by rewrite catch_outcome, bind_await, HcD, Hu.
      * intros u Hu Hm. unfold resolveDefinition.
        by rewrite catch_outcome, bind_await, HcD, Hu, bind_await, Hm.
      * intros u moduleFilePath moduleContent fr Hu Hm Ht Hmc Hfr Hscan.
        by rewrite (resolveDefinition_on_member h context cD u moduleFilePath
                      moduleContent visited HcD Hu Hm Ht Hmc), Hfr, Hscan.
  - intros h document position visited ic Hi.
    rewrite (provideDefinition_on_argument _ _ _ _ _ Hi). split.
    + intros Hw. unfold resolveArgumentDefinition. by rewrite Hw.
    + intros root cD Hw HcD. split; [|split].
      * intros Hu. unfold resolveArgumentDefinition.
        by rewrite Hw, bind_await, HcD, Hu.
      * intros u Hu Hm. unfold resolveArgumentDefinition.
        by rewrite Hw, bind_await, HcD, Hu, bind_await, Hm.
      * intros u A cA fr tc Hu HA HcA Hfr targetFilePath targetMixinName Htc.
        rewrite (resolveArgumentDefinition_on_module h ic document root cD u A cA visited
                   Hw HcD Hu HA HcA), Hfr.
        cbv zeta. fold targetFilePath targetMixinName. rewrite Htc.
        split; [by intros ->|].
        intros d ->. split; [by intros ->|]. split; [by intros ->|].
        intros parameters -> Hfind. rewrite Hfind. by destruct parameters.
  - intros h document position visited. split; [|split; [|split; [|split]]].
    + intros Hl. unfold provideDefinition, extractIncludeCallContext.
      by rewrite catch_outcome, bind_await, Hl.
    + intros context Hi Hc Hr.
      rewrite (provideDefinition_on_context _ _ _ _ _ Hi Hc).
      unfold resolveDefinition. by rewrite catch_outcome, bind_await, Hr.
    + intros ic Hi Hthrown.
      by rewrite (provideDefinition_on_argument _ _ _ _ _ Hi), Hthrown.
    + intros context cD u Hi Hc HcD Hu.
      rewrite (provideDefinition_on_context _ _ _ _ _ Hi Hc). split.
      * intros Hm. unfold resolveDefinition.
        by rewrite catch_outcome, bind_await, HcD, Hu, bind_await, Hm.
      * intros A HA Ht. split.
        -- intros HcA. unfold resolveDefinition.
           by rewrite catch_outcome, bind_await, HcD, Hu, bind_await, HA, Ht,
                bind_await, HcA.
        -- intros cA HcA.
           rewrite (resolveDefinition_on_member h context cD u A cA visited
                      HcD Hu HA Ht HcA).
           split; [by intros ->|]. by intros fr -> ->.
    + intros ic root Hi Hw.
      rewrite (provideDefinition_on_argument _ _ _ _ _ Hi). split.
      * intros HcD. unfold resolveArgumentDefinition.
        by rewrite Hw, bind_await, HcD.
      * intros cD u HcD Hu. split.
        -- intros Hm. unfold resolveArgumentDefinition.
           by rewrite Hw, bind_await, HcD, Hu, bind_await, Hm.
        -- intros A HA. split.
           ++ intros HcA. unfold resolveArgumentDefinition.
              by rewrite Hw, bind_await, HcD, Hu, bind_await, HA, bind_await, HcA.
           ++ intros cA HcA.
              rewrite (resolveArgumentDefinition_on_module h ic document root cD u A cA
                         visited Hw HcD Hu HA HcA).
              split; [by intros ->|]. intros fr -> Htc. cbv zeta. by rewrite Htc.
Qed.

Lemma definition_lookup_never_throws_witness :
  (* a read that fails inside the resolution of an argument, which rejects *)
  fst (resolveArgumentDefinition Scenario.brokenHost
         (IncludeContext.mk "m" "button" "size")
         (Scenario.document Scenario.paramsMain) ∅) = Thrown
  /\ provideDefinition Scenario.brokenHost (Scenario.document Scenario.paramsMain)
       (Position.mk 1 25) ∅ = (Returned None, ∅)
  (* a line outside the document *)
  /\ provideDefinition Scenario.useHost (Scenario.document Scenario.useMain)
       (Position.mk 7 0) ∅ = (Returned None, ∅)
  (* an alias without import *)
  /\ provideDefinition Scenario.useHost
       (Scenario.document [ ".x { @include other.go; }" ])
       (Position.mk 0 21) ∅ = (Returned None, ∅)
  (* an argument that is no parameter of the mixin *)
  /\ provideDefinition Scenario.paramsHost
       (Scenario.document [ ".x { @include m.button($colour: red); }" ])
       (Position.mk 0 25) ∅ = (Returned None, ∅)
  (* a call of a mixin that the module does not define *)
  /\ provideDefinition Scenario.paramsHost
       (Scenario.document [ ".x { @include m.badge($size: large); }" ])
       (Position.mk 0 24) ∅ = (Returned None, ∅).
Proof.
  destruct definition_lookup_never_throws as (_ & Hmiss & Hargument & Hfail).
  assert (Hthrown : fst (resolveArgumentDefinition Scenario.brokenHost
                           (IncludeContext.mk "m" "button" "size")
                           (Scenario.document Scenario.paramsMain) ∅) = Thrown)
    by (vm_compute; reflexivity).
  split; [exact Hthrown|split; [|split; [|split; [|split]]]].
  - rewrite (proj1 (proj2 (proj2 (Hfail Scenario.brokenHost
                                    (Scenario.document Scenario.paramsMain)
                                    (Position.mk 1 25) ∅)))
               (IncludeContext.mk "m" "button" "size")
               ltac:(vm_compute; reflexivity) Hthrown).
    vm_compute. reflexivity.
  - apply (proj1 (Hfail Scenario.useHost (Scenario.document Scenario.useMain)
                    (Position.mk 7 0) ∅)).
    vm_compute. reflexivity.
  - refine (proj1 (proj2 (Hmiss Scenario.useHost
                            (Scenario.document [ ".x { @include other.go; }" ])
                            (Position.mk 0 21) ∅ _)
                     (ResolutionContext.mk "other.go" "other" "go" Scenario.main
                        Scenario.root OnMember)
                     (Scenario.text Scenario.useMain) _ _) _);
      vm_compute; reflexivity.
  - destruct (Hargument Scenario.paramsHost
                (Scenario.document [ ".x { @include m.button($colour: red); }" ])
                (Position.mk 0 25) ∅ (IncludeContext.mk "m" "button" "colour")
                ltac:(vm_compute; reflexivity)) as [_ Hroot].
    destruct (Hroot Scenario.root (Scenario.text Scenario.paramsMain)
                ltac:(reflexivity) ltac:(vm_compute; reflexivity)) as (_ & _ & Hscan).
    destruct (Hscan (UseStatement.mk "./a" "m" 0) Scenario.fileA
                (Scenario.text Scenario.paramsA) None (Scenario.text Scenario.paramsA)
                ltac:(vm_compute; reflexivity) ltac:(vm_compute; reflexivity)
                ltac:(vm_compute; reflexivity) ltac:(vm_compute; reflexivity)
                ltac:(vm_compute; reflexivity)) as [_ Hdef].
    destruct (SassParser.findMixinDefinition (Scenario.text Scenario.paramsA) "button"
                Scenario.fileA) as [d|] eqn:Ed; [|exfalso; vm_compute in Ed; discriminate].
    destruct (MixinDefinition.parameters d) as [parameters|] eqn:Ep;
      [|exfalso; vm_compute in Ed; injection Ed as <-; discriminate].
    refine (proj2 (proj2 (Hdef d Ed)) parameters Ep _).
    vm_compute in Ed. injection Ed as <-. vm_compute in Ep. injection Ep as <-.
    vm_compute. reflexivity.
  - destruct (Hargument Scenario.paramsHost
                (Scenario.document [ ".x { @include m.badge($size: large); }" ])
                (Position.mk 0 24) ∅ (IncludeContext.mk "m" "badge" "size")
                ltac:(vm_compute; reflexivity)) as [_ Hroot].
    destruct (Hroot Scenario.root (Scenario.text Scenario.paramsMain)
                ltac:(reflexivity) ltac:(vm_compute; reflexivity)) as (_ & _ & Hscan).
    destruct (Hscan (UseStatement.mk "./a" "m" 0) Scenario.fileA
                (Scenario.text Scenario.paramsA) None (Scenario.text Scenario.paramsA)
                ltac:(vm_compute; reflexivity) ltac:(vm_compute; reflexivity)
                ltac:(vm_compute; reflexivity) ltac:(vm_compute; reflexivity)
                ltac:(vm_compute; reflexivity)) as [Hnone _].
    apply Hnone. vm_compute. reflexivity.
Defined.

(** ** The cursor on the namespace part *)

Lemma get_drop a k s : String.get k (JS.drop a s) = String.get (a + k) s.
Proof.
  revert s; induction a as [|a IH]; intros s; simpl; [done|].
  destruct s as [|c s]; simpl; [by destruct k|]. apply IH.
Qed.

Lemma get_take n k s c :
  String.get k (JS.take n s) = Some c -> k < n /\ String.get k s = Some c.
Proof.
  revert k s; induction n as [|n IH]; intros k s; simpl; [done|].
  destruct s as [|c' s]; simpl; [done|].
  destruct k as [|k]; simpl; [intros [= <-]; split; [lia|done]|].
  intros H. apply IH in H as [Hk H]. split; [lia|done].
Qed.

Lemma get_substring a b k s c :
  a <= b ->
  String.get k (substring a b s) = Some c ->
  a + k < b /\ String.get (a + k) s = Some c.
Proof.
  intros Hab. unfold substring.
  rewrite Nat.min_l, Nat.max_r by lia.
  intros H. apply get_take in H as [Hk H]. rewrite get_drop in H. split; [lia|done].
Qed.

Lemma indexOfAux_dot s i d :
  indexOfAux "." s i = Some d -> i <= d /\ String.get (d - i) s = Some "."%char.
Proof.
  revert i; induction s as [|c s IH]; intros i; cbn [indexOfAux String.prefix]; [done|].
  destruct (ascii_dec "." c) as [<-|Hne].
  - assert (String.prefix EmptyString s = true) as -> by (by destruct s).
    intros [= <-]. rewrite Nat.sub_diag. split; [lia|done].
  - intros H. apply IH in H as [Hle H]. split; [lia|].
    by replace (d - i) with (S (d - S i)) by lia.
Qed.

Lemma scanBack_le p line n : scanBack p line n <= n.
Proof.
  induction n as [|n IH]; simpl; [lia|]. destruct (testAt p n line); lia.
Qed.

Lemma scanBack_run p line n k :
  scanBack p line n <= k < n -> testAt p k line = true.
Proof.
  induction n as [|n IH]; simpl; [lia|].
  destruct (testAt p n line) eqn:E; [|lia].
  intros Hk. destruct (decide (k = n)) as [->|Hne]; [done|]. apply IH. lia.
Qed.

Lemma span_run p s k c :
  String.get k (fst (span p s)) = Some c -> p c = true.
Proof.
  revert k; induction s as [|c' s IH]; intros k; simpl; [done|].
  destruct (p c') eqn:E; [|done].
  destruct (span p s) as [r rest]. simpl in *.
  destruct k as [|k]; [by intros [= <-] | apply IH].
Qed.

Lemma get_append_l a b k :
  k < String.length a -> String.get k (a +:+ b) = String.get k a.
Proof.
  revert k; induction a as [|c a IH]; intros k; simpl; [lia|].
  destruct k as [|k]; [done|]. intros Hk. apply IH. lia.
Qed.

Lemma scanForward_run p line e k c :
  e <= k < scanForward p line e -> String.get k line = Some c -> p c = true.
Proof.
  unfold scanForward. intros Hk Hget.
  replace k with (e + (k - e)) in Hget by lia. rewrite <- get_drop in Hget.
  rewrite (span_append p (JS.drop e line)), get_append_l in Hget by lia.
  by eapply span_run.
Qed.

Lemma scanForward_ge p line e : e <= scanForward p line e.
Proof. unfold scanForward. lia. Qed.

Lemma testAt_get p k line c :
  testAt p k line = true -> String.get k line = Some c -> p c = true.
Proof. unfold testAt, charAt. intros H Hg. by rewrite Hg in H. Qed.

(** The target [OnNamespace] is out of reach: whenever [extractContext]
    yields a context, however the cursor stands in the token, the target is
    the member. The forward scan stops at the dot, so a token holds a dot
    only when the backward scan crossed one, and then the cursor lies behind
    it. *)
Lemma extractContextOn_never_on_namespace line cursorChar fsPath workspaceFolder context :
  extractContextOn line cursorChar fsPath workspaceFolder = Some context ->
  ResolutionContext.cursorTarget context = OnMember.
Proof.
  unfold extractContextOn.
  set (afterWord := Nat.ltb 0 cursorChar && testAt isMemberChar (cursorChar - 1) line).
  destruct (_ && negb afterWord); [done|].
  set (start0 := if Nat.ltb cursorChar (String.length line)
                    && testAt isMemberChar cursorChar line
                 then Some cursorChar
                 else if afterWord then Some (cursorChar - 1) else None).
  assert (Hstart0 : forall s0, start0 = Some s0 ->
            s0 <= cursorChar
            /\ forall k c, s0 <= k < cursorChar -> String.get k line = Some c ->
                           isMemberChar c = true).
  { unfold start0. intros s0.
    destruct (_ && testAt isMemberChar cursorChar line).
    - intros [= <-]. split; [lia|]. intros k c Hk. lia.
    - unfold afterWord. destruct (Nat.ltb 0 cursorChar) eqn:E0; simpl; [|done].
      destruct (testAt isMemberChar (cursorChar - 1) line) eqn:E1; [|done].
      intros [= <-]. apply Nat.ltb_lt in E0. split; [lia|].
      intros k c Hk Hget. replace k with (cursorChar - 1) in Hget by lia.
      by eapply testAt_get. }
  destruct start0 as [s0|]; [|done].
  destruct (Hstart0 s0 eq_refl) as [Hs0 Hmid]. clear Hstart0.
  set (start1 := scanBack isMemberChar line s0).
  set (start := if Nat.ltb 0 start1 && _
                then scanBack isNameChar line (start1 - 1) else start1).
  set (end_ := scanForward isMemberChar line cursorChar).
  assert (Hstart1 : start1 <= s0) by apply scanBack_le.
  assert (Hstart : start <= start1).
  { unfold start.
    match goal with |- (if ?b then _ else _) <= _ => destruct b end; [|lia].
    pose proof (scanBack_le isNameChar line (start1 - 1)). lia. }
  assert (Hend : cursorChar <= end_) by apply scanForward_ge.
  destruct (indexOf "." (substring start end_ line)) as [dotIndex|] eqn:Edot; [|done].
  destruct (_ || _); [done|].
  destruct workspaceFolder as [root|]; [|done].
  intros [= <-]. simpl.
  destruct (Nat.leb_spec (cursorChar - start) dotIndex) as [Hle|]; [exfalso|done].
  apply indexOfAux_dot in Edot as [_ Hdot]. rewrite Nat.sub_0_r in Hdot.
  apply get_substring in Hdot as [Hin Hget]; [|lia].
  assert (isMemberChar "."%char = true); [|done].
  destruct (decide (start + dotIndex < cursorChar)) as [Hlt|Hge].
  - lia.
  - eapply (scanForward_run isMemberChar line cursorChar (start + dotIndex));
      [fold end_; lia | done].
Qed.

(** C10. With the cursor exactly on the dot of [m.go], [extractContext]
    yields no context at all: the token it extracts is [m], without the dot,
    so the lookup does not jump to line 0, column 0 of the module file but
    returns the absent result; with the cursor on the alias itself the
    outcome is the same, although the import of [m] resolves to [a]. *)
Theorem cursor_on_dot_finds_nothing :
  charAt 15 ".x { @include m.go; }" = Some "."%char
  /\ extractContextOn ".x { @include m.go; }" 15 Scenario.main (Some Scenario.root) = None
  /\ provideDefinition Scenario.useHost (Scenario.document Scenario.useMain)
       (Position.mk 1 15) ∅ = (Returned None, ∅)
  /\ provideDefinition Scenario.useHost (Scenario.document Scenario.useMain)
       (Position.mk 1 14) ∅ = (Returned None, ∅)
  /\ resolveDefinition Scenario.useHost
       (ResolutionContext.mk "m.go" "m" "go" Scenario.main Scenario.root OnNamespace) ∅
     = (Returned (Some (Location.mk Scenario.fileA 0 0)), ∅).
Proof. repeat split; vm_compute; reflexivity. Qed.

(* ===================================================================== *)
(** * Further properties of the code *)
(* ===================================================================== *)

(** ** Module resolution *)

Lemma length_chars s : List.length (Path.chars s) = String.length s.
Proof. induction s as [|c s IH]; simpl; auto. Qed.

Lemma dirnameEnd_positive cs i ms e :
  List.length cs = i -> Path.dirnameEnd cs i ms = Some e -> 1 <= e.
Proof.
  revert i ms; induction cs as [|c rest IH]; intros i ms Hlen; simpl; [done|].
  simpl in Hlen. destruct i as [|i]; [done|]. injection Hlen as Hlen.
  destruct (Path.isSlash c).
  - destruct ms; [apply IH; done | intros [= <-]; lia].
  - apply IH; done.
Qed.

Lemma startsWith_slash p :
  startsWith "/" p = true -> exists tl, p = String "/"%char tl.
Proof.
  unfold startsWith. destruct p as [|c tl]; cbn [String.prefix]; [done|].
  destruct (ascii_dec "/"%char c) as [<-|]; [eauto | done].
Qed.

Lemma dirname_absolute p :
  startsWith "/" p = true -> startsWith "/" (Path.dirname p) = true.
Proof.
  intros H. apply startsWith_slash in H as [tl ->]. unfold Path.dirname.
  change (Path.isSlash "/"%char) with true. cbv iota.
  destruct (Path.dirnameEnd _ _ _) as [e|] eqn:E; [|reflexivity].
  apply dirnameEnd_positive in E;
    [|by rewrite length_rev, length_chars].
  destruct (true && Nat.eqb e 1); [reflexivity|].
  destruct e as [|e]; [lia|]. apply (prefix_startsWith "/").
Qed.

Lemma resolve_absolute_directory cwd1 cwd2 a b :
  startsWith "/" a = true -> Path.resolve cwd1 a b = Path.resolve cwd2 a b.
Proof.
  intros Ha. pose proof Ha as Ha'. apply startsWith_slash in Ha' as [tl ->].
  unfold Path.resolve. cbn [Path.resolveAcc]. rewrite !Ha. cbn [isEmpty].
  destruct (isEmpty b); [reflexivity|].
  destruct (startsWith "/" b); reflexivity.
Qed.

Lemma fileExists_withCwd h dir p : fileExists (withCwd h dir) p = fileExists h p.
Proof. done. Qed.

Lemma resolveInNodeModules_withCwd h dir modulePath nodeModulesPath :
  ModuleResolver.resolveInNodeModules (withCwd h dir) modulePath nodeModulesPath
  = ModuleResolver.resolveInNodeModules h modulePath nodeModulesPath.
Proof. done. Qed.

Lemma walkUp_withCwd h dir modulePath workspaceRoot fuel currentDir :
  ModuleResolver.walkUp fuel (withCwd h dir) modulePath workspaceRoot currentDir
  = ModuleResolver.walkUp fuel h modulePath workspaceRoot currentDir.
Proof.
  revert currentDir; induction fuel as [|fuel IH]; intros currentDir; [done|].
  simpl. rewrite fileExists_withCwd, resolveInNodeModules_withCwd.
  destruct (if fileExists h _ then _ else Returned None) as [[r|]| |]; try done.
  destruct (_ || _); [done | apply IH].
Qed.

Lemma append_nonempty_r a b : b <> EmptyString -> a +:+ b <> EmptyString.
Proof.
  intros Hb. destruct a as [|c a]; [exact Hb|].
  intros H. change (String c (a +:+ b) = EmptyString) in H. discriminate.
Qed.

Lemma normalize_nonempty p : Path.normalize p <> EmptyString.
Proof.
  unfold Path.normalize. destruct p as [|c0 tl]; [done|].
  cbv zeta.
  destruct (Path.normalizeString (String c0 tl) (negb (Path.isSlash c0))) as [|x n] eqn:En.
  - cbn [isEmpty]. destruct (Path.isSlash c0); [done|].
    by destruct (match JS.last (String c0 tl) with Some c => Path.isSlash c | None => false end).
  - cbn [isEmpty].
    destruct (match JS.last (String c0 tl) with Some c => Path.isSlash c | None => false end);
      by destruct (Path.isSlash c0).
Qed.

Lemma join_nonempty a b : Path.join a b <> EmptyString.
Proof.
  unfold Path.join. destruct (isEmpty a), (isEmpty b); try done; apply normalize_nonempty.
Qed.

Lemma relativeCandidates_nonempty basePath :
  Forall (fun c => c <> EmptyString) (ModuleResolver.relativeCandidates basePath).
Proof.
  unfold ModuleResolver.relativeCandidates.
  repeat constructor; first [by apply append_nonempty_r | apply join_nonempty].
Qed.

Lemma packageCandidates_nonempty packagePath :
  Forall (fun c => c <> EmptyString) (ModuleResolver.packageCandidates packagePath).
Proof.
  unfold ModuleResolver.packageCandidates.
  repeat constructor; first [by apply append_nonempty_r | apply join_nonempty].
Qed.

Lemma firstExisting_In h candidates p :
  ModuleResolver.firstExisting h candidates = Some p -> In p candidates.
Proof. intros H. by apply List.find_some in H as [H _]. Qed.

Lemma resolveInNodeModules_nonempty h modulePath nodeModulesPath p :
  ModuleResolver.resolveInNodeModules h modulePath nodeModulesPath = Returned (Some p) ->
  p <> EmptyString.
Proof.
  unfold ModuleResolver.resolveInNodeModules, ModuleResolver.manifestEntry.
  assert (Hcand : ModuleResolver.firstExisting h
                    (ModuleResolver.packageCandidates (Path.join nodeModulesPath modulePath))
                  = Some p -> p <> EmptyString).
  { intros H. apply firstExisting_In in H.
    pose proof (packageCandidates_nonempty (Path.join nodeModulesPath modulePath)) as Hc.
    rewrite List.Forall_forall in Hc. auto. }
  destruct (fileExists h (Path.join (Path.join nodeModulesPath modulePath) "package.json"));
    [|intros H; apply Hcand; congruence].
  destruct (readPackageJson h _) as [pj|]; [|intros H; apply Hcand; congruence].
  cbv zeta.
  destruct (ModuleResolver.isTruthy (ModuleResolver.sassEntry pj));
    [|intros H; apply Hcand; congruence].
  destruct (ModuleResolver.sassEntry pj) as [[e| |]|];
    cbn [ModuleResolver.joinEntry]; try discriminate.
  destruct (fileExists h (Path.join _ e)).
  - intros [= <-]. apply join_nonempty.
  - intros H; apply Hcand; congruence.
Qed.

Lemma walkUp_nonempty h modulePath workspaceRoot fuel currentDir p :
  ModuleResolver.walkUp fuel h modulePath workspaceRoot currentDir = Returned (Some p) ->
  p <> EmptyString.
Proof.
  revert currentDir; induction fuel as [|fuel IH]; intros currentDir; [done|].
  simpl.
  destruct (fileExists h _).
  - destruct (ModuleResolver.resolveInNodeModules h _ _) as [[r|]| |] eqn:E;
      try discriminate.
    + intros [= <-]. by eapply resolveInNodeModules_nonempty.
    + destruct (_ || _); [done | apply IH].
  - destruct (_ || _); [done | apply IH].
Qed.

(** A manifest that the host holds, that parses, and whose entry JavaScript
    takes as true although it is no text. *)
Lemma manifestEntry_thrown h packagePath :
  ModuleResolver.manifestEntry h packagePath = Thrown ->
  nonTextEntry h (Path.join packagePath "package.json").
Proof.
  unfold ModuleResolver.manifestEntry, nonTextEntry.
  destruct (fileExists h _) eqn:Ef; [|discriminate].
  destruct (readPackageJson h _) as [pj|] eqn:Er; [|discriminate]. cbv zeta.
  destruct (ModuleResolver.isTruthy (ModuleResolver.sassEntry pj)) eqn:Et; [|discriminate].
  destruct (ModuleResolver.sassEntry pj) as [[e| |]|] eqn:Ee;
    cbn [ModuleResolver.joinEntry]; try discriminate.
  intros _. split; [done|]. by exists pj.
Qed.

Lemma walkUp_thrown h modulePath workspaceRoot fuel currentDir :
  ModuleResolver.walkUp fuel h modulePath workspaceRoot currentDir = Thrown ->
  exists nodeModulesPath,
    nonTextEntry h
      (Path.join (Path.join nodeModulesPath modulePath) "package.json").
Proof.
  revert currentDir; induction fuel as [|fuel IH]; intros currentDir; [done|].
  simpl.
  destruct (fileExists h _).
  - destruct (ModuleResolver.resolveInNodeModules h _ _) as [[r|]| |] eqn:E;
      try discriminate.
    + destruct (_ || _); [done | apply IH].
    + intros _. exists (Path.join currentDir "node_modules").
      apply manifestEntry_thrown.
      unfold ModuleResolver.resolveInNodeModules in E.
      by destruct (ModuleResolver.manifestEntry h _) as [[e|]| |].
  - destruct (_ || _); [done | apply IH].
Qed.

Lemma resolveModule_thrown h modulePath currentFilePath workspaceRoot :
  ModuleResolver.resolveModule h modulePath currentFilePath workspaceRoot = Thrown ->
  startsWith "sass:" modulePath = false
  /\ startsWith "./" modulePath = false
  /\ startsWith "../" modulePath = false
  /\ exists nodeModulesPath,
       nonTextEntry h
         (Path.join (Path.join nodeModulesPath modulePath) "package.json").
Proof.
  unfold ModuleResolver.resolveModule.
  destruct (startsWith "sass:" modulePath); [done|].
  destruct (startsWith "./" modulePath); [done|].
  destruct (startsWith "../" modulePath); [done|]. simpl.
  intros H. repeat split. by eapply walkUp_thrown.
Qed.

Lemma resolveModule_nonempty h modulePath currentFilePath workspaceRoot p :
  ModuleResolver.resolveModule h modulePath currentFilePath workspaceRoot
  = Returned (Some p) ->
  p <> EmptyString.
Proof.
  unfold ModuleResolver.resolveModule.
  destruct (startsWith "sass:" modulePath); [done|].
  destruct (_ || _).
  - intros [= H]. apply firstExisting_In in H.
    pose proof (relativeCandidates_nonempty
                  (Path.resolve (cwd h) (Path.dirname currentFilePath) modulePath)) as Hc.
    rewrite List.Forall_forall in Hc. auto.
  - apply walkUp_nonempty.
Qed.

(** X1. Module resolution comes to an end on every module path, current
    file and workspace root, also when the root is not above the file: the
    walk towards the root of the file system returns or throws, it does not
    go on for ever. A path it returns is never the empty text and
    [fileExists] holds for it. A built-in [sass:] module is never resolved,
    and a relative path ([./], [../]) always returns, whatever the files of
    the host. It throws only for a package path, on a manifest
    [<dir>/node_modules/<module path>/package.json] that exists, parses and
    holds under [sass] (or else [style]) a value that JavaScript takes as
    true and that is no text, which [path.join] refuses; on a host without
    such a manifest it returns. *)
Theorem resolveModule_returns_existing_files
    (h : Host) (modulePath currentFilePath workspaceRoot : string) :
  let result :=
    ModuleResolver.resolveModule h modulePath currentFilePath workspaceRoot in
  result <> Exhausted
  /\ (forall p, result = Returned (Some p) ->
                fileExists h p = true /\ p <> EmptyString)
  /\ (startsWith "sass:" modulePath = true -> result = Returned None)
  /\ (startsWith "./" modulePath = true \/ startsWith "../" modulePath = true ->
      exists r, result = Returned r)
  /\ (result = Thrown ->
      startsWith "sass:" modulePath = false
      /\ startsWith "./" modulePath = false
      /\ startsWith "../" modulePath = false
      /\ exists nodeModulesPath,
           nonTextEntry h
             (Path.join (Path.join nodeModulesPath modulePath) "package.json"))
  /\ ((forall manifestPath, ~ nonTextEntry h manifestPath) ->
      exists r, result = Returned r).
Proof.
  intros result.
  pose proof (resolveModule_total h modulePath currentFilePath workspaceRoot) as Htotal.
  pose proof (resolveModule_thrown h modulePath currentFilePath workspaceRoot) as Hthrown.
  fold result in Htotal, Hthrown.
  split; [done|]. split; [|split; [|split; [|split; [done|]]]].
  - intros p Hp. split.
    + apply fileExists_entries. by eapply resolveModule_exists.
    + by eapply resolveModule_nonempty.
  - intros Hb. unfold result, ModuleResolver.resolveModule. by rewrite Hb.
  - intros Hrel. destruct result as [r| |] eqn:E; [by exists r| |done].
    destruct (Hthrown eq_refl) as (_ & H1 & H2 & _). destruct Hrel; congruence.
  - intros Hnone. destruct result as [r| |] eqn:E; [by exists r| |done].
    destruct (Hthrown eq_refl) as (_ & _ & _ & nm & Hnm). by destruct (Hnone _ Hnm).
Qed.

(** A host on which resolution throws: the manifest of the package holds
    [true] under [sass]. *)
Example non_text_manifest_entry_throws :
  let h := {| entries := list_to_set ["/w"; "/w/node_modules"; "/w/node_modules/pkg";
                                      "/w/node_modules/pkg/package.json";
                                      "/w/node_modules/pkg/index.scss"];
              texts := {[ "/w/node_modules/pkg/package.json" := "manifest" ]};
              cwd := "/w";
              JSON_parse := fun _ => Some (SassPackageJson.mk (Some JsonTruthy) None) |} in
  ModuleResolver.resolveModule h "pkg" "/w/src/main.scss" "/w" = Thrown
  /\ nonTextEntry h "/w/node_modules/pkg/package.json".
Proof.
  split; [vm_compute; reflexivity|].
  split; [vm_compute; reflexivity|].
  exists (SassPackageJson.mk (Some JsonTruthy) None). split; vm_compute; reflexivity.
Qed.

(** X2. For a current file given by an absolute path, as the editor gives
    it, module resolution does not depend on the working directory of the
    process: [path.resolve] never reaches it. *)
Theorem resolveModule_ignores_working_directory
    (h : Host) (dir modulePath currentFilePath workspaceRoot : string) :
  startsWith "/" currentFilePath = true ->
  ModuleResolver.resolveModule (withCwd h dir) modulePath currentFilePath workspaceRoot
  = ModuleResolver.resolveModule h modulePath currentFilePath workspaceRoot.
Proof.
  intros Habs. unfold ModuleResolver.resolveModule.
  destruct (startsWith "sass:" modulePath); [done|].
  destruct (_ || _).
  - unfold ModuleResolver.resolveRelativePath. cbv zeta. simpl cwd.
    by rewrite (resolve_absolute_directory dir (cwd h)) by by apply dirname_absolute.
  - apply walkUp_withCwd.
Qed.

Lemma resolveModule_ignores_working_directory_witness :
  startsWith "/" Scenario.main = true
  /\ ModuleResolver.resolveModule (withCwd Scenario.useHost "/elsewhere/deep")
       "./a" Scenario.main Scenario.root
     = Returned (Some Scenario.fileA).
Proof.
  split; [reflexivity|].
  rewrite (resolveModule_ignores_working_directory Scenario.useHost "/elsewhere/deep"
             "./a" Scenario.main Scenario.root); [|reflexivity].
  vm_compute. reflexivity.
Defined.

(** ** Statements: writing and parsing *)

Lemma span_app p r rest :
  allChars p r = true -> stopsAt p rest -> span p (r +:+ rest) = (r, rest).
Proof.
  intros Hr Hrest. induction r as [|c r IH]; simpl in *.
  - destruct rest as [|c rest]; simpl in *; [done|]. by rewrite Hrest.
  - apply andb_prop in Hr as [-> Hr]. by rewrite IH.
Qed.

Lemma lit_app l s : lit l (l +:+ s) = Some s.
Proof. induction l as [|a l IH]; simpl; [done|]. by rewrite Ascii.eqb_refl. Qed.

Lemma append_assoc a b c : (a +:+ b) +:+ c = a +:+ (b +:+ c).
Proof. induction a as [|x a IH]; [done|]. exact (f_equal (String x) IH). Qed.

Lemma append_cons x a b : String x a +:+ b = String x (a +:+ b).
Proof. reflexivity. Qed.

Lemma append_empty_l b : "" +:+ b = b.
Proof. reflexivity. Qed.

(** Both sides of an equation between concatenations, brought to the form
    in which every append is nested to the right of a character. *)
Ltac normalize_append :=
  repeat first [rewrite append_assoc | rewrite append_cons | rewrite append_empty_l].

Lemma append_empty_r a : a +:+ "" = a.
Proof. induction a as [|x a IH]; [done|]. exact (f_equal (String x) IH). Qed.

Lemma length_append a b : String.length (a +:+ b) = String.length a + String.length b.
Proof. induction a as [|c a IH]; simpl; auto. Qed.

Lemma consumed_append pre rest : consumed (pre +:+ rest) rest = String.length pre.
Proof. unfold consumed. rewrite length_append. lia. Qed.

Lemma nameChar_not_space c : isNameChar c = true -> isSpace c = false.
Proof. destruct c as [[] [] [] [] [] [] [] []]; vm_compute; congruence. Qed.

Lemma nameChar_not_quote c : isNameChar c = true -> isQuote c = false.
Proof. destruct c as [[] [] [] [] [] [] [] []]; vm_compute; congruence. Qed.

Lemma scanFrom_skip {A} (m : Matcher A) s idx k :
  k <= String.length s -> scanFrom m s idx k = scanFrom m (JS.drop k s) (idx + k) 0.
Proof.
  revert s idx; induction k as [|k IH]; intros s idx Hk.
  - by rewrite Nat.add_0_r.
  - destruct s as [|c s]; simpl in Hk; [lia|]. simpl.
    rewrite IH by lia. f_equal. lia.
Qed.

Lemma scanFrom_none {A} (m : Matcher A) s idx :
  (forall k, m (JS.drop k s) = None) -> scanFrom m s idx 0 = [].
Proof.
  revert idx; induction s as [|c s IH]; intros idx H.
  - pose proof (H 0) as H0. simpl in *. by rewrite H0.
  - pose proof (H 0) as H0. simpl in *. rewrite H0. apply IH. intros k. apply (H (S k)).
Qed.

Lemma matchAll_single {A} (m : Matcher A) pre rest a :
  pre <> EmptyString ->
  m (pre +:+ rest) = Some (a, String.length pre) ->
  (forall k, m (JS.drop k rest) = None) ->
  matchAll m (pre +:+ rest) = [(0, a)].
Proof.
  intros Hpre Hm Hrest. unfold matchAll.
  destruct pre as [|c pre]; [done|]. 
  change (String c pre +:+ rest) with (String c (pre +:+ rest)) in *.
  cbn [scanFrom]. rewrite Hm. f_equal. simpl String.length. simpl Nat.pred.
  rewrite scanFrom_skip by (rewrite length_append; lia).
  rewrite drop_append. by apply scanFrom_none.
Qed.

Lemma allChars_app p a b : allChars p (a +:+ b) = allChars p a && allChars p b.
Proof.
  induction a as [|c a IH]; [done|].
  rewrite append_cons. cbn [allChars]. by rewrite IH, andb_assoc.
Qed.

Lemma allChars_impl (p q : ascii -> bool) s :
  (forall c, p c = true -> q c = true) -> allChars p s = true -> allChars q s = true.
Proof.
  intros Hpq. induction s as [|c s IH]; simpl; [done|].
  intros [Hc Hs]%andb_prop. by rewrite (Hpq c Hc), IH.
Qed.

Lemma split_no_separator sep s :
  allChars (fun c => negb (Ascii.eqb c sep)) s = true -> split sep s = [s].
Proof.
  induction s as [|c s IH]; simpl; [done|].
  intros [Hc Hs]%andb_prop. apply negb_true_iff in Hc. rewrite Hc, IH; done.
Qed.

Lemma trim_keeps_first c s :
  isSpace c = false -> exists t, trim (String c s) = String c t.
Proof. intros Hc. unfold trim. simpl. rewrite Hc. simpl. rewrite Hc. simpl. eauto. Qed.

Lemma at_line_is_no_comment s : startsWith "//" (trim (String "@" s)) = false.
Proof. destruct (trim_keeps_first "@" s eq_refl) as [t ->]. reflexivity. Qed.

Lemma nameChar_not_LF c : isNameChar c = true -> notLF c = true.
Proof. destruct c as [[] [] [] [] [] [] [] []]; vm_compute; congruence. Qed.

Lemma nameChar_not_at c : isNameChar c = true -> negb (isChar 64 c) = true.
Proof. destruct c as [[] [] [] [] [] [] [] []]; vm_compute; congruence. Qed.

Lemma quote_not_LF c : isQuote c = true -> notLF c = true.
Proof. destruct c as [[] [] [] [] [] [] [] []]; vm_compute; congruence. Qed.

Lemma quote_not_space c : isQuote c = true -> isSpace c = false.
Proof. destruct c as [[] [] [] [] [] [] [] []]; vm_compute; congruence. Qed.

Lemma nonempty_first p s :
  s <> EmptyString -> allChars p s = true -> exists c t, s = String c t /\ p c = true.
Proof. destruct s as [|c t]; [done|]. simpl. intros _ [Hc _]%andb_prop. eauto. Qed.

Lemma isEmpty_false s : s <> EmptyString -> isEmpty s = false.
Proof. by destruct s. Qed.

Lemma quoted_path q1 q2 path rest :
  isQuote q1 = true -> isQuote q2 = true ->
  path <> EmptyString -> allChars (fun c => negb (isQuote c)) path = true ->
  quoted (String q1 (path +:+ String q2 rest)) = Some (path, rest).
Proof.
  intros H1 H2 Hne Hp. unfold quoted. rewrite H1.
  rewrite span_app; [|done|by simpl; rewrite H2].
  by rewrite isEmpty_false.
Qed.

Lemma spaces1_single rest :
  stopsAt isSpace rest -> spaces1 (" " +:+ rest) = Some rest.
Proof. intros H. unfold spaces1. by rewrite (span_app isSpace " " rest). Qed.

Lemma stopsAt_nameChars p s rest :
  (forall c, isNameChar c = true -> p c = false) ->
  s <> EmptyString -> allChars isNameChar s = true -> stopsAt p (s +:+ rest).
Proof.
  intros Hp Hne Hs. destruct (nonempty_first _ _ Hne Hs) as (c & t & -> & Hc).
  simpl. by apply Hp.
Qed.

Lemma asNamespace_text namespace rest :
  namespace <> EmptyString -> allChars isNameChar namespace = true ->
  stopsAt isNameChar rest ->
  asNamespace (" as " +:+ namespace +:+ rest) = Some (namespace, rest).
Proof.
  intros Hne Hn Hrest. unfold asNamespace.
  change (" as " +:+ namespace +:+ rest) with (" " +:+ "as" +:+ " " +:+ namespace +:+ rest).
  rewrite spaces1_single by done. rewrite lit_app.
  rewrite spaces1_single by (by apply stopsAt_nameChars; [apply nameChar_not_space|..]).
  rewrite span_app by done. by rewrite isEmpty_false.
Qed.

Lemma last_snoc s c : JS.last (s +:+ String c EmptyString) = Some c.
Proof.
  induction s as [|x s IH]; [done|]. rewrite append_cons. cbn [JS.last].
  destruct (s +:+ String c "") eqn:E; [by destruct s | done].
Qed.

Lemma asPrefix_text stem rest :
  stem <> EmptyString -> allChars isNameChar stem = true ->
  asPrefix (" as " +:+ (stem +:+ "-") +:+ String "*" rest) = Some (stem +:+ "-", rest).
Proof.
  intros Hne Hs. unfold asPrefix.
  assert (Hp : allChars isNameChar (stem +:+ "-") = true) by by rewrite allChars_app, Hs.
  assert (Hpne : stem +:+ "-" <> EmptyString) by by destruct stem.
  change (" as " +:+ ?x) with (" " +:+ "as" +:+ " " +:+ x).
  rewrite spaces1_single by done. rewrite lit_app.
  rewrite spaces1_single by (by apply stopsAt_nameChars; [apply nameChar_not_space|..]).
  rewrite span_app by done.
  rewrite last_snoc, length_append.
  destruct stem as [|c stem]; [done|].
  cbn [String.length]. rewrite Nat.add_1_r. reflexivity.
Qed.

Lemma asPrefix_without_hyphen stem rest :
  stem <> EmptyString -> allChars isNameChar stem = true ->
  JS.last stem <> Some "-"%char ->
  asPrefix (" as " +:+ stem +:+ String "*" rest) = None.
Proof.
  intros Hne Hs Hlast. unfold asPrefix.
  change (" as " +:+ ?x) with (" " +:+ "as" +:+ " " +:+ x).
  rewrite spaces1_single by done. rewrite lit_app.
  rewrite spaces1_single by (by apply stopsAt_nameChars; [apply nameChar_not_space|..]).
  rewrite span_app by done.
  destruct (JS.last stem) as [c|]; [|done].
  destruct (isChar 45 c) eqn:Ec; [|done].
  exfalso. apply Hlast. f_equal.
  destruct c as [[] [] [] [] [] [] [] []]; try discriminate Ec. reflexivity.
Qed.

Lemma pattern_none_without_at {A} (m : Matcher A) s :
  (forall c t, isChar 64 c = false -> m (String c t) = None) -> m EmptyString = None ->
  allChars (fun c => negb (isChar 64 c)) s = true -> forall k, m (JS.drop k s) = None.
Proof.
  intros Hm H0 Hs k. revert s Hs; induction k as [|k IH]; intros s Hs.
  - destruct s as [|c s]; [done|]. simpl in *. apply andb_prop in Hs as [Hc _].
    apply Hm. by apply negb_true_iff.
  - destruct s as [|c s]; [done|]. simpl in *. apply andb_prop in Hs as [_ Hs]. by apply IH.
Qed.

Lemma USE_PATTERN_none_without_at s :
  allChars (fun c => negb (isChar 64 c)) s = true -> forall k, USE_PATTERN (JS.drop k s) = None.
Proof.
  apply pattern_none_without_at; [|done].
  intros c t Hc. unfold USE_PATTERN. simpl.
  destruct c as [[] [] [] [] [] [] [] []]; try done.
Qed.

Lemma FORWARD_PATTERN_none_without_at s :
  allChars (fun c => negb (isChar 64 c)) s = true ->
  forall k, FORWARD_PATTERN (JS.drop k s) = None.
Proof.
  apply pattern_none_without_at; [|done].
  intros c t Hc. unfold FORWARD_PATTERN. simpl.
  destruct c as [[] [] [] [] [] [] [] []]; try done.
Qed.

Lemma parseUseStatements_line s :
  allChars notLF s = true ->
  UseResolver.parseUseStatements (String "@" s)
  = map (fun '(_, (path, ns)) =>
           UseStatement.mk path
             (match ns with
              | Some namespace => namespace
              | None => UseResolver.extractDefaultNamespace path
              end) 0)
        (matchAll USE_PATTERN (String "@" s)).
Proof.
  intros Hs. unfold UseResolver.parseUseStatements.
  rewrite split_no_separator by done.
  cbn [enumerate enumerateFrom flat_map]. rewrite at_line_is_no_comment.
  by rewrite app_nil_r.
Qed.

Lemma parseForwardStatements_line s :
  allChars notLF s = true ->
  parseForwardStatements (String "@" s)
  = map (fun '(_, (path, prefix)) => ForwardStatement.mk path prefix 0)
        (matchAll FORWARD_PATTERN (String "@" s)).
Proof.
  intros Hs. unfold parseForwardStatements.
  rewrite split_no_separator by done.
  cbn [enumerate enumerateFrom flat_map]. rewrite at_line_is_no_comment.
  by rewrite app_nil_r.
Qed.

Lemma pathChars_split path :
  allChars pathChar path = true ->
  allChars (fun c => negb (isQuote c)) path = true /\ allChars notLF path = true.
Proof.
  intros Hp. split; revert Hp; apply allChars_impl; by intros c [? ?]%andb_prop.
Qed.

(** X3. Writing a [@use] statement and parsing it gives the statement back:
    for a non-empty path without quote characters and an alias drawn from
    word characters and hyphens, the line [@use Q path Q as alias;] parses to
    the one statement with that path and that namespace on line 0, and
    [findUseByNamespace] finds it under the alias; without the [as] clause
    the namespace is the default namespace of the path. The two quote
    characters need not be the same one. *)
Theorem use_statement_round_trip (q1 q2 : ascii) (path namespace : string) :
  isQuote q1 = true -> isQuote q2 = true ->
  path <> EmptyString -> allChars pathChar path = true ->
  namespace <> EmptyString -> allChars isNameChar namespace = true ->
  UseResolver.parseUseStatements (useText q1 q2 path (Some namespace))
  = [UseStatement.mk path namespace 0]
  /\ UseResolver.findUseByNamespace (useText q1 q2 path (Some namespace)) namespace
     = Some (UseStatement.mk path namespace 0)
  /\ UseResolver.parseUseStatements (useText q1 q2 path None)
     = [UseStatement.mk path (UseResolver.extractDefaultNamespace path) 0].
Proof.
  intros H1 H2 Hpne Hp Hnne Hn.
  destruct (pathChars_split _ Hp) as [HpQ HpL].
  assert (HnL : allChars notLF namespace = true).
  { revert Hn. apply allChars_impl, nameChar_not_LF. }
  assert (Hparse : UseResolver.parseUseStatements (useText q1 q2 path (Some namespace))
                   = [UseStatement.mk path namespace 0]).
  { unfold useText, statementText.
    change ("@use " +:+ ?x) with (String "@" ("use " +:+ x)).
    rewrite parseUseStatements_line.
    2:{ rewrite allChars_app. cbn [allChars]. rewrite (quote_not_LF q1 H1).
        rewrite allChars_app, HpL. cbn [allChars]. rewrite (quote_not_LF q2 H2).
        rewrite !allChars_app, HnL. reflexivity. }
    change (String "@" ("use " +:+ ?x)) with ("@use " +:+ x).
    set (pre := "@use " +:+ String q1 (path +:+ String q2 (" as " +:+ namespace))).
    replace ("@use " +:+ String q1 (path +:+ String q2 ((" as " +:+ namespace) +:+ ";")))
      with (pre +:+ ";") by (unfold pre; normalize_append; reflexivity).
    assert (Hm : USE_PATTERN (pre +:+ ";") = Some ((path, Some namespace), String.length pre)).
    { replace (pre +:+ ";") with
        ("@use" +:+ " " +:+ String q1 (path +:+ String q2 (" as " +:+ namespace +:+ ";")))
        by (unfold pre; normalize_append; reflexivity).
      unfold USE_PATTERN. rewrite lit_app.
      rewrite spaces1_single by (simpl; by apply quote_not_space).
      rewrite quoted_path by done.
      rewrite asNamespace_text by done.
      do 2 f_equal.
      replace ("@use" +:+ " " +:+ String q1 (path +:+ String q2 (" as " +:+ namespace +:+ ";")))
        with (pre +:+ ";") by (unfold pre; normalize_append; reflexivity).
      apply consumed_append. }
    rewrite (fun H => matchAll_single USE_PATTERN _ ";" _ H Hm
                        (USE_PATTERN_none_without_at ";" eq_refl)); [reflexivity|].
    discriminate. }
  split; [exact Hparse|]. split.
  - unfold UseResolver.findUseByNamespace. rewrite Hparse. simpl. by rewrite String.eqb_refl.
  - unfold useText, statementText.
    change ("@use " +:+ ?x) with (String "@" ("use " +:+ x)).
    rewrite parseUseStatements_line.
    2:{ rewrite allChars_app. cbn [allChars]. rewrite (quote_not_LF q1 H1).
        rewrite allChars_app, HpL. cbn [allChars]. rewrite (quote_not_LF q2 H2).
        reflexivity. }
    change (String "@" ("use " +:+ ?x)) with ("@use " +:+ x).
    set (pre := "@use " +:+ String q1 (path +:+ String q2 "")).
    replace ("@use " +:+ String q1 (path +:+ String q2 ("" +:+ ";")))
      with (pre +:+ ";") by (unfold pre; normalize_append; reflexivity).
    assert (Hm : USE_PATTERN (pre +:+ ";") = Some ((path, None), String.length pre)).
    { replace (pre +:+ ";") with
        ("@use" +:+ " " +:+ String q1 (path +:+ String q2 ";"))
        by (unfold pre; normalize_append; reflexivity).
      unfold USE_PATTERN. rewrite lit_app.
      rewrite spaces1_single by (simpl; by apply quote_not_space).
      rewrite quoted_path by done.
      change (asNamespace ";") with (@None (string * string)). cbv iota.
      do 2 f_equal.
      replace ("@use" +:+ " " +:+ String q1 (path +:+ String q2 ";"))
        with (pre +:+ ";") by (unfold pre; normalize_append; reflexivity).
      apply consumed_append. }
    rewrite (fun H => matchAll_single USE_PATTERN _ ";" _ H Hm
                        (USE_PATTERN_none_without_at ";" eq_refl)); [reflexivity|].
    discriminate.
Qed.

Lemma use_statement_round_trip_witness :
  UseResolver.parseUseStatements (useText dquote "'" "./components/button" (Some "btn"))
  = [UseStatement.mk "./components/button" "btn" 0]
  /\ UseResolver.parseUseStatements (useText dquote dquote "@example/_styles.scss" None)
     = [UseStatement.mk "@example/_styles.scss" "styles" 0].
Proof.
  split.
  - apply (use_statement_round_trip dquote "'" "./components/button" "btn");
      first [reflexivity | discriminate].
  - apply (use_statement_round_trip dquote dquote "@example/_styles.scss" "x");
      first [reflexivity | discriminate].
Defined.

Lemma forward_line_chars q1 q2 path clause :
  isQuote q1 = true -> isQuote q2 = true ->
  allChars notLF path = true -> allChars notLF clause = true ->
  allChars notLF ("forward " +:+ String q1 (path +:+ String q2 (clause +:+ ";"))) = true.
Proof.
  intros H1 H2 Hp Hc.
  rewrite allChars_app. cbn [allChars]. rewrite (quote_not_LF q1 H1).
  rewrite allChars_app, Hp. cbn [allChars]. rewrite (quote_not_LF q2 H2).
  rewrite allChars_app, Hc. reflexivity.
Qed.

(** X4. Writing a [@forward] statement and parsing it gives the statement
    back: with the clause [as stem-*] the prefix is the stem with its
    hyphen, without a clause there is none. *)
Theorem forward_statement_round_trip (q1 q2 : ascii) (path stem : string) :
  isQuote q1 = true -> isQuote q2 = true ->
  path <> EmptyString -> allChars pathChar path = true ->
  stem <> EmptyString -> allChars isNameChar stem = true ->
  parseForwardStatements (forwardText q1 q2 path (Some (stem +:+ "-")))
  = [ForwardStatement.mk path (Some (stem +:+ "-")) 0]
  /\ parseForwardStatements (forwardText q1 q2 path None)
     = [ForwardStatement.mk path None 0].
Proof.
  intros H1 H2 Hpne Hp Hsne Hs.
  destruct (pathChars_split _ Hp) as [HpQ HpL].
  assert (HsL : allChars notLF stem = true).
  { revert Hs. apply allChars_impl, nameChar_not_LF. }
  split.
  - unfold forwardText, statementText.
    change ("@forward " +:+ ?x) with (String "@" ("forward " +:+ x)).
    rewrite parseForwardStatements_line.
    2:{ apply forward_line_chars; try done. by rewrite !allChars_app, HsL. }
    change (String "@" ("forward " +:+ ?x)) with ("@forward " +:+ x).
    set (pre := "@forward " +:+ String q1 (path +:+ String q2 (" as " +:+ (stem +:+ "-") +:+ "*"))).
    replace ("@forward " +:+ String q1 (path +:+ String q2 ((" as " +:+ (stem +:+ "-") +:+ "*") +:+ ";")))
      with (pre +:+ ";") by (unfold pre; normalize_append; reflexivity).
    assert (Hm : FORWARD_PATTERN (pre +:+ ";")
                 = Some ((path, Some (stem +:+ "-")), String.length pre)).
    { replace (pre +:+ ";") with
        ("@forward" +:+ " " +:+
           String q1 (path +:+ String q2 (" as " +:+ (stem +:+ "-") +:+ String "*" ";")))
        by (unfold pre; normalize_append; reflexivity).
      unfold FORWARD_PATTERN. rewrite lit_app.
      rewrite spaces1_single by (simpl; by apply quote_not_space).
      rewrite quoted_path by done.
      rewrite asPrefix_text by done.
      do 2 f_equal.
      replace ("@forward" +:+ " " +:+
                 String q1 (path +:+ String q2 (" as " +:+ (stem +:+ "-") +:+ String "*" ";")))
        with (pre +:+ ";") by (unfold pre; normalize_append; reflexivity).
      apply consumed_append. }
    rewrite (fun H => matchAll_single FORWARD_PATTERN _ ";" _ H Hm
                        (FORWARD_PATTERN_none_without_at ";" eq_refl)); [reflexivity|].
    discriminate.
  - unfold forwardText, statementText.
    change ("@forward " +:+ ?x) with (String "@" ("forward " +:+ x)).
    rewrite parseForwardStatements_line by by apply forward_line_chars.
    change (String "@" ("forward " +:+ ?x)) with ("@forward " +:+ x).
    set (pre := "@forward " +:+ String q1 (path +:+ String q2 "")).
    replace ("@forward " +:+ String q1 (path +:+ String q2 ("" +:+ ";")))
      with (pre +:+ ";") by (unfold pre; normalize_append; reflexivity).
    assert (Hm : FORWARD_PATTERN (pre +:+ ";") = Some ((path, None), String.length pre)).
    { replace (pre +:+ ";") with
        ("@forward" +:+ " " +:+ String q1 (path +:+ String q2 ";"))
        by (unfold pre; normalize_append; reflexivity).
      unfold FORWARD_PATTERN. rewrite lit_app.
      rewrite spaces1_single by (simpl; by apply quote_not_space).
      rewrite quoted_path by done.
      change (asPrefix ";") with (@None (string * string)). cbv iota.
      do 2 f_equal.
      replace ("@forward" +:+ " " +:+ String q1 (path +:+ String q2 ";"))
        with (pre +:+ ";") by (unfold pre; normalize_append; reflexivity).
      apply consumed_append. }
    rewrite (fun H => matchAll_single FORWARD_PATTERN _ ";" _ H Hm
                        (FORWARD_PATTERN_none_without_at ";" eq_refl)); [reflexivity|].
    discriminate.
Qed.

Lemma forward_statement_round_trip_witness :
  parseForwardStatements (forwardText dquote dquote "./src/list" (Some "list-"))
  = [ForwardStatement.mk "./src/list" (Some "list-") 0].
Proof.
  apply (forward_statement_round_trip dquote dquote "./src/list" "list");
    first [reflexivity | discriminate].
Defined.

(** X5. An [as] clause whose stem does not end with a hyphen is not taken
    as a prefix: [@forward Q path Q as stem*;] parses as the re-export of
    the path without a prefix, so its members are forwarded under their own
    names. *)
Theorem forward_as_without_hyphen_is_unprefixed (q1 q2 : ascii) (path stem : string) :
  isQuote q1 = true -> isQuote q2 = true ->
  path <> EmptyString -> allChars pathChar path = true ->
  stem <> EmptyString -> allChars isNameChar stem = true ->
  JS.last stem <> Some "-"%char ->
  parseForwardStatements (forwardText q1 q2 path (Some stem))
  = [ForwardStatement.mk path None 0].
Proof.
  intros H1 H2 Hpne Hp Hsne Hs Hlast.
  destruct (pathChars_split _ Hp) as [HpQ HpL].
  assert (HsL : allChars notLF stem = true).
  { revert Hs. apply allChars_impl, nameChar_not_LF. }
  assert (HsA : allChars (fun c => negb (isChar 64 c)) stem = true).
  { revert Hs. apply allChars_impl, nameChar_not_at. }
  unfold forwardText, statementText.
  change ("@forward " +:+ ?x) with (String "@" ("forward " +:+ x)).
  rewrite parseForwardStatements_line.
  2:{ apply forward_line_chars; try done. by rewrite !allChars_app, HsL. }
  change (String "@" ("forward " +:+ ?x)) with ("@forward " +:+ x).
  set (pre := "@forward " +:+ String q1 (path +:+ String q2 "")).
  set (rest := " as " +:+ stem +:+ String "*" ";").
  replace ("@forward " +:+ String q1 (path +:+ String q2 ((" as " +:+ stem +:+ "*") +:+ ";")))
    with (pre +:+ rest) by (unfold pre, rest; normalize_append; reflexivity).
  assert (Hm : FORWARD_PATTERN (pre +:+ rest) = Some ((path, None), String.length pre)).
  { replace (pre +:+ rest) with
      ("@forward" +:+ " " +:+ String q1 (path +:+ String q2 rest))
      by (unfold pre; normalize_append; reflexivity).
    unfold FORWARD_PATTERN. rewrite lit_app.
    rewrite spaces1_single by (simpl; by apply quote_not_space).
    rewrite quoted_path by done.
    unfold rest at 1. rewrite asPrefix_without_hyphen by done.
    do 2 f_equal.
    replace ("@forward" +:+ " " +:+ String q1 (path +:+ String q2 rest))
      with (pre +:+ rest) by (unfold pre; normalize_append; reflexivity).
    apply consumed_append. }
  assert (Hrest : forall k, FORWARD_PATTERN (JS.drop k rest) = None).
  { apply FORWARD_PATTERN_none_without_at. unfold rest.
    change (" as " +:+ stem +:+ String "*" ";") with (" as " +:+ (stem +:+ String "*" ";")).
    by rewrite !allChars_app, HsA. }
  rewrite (fun H => matchAll_single FORWARD_PATTERN _ rest _ H Hm Hrest); [reflexivity|].
  discriminate.
Qed.

Lemma forward_as_without_hyphen_is_unprefixed_witness :
  parseForwardStatements (forwardText dquote dquote "./src/list" (Some "list_"))
  = [ForwardStatement.mk "./src/list" None 0].
Proof.
  apply (forward_as_without_hyphen_is_unprefixed dquote dquote "./src/list" "list_");
    first [reflexivity | discriminate].
Defined.

(** ** The default namespace *)

Lemma split_nonempty sep s : split sep s <> [].
Proof.
  destruct s as [|c s]; simpl; [done|].
  destruct (Ascii.eqb c sep); [done|]. by destruct (split sep s).
Qed.

Lemma split_app sep a b :
  split sep (a +:+ String sep b) = (split sep a ++ split sep b)%list.
Proof.
  induction a as [|c a IH].
  - rewrite append_empty_l. simpl. by rewrite Ascii.eqb_refl.
  - rewrite append_cons. cbn [split]. rewrite IH.
    destruct (Ascii.eqb c sep); [done|].
    pose proof (split_nonempty sep a). by destruct (split sep a).
Qed.

Lemma split_parts sep s :
  Forall (fun part => allChars (fun c => negb (Ascii.eqb c sep)) part = true) (split sep s).
Proof.
  induction s as [|c s IH]; simpl; [by repeat constructor|].
  destruct (Ascii.eqb c sep) eqn:E; [by constructor|].
  destruct (split sep s) as [|h t]; [by repeat constructor; simpl; rewrite E|].
  inversion IH as [|? ? Hh Ht]; subst. constructor; [|done]. simpl. by rewrite E.
Qed.

Lemma last_app_nonempty {A} (l1 l2 : list A) d :
  l2 <> [] -> List.last (l1 ++ l2) d = List.last l2 d.
Proof.
  intros H. induction l1 as [|x l1 IH]; [done|].
  simpl. destruct (l1 ++ l2)%list eqn:E; [|done].
  apply app_eq_nil in E as [_ ->]. done.
Qed.

Lemma allChars_drop p n s : allChars p s = true -> allChars p (JS.drop n s) = true.
Proof.
  revert s; induction n as [|n IH]; intros [|c s]; simpl; try done.
  intros [_ H]%andb_prop. by apply IH.
Qed.

Lemma allChars_take p n s : allChars p s = true -> allChars p (JS.take n s) = true.
Proof.
  revert s; induction n as [|n IH]; intros [|c s]; simpl; try done.
  intros [-> H]%andb_prop. by apply IH.
Qed.

Lemma take_append p s : JS.take (String.length p) (p +:+ s) = p.
Proof.
  induction p as [|c p IH]; [by destruct s|].
  rewrite append_cons. cbn [String.length JS.take]. by rewrite IH.
Qed.

Lemma endsWith_append p suffix :
  endsWith suffix (p +:+ suffix) = true.
Proof.
  unfold endsWith. rewrite length_append.
  replace (String.length p + String.length suffix - String.length suffix)
    with (String.length p) by lia.
  rewrite drop_append, String.eqb_refl.
  rewrite andb_true_r. apply Nat.leb_le. lia.
Qed.

Lemma endsWith_other p suffix other :
  String.length other = String.length suffix -> other <> suffix ->
  endsWith other (p +:+ suffix) = false.
Proof.
  intros Hlen Hne. unfold endsWith. rewrite length_append, Hlen.
  replace (String.length p + String.length suffix - String.length suffix)
    with (String.length p) by lia.
  rewrite drop_append. apply andb_false_iff. right.
  apply String.eqb_neq. congruence.
Qed.

(** X6. The default namespace of a partial: for a file name without a
    slash, the path [dir/_name.scss] (or [.sass]) has the default namespace
    [name]; the directory part, the underscore and one extension are
    stripped, whatever else the name contains. And no default namespace, of
    any path, contains a slash. *)
Theorem default_namespace_of_partial (dir name extension : string) :
  allChars notSlash name = true ->
  extension = ".scss" \/ extension = ".sass" ->
  UseResolver.extractDefaultNamespace (dir +:+ "/_" +:+ name +:+ extension) = name
  /\ forall path, allChars notSlash (UseResolver.extractDefaultNamespace path) = true.
Proof.
  intros Hname Hext. split.
  - unfold UseResolver.extractDefaultNamespace.
    change (dir +:+ "/_" +:+ name +:+ extension)
      with (dir +:+ String Path.slash ("_" +:+ name +:+ extension)).
    rewrite split_app, last_app_nonempty by apply split_nonempty.
    rewrite split_no_separator.
    2:{ change ("_" +:+ name +:+ extension) with ("_" +:+ (name +:+ extension)).
        rewrite !allChars_app. fold notSlash. rewrite Hname.
        by destruct Hext as [-> | ->]. }
    cbn [List.last].
    change (startsWith "sass:" ("_" +:+ name +:+ extension)) with false. cbv iota.
    replace ("_" +:+ name +:+ extension) with (("_" +:+ name) +:+ extension)
      by (normalize_append; reflexivity).
    assert (Hends : endsWith ".scss" (("_" +:+ name) +:+ extension)
                    || endsWith ".sass" (("_" +:+ name) +:+ extension) = true).
    { destruct Hext as [-> | ->].
      - by rewrite endsWith_append.
      - rewrite (endsWith_append _ ".sass"). apply orb_true_r. }
    rewrite Hends.
    assert (Hlen : String.length extension = 5) by by destruct Hext as [-> | ->].
    rewrite length_append, Hlen.
    replace (String.length ("_" +:+ name) + 5 - 5) with (String.length ("_" +:+ name)) by lia.
    rewrite take_append. by rewrite (prefix_startsWith "_" name).
  - intros path. unfold UseResolver.extractDefaultNamespace.
    set (lastPart := List.last (split Path.slash path) EmptyString).
    assert (Hlast : allChars notSlash lastPart = true).
    { unfold lastPart. pose proof (split_parts Path.slash path) as H.
      pose proof (split_nonempty Path.slash path) as Hne.
      induction H as [|x l Hx Hl IH]; [done|].
      destruct l as [|y l]; [exact Hx|]. apply IH. done. }
    set (withoutPrefix := if startsWith "sass:" lastPart then _ else _).
    assert (H1 : allChars notSlash withoutPrefix = true).
    { unfold withoutPrefix. destruct (startsWith "sass:" lastPart); [|done].
      by apply allChars_drop. }
    set (withoutExtension := if _ || _ then _ else _).
    assert (H2 : allChars notSlash withoutExtension = true).
    { unfold withoutExtension. destruct (_ || _); [|done]. by apply allChars_take. }
    destruct (startsWith "_" withoutExtension); [|done]. by apply allChars_drop.
Qed.

Lemma default_namespace_of_partial_witness :
  UseResolver.extractDefaultNamespace ("../theme/tokens" +:+ "/_" +:+ "a.b_colors" +:+ ".sass")
  = "a.b_colors".
Proof.
  apply (default_namespace_of_partial "../theme/tokens" "a.b_colors" ".sass");
    [reflexivity | by right].
Defined.

(** ** The parser of definitions *)

Lemma span_all p s : allChars p (fst (span p s)) = true.
Proof.
  induction s as [|c s IH]; simpl; [done|].
  destruct (p c) eqn:E; [|done]. destruct (span p s). simpl in *. by rewrite E.
Qed.

Lemma trimStart_fixed c s : isSpace c = false -> trimStart (String c s) = String c s.
Proof. intros H. simpl. by rewrite H. Qed.

Lemma trimStart_idempotent s : trimStart (trimStart s) = trimStart s.
Proof.
  induction s as [|c s IH]; simpl; [done|].
  destruct (isSpace c) eqn:E; [done|]. simpl. by rewrite E.
Qed.

Lemma trimEnd_idempotent s : trimEnd (trimEnd s) = trimEnd s.
Proof.
  induction s as [|c s IH]; simpl; [done|].
  destruct (isSpace c && isEmpty (trimEnd s)) eqn:E; [done|].
  simpl. rewrite IH, E. done.
Qed.

(** Trimming the end leaves a text that does not start with a space as one. *)
Lemma trimStart_trimEnd s :
  trimStart (trimEnd (trimStart s)) = trimEnd (trimStart s).
Proof.
  induction s as [|c s IH]; simpl; [done|].
  destruct (isSpace c) eqn:E; [done|].
  simpl. rewrite E. simpl. by rewrite E.
Qed.

Lemma trim_idempotent s : trim (trim s) = trim s.
Proof. unfold trim. by rewrite trimStart_trimEnd, trimEnd_idempotent. Qed.

(** X7. Looking a mixin up by name and enumerating the mixins of a file
    agree: [findMixinDefinition] returns the first definition, in the order
    of the enumeration with parameters, that carries the name, with the same
    position and the same parameters; and the enumeration without
    parameters lists the same definitions with [parameters] left out. *)
Theorem mixin_lookup_is_first_enumerated (content mixinName filePath : string) :
  SassParser.findMixinDefinition content mixinName filePath
  = List.find (fun d => String.eqb (MixinDefinition.name d) mixinName)
      (SassParser.findAllMixinDefinitionsWithParams content filePath)
  /\ SassParser.findAllMixinDefinitions content filePath
     = map withoutParameters (SassParser.findAllMixinDefinitionsWithParams content filePath).
Proof.
  split.
  - unfold SassParser.findMixinDefinition, SassParser.findAllMixinDefinitionsWithParams.
    induction (SassParser.mixinMatches content) as [|[[l c] n] rest IH]; [done|].
    cbn [List.find map]. cbn [MixinDefinition.name].
    destruct (String.eqb_spec n mixinName) as [->|]; [done | exact IH].
  - unfold SassParser.findAllMixinDefinitions, SassParser.findAllMixinDefinitionsWithParams.
    rewrite List.map_map. apply List.map_ext. by intros [[? ?] ?].
Qed.

Lemma drop_cons_length i s c r : JS.drop i s = String c r -> i < String.length s.
Proof.
  revert s; induction i as [|i IH]; intros [|x s]; simpl; try done; try lia.
  intros H. apply IH in H. lia.
Qed.

(** The first match of a scan is the leftmost position at which the pattern
    matches. *)
Lemma scanFrom_first {A} (m : Matcher A) s idx i x :
  m (JS.drop i s) = Some x -> i <= String.length s ->
  exists j a rest, scanFrom m s idx 0 = (idx + j, a) :: rest /\ j <= i.
Proof.
  revert idx i. induction s as [|c s IH]; intros idx i Hm Hi.
  - simpl in Hi. assert (i = 0) as -> by lia. simpl in Hm. simpl. rewrite Hm.
    destruct x as [a len]. exists 0, a, []. split; [by rewrite Nat.add_0_r | lia].
  - cbn [scanFrom]. destruct (m (String c s)) as [[a len]|] eqn:E.
    + exists 0, a. eexists. split; [by rewrite Nat.add_0_r | lia].
    + destruct i as [|i]; [simpl in Hm; congruence|].
      simpl in Hm, Hi. destruct (IH (S idx) i Hm ltac:(lia)) as (j & a & rest & -> & Hj).
      exists (S j), a, rest. split; [f_equal; f_equal; lia | lia].
Qed.

Lemma VARIABLE_PATTERN_name s name len len' :
  VARIABLE_PATTERN s = Some ((name, len), len') ->
  exists x, variablePattern name s = Some x
    /\ startsWith "$" name = true /\ startsWith name s = true
    /\ 2 <= String.length name
    /\ allChars isMemberChar name = true.
Proof.
  unfold VARIABLE_PATTERN, variablePattern.
  destruct s as [|d s1]; [done|]. destruct (isChar 36 d) eqn:Ed; [|done].
  pose proof (span_append isNameChar s1) as Hs1.
  pose proof (span_all isNameChar s1) as Hall.
  destruct (span isNameChar s1) as [nm s2]. simpl in Hs1, Hall.
  destruct (isEmpty nm) eqn:En; [done|].
  destruct (span isSpace s2) as [ws s3] eqn:Ews.
  destruct s3 as [|c s4]; [done|]. destruct (isChar 58 c) eqn:Ec; [|done].
  intros [= <- <- <-]. cbn [lit]. rewrite Ascii.eqb_refl.
  assert (Hlit : lit nm s1 = Some s2) by (rewrite Hs1; apply lit_app).
  rewrite Hlit, Ews, Ec.
  eexists. split; [done|].
  assert (d = "$"%char) as ->.
  { destruct d as [[] [] [] [] [] [] [] []]; try discriminate Ed. reflexivity. }
  split; [apply (prefix_startsWith "$" nm)|]. split.
  - rewrite Hs1. apply (prefix_startsWith (String "$" nm)).
  - split; [destruct nm; [done | simpl; lia]|].
    simpl. revert Hall. apply allChars_impl. intros x Hx. unfold isMemberChar. by rewrite Hx.
Qed.

Lemma nth_error_shift {A} (x : A) l n i0 :
  S i0 <= n -> List.nth_error (x :: l) (n - i0) = List.nth_error l (n - S i0).
Proof. intros H. by replace (n - i0) with (S (n - S i0)) by lia. Qed.

Lemma closedBefore_shift x ls i0 n i :
  S i0 <= i -> closedBefore ls (S i0) n i -> closedBefore (x :: ls) i0 n i.
Proof.
  intros Hi (k & lineK & Hk & Hn & Hc). exists k, lineK.
  split; [lia|]. split; [|done]. by rewrite nth_error_shift by lia.
Qed.

Lemma closedBefore_weaken ls i0 n i j :
  i <= j -> closedBefore ls i0 n j -> closedBefore ls i0 n i.
Proof. intros Hi (k & lineK & Hk & H). exists k, lineK. split; [lia | done]. Qed.

Lemma variableLines_inv filePath ls :
  forall i0 b d,
    In d (SassParser.variableLines filePath (enumerateFrom i0 ls) b) ->
    i0 <= VariableDefinition.line d
    /\ (exists lineText len,
          List.nth_error ls (VariableDefinition.line d - i0) = Some lineText
          /\ includes "/*" lineText = false
          /\ includes "*/" lineText = false
          /\ startsWith "//" (trim lineText) = false
          /\ In (VariableDefinition.column d, (VariableDefinition.name d, len))
                (matchAll VARIABLE_PATTERN lineText))
    /\ (b = true -> closedBefore ls i0 (VariableDefinition.line d) i0)
    /\ (forall i lineI,
          i0 <= i < VariableDefinition.line d ->
          List.nth_error ls (i - i0) = Some lineI ->
          includes "/*" lineI = true ->
          closedBefore ls i0 (VariableDefinition.line d) i).
Proof.
  induction ls as [|x ls IH]; intros i0 b d; [done|].
  cbn [enumerateFrom SassParser.variableLines].
  (* what a definition found in the rest of the lines gives, once the first
     line is known to be closed or not to open a comment *)
  assert (Hrest : forall b',
    In d (SassParser.variableLines filePath (enumerateFrom (S i0) ls) b') ->
    (b' = true -> includes "/*" x = true \/ b = true) ->
    (b' = false -> includes "*/" x = true \/ (includes "/*" x = false /\ b = false)) ->
    i0 <= VariableDefinition.line d
    /\ (exists lineText len,
          List.nth_error (x :: ls) (VariableDefinition.line d - i0) = Some lineText
          /\ includes "/*" lineText = false
          /\ includes "*/" lineText = false
          /\ startsWith "//" (trim lineText) = false
          /\ In (VariableDefinition.column d, (VariableDefinition.name d, len))
                (matchAll VARIABLE_PATTERN lineText))
    /\ (b = true -> closedBefore (x :: ls) i0 (VariableDefinition.line d) i0)
    /\ (forall i lineI,
          i0 <= i < VariableDefinition.line d ->
          List.nth_error (x :: ls) (i - i0) = Some lineI ->
          includes "/*" lineI = true ->
          closedBefore (x :: ls) i0 (VariableDefinition.line d) i)).
  { intros b' Hin Htrue Hfalse.
    destruct (IH (S i0) b' d Hin) as (Hle & (lineText & len & Hn & Hline) & Hb & Hall).
    assert (Hfirst : includes "/*" x = true \/ b = true ->
                     closedBefore (x :: ls) i0 (VariableDefinition.line d) i0).
    { intros Hopen. destruct b' eqn:Eb'.
      - apply closedBefore_weaken with (S i0); [lia|].
        apply closedBefore_shift; [lia | by apply Hb].
      - destruct (Hfalse eq_refl) as [Hclose | [Hno Hbf]].
        + exists i0, x. split; [lia|]. by rewrite Nat.sub_diag.
        + destruct Hopen; congruence. }
    split; [lia|]. split.
    { exists lineText, len. by rewrite nth_error_shift by lia. }
    split; [auto|].
    intros i lineI Hi HlineI HopenI.
    destruct (decide (i = i0)) as [->|Hne].
    - rewrite Nat.sub_diag in HlineI. injection HlineI as <-. auto.
    - rewrite nth_error_shift in HlineI by lia.
      apply closedBefore_shift; [lia|]. apply (Hall i lineI); [lia | done | done]. }
  destruct (includes "*/" x) eqn:Eclose.
  { intros Hin. apply (Hrest false Hin); [done | auto]. }
  destruct (includes "/*" x) eqn:Eopen.
  { intros Hin. apply (Hrest true Hin); [auto | done]. }
  destruct b.
  { intros Hin. apply (Hrest true Hin); [auto | done]. }
  destruct (startsWith "//" (trim x)) eqn:Ecomment.
  { intros Hin. apply (Hrest false Hin); [done | auto]. }
  rewrite in_app_iff. intros [Hin|Hin]; [|apply (Hrest false Hin); [done | auto]].
  apply in_map_iff in Hin as ([col [name len]] & <- & Hm). cbn.
  split; [lia|]. split.
  { exists x, len. by rewrite Nat.sub_diag. }
  split; [done|]. intros i lineI Hi. lia.
Qed.

Lemma enumerateFrom_In {A} (l : list A) i0 k x :
  List.nth_error l k = Some x -> In (i0 + k, x) (enumerateFrom i0 l).
Proof.
  revert i0 k; induction l as [|y l IH]; intros i0 [|k]; simpl; try done.
  - intros [= ->]. left. by rewrite Nat.add_0_r.
  - intros H. right. replace (i0 + S k) with (S i0 + k) by lia. by apply IH.
Qed.

(** The first element that a scan of numbered lines yields comes from the
    first line that yields any. *)
Lemma flat_map_first_line (g : nat * string -> list (nat * nat)) l :
  (forall n x p, In p (g (n, x)) -> fst p = n) ->
  forall i0 n0 x0 j tl,
    In (n0, x0) (enumerateFrom i0 l) -> g (n0, x0) = (n0, j) :: tl ->
    exists n j' tl',
      flat_map g (enumerateFrom i0 l) = (n, j') :: tl'
      /\ (n < n0 \/ (n = n0 /\ j' = j)).
Proof.
  intros Hg. induction l as [|x l IH]; intros i0 n0 x0 j tl; [done|].
  cbn [enumerateFrom flat_map]. intros [[= <- <-]|Hin] Hfirst.
  - rewrite Hfirst. exists i0, j. eexists. split; [reflexivity | auto].
  - pose proof (enumerateFrom_nth _ _ _ _ Hin) as [Hle _].
    destruct (g (i0, x)) as [|[n j'] rest] eqn:E.
    + apply (IH _ _ _ _ _ Hin Hfirst).
    + assert (n = i0) as -> by (apply (Hg i0 x (n, j')); rewrite E; by left).
      exists i0, j'. eexists. split; [reflexivity|]. left. lia.
Qed.

(** X8. What the enumeration of variables never lists: a definition on a
    line that holds the start or the end of a block comment (so also one
    that follows a comment on its own line), on a line comment, or on a line
    behind the start of a block comment that is not yet ended. Every
    definition listed stands at its column of its line and carries its
    sigil. *)
Theorem variables_are_not_listed_from_comments
    (content filePath : string) (d : VariableDefinition.t) :
  In d (SassParser.findAllVariableDefinitions content filePath) ->
  exists lineText,
    lineOf content (VariableDefinition.line d) = Some lineText
    /\ includes "/*" lineText = false
    /\ includes "*/" lineText = false
    /\ startsWith "//" (trim lineText) = false
    /\ startsWith (VariableDefinition.name d)
         (JS.drop (VariableDefinition.column d) lineText) = true
    /\ startsWith "$" (VariableDefinition.name d) = true
    /\ forall i lineI,
         i < VariableDefinition.line d ->
         lineOf content i = Some lineI ->
         includes "/*" lineI = true ->
         closedBefore (split LF content) 0 (VariableDefinition.line d) i.
Proof.
  intros Hin. unfold SassParser.findAllVariableDefinitions, enumerate in Hin.
  apply variableLines_inv in Hin
    as (_ & (lineText & len & Hn & Hopen & Hclose & Hcomment & Hm) & _ & Hall).
  rewrite Nat.sub_0_r in Hn.
  apply matchAll_matches in Hm as [len' Hm].
  apply VARIABLE_PATTERN_name in Hm as (_ & _ & Hsigil & Hname & _).
  exists lineText. repeat split; try done.
  intros i lineI Hi HlineI HopenI. apply (Hall i lineI); [lia | | done].
  by rewrite Nat.sub_0_r.
Qed.

Lemma variables_are_not_listed_from_comments_witness :
  SassParser.findAllVariableDefinitions
    (Scenario.text [ "/* $a: 1;"; "   $b: 2; */ $c: 3;"; "$d: 4; /* four */"; "$e: 5;" ]) "/w/v.scss"
  = [ VariableDefinition.mk "$e" "/w/v.scss" 3 0 (Some "5") ]
  /\ exists lineText,
       lineOf (Scenario.text [ "/* $a: 1;"; "   $b: 2; */ $c: 3;"; "$d: 4; /* four */"; "$e: 5;" ]) 3
       = Some lineText
       /\ includes "*/" lineText = false.
Proof.
  split; [vm_compute; reflexivity|].
  destruct (variables_are_not_listed_from_comments
              (Scenario.text [ "/* $a: 1;"; "   $b: 2; */ $c: 3;"; "$d: 4; /* four */"; "$e: 5;" ])
              "/w/v.scss" (VariableDefinition.mk "$e" "/w/v.scss" 3 0 (Some "5")))
    as (lineText & H1 & _ & H2 & _).
  - vm_compute. by left.
  - exists lineText. split; [exact H1 | exact H2].
Defined.

(** X9. Every variable that the enumeration lists can be looked up by its
    name: [findVariableDefinition] finds a definition of that name in the
    file, at the position of the listed one or before it. (The lookup does
    not skip block comments, so it may stop at an earlier occurrence.) *)
Theorem enumerated_variable_is_found_by_name
    (content filePath : string) (d : VariableDefinition.t) :
  In d (SassParser.findAllVariableDefinitions content filePath) ->
  exists d',
    SassParser.findVariableDefinition content (VariableDefinition.name d) filePath = Some d'
    /\ VariableDefinition.name d' = VariableDefinition.name d
    /\ VariableDefinition.filePath d' = filePath
    /\ notBehind (VariableDefinition.line d') (VariableDefinition.column d')
         (VariableDefinition.line d) (VariableDefinition.column d).
Proof.
  intros Hin. unfold SassParser.findAllVariableDefinitions, enumerate in Hin.
  apply variableLines_inv in Hin
    as (_ & (lineText & len & Hn & _ & _ & Hcomment & Hm) & _ & _).
  rewrite Nat.sub_0_r in Hn.
  apply matchAll_matches in Hm as [len' Hm].
  pose proof Hm as Hcol.
  apply VARIABLE_PATTERN_name in Hm as (x & Hx & _).
  assert (Hlt : VariableDefinition.column d <= String.length lineText).
  { unfold VARIABLE_PATTERN in Hcol.
    destruct (JS.drop (VariableDefinition.column d) lineText) eqn:E; [done|].
    apply drop_cons_length in E. lia. }
  destruct (scanFrom_first (variablePattern (VariableDefinition.name d)) lineText 0 _ _ Hx Hlt)
    as (j & a & rest & Hscan & Hj).
  set (g := fun '(lineNumber, line) =>
              if startsWith "//" (trim line) then []
              else map (fun '(index, _) => (lineNumber, index))
                     (matchAll (variablePattern (VariableDefinition.name d)) line)
            : list (nat * nat)).
  assert (Hg : forall n text p, In p (g (n, text)) -> fst p = n).
  { intros n text p. unfold g. destruct (startsWith "//" (trim text)); [done|].
    rewrite in_map_iff. by intros ([? ?] & <- & _). }
  destruct (flat_map_first_line g (split LF content) Hg 0 (VariableDefinition.line d)
              lineText j (map (fun '(index, _) => (VariableDefinition.line d, index)) rest))
    as (n & j' & tl' & Hflat & Hpos).
  { by apply (enumerateFrom_In _ 0). }
  { unfold g. rewrite Hcomment. unfold matchAll. by rewrite Hscan. }
  unfold SassParser.findVariableDefinition, SassParser.variableMatches, enumerate.
  fold g. rewrite Hflat. eexists. split; [reflexivity|]. cbn.
  repeat split. unfold notBehind. destruct Hpos as [?|[-> ->]]; [by left | right; lia].
Qed.

Lemma enumerated_variable_is_found_by_name_witness :
  exists d',
    SassParser.findVariableDefinition
      (Scenario.text [ "/* $e: 0; */"; ".x { color: red; $e: 1; }"; "$e: 5;" ]) "$e" "/w/v.scss"
    = Some d'
    /\ VariableDefinition.line d' < 2.
Proof.
  destruct (enumerated_variable_is_found_by_name
              (Scenario.text [ "/* $e: 0; */"; ".x { color: red; $e: 1; }"; "$e: 5;" ])
              "/w/v.scss" (VariableDefinition.mk "$e" "/w/v.scss" 2 0 (Some "5")))
    as (d' & H1 & _ & _ & H2).
  - vm_compute. right. by left.
  - exists d'. split; [exact H1|].
    vm_compute in H1. injection H1 as <-. simpl. lia.
Defined.

Lemma allChars_trimStart p s : allChars p s = true -> allChars p (trimStart s) = true.
Proof.
  induction s as [|c s IH]; simpl; [done|].
  intros H. destruct (isSpace c); [|done]. apply andb_prop in H as [_ H]. auto.
Qed.

Lemma allChars_trimEnd p s : allChars p s = true -> allChars p (trimEnd s) = true.
Proof.
  induction s as [|c s IH]; simpl; [done|].
  intros [Hc H]%andb_prop. destruct (_ && _); [done|]. simpl. by rewrite Hc, IH.
Qed.

Lemma allChars_trim p s : allChars p s = true -> allChars p (trim s) = true.
Proof. intros H. by apply allChars_trimEnd, allChars_trimStart. Qed.

Lemma restOfLine_chars s :
  allChars (fun c => negb (isLineTerminator c)) (restOfLine s) = true.
Proof. apply span_all. Qed.

(** X10. Every parameter parsed from a mixin definition has a non-empty
    name made of word characters and hyphens, without the sigil; a default
    value, when there is one, is not empty, has no space at either end and
    does not run over a line break. *)
Theorem mixin_parameters_are_wellformed
    (content mixinName : string) (startLine : nat) (p : MixinParameter.t) :
  In p (SassParser.parseMixinParameters content mixinName startLine) ->
  MixinParameter.name p <> EmptyString
  /\ allChars isNameChar (MixinParameter.name p) = true
  /\ forall v, MixinParameter.defaultValue p = Some v ->
       v <> EmptyString /\ trim v = v
       /\ allChars (fun c => negb (isLineTerminator c)) v = true.
Proof.
  unfold SassParser.parseMixinParameters.
  destruct (SassParser.extractArgumentsString _ _) as [args|]; [|done].
  destruct (Nat.eqb _ 0); [done|].
  rewrite <- list_elem_of_In, list_elem_of_omap.
  intros (token & _ & Hp). unfold SassParser.parseParameter in Hp.
  destruct (search PARAMETER_PATTERN token) as [[i [name dv]]|] eqn:Es; [|done].
  destruct (SassParser.calculateParameterPosition _ _ _) as [l c].
  injection Hp as <-. cbn.
  apply searchFrom_Some in Es as (_ & [len Hm] & _).
  unfold PARAMETER_PATTERN in Hm.
  destruct (JS.drop _ token) as [|d s1]; [done|].
  destruct (isChar 36 d); [|done].
  destruct (span isSpace s1) as [ws s2].
  pose proof (span_all isNameChar s2) as Hall.
  destruct (span isNameChar s2) as [nm s3]. simpl in Hall.
  destruct (isEmpty nm) eqn:En; [done|].
  destruct (span isSpace s3) as [ws' s4].
  assert (Hnm : nm <> EmptyString) by (by destruct nm).
  destruct s4 as [|c' s5]; [by injection Hm as <- <- _|].
  destruct (isChar 58 c'); [|by injection Hm as <- <- _].
  destruct (span isSpace s5) as [ws'' s6].
  injection Hm as <- <- _. split; [done|]. split; [done|].
  intros v. destruct (isEmpty (trim (restOfLine s6))) eqn:Ev; [done|].
  intros [= <-]. split; [by destruct (trim (restOfLine s6))|]. split.
  - apply trim_idempotent.
  - apply allChars_trim, restOfLine_chars.
Qed.

Lemma mixin_parameters_are_wellformed_witness :
  SassParser.parseMixinParameters
    (Scenario.text [ "@mixin button( $size : medium , $variant:  ) { }" ]) "button" 0
  = [ MixinParameter.mk "size" (Some "medium") 0 15; MixinParameter.mk "variant" None 0 32 ]
  /\ allChars isNameChar "variant" = true.
Proof.
  split; [vm_compute; reflexivity|].
  apply (mixin_parameters_are_wellformed
           (Scenario.text [ "@mixin button( $size : medium , $variant:  ) { }" ]) "button" 0
           (MixinParameter.mk "variant" None 0 32)).
  vm_compute. right. by left.
Defined.

Lemma isChar_comma c : isChar 44 c = Ascii.eqb c ","%char.
Proof. destruct c as [[] [] [] [] [] [] [] []]; reflexivity. Qed.

Lemma removelast_cons_nonempty {A} (x : A) l : l <> [] -> removelast (x :: l) = x :: removelast l.
Proof. by destruct l. Qed.

Lemma commaPieces_comma cur rest :
  allChars (fun c => negb (Ascii.eqb c ","%char)) cur = true ->
  commaPieces (cur +:+ String ","%char rest) = trim cur :: commaPieces rest.
Proof.
  intros Hcur. unfold commaPieces. cbv zeta.
  rewrite split_app, (split_no_separator _ cur Hcur).
  pose proof (split_nonempty ","%char rest) as Hne.
  cbn [app]. rewrite removelast_cons_nonempty by done.
  cbn [map app]. f_equal.
  by destruct (split ","%char rest).
Qed.

Lemma splitArgumentsLoop_flat s :
  allChars (fun c => negb (isBracket c)) s = true ->
  forall cur tokens,
    allChars (fun c => negb (Ascii.eqb c ","%char)) cur = true ->
    SassParser.splitArgumentsLoop s cur 0 tokens = (tokens ++ commaPieces (cur +:+ s))%list.
Proof.
  induction s as [|c s IH]; intros Hs cur tokens Hcur.
  - rewrite append_empty_r. cbn [SassParser.splitArgumentsLoop].
    unfold commaPieces. rewrite (split_no_separator _ cur Hcur).
    cbn [List.last removelast map app].
    destruct (isEmpty (trim cur)); [by rewrite app_nil_r | done].
  - cbn [allChars] in Hs. apply andb_prop in Hs as [Hc Hs].
    apply negb_true_iff in Hc. unfold isBracket in Hc.
    apply orb_false_elim in Hc as [Hc H125]. apply orb_false_elim in Hc as [Hc H123].
    apply orb_false_elim in Hc as [H40 H41].
    cbn [SassParser.splitArgumentsLoop]. rewrite H40, H41, H123, H125. cbn [orb].
    rewrite isChar_comma. change (Z.eqb 0 0) with true. rewrite andb_true_r.
    destruct (Ascii.eqb_spec c ","%char) as [->|Hne].
    + rewrite IH by done. rewrite append_empty_l, commaPieces_comma by done.
      by rewrite <- app_assoc.
    + rewrite IH; [| done |].
      * unfold SassParser.push. by rewrite append_assoc.
      * unfold SassParser.push. rewrite allChars_app, Hcur. cbn.
        rewrite andb_true_r. apply negb_true_iff. by apply Ascii.eqb_neq.
Qed.

(** X11. On an argument text without parentheses and braces,
    [splitArguments] yields the pieces between the commas, trimmed, in their
    order; an empty piece between two commas is kept, a blank piece behind
    the last comma is dropped. *)
Theorem splitArguments_of_flat_text (argsString : string) :
  allChars (fun c => negb (isBracket c)) argsString = true ->
  SassParser.splitArguments argsString = commaPieces argsString.
Proof.
  intros H. unfold SassParser.splitArguments.
  by rewrite (splitArgumentsLoop_flat _ H EmptyString []).
Qed.

Lemma splitArguments_of_flat_text_witness :
  SassParser.splitArguments "$size: medium ,, $variant:solid,  "
  = ["$size: medium"; ""; "$variant:solid"].
Proof.
  rewrite (splitArguments_of_flat_text "$size: medium ,, $variant:solid,  "); reflexivity.
Defined.

Lemma take_snoc acc c s n :
  (acc +:+ String c EmptyString) +:+ JS.take n s = acc +:+ JS.take (S n) (String c s).
Proof. rewrite append_assoc. reflexivity. Qed.

Lemma matchingParenLoop_ge s i depth e :
  matchingParenLoop s i depth = Some e -> i <= e.
Proof.
  revert i depth; induction s as [|c s IH]; intros i depth; simpl; [done|].
  destruct (isChar 41 c).
  - destruct (Z.eqb _ 0); [intros [= <-]; lia|]. intros H. apply IH in H. lia.
  - intros H. apply IH in H. lia.
Qed.

(** Inside the parentheses the two loops count alike: where the matcher of
    the provider finds the closing parenthesis, the scan of the parser
    returns the text up to it. *)
Lemma scanArgsLine_matchingParen s :
  forall (acc : string) (depth i e : nat),
    (1 <= depth)%nat ->
    matchingParenLoop s i (Z.of_nat depth) = Some e ->
    SassParser.scanArgsLine s (SassParser.mkArgScan acc depth true)
    = SassParser.ArgsDone (acc +:+ JS.take (e - i) s).
Proof.
  induction s as [|c s IH]; intros acc depth i e Hd; [done|].
  cbn [matchingParenLoop SassParser.scanArgsLine].
  cbn [SassParser.argsString SassParser.depth SassParser.foundStart].
  destruct (isChar 40 c) eqn:E40.
  - assert (isChar 41 c = false) as E41
        by (destruct c as [[] [] [] [] [] [] [] []]; try discriminate E40; reflexivity).
    rewrite E41. cbn [SassParser.argsString SassParser.depth SassParser.foundStart andb].
    destruct depth as [|depth]; [lia|]. cbn [Nat.eqb Nat.ltb Nat.leb].
    intros H. pose proof (matchingParenLoop_ge _ _ _ _ H) as Hge.
    replace (Z.of_nat (S depth) + 1)%Z with (Z.of_nat (S (S depth))) in H by lia.
    rewrite (IH _ (S (S depth)) _ _ ltac:(lia) H). unfold SassParser.push.
    rewrite take_snoc. by replace (S (e - S i)) with (e - i) by lia.
  - cbn [andb SassParser.argsString SassParser.depth SassParser.foundStart].
    destruct depth as [|depth]; [lia|]. cbn [Nat.ltb Nat.leb].
    destruct (isChar 41 c) eqn:E41.
    + cbn [Nat.pred].
      destruct depth as [|depth].
      * cbn. intros [= <-]. rewrite Nat.sub_diag. cbn. by rewrite append_empty_r.
      * replace (Z.of_nat (S (S depth)) - 1 =? 0)%Z with false
          by (symmetry; apply Z.eqb_neq; lia).
        cbn [Nat.eqb]. intros H. pose proof (matchingParenLoop_ge _ _ _ _ H) as Hge.
        replace (Z.of_nat (S (S depth)) - 1)%Z with (Z.of_nat (S depth)) in H by lia.
        rewrite (IH _ (S depth) _ _ ltac:(lia) H). unfold SassParser.push.
        rewrite take_snoc. by replace (S (e - S i)) with (e - i) by lia.
    + intros H. pose proof (matchingParenLoop_ge _ _ _ _ H) as Hge.
      rewrite (IH _ (S depth) _ _ ltac:(lia) H). unfold SassParser.push.
      rewrite take_snoc. by replace (S (e - S i)) with (e - i) by lia.
Qed.

Lemma indexOfAux_paren s i p :
  indexOfAux "(" s i = Some p ->
  i <= p
  /\ allChars (fun c => negb (isChar 40 c)) (JS.take (p - i) s) = true
  /\ exists rest, JS.drop (p - i) s = String "("%char rest.
Proof.
  revert i; induction s as [|c s IH]; intros i; cbn [indexOfAux String.prefix]; [done|].
  destruct (ascii_dec "("%char c) as [<-|Hne].
  - destruct s; intros [= <-]; rewrite Nat.sub_diag; (split; [lia|]); split; eauto.
  - intros H. apply IH in H as (Hle & Hall & rest & Hrest).
    replace (p - i) with (S (p - S i)) by lia. split; [lia|]. split; [|eauto].
    cbn. rewrite Hall, andb_true_r. apply negb_true_iff.
    destruct c as [[] [] [] [] [] [] [] []]; try reflexivity. by destruct Hne.
Qed.

(** Before the first opening parenthesis the scan of the parser leaves its
    state alone. *)
Lemma scanArgsLine_before_paren pre s :
  allChars (fun c => negb (isChar 40 c)) pre = true ->
  SassParser.scanArgsLine (pre +:+ s) (SassParser.mkArgScan EmptyString 0 false)
  = SassParser.scanArgsLine s (SassParser.mkArgScan EmptyString 0 false).
Proof.
  induction pre as [|c pre IH]; [done|].
  cbn [allChars]. intros [Hc Hpre]%andb_prop. apply negb_true_iff in Hc.
  rewrite append_cons. cbn [SassParser.scanArgsLine]. rewrite Hc. cbn. by apply IH.
Qed.

Lemma take_drop_append n s : JS.take n s +:+ JS.drop n s = s.
Proof.
  revert s; induction n as [|n IH]; intros [|c s]; try done.
  cbn [JS.take JS.drop]. rewrite append_cons. by rewrite IH.
Qed.

(** X12. The two matchers of parentheses agree. When the first opening
    parenthesis of a line has its closing one on that line, as
    [findMatchingParen] of the provider finds it, [extractArgumentsString]
    of the parser returns exactly the text between the two. *)
Theorem argument_text_agrees_with_paren_matcher
    (line : string) (rest : list string) (parenStart parenEnd : nat) :
  indexOf "(" line = Some parenStart ->
  findMatchingParen line parenStart = Some parenEnd ->
  SassParser.extractArgumentsString (line :: rest) 0
  = Some (substring (parenStart + 1) parenEnd line).
Proof.
  intros Hp He. unfold indexOf in Hp.
  apply indexOfAux_paren in Hp as (_ & Hpre & tail & Htail). rewrite Nat.sub_0_r in *.
  unfold findMatchingParen in He. rewrite Htail in He.
  cbn [matchingParenLoop] in He. change (isChar 40 "("%char) with true in He.
  change (isChar 41 "("%char) with false in He. cbv iota in He.
  pose proof (matchingParenLoop_ge _ _ _ _ He) as Hge.
  unfold SassParser.extractArgumentsString. cbn [skipn SassParser.scanArgsLines].
  rewrite <- (take_drop_append parenStart line) at 1.
  rewrite scanArgsLine_before_paren by done. rewrite Htail.
  cbn [SassParser.scanArgsLine]. change (isChar 40 "("%char) with true. cbn.
  rewrite (scanArgsLine_matchingParen tail EmptyString 1 (S parenStart) parenEnd); [|lia|done].
  f_equal. unfold substring.
  rewrite Nat.max_r, Nat.min_l by lia.
  rewrite <- (drop_drop 1 parenStart line), Htail. cbn [JS.drop].
  rewrite append_empty_l. f_equal. lia.
Qed.

Lemma argument_text_agrees_with_paren_matcher_witness :
  SassParser.extractArgumentsString
    [ "@mixin tint($color: rgba(0, 0, 0, 0.5), $weight: 50%) { }"; "@mixin other($x) {}" ] 0
  = Some "$color: rgba(0, 0, 0, 0.5), $weight: 50%".
Proof.
  rewrite (argument_text_agrees_with_paren_matcher
             "@mixin tint($color: rgba(0, 0, 0, 0.5), $weight: 50%) { }"
             [ "@mixin other($x) {}" ] 11 52); reflexivity.
Defined.

Lemma skipn_nth_error {A} (l : list A) n x :
  List.nth_error l n = Some x -> List.skipn n l = x :: List.skipn (S n) l.
Proof.
  revert l; induction n as [|n IH]; intros [|y l]; simpl; try done.
  - by intros [= ->].
  - intros H. by rewrite (IH _ H).
Qed.

(** X13. A line without an opening parenthesis does not end the search for
    the argument text: the text sought from that line is the text sought
    from the next one. A mixin declared without a parameter list is thereby
    given the parameters of the next parenthesised text of the file. *)
Theorem argument_text_is_sought_on_later_lines
    (lines : list string) (startLine : nat) (line : string) :
  List.nth_error lines startLine = Some line ->
  allChars (fun c => negb (isChar 40 c)) line = true ->
  SassParser.extractArgumentsString lines startLine
  = SassParser.extractArgumentsString lines (S startLine).
Proof.
  intros Hline Hno. unfold SassParser.extractArgumentsString.
  rewrite (skipn_nth_error _ _ _ Hline). cbn [SassParser.scanArgsLines].
  rewrite <- (append_empty_r line).
  rewrite scanArgsLine_before_paren by done. reflexivity.
Qed.

Lemma argument_text_is_sought_on_later_lines_witness :
  SassParser.extractArgumentsString
    [ "@mixin reset { margin: 0; }"; ""; "@mixin other($a: 1) { }" ] 0
  = Some "$a: 1"
  /\ option_map MixinDefinition.parameters
       (SassParser.findMixinDefinition
          (Scenario.text [ "@mixin reset { margin: 0; }"; ""; "@mixin other($a: 1) { }" ])
          "reset" "/w/m.scss")
     = Some (Some [ MixinParameter.mk "a" (Some "1") 2 13 ]).
Proof.
  split; [|vm_compute; reflexivity].
  rewrite (argument_text_is_sought_on_later_lines
             [ "@mixin reset { margin: 0; }"; ""; "@mixin other($a: 1) { }" ] 0
             "@mixin reset { margin: 0; }"); reflexivity.
Defined.

(** ** The traversals of re-exports *)

Lemma prefix_decompose p s :
  String.prefix p s = true -> s = p +:+ JS.drop (String.length p) s.
Proof.
  revert s; induction p as [|a p IH]; intros s; [done|].
  destruct s as [|b s]; cbn [String.prefix]; [done|].
  destruct (ascii_dec a b) as [<-|]; [|done].
  intros H. rewrite append_cons. cbn [String.length JS.drop]. by rewrite <- IH.
Qed.

Lemma length_drop_le n s : String.length (JS.drop n s) <= String.length s.
Proof.
  revert s; induction n as [|n IH]; intros [|c s]; simpl; try lia.
  specialize (IH s). lia.
Qed.

Lemma first_nameChar_no_sigil c t :
  isNameChar c = true -> startsWith "$" (String c t) = false.
Proof.
  intros Hc. unfold startsWith. cbn [String.prefix].
  destruct (ascii_dec "$"%char c) as [<-|]; [done | done].
Qed.

Lemma nameChars_no_sigil s :
  allChars isNameChar s = true -> startsWith "$" s = false.
Proof.
  destruct s as [|c s]; [done|]. cbn [allChars]. intros [Hc _]%andb_prop.
  by apply first_nameChar_no_sigil.
Qed.

Lemma strippedTo_refl member : strippedTo member member.
Proof.
  split; [lia|]. split.
  - intros H. split; [done|]. exists EmptyString.
    unfold ForwardResolver.nameWithoutDollar. rewrite H.
    apply (prefix_decompose "$" member H).
  - intros H. split; [done|]. by exists EmptyString.
Qed.

Lemma originalNameFor_strippedTo member st original :
  originalNameFor member st = Some original -> strippedTo member original.
Proof.
  unfold originalNameFor.
  destruct (ModuleResolver.truthy (ForwardStatement.prefix st)) as [prefix|];
    [|intros [= <-]; apply strippedTo_refl].
  destruct (startsWith "$" member) eqn:Ev.
  - destruct (startsWith prefix (substringFrom 1 member)) eqn:Ep; [|done].
    intros [= <-]. pose proof (prefix_decompose "$" member Ev) as Hm.
    pose proof (prefix_decompose _ _ Ep) as Hb. unfold substringFrom in *.
    cbn [String.length] in Hm. split; [|split].
    + pose proof (f_equal String.length Hm) as Hl.
      pose proof (length_drop_le (String.length prefix) (JS.drop 1 member)) as Hd.
      set (tl := JS.drop 1 member) in *.
      rewrite length_append in Hl |- *. cbn [String.length] in Hl |- *.
      change (match member with "" => "" | String _ s' => s' end) with tl. lia.
    + intros _. split; [apply (prefix_startsWith "$")|].
      exists prefix. etransitivity; [exact Hm|]. f_equal.
      etransitivity; [exact Hb|]. f_equal.
      unfold ForwardResolver.nameWithoutDollar. by rewrite (prefix_startsWith "$").
    + intros Hn. by rewrite (nameChars_no_sigil _ Hn) in Ev.
  - destruct (startsWith prefix member) eqn:Ep; [|done].
    intros [= <-]. pose proof (prefix_decompose _ _ Ep) as Hb. unfold substringFrom.
    split; [apply length_drop_le|]. split; [intros ?; congruence|].
    intros Hn. split; [by apply allChars_drop | by exists prefix].
Qed.

Lemma strippedTo_trans a b c : strippedTo a b -> strippedTo b c -> strippedTo a c.
Proof.
  intros (Hl1 & Hv1 & Hn1) (Hl2 & Hv2 & Hn2). split; [lia|]. split.
  - intros Ha. destruct (Hv1 Ha) as (Hb & s1 & E1). destruct (Hv2 Hb) as (Hc & s2 & E2).
    split; [done|]. exists (s1 +:+ s2).
    rewrite E1. unfold ForwardResolver.nameWithoutDollar at 1. rewrite Hb.
    rewrite E2 at 1. unfold substringFrom. change (JS.drop 1 ("$" +:+ ?x)) with x.
    by rewrite !append_assoc.
  - intros Ha. destruct (Hn1 Ha) as (Hb & s1 & E1). destruct (Hn2 Hb) as (Hc & s2 & E2).
    split; [done|]. exists (s1 +:+ s2). rewrite E1, E2 at 1. by rewrite append_assoc.
Qed.

Lemma forwardLoop_hit_inv h self member cur root statements s r :
  (forall c o p r', fst (self c o p s) = Returned (Some r') ->
     (fileExists h (ForwardedMember.filePath r') = true
      /\ ForwardedMember.filePath r' <> EmptyString
      /\ exists text, readFile h (ForwardedMember.filePath r') = Returned text)
     /\ strippedTo o (ForwardedMember.originalName r')) ->
  fst (forwardLoop h self member cur root statements s) = Returned (Some r) ->
  (fileExists h (ForwardedMember.filePath r) = true
   /\ ForwardedMember.filePath r <> EmptyString
   /\ exists text, readFile h (ForwardedMember.filePath r) = Returned text)
  /\ strippedTo member (ForwardedMember.originalName r).
Proof.
  intros Hself. induction statements as [|st rest IH]; simpl; [done|].
  destruct (originalNameFor member st) as [o|] eqn:Eo; [|exact IH].
  apply originalNameFor_strippedTo in Eo.
  rewrite bind_await.
  destruct (ModuleResolver.resolveModule h _ _ _) as [[p|]| |] eqn:Er; try done.
  pose proof (resolveModule_nonempty _ _ _ _ _ Er) as Hne.
  apply resolveModule_exists in Er.
  rewrite bind_await. destruct (readFile h p) as [c| |] eqn:Ec; try done.
  rewrite bind_outcome. specialize (Hself c o p).
  destruct (self c o p s) as [[[r'|]| |] s']; try done; simpl in *.
  - intros [= <-]. destruct (Hself r' eq_refl) as [Hfile Hname].
    split; [done|]. by eapply strippedTo_trans.
  - intros [= <-]. simpl. split; [|done].
    split; [by apply fileExists_entries|]. split; [done | eauto].
Qed.

Lemma findForwardedMemberFuel_hit_inv h root fuel :
  forall content member cur visited r,
    fst (findForwardedMemberFuel fuel h content member cur root visited) = Returned (Some r) ->
    (fileExists h (ForwardedMember.filePath r) = true
     /\ ForwardedMember.filePath r <> EmptyString
     /\ exists text, readFile h (ForwardedMember.filePath r) = Returned text)
    /\ strippedTo member (ForwardedMember.originalName r).
Proof.
  induction fuel as [|fuel IH]; intros content member cur visited r;
    (destruct (decide (cur ∈ visited)) as [Hv|Hv];
     [by rewrite findForwardedMemberFuel_visited|]).
  - simpl. by rewrite bind_has, bool_decide_eq_false_2.
  - rewrite findForwardedMemberFuel_enter by done. cbv zeta. unfold fst at 1.
    apply forwardLoop_hit_inv. intros c o p r'. apply IH.
Qed.

(** X14. A hit of [findForwardedMember] names a file, never by the empty
    text, that exists and that the search has read, so the read that follows
    it in the providers cannot fail; and the original name is the member name with a leading
    part taken off: never longer, a variable stays a variable with the
    prefixes removed behind its sigil, and a name of word characters and
    hyphens is shortened from the left only. *)
Theorem forwarded_hit_names_a_file_that_was_read
    (h : Host) (content member currentFilePath workspaceRoot : string)
    (visited : gset string) (r : ForwardedMember.t) :
  fst (findForwardedMember h content member currentFilePath workspaceRoot visited)
  = Returned (Some r) ->
  fileExists h (ForwardedMember.filePath r) = true
  /\ ForwardedMember.filePath r <> EmptyString
  /\ (exists text, readFile h (ForwardedMember.filePath r) = Returned text)
  /\ strippedTo member (ForwardedMember.originalName r).
Proof.
  intros H. apply findForwardedMemberFuel_hit_inv in H as [(H1 & H2 & H3) H4]. auto.
Qed.

Lemma forwarded_hit_names_a_file_that_was_read_witness :
  fst (findForwardedMember Scenario.nestedHost (Scenario.text Scenario.prefixA)
         "$p-q-primary" Scenario.fileA Scenario.root ∅)
  = Returned (Some (ForwardedMember.mk "$primary" Scenario.fileC))
  /\ strippedTo "$p-q-primary" "$primary".
Proof.
  assert (H : fst (findForwardedMember Scenario.nestedHost (Scenario.text Scenario.prefixA)
                     "$p-q-primary" Scenario.fileA Scenario.root ∅)
              = Returned (Some (ForwardedMember.mk "$primary" Scenario.fileC)))
    by (vm_compute; reflexivity).
  split; [exact H|].
  apply (forwarded_hit_names_a_file_that_was_read _ _ _ _ _ _ _ H).
Defined.

(** X15. Both traversals leave the set of visited files as they found it,
    whatever the outcome, also when a read rejects in the middle of a chain
    (the [finally] blocks); and a traversal started on a file that is in the
    set returns at once with nothing. *)
Theorem traversals_restore_the_visited_files
    (h : Host) (content member currentFilePath workspaceRoot : string)
    (type : MemberKind) (visited : gset string) :
  snd (findForwardedMember h content member currentFilePath workspaceRoot visited) = visited
  /\ snd (findAllForwardedMembers h content currentFilePath workspaceRoot type visited)
     = visited
  /\ (currentFilePath ∈ visited ->
      fst (findForwardedMember h content member currentFilePath workspaceRoot visited)
      = Returned None
      /\ fst (findAllForwardedMembers h content currentFilePath workspaceRoot type visited)
         = Returned []).
Proof.
  split; [apply findForwardedMember_frame|]. split; [apply findAllForwardedMembers_frame|].
  intros Hv. unfold findForwardedMember, findAllForwardedMembers.
  by rewrite findForwardedMemberFuel_visited, findAllForwardedMembersFuel_visited.
Qed.

Lemma parseForwardStatements_prefix content st p :
  In st (parseForwardStatements content) ->
  ForwardStatement.prefix st = Some p -> allChars isNameChar p = true.
Proof.
  unfold parseForwardStatements. rewrite in_flat_map.
  intros ([n line] & _ & H). destruct (startsWith "//" (trim line)); [done|].
  apply in_map_iff in H as ([i [path prefix]] & <- & Hm). cbn. intros ->.
  apply matchAll_matches in Hm as [len Hm].
  unfold FORWARD_PATTERN in Hm.
  destruct (lit "@forward" _) as [s1|]; [|done].
  destruct (spaces1 s1) as [s2|]; [|done].
  destruct (quoted s2) as [[q s3]|]; [|done].
  unfold asPrefix in Hm.
  destruct (spaces1 s3) as [s4|]; [|done].
  destruct (lit "as" s4) as [s5|]; [|done].
  destruct (spaces1 s5) as [s6|]; [|done].
  pose proof (span_all isNameChar s6) as Hall.
  destruct (span isNameChar s6) as [run rest]. simpl in Hall.
  destruct (JS.last run); [|done]. destruct rest; [done|].
  destruct (_ && _); [|done]. by injection Hm as _ <- _.
Qed.

Lemma MIXIN_PATTERN_name s name len :
  MIXIN_PATTERN s = Some (name, len) ->
  name <> EmptyString /\ allChars isNameChar name = true.
Proof.
  unfold MIXIN_PATTERN.
  destruct (lit "@mixin" s) as [s1|]; [|done].
  destruct (spaces1 s1) as [s2|]; [|done].
  pose proof (span_all isNameChar s2) as Hall.
  destruct (span isNameChar s2) as [nm s3]. simpl in Hall.
  destruct (isEmpty nm) eqn:En; [done|].
  destruct (span isSpace s3) as [ws s4]. destruct s4 as [|c s5]; [done|].
  destruct (_ || _); [|done]. intros [= <- _]. split; [by destruct nm | done].
Qed.

Lemma directMembers_wellSigiled type content filePath m :
  In m (directMembers type content filePath) -> wellSigiled type m.
Proof.
  destruct type; simpl; rewrite in_map_iff; intros (d & <- & Hd); simpl.
  - unfold SassParser.findAllMixinDefinitionsWithParams in Hd.
    apply in_map_iff in Hd as ([[l c] n] & <- & Hm). cbn.
    apply mixinMatches_spec in Hm as (lineText & len & _ & Hm).
    apply MIXIN_PATTERN_name in Hm as [_ Hm]. by apply nameChars_no_sigil.
  - unfold SassParser.findAllVariableDefinitions in Hd.
    apply variableLines_spec in Hd as (lineText & len & _ & Hm & _).
    by apply VARIABLE_PATTERN_name in Hm as (_ & _ & Hs & _).
Qed.

Lemma applyPrefix_wellSigiled type prefix m :
  (forall p, prefix = Some p -> allChars isNameChar p = true) ->
  wellSigiled type m -> wellSigiled type (applyPrefix prefix m).
Proof.
  intros Hp Hm. unfold applyPrefix.
  destruct (ModuleResolver.truthy prefix) as [p|] eqn:Et; [|done].
  assert (Hpn : allChars isNameChar p = true /\ p <> EmptyString).
  { unfold ModuleResolver.truthy in Et. destruct prefix as [p'|]; [|done].
    destruct (isEmpty p') eqn:Ee; [done|]. injection Et as <-.
    split; [by apply Hp | by destruct p']. }
  destruct Hpn as [Hpn Hne].
  destruct type, m as [d|d]; simpl in *; try done.
  - rewrite Hm. cbn.
    destruct (nonempty_first _ _ Hne Hpn) as (c & t & -> & Hc).
    by apply (first_nameChar_no_sigil c (t +:+ MixinDefinition.name d)).
  - rewrite Hm. cbn. apply (prefix_startsWith "$").
Qed.

Lemma forwardAllLoop_wellSigiled h self cur root type statements s :
  (forall st p, In st statements -> ForwardStatement.prefix st = Some p ->
                allChars isNameChar p = true) ->
  (forall c p, snd (self c p s) = s) ->
  (forall c p ms, fst (self c p s) = Returned ms -> Forall (wellSigiled type) ms) ->
  forall ms,
    fst (forwardAllLoop h self cur root type statements s) = Returned ms ->
    Forall (wellSigiled type) ms.
Proof.
  intros Hst Hframe Hself. induction statements as [|st rest IH]; intros ms; simpl.
  - intros [= <-]. constructor.
  - assert (IH' := IH (fun st' p Hin => Hst st' p (or_intror Hin))).
    assert (Hp := fun p => Hst st p (or_introl eq_refl)).
    rewrite bind_await.
    destruct (ModuleResolver.resolveModule h _ _ _) as [[p|]| |]; try done; [|apply IH'].
    rewrite bind_await. destruct (readFile h p) as [c| |] eqn:Hc; try done.
    rewrite bind_outcome, Hframe.
    destruct (fst (self c p s)) as [nested| |] eqn:Hn; try done.
    rewrite bind_outcome, forwardAllLoop_frame by done.
    destruct (fst (forwardAllLoop _ _ _ _ _ _ _)) as [others| |]; try done.
    simpl. intros [= <-].
    rewrite !List.Forall_app. repeat split.
    + apply List.Forall_forall. intros m Hm.
      apply in_map_iff in Hm as (d & <- & Hd). apply filter_In in Hd as [Hd _].
      apply applyPrefix_wellSigiled; [done|]. by eapply directMembers_wellSigiled.
    + apply List.Forall_forall. intros m Hm.
      apply in_map_iff in Hm as (m' & <- & Hm').
      apply applyPrefix_wellSigiled; [done|].
      specialize (Hself c p nested Hn). rewrite List.Forall_forall in Hself. auto.
    + by apply IH'.
Qed.

Lemma findAllForwardedMembersFuel_wellSigiled h root type fuel :
  forall content cur visited ms,
    fst (findAllForwardedMembersFuel fuel h content cur root type visited) = Returned ms ->
    Forall (wellSigiled type) ms.
Proof.
  induction fuel as [|fuel IH]; intros content cur visited ms;
    (destruct (decide (cur ∈ visited)) as [Hv|Hv];
     [rewrite findAllForwardedMembersFuel_visited by done; intros [= <-]; constructor|]).
  - simpl. by rewrite bind_has, bool_decide_eq_false_2.
  - rewrite findAllForwardedMembersFuel_enter by done. cbv zeta. unfold fst at 1.
    apply forwardAllLoop_wellSigiled.
    + intros st p. apply parseForwardStatements_prefix.
    + intros. apply findAllForwardedMembersFuel_frame.
    + intros c p. apply IH.
Qed.

(** X16. Every member that [findAllForwardedMembers] returns is of the kind
    asked for and keeps the sigil of its kind under every chain of prefixes:
    the name of a variable starts with the sigil, the name of a mixin never
    does. *)
Theorem forwarded_members_keep_kind_and_sigil
    (h : Host) (content currentFilePath workspaceRoot : string) (type : MemberKind)
    (visited : gset string) (members : list Member) :
  fst (findAllForwardedMembers h content currentFilePath workspaceRoot type visited)
  = Returned members ->
  Forall (wellSigiled type) members.
Proof. apply findAllForwardedMembersFuel_wellSigiled. Qed.

Lemma forwarded_members_keep_kind_and_sigil_witness :
  exists members,
    fst (findAllForwardedMembers Scenario.nestedHost (Scenario.text Scenario.prefixA)
           Scenario.fileA Scenario.root KVariable ∅) = Returned members
    /\ map ForwardResolver.memberName members = [ "$p-q-primary" ]
    /\ Forall (wellSigiled KVariable) members.
Proof.
  eexists. split; [vm_compute; reflexivity|]. split; [reflexivity|].
  apply (forwarded_members_keep_kind_and_sigil Scenario.nestedHost
           (Scenario.text Scenario.prefixA) Scenario.fileA Scenario.root KVariable ∅).
  vm_compute. reflexivity.
Defined.

(** ** The cache of file contents *)

Lemma view_lookup disk (cache : gmap string CachedFile.t) p :
  CachedFileSystem.view disk cache !! p
  = match CacheManager.get cache p with
    | Some c => Some c
    | None => disk !! p
    end.
Proof.
  unfold CachedFileSystem.view, CacheManager.get.
  rewrite lookup_union, lookup_fmap.
  destruct (cache !! p) as [e|]; simpl; by destruct (disk !! p).
Qed.

Lemma get_set now (cache : gmap string CachedFile.t) p q c :
  CacheManager.get (CacheManager.set now cache p c) q
  = if decide (p = q) then Some c else CacheManager.get cache q.
Proof.
  unfold CacheManager.get, CacheManager.set.
  destruct (decide (p = q)) as [->|Hne].
  - by rewrite lookup_insert_eq.
  - by rewrite lookup_insert_ne.
Qed.

Lemma get_onDidChangeTextDocument (cache : gmap string CachedFile.t) p q :
  CacheManager.get (CacheManager.onDidChangeTextDocument cache p) q
  = if decide (p = q) then None else CacheManager.get cache q.
Proof.
  unfold CacheManager.get, CacheManager.onDidChangeTextDocument.
  case_bool_decide as Hc.
  - destruct (decide (p = q)) as [->|Hne].
    + by rewrite lookup_delete_eq.
    + by rewrite lookup_delete_ne.
  - destruct (decide (p = q)) as [->|Hne]; [|done].
    destruct (cache !! q) eqn:E; [|done]. exfalso. apply Hc. eauto.
Qed.

(** X17. Reads do not change what reads resolve to. When [texts h] is what
    the cache and the disk resolve to together, the cached [readFile]
    returns what [readFile] on the host returns, and the cache as the read
    leaves it resolves, with the disk, to the same texts: filling the cache
    is invisible to every later read of every path. *)
Theorem cached_read_is_the_read_of_the_host
    (h : Host) (disk : gmap string string) (cache : CacheManager.t)
    (now : nat) (filePath : string) :
  texts h = CachedFileSystem.view disk cache ->
  fst (CachedFileSystem.readFile disk now filePath cache) = FileSystem.readFile h filePath
  /\ CachedFileSystem.view disk (snd (CachedFileSystem.readFile disk now filePath cache))
     = texts h.
Proof.
  intros Hh. unfold FileSystem.readFile. rewrite Hh, view_lookup.
  unfold CachedFileSystem.readFile.
  destruct (CacheManager.get cache filePath) as [c|] eqn:Eg; [done|].
  destruct (disk !! filePath) as [c|] eqn:Ed; [|done].
  split; [done|]. cbn [snd]. apply map_eq. intros q.
  rewrite !view_lookup, get_set.
  destruct (decide (filePath = q)) as [<-|]; [|done]. by rewrite Eg, Ed.
Qed.

Lemma cached_read_is_the_read_of_the_host_witness :
  fst (CachedFileSystem.readFile {[ Scenario.fileA := "$a: 1;" ]} 7 Scenario.fileA ∅)
  = Returned "$a: 1;"
  /\ CachedFileSystem.view {[ Scenario.fileA := "$a: 1;" ]}
       (snd (CachedFileSystem.readFile {[ Scenario.fileA := "$a: 1;" ]} 7 Scenario.fileA ∅))
     = {[ Scenario.fileA := "$a: 1;" ]}.
Proof.
  destruct (cached_read_is_the_read_of_the_host
              {| entries := {[ Scenario.fileA ]}; texts := {[ Scenario.fileA := "$a: 1;" ]};
                 cwd := "/w"; JSON_parse := fun _ => None |}
              {[ Scenario.fileA := "$a: 1;" ]} ∅ 7 Scenario.fileA) as [W1 W2].
  - vm_compute. reflexivity.
  - split; [rewrite W1; vm_compute; reflexivity | rewrite W2; reflexivity].
Defined.

(** X18. A text that was read is served until it is invalidated: after a
    read that returned [content], every later read of the path returns
    [content] and leaves the cache alone, whatever the disk holds by then,
    also nothing; once the change listener has run on the path, the next
    read is that of the disk; and the listener does not touch the entry of
    any other path. *)
Theorem cached_text_is_served_until_invalidated
    (disk : gmap string string) (now : nat) (filePath content : string)
    (cache cache' : CacheManager.t) :
  CachedFileSystem.readFile disk now filePath cache = (Returned content, cache') ->
  (forall disk' now',
     CachedFileSystem.readFile disk' now' filePath cache' = (Returned content, cache'))
  /\ (forall disk' now',
        fst (CachedFileSystem.readFile disk' now' filePath
               (CacheManager.onDidChangeTextDocument cache' filePath))
        = match disk' !! filePath with
          | Some content' => Returned content'
          | None => Thrown
          end)
  /\ (forall other,
        other <> filePath ->
        CacheManager.get (CacheManager.onDidChangeTextDocument cache' filePath) other
        = CacheManager.get cache' other).
Proof.
  intros Hread.
  assert (Hget : CacheManager.get cache' filePath = Some content).
  { unfold CachedFileSystem.readFile in Hread.
    destruct (CacheManager.get cache filePath) as [c|] eqn:Eg.
    - by injection Hread as <- <-.
    - destruct (disk !! filePath) as [c|]; [|done]. injection Hread as <- <-.
      rewrite get_set. by destruct (decide (filePath = filePath)). }
  split; [|split].
  - intros disk' now'. unfold CachedFileSystem.readFile. by rewrite Hget.
  - intros disk' now'. unfold CachedFileSystem.readFile.
    rewrite get_onDidChangeTextDocument.
    destruct (decide (filePath = filePath)); [|done]. by destruct (disk' !! filePath).
  - intros other Hne. rewrite get_onDidChangeTextDocument.
    by destruct (decide (filePath = other)).
Qed.

Lemma cached_text_is_served_until_invalidated_witness :
  CachedFileSystem.readFile ∅ 9 Scenario.fileA
    (CacheManager.set 7 CacheManager.create Scenario.fileA "$a: 1;")
  = (Returned "$a: 1;", CacheManager.set 7 CacheManager.create Scenario.fileA "$a: 1;")
  /\ fst (CachedFileSystem.readFile {[ Scenario.fileA := "$a: 2;" ]} 9 Scenario.fileA
            (CacheManager.onDidChangeTextDocument
               (CacheManager.set 7 CacheManager.create Scenario.fileA "$a: 1;")
               Scenario.fileA))
     = Returned "$a: 2;".
Proof.
  pose proof (cached_text_is_served_until_invalidated
                {[ Scenario.fileA := "$a: 1;" ]} 7 Scenario.fileA "$a: 1;"
                CacheManager.create
                (CacheManager.set 7 CacheManager.create Scenario.fileA "$a: 1;")) as W.
  refine ((fun W' => conj (proj1 W' ∅ 9) _) (W _)).
  - rewrite (proj1 (proj2 W') {[ Scenario.fileA := "$a: 2;" ]} 9). vm_compute. reflexivity.
  - vm_compute. reflexivity.
Defined.

Lemma get_delete (cache : gmap string CachedFile.t) p q :
  CacheManager.get (delete p cache) q
  = if decide (p = q) then None else CacheManager.get cache q.
Proof.
  unfold CacheManager.get. destruct (decide (p = q)) as [->|Hne].
  - by rewrite lookup_delete_eq.
  - by rewrite lookup_delete_ne.
Qed.

Lemma get_onDidDeleteFiles files :
  forall (cache : gmap string CachedFile.t) q,
    CacheManager.get (CacheManager.onDidDeleteFiles cache files) q
    = if bool_decide (q ∈ files) then None else CacheManager.get cache q.
Proof.
  unfold CacheManager.onDidDeleteFiles.
  induction files as [|p files IH]; intros cache q; [done|].
  cbn [foldl]. rewrite IH.
  destruct (decide (q ∈ files)) as [Hin|Hnin].
  - rewrite (bool_decide_eq_true_2 (q ∈ files)) by done.
    by rewrite (bool_decide_eq_true_2 (q ∈ p :: files))
      by (apply list_elem_of_In; right; by apply list_elem_of_In).
  - rewrite (bool_decide_eq_false_2 (q ∈ files)) by done.
    destruct (decide (p = q)) as [->|Hne].
    + rewrite (bool_decide_eq_true_2 (q ∈ q :: files)) by (apply list_elem_of_In; by left).
      case_bool_decide as Hc; [by rewrite get_delete, decide_True|].
      unfold CacheManager.get. destruct (cache !! q) eqn:E; [|done].
      exfalso. apply Hc. by eexists.
    + rewrite (bool_decide_eq_false_2 (q ∈ p :: files))
        by (intros Hq; apply list_elem_of_In in Hq as [Hq|Hq];
            [congruence | by apply Hnin, list_elem_of_In]).
      case_bool_decide; [by rewrite get_delete, decide_False|done].
Qed.

Lemma getSize_onDidDeleteFiles files :
  forall cache : gmap string CachedFile.t,
    CacheManager.getSize (CacheManager.onDidDeleteFiles cache files)
    <= CacheManager.getSize cache.
Proof.
  unfold CacheManager.onDidDeleteFiles, CacheManager.getSize.
  induction files as [|p files IH]; intros cache; [done|].
  cbn [foldl]. etransitivity; [apply IH|].
  case_bool_decide as Hc; [|done].
  rewrite (map_size_delete_Some p cache Hc). lia.
Qed.

(** X19. What the cache holds is what was set and not deleted: a lookup
    after [set] finds the content set for that path and what was there for
    any other; the delete listener leaves no entry for the files it is
    told of and every other entry as it was; [clear] leaves none. The size
    counts the paths: setting a path without an entry adds one, setting a
    path that has one adds none, and the listener never adds. *)
Theorem cache_holds_what_was_set_and_not_deleted
    (now : nat) (cache : gmap string CachedFile.t) (filePath content : string)
    (files : list string) (other : string) :
  CacheManager.get (CacheManager.set now cache filePath content) other
  = (if decide (filePath = other) then Some content else CacheManager.get cache other)
  /\ CacheManager.getSize (CacheManager.set now cache filePath content)
     = match CacheManager.get cache filePath with
       | Some _ => CacheManager.getSize cache
       | None => S (CacheManager.getSize cache)
       end
  /\ CacheManager.get (CacheManager.onDidDeleteFiles cache files) other
     = (if bool_decide (other ∈ files) then None else CacheManager.get cache other)
  /\ CacheManager.getSize (CacheManager.onDidDeleteFiles cache files)
     <= CacheManager.getSize cache
  /\ CacheManager.get (CacheManager.clear cache) other = None
  /\ CacheManager.getSize (CacheManager.clear cache) = 0.
Proof.
  split; [apply get_set|]. split.
  - unfold CacheManager.getSize, CacheManager.set, CacheManager.get.
    destruct (cache !! filePath) as [e|] eqn:E.
    + rewrite map_size_insert_Some; [done | by eexists].
    + by rewrite map_size_insert_None.
  - split; [apply get_onDidDeleteFiles|]. split; [apply getSize_onDidDeleteFiles|].
    split; [done|]. unfold CacheManager.getSize, CacheManager.clear. apply map_size_empty.
Qed.

(** ** The definition provider's reading of a line *)

Lemma paren_exclusive c : isChar 40 c = true -> isChar 41 c = false.
Proof. destruct c as [[] [] [] [] [] [] [] []]; vm_compute; congruence. Qed.

Lemma isChar_41 c : isChar 41 c = true -> c = ")"%char.
Proof. destruct c as [[] [] [] [] [] [] [] []]; vm_compute; congruence. Qed.

Lemma take_S_cons n c s : JS.take (S n) (String c s) = String c (JS.take n s).
Proof. reflexivity. Qed.

Lemma parenBalance_cons c s :
  parenBalance (String c s)
  = ((if isChar 40 c then 1 else 0) - (if isChar 41 c then 1 else 0) + parenBalance s)%Z.
Proof. unfold parenBalance. cbn [countChars]. lia. Qed.

(** The loop returns the first closing parenthesis at which the count of
    open parentheses is back at zero. *)
Lemma matchingParenLoop_spec s :
  forall (i : nat) (depth : Z) (e : nat),
    matchingParenLoop s i depth = Some e ->
    (i <= e)%nat
    /\ String.get (e - i) s = Some ")"%char
    /\ (depth + parenBalance (JS.take (S (e - i)) s) = 0)%Z
    /\ forall k, (k < e - i)%nat -> String.get k s = Some ")"%char ->
                 (depth + parenBalance (JS.take (S k) s) <> 0)%Z.
Proof.
  induction s as [|c s IH]; intros i depth e; [done|].
  cbn [matchingParenLoop].
  assert (Hstep : forall d,
    d = (depth + ((if isChar 40 c then 1 else 0) - (if isChar 41 c then 1 else 0)))%Z ->
    (isChar 41 c = true -> d <> 0%Z) ->
    matchingParenLoop s (S i) d = Some e ->
    (i <= e)%nat
    /\ String.get (e - i) (String c s) = Some ")"%char
    /\ (depth + parenBalance (JS.take (S (e - i)) (String c s)) = 0)%Z
    /\ forall k, (k < e - i)%nat -> String.get k (String c s) = Some ")"%char ->
                 (depth + parenBalance (JS.take (S k) (String c s)) <> 0)%Z).
  { intros d Hd Hnz H. apply IH in H as (Hle & Hget & Hbal & Hmin).
    replace (e - i) with (S (e - S i)) by lia.
    split; [lia|]. split; [exact Hget|]. split.
    - rewrite take_S_cons. rewrite parenBalance_cons. lia.
    - intros [|k] Hk Hk'.
      + rewrite take_S_cons. injection Hk' as ->. rewrite parenBalance_cons.
        change (parenBalance (JS.take 0 s)) with 0%Z.
        change (isChar 40 ")") with false in *. change (isChar 41 ")") with true in *.
        specialize (Hnz eq_refl). cbv iota in Hd |- *. lia.
      + rewrite take_S_cons. rewrite parenBalance_cons.
        specialize (Hmin k ltac:(lia) Hk'). lia. }
  destruct (isChar 40 c) eqn:E40.
  - rewrite (paren_exclusive c E40) in *. intros H.
    apply (Hstep (depth + 1)%Z); [lia | done | done].
  - destruct (isChar 41 c) eqn:E41.
    + destruct (Z.eqb_spec (depth - 1) 0) as [Hz|Hnz].
      * intros [= <-]. rewrite Nat.sub_diag.
        split; [lia|]. split; [by rewrite (isChar_41 c E41)|]. split.
        -- rewrite take_S_cons. rewrite parenBalance_cons, E40, E41.
           change (parenBalance (JS.take 0 s)) with 0%Z. lia.
        -- intros k Hk. lia.
      * intros H. apply (Hstep (depth - 1)%Z); [lia | done | done].
    + intros H. apply (Hstep depth); [lia | done | done].
Qed.

(** X20. The parenthesis that [findMatchingParen] returns for a start index
    lies behind it, is a closing one, and closes the text from the start
    index on: up to it as many parentheses are closed as are opened. It is
    the first such one, no closing parenthesis before it balances the
    text. *)
Theorem matching_paren_is_the_first_that_balances
    (line : string) (startIndex parenEnd : nat) :
  findMatchingParen line startIndex = Some parenEnd ->
  startIndex < parenEnd
  /\ charAt parenEnd line = Some ")"%char
  /\ parenBalance (substring startIndex (S parenEnd) line) = 0%Z
  /\ forall k, startIndex <= k < parenEnd -> charAt k line = Some ")"%char ->
               parenBalance (substring startIndex (S k) line) <> 0%Z.
Proof.
  unfold findMatchingParen, charAt. intros H.
  apply matchingParenLoop_spec in H as (Hle & Hget & Hbal & Hmin).
  rewrite get_drop in Hget. replace (startIndex + (parenEnd - startIndex)) with parenEnd in Hget by lia.
  assert (Hsub : forall k, startIndex <= k ->
            substring startIndex (S k) line = JS.take (S (k - startIndex)) (JS.drop startIndex line)).
  { intros k Hk. unfold substring. rewrite Nat.min_l, Nat.max_r by lia.
    f_equal. lia. }
  assert (Hlt : startIndex < parenEnd).
  { destruct (decide (startIndex = parenEnd)) as [<-|]; [|lia]. exfalso.
    rewrite Nat.sub_diag in Hbal.
    destruct (JS.drop startIndex line) as [|c s] eqn:Ed.
    - pose proof (get_drop startIndex 0 line) as Hg. rewrite Ed, Nat.add_0_r in Hg.
      rewrite Hget in Hg. done.
    - pose proof (get_drop startIndex 0 line) as Hg. rewrite Ed, Nat.add_0_r in Hg.
      rewrite Hget in Hg. injection Hg as ->.
      rewrite take_S_cons in Hbal. rewrite parenBalance_cons in Hbal.
      change (parenBalance (JS.take 0 s)) with 0%Z in Hbal.
      change (isChar 40 ")") with false in *. change (isChar 41 ")") with true in *.
      cbv iota in Hbal. lia. }
  split; [done|]. split; [done|]. split.
  - rewrite Hsub by lia. lia.
  - intros k Hk Hk'. rewrite Hsub by lia.
    specialize (Hmin (k - startIndex) ltac:(lia)).
    rewrite get_drop in Hmin. replace (startIndex + (k - startIndex)) with k in Hmin by lia.
    specialize (Hmin Hk'). lia.
Qed.

Lemma matching_paren_is_the_first_that_balances_witness :
  findMatchingParen "@include m.tint(rgba(0, 0, 0), $w: (1 + 2)) )" 15 = Some 42
  /\ parenBalance (substring 15 43 "@include m.tint(rgba(0, 0, 0), $w: (1 + 2)) )") = 0%Z.
Proof.
  split; [reflexivity|].
  apply (matching_paren_is_the_first_that_balances
           "@include m.tint(rgba(0, 0, 0), $w: (1 + 2)) )" 15 42).
  reflexivity.
Defined.

Lemma indexOfAux_single c s i p :
  indexOfAux (String c EmptyString) s i = Some p ->
  i <= p
  /\ allChars (fun x => negb (Ascii.eqb x c)) (JS.take (p - i) s) = true
  /\ exists rest, JS.drop (p - i) s = String c rest.
Proof.
  revert i; induction s as [|x s IH]; intros i; cbn [indexOfAux String.prefix]; [done|].
  destruct (ascii_dec c x) as [<-|Hne].
  - destruct s; intros [= <-]; rewrite Nat.sub_diag; (split; [lia|]); split; eauto.
  - intros H. apply IH in H as (Hle & Hall & rest & Hrest).
    replace (p - i) with (S (p - S i)) by lia. split; [lia|]. split; [|eauto].
    cbn. rewrite Hall, andb_true_r. apply negb_true_iff. apply Ascii.eqb_neq. congruence.
Qed.

(** X21. A context that [extractContext] finds is read off the line under
    the cursor: its token is a piece of the line that spans the cursor, of
    the form namespace, dot, member with neither part empty and no dot in
    the namespace; the file and the workspace root are the ones of the
    document. Without a workspace folder there is no context. *)
Theorem context_is_the_reference_under_the_cursor
    (line : string) (cursorChar : nat) (fsPath : string)
    (workspaceFolder : option string) (context : ResolutionContext.t) :
  extractContextOn line cursorChar fsPath workspaceFolder = Some context ->
  ResolutionContext.token context
  = ResolutionContext.namespace context +:+ "." +:+ ResolutionContext.member context
  /\ ResolutionContext.namespace context <> EmptyString
  /\ ResolutionContext.member context <> EmptyString
  /\ allChars notDot (ResolutionContext.namespace context) = true
  /\ (exists start end_,
         start <= cursorChar <= end_
         /\ ResolutionContext.token context = substring start end_ line)
  /\ ResolutionContext.currentFilePath context = fsPath
  /\ workspaceFolder = Some (ResolutionContext.workspaceRoot context).
Proof.
  unfold extractContextOn.
  set (afterWord := Nat.ltb 0 cursorChar && testAt isMemberChar (cursorChar - 1) line).
  destruct (_ && negb afterWord); [done|].
  set (start0 := if Nat.ltb cursorChar (String.length line)
                    && testAt isMemberChar cursorChar line
                 then Some cursorChar
                 else if afterWord then Some (cursorChar - 1) else None).
  assert (Hstart0 : forall s0, start0 = Some s0 -> s0 <= cursorChar).
  { unfold start0. intros s0.
    destruct (_ && testAt isMemberChar cursorChar line); [intros [= <-]; lia|].
    destruct afterWord; [|done]. intros [= <-]. lia. }
  destruct start0 as [s0|]; [|done].
  pose proof (Hstart0 s0 eq_refl) as Hs0. clear Hstart0.
  set (start1 := scanBack isMemberChar line s0).
  set (start := if Nat.ltb 0 start1 && _
                then scanBack isNameChar line (start1 - 1) else start1).
  set (end_ := scanForward isMemberChar line cursorChar).
  assert (Hstart1 : start1 <= s0) by apply scanBack_le.
  assert (Hstart : start <= start1).
  { unfold start.
    match goal with |- (if ?b then _ else _) <= _ => destruct b end; [|lia].
    pose proof (scanBack_le isNameChar line (start1 - 1)). lia. }
  assert (Hend : cursorChar <= end_) by apply scanForward_ge.
  set (token := substring start end_ line).
  destruct (indexOf "." token) as [dotIndex|] eqn:Edot; [|done].
  destruct (isEmpty (substring 0 dotIndex token)) eqn:En; [done|].
  destruct (isEmpty (substringFrom (dotIndex + 1) token)) eqn:Em; [done|].
  cbn [orb]. destruct workspaceFolder as [root|]; [|done].
  intros [= <-]. cbn.
  apply indexOfAux_single in Edot as (_ & Hall & rest & Hrest). rewrite Nat.sub_0_r in *.
  assert (Hns : substring 0 dotIndex token = JS.take dotIndex token).
  { unfold substring. by rewrite Nat.min_l, Nat.max_r, Nat.sub_0_r by lia. }
  assert (Hmem : substringFrom (dotIndex + 1) token = rest).
  { unfold substringFrom. by rewrite <- (drop_drop 1 dotIndex token), Hrest. }
  rewrite Hns, Hmem in *.
  repeat split.
  - rewrite <- (take_drop_append dotIndex token) at 1. by rewrite Hrest.
  - by destruct (JS.take dotIndex token).
  - by destruct rest.
  - exact Hall.
  - exists start, end_. split; [lia | done].
Qed.

Lemma context_is_the_reference_under_the_cursor_witness :
  extractContextOn "  border: 1px solid a.styles.$color-mono6;" 30 Scenario.main
    (Some Scenario.root)
  = Some (ResolutionContext.mk "styles.$color-mono6" "styles" "$color-mono6"
            Scenario.main Scenario.root OnMember)
  /\ allChars notDot "styles" = true.
Proof.
  assert (H : extractContextOn "  border: 1px solid a.styles.$color-mono6;" 30 Scenario.main
                (Some Scenario.root)
              = Some (ResolutionContext.mk "styles.$color-mono6" "styles" "$color-mono6"
                        Scenario.main Scenario.root OnMember))
    by (vm_compute; reflexivity).
  split; [exact H|].
  apply (context_is_the_reference_under_the_cursor _ _ _ _ _ H).
Defined.

Lemma drop_take_comm k n s : JS.drop k (JS.take n s) = JS.take (n - k) (JS.drop k s).
Proof.
  revert n s; induction k as [|k IH]; intros n s.
  - by rewrite Nat.sub_0_r.
  - destruct n as [|n]; [by destruct s|]. destruct s as [|c s]; [simpl; by destruct (n - k)|].
    cbn [JS.take JS.drop]. apply IH.
Qed.

Lemma argumentPattern_name s name len n :
  argumentPattern s = Some ((name, len), n) ->
  name <> EmptyString /\ allChars isNameChar name = true /\ len = n
  /\ startsWith "$" s = true.
Proof.
  unfold argumentPattern. destruct s as [|d s1]; [done|].
  destruct (isChar 36 d) eqn:Ed; [|done].
  destruct (span isSpace s1) as [ws s2].
  pose proof (span_all isNameChar s2) as Hall.
  destruct (span isNameChar s2) as [nm s3]. simpl in Hall.
  destruct (isEmpty nm) eqn:En; [done|]. intros [= <- <- <-].
  split; [by destruct nm|]. split; [done|]. split; [done|].
  destruct d as [[] [] [] [] [] [] [] []]; try discriminate Ed.
  apply (prefix_startsWith "$" s1).
Qed.

Lemma extractArgumentNameAtCursor_spec line cursorPos argsStart argsEnd name :
  argsStart < cursorPos < argsEnd ->
  extractArgumentNameAtCursor line cursorPos argsStart argsEnd = Some name ->
  exists tokenStart tokenLength,
    argsStart < tokenStart <= cursorPos
    /\ cursorPos <= tokenStart + tokenLength
    /\ argumentPattern (substring tokenStart argsEnd line)
       = Some ((name, tokenLength), tokenLength).
Proof.
  intros Hc. unfold extractArgumentNameAtCursor.
  destruct (List.find _ _) as [[k [nm len]]|] eqn:E; [|done]. intros [= ->].
  apply List.find_some in E as [Hin Hpos].
  apply matchAll_matches in Hin as [n Hm].
  pose proof (argumentPattern_name _ _ _ _ Hm) as (_ & _ & -> & _).
  apply andb_true_iff in Hpos as [H1 H2].
  apply Z.leb_le in H1, H2.
  exists (argsStart + 1 + k), n. split; [lia|]. split; [lia|].
  rewrite <- Hm. f_equal. unfold substring.
  rewrite !Nat.min_l, !Nat.max_r by lia.
  rewrite drop_take_comm, drop_drop. f_equal. lia.
Qed.

(** X22. An argument context is only found for a cursor strictly between
    the parentheses of an include call of a namespaced mixin that opens and
    closes on the cursor's line. Its argument name is a word, never empty:
    the name of a dollar token of the call's argument text that starts at
    or before the cursor and ends at or behind it. *)
Theorem argument_context_is_a_token_under_the_cursor
    (document : TextDocument.t) (position : Position.t) (context : IncludeContext.t) :
  extractIncludeCallContext document position = Returned (Some context) ->
  exists line,
    TextDocument.lineAt document (Position.line position) = Returned line
    /\ argumentUnderCursor line (Position.character position) context.
Proof.
  unfold extractIncludeCallContext.
  destruct (TextDocument.lineAt document (Position.line position)) as [line| |];
    try done.
  intros [= H]. exists line. split; [done|]. revert H.
  generalize (Position.character position) as cursorChar. intros cursorChar.
  assert (Hloop : forall matches,
    (forall i a, In (i, a) matches ->
                 exists len, includePattern (JS.drop i line) = Some (a, len)) ->
    includeCallLoop line cursorChar matches = Some context ->
    argumentUnderCursor line cursorChar context).
  { induction matches as [|[matchStart [ns mx]] rest IH]; intros Hall; [done|].
    assert (Hrest : forall i a, In (i, a) rest ->
              exists len, includePattern (JS.drop i line) = Some (a, len))
      by (intros i a Hi; apply Hall; by right).
    cbn [includeCallLoop].
    destruct (indexOfFrom "(" line matchStart) as [parenStart|] eqn:Eps; [|by apply IH].
    destruct (findMatchingParen line parenStart) as [parenEnd|] eqn:Epe; [|by apply IH].
    destruct (Nat.leb cursorChar parenStart || Nat.leb parenEnd cursorChar) eqn:Ein;
      [by apply IH|].
    apply orb_false_iff in Ein as [E1 E2].
    apply Nat.leb_gt in E1, E2.
    destruct (extractArgumentNameAtCursor line cursorChar parenStart parenEnd)
      as [nm|] eqn:Earg; [|by apply IH].
    cbn [ModuleResolver.truthy]. destruct (isEmpty nm) eqn:Enm; [by apply IH|].
    intros [= <-]. 
    apply extractArgumentNameAtCursor_spec in Earg as (ts & tl & Hts & Hte & Hm);
      [|lia].
    pose proof (argumentPattern_name _ _ _ _ Hm) as (Hne & Hchars & _ & _).
    exists matchStart, parenStart, parenEnd, ts, tl. cbn.
    split; [apply (Hall matchStart (ns, mx)); by left|].
    repeat split; try done; lia. }
  apply Hloop. intros i a. apply matchAll_matches.
Qed.

Lemma argument_context_is_a_token_under_the_cursor_witness :
  extractIncludeCallContext (Scenario.document Scenario.paramsMain) (Position.mk 1 40)
  = Returned (Some (IncludeContext.mk "m" "button" "variant"))
  /\ exists line,
       TextDocument.lineAt (Scenario.document Scenario.paramsMain) 1 = Returned line
       /\ argumentUnderCursor line 40 (IncludeContext.mk "m" "button" "variant").
Proof.
  assert (H : extractIncludeCallContext (Scenario.document Scenario.paramsMain)
                (Position.mk 1 40)
              = Returned (Some (IncludeContext.mk "m" "button" "variant")))
    by (vm_compute; reflexivity).
  split; [exact H|].
  exact (argument_context_is_a_token_under_the_cursor _ _ _ H).
Defined.

Lemma findMixinDefinition_empty_name content filePath :
  SassParser.findMixinDefinition content EmptyString filePath = None.
Proof.
  unfold SassParser.findMixinDefinition.
  destruct (List.find _ _) as [[[l c] n]|] eqn:E; [|done].
  apply List.find_some in E as [Hin Heq].
  apply String.eqb_eq in Heq. subst n.
  apply mixinMatches_spec in Hin as (lineText & len & _ & Hm).
  by apply MIXIN_PATTERN_name in Hm as [Hne _].
Qed.

Lemma orElse_nonempty s b : s <> EmptyString -> orElse (Some s) b = s.
Proof. by destruct s. Qed.

Lemma parameter_within_ten_lines content mixinName startLine p :
  In p (SassParser.parseMixinParameters content mixinName startLine) ->
  startLine <= MixinParameter.line p < startLine + 10.
Proof.
  intros H. apply parseMixinParameters_position in H as [(t & H & _)|(-> & _)]; lia.
Qed.

(** X23. For a call of a namespaced mixin, the jump from one of its
    arguments and the jump from the mixin's name, when both find a location,
    land in the same file, and the argument's line is the line of the mixin
    keyword or one of the nine lines below it. *)
Theorem argument_jump_lands_by_the_mixin
    (h : Host) (namespace mixinName argumentName token root : string)
    (document : TextDocument.t) (visited visited' : gset string)
    (argument mixin : Location.t) :
  TextDocument.workspaceFolder document = Some root ->
  startsWith "$" mixinName = false ->
  fst (resolveArgumentDefinition h
         (IncludeContext.mk namespace mixinName argumentName) document visited)
  = Returned (Some argument) ->
  fst (resolveDefinition h
         (ResolutionContext.mk token namespace mixinName
            (TextDocument.fsPath document) root OnMember) visited')
  = Returned (Some mixin) ->
  Location.filePath argument = Location.filePath mixin
  /\ Location.line mixin <= Location.line argument < Location.line mixin + 10.
Proof.
  intros Hroot Hsig HA HM. unfold resolveArgumentDefinition in HA.
  rewrite Hroot in HA. cbn [IncludeContext.namespace IncludeContext.mixinName
                            IncludeContext.argumentName] in HA.
  rewrite bind_await in HA.
  destruct (readFile h (TextDocument.fsPath document)) as [cD| |] eqn:EcD; try done.
  destruct (UseResolver.findUseByNamespace cD namespace) as [u|] eqn:Eu; [|done].
  rewrite bind_await in HA.
  destruct (ModuleResolver.resolveModule h (UseStatement.path u)
              (TextDocument.fsPath document) root) as [[mp|]| |] eqn:Em; try done.
  rewrite bind_await in HA.
  destruct (readFile h mp) as [mc| |] eqn:Emc; try done.
  unfold clearVisitedFiles in HA. rewrite bind_clear, bind_outcome in HA.
  rewrite (resolveDefinition_on_member h _ cD u mp mc visited') in HM by done.
  cbn [ResolutionContext.member ResolutionContext.workspaceRoot fst] in HM.
  rewrite Hsig in HM.
  destruct (fst (findForwardedMember h mc mixinName mp root ∅)) as [fr| |] eqn:Ef;
    try done.
  assert (Htarget :
    exists tp tn tc d,
      readFile h tp = Returned tc
      /\ SassParser.findMixinDefinition tc tn tp = Some d
      /\ mixin = locationOfMixin d
      /\ orElse (option_map ForwardedMember.filePath fr) mp = tp
      /\ orElse (option_map ForwardedMember.originalName fr) mixinName = tn).
  { unfold scanTarget in HM. destruct fr as [r|].
    - apply findForwardedMemberFuel_hit_inv in Ef as [(_ & Hne & _) _].
      destruct (readFile h (ForwardedMember.filePath r)) as [tc| |] eqn:Etc; try done.
      destruct (SassParser.findMixinDefinition tc (ForwardedMember.originalName r)
                  (ForwardedMember.filePath r)) as [d|] eqn:Ed; [|done].
      injection HM as <-.
      exists (ForwardedMember.filePath r), (ForwardedMember.originalName r), tc, d.
      repeat split; try done.
      + by apply orElse_nonempty.
      + apply orElse_nonempty. intros Hn. rewrite Hn in Ed.
        by rewrite findMixinDefinition_empty_name in Ed.
    - rewrite Emc in HM.
      destruct (SassParser.findMixinDefinition mc mixinName mp) as [d|] eqn:Ed; [|done].
      injection HM as <-. by exists mp, mixinName, mc, d. }
  destruct Htarget as (tp & tn & tc & d & Htc & Hd & -> & Htp & Htn).
  cbv zeta in HA. rewrite Htp, Htn, bind_await, Htc, Hd in HA.
  pose proof (findMixinDefinition_parameters _ _ _ _ Hd) as Hps.
  pose proof (findMixinDefinition_filePath _ _ _ _ Hd) as [Hfile _].
  rewrite Hps in HA.
  destruct (SassParser.parseMixinParameters tc tn (MixinDefinition.line d))
    as [|p0 ps] eqn:Eps; [done|].
  destruct (List.find _ (p0 :: ps)) as [p|] eqn:Efind; [|done].
  injection HA as <-. cbn.
  split; [done|].
  apply List.find_some in Efind as [Hin _]. rewrite <- Eps in Hin.
  by apply parameter_within_ten_lines in Hin.
Qed.

Lemma argument_jump_lands_by_the_mixin_witness :
  fst (resolveArgumentDefinition Scenario.paramsHost
         (IncludeContext.mk "m" "grid" "c05") (Scenario.document Scenario.paramsMain) ∅)
  = Returned (Some (Location.mk Scenario.fileA 6 2))
  /\ fst (resolveDefinition Scenario.paramsHost
            (ResolutionContext.mk "m.grid" "m" "grid" Scenario.main Scenario.root OnMember) ∅)
     = Returned (Some (Location.mk Scenario.fileA 1 0))
  /\ Location.line (Location.mk Scenario.fileA 1 0)
     <= Location.line (Location.mk Scenario.fileA 6 2)
     < Location.line (Location.mk Scenario.fileA 1 0) + 10.
Proof.
  assert (HA : fst (resolveArgumentDefinition Scenario.paramsHost
                      (IncludeContext.mk "m" "grid" "c05")
                      (Scenario.document Scenario.paramsMain) ∅)
               = Returned (Some (Location.mk Scenario.fileA 6 2)))
    by (vm_compute; reflexivity).
  assert (HM : fst (resolveDefinition Scenario.paramsHost
                      (ResolutionContext.mk "m.grid" "m" "grid" Scenario.main
                         Scenario.root OnMember) ∅)
               = Returned (Some (Location.mk Scenario.fileA 1 0)))
    by (vm_compute; reflexivity).
  split; [exact HA|]. split; [exact HM|].
  exact (proj2 (argument_jump_lands_by_the_mixin Scenario.paramsHost "m" "grid" "c05"
                  "m.grid" Scenario.root (Scenario.document Scenario.paramsMain) ∅ ∅
                  (Location.mk Scenario.fileA 6 2) (Location.mk Scenario.fileA 1 0)
                  eq_refl eq_refl HA HM)).
Defined.

(** ** The completion provider *)

Import CompletionProvider.

Lemma terminates_withNewSet {A} (m : Eff.M A) :
  terminates m -> terminates (withNewSet m).
Proof. intros H s. apply (H ∅). Qed.

Lemma terminates_findAllForwardedMembers h content cur root type :
  terminates (findAllForwardedMembers h content cur root type).
Proof. intros s. apply findAllForwardedMembers_total. Qed.

Lemma newPosition_not_exhausted line character :
  newPosition line character <> Exhausted.
Proof. unfold newPosition. by destruct (Z.ltb character 0). Qed.

Lemma moduleVariableItems_not_exhausted position namespace allVars :
  forall seen, moduleVariableItems position namespace allVars seen <> Exhausted.
Proof.
  induction allVars as [|v rest IH]; intros seen; [done|].
  cbn [moduleVariableItems]. cbv zeta.
  destruct (startsWith "_" _); [apply IH|].
  case_bool_decide; [apply IH|].
  pose proof (newPosition_not_exhausted (Position.line position)
                (Z.of_nat (Position.character position) - 1)) as Hp.
  destruct (newPosition _ _); try done.
  specialize (IH ({[namespace +:+ ".$"
                    +:+ ForwardResolver.nameWithoutDollar (memberName v)]} ∪ seen)).
  destruct (moduleVariableItems _ _ _ _) as [[items seen']| |]; done.
Qed.

Ltac completion_step :=
  first
    [ terminates_step
    | match goal with
      | |- terminates (withNewSet _) => apply terminates_withNewSet
      | |- terminates (findAllForwardedMembers _ _ _ _ _) =>
          apply terminates_findAllForwardedMembers
      | |- terminates (if ?b then _ else _) => destruct b
      | |- TextDocument.lineAt _ _ <> Exhausted => apply lineAt_not_exhausted
      | |- newPosition _ _ <> Exhausted => apply newPosition_not_exhausted
      | |- moduleVariableItems _ _ _ _ <> Exhausted =>
          apply moduleVariableItems_not_exhausted
      end ].

Lemma terminates_provideNamespaceMemberCompletion h document content position
    namespace memberFilter typedLength :
  terminates (provideNamespaceMemberCompletion h document content position
                namespace memberFilter typedLength).
Proof. unfold provideNamespaceMemberCompletion. repeat completion_step. Qed.

Lemma terminates_provideMixinArgumentCompletion h document content position
    namespace mixinName :
  terminates (provideMixinArgumentCompletion h document content position
                namespace mixinName).
Proof. unfold provideMixinArgumentCompletion. repeat completion_step. Qed.

Lemma terminates_useStatementItems h position cur root useStatements :
  forall seen, terminates (useStatementItems h position cur root useStatements seen).
Proof.
  induction useStatements as [|stmt rest IH]; intros seen; cbn [useStatementItems].
  - apply terminates_ret.
  - destruct (startsWith "sass:" _); [apply IH|].
    repeat completion_step; apply IH.
Qed.

Lemma terminates_provideScopeVariableCompletion h document content position :
  terminates (provideScopeVariableCompletion h document content position).
Proof.
  unfold provideScopeVariableCompletion. repeat completion_step.
  apply terminates_useStatementItems.
Qed.

Lemma getCompletionContext_not_exhausted document position :
  getCompletionContext document position <> Exhausted.
Proof.
  unfold getCompletionContext.
  pose proof (lineAt_not_exhausted document (Position.line position)).
  by destruct (TextDocument.lineAt _ _).
Qed.

Lemma terminates_provideCompletionItems h document content position :
  terminates (provideCompletionItems h document content position).
Proof.
  unfold provideCompletionItems. repeat completion_step.
  - apply getCompletionContext_not_exhausted.
  - apply terminates_provideMixinArgumentCompletion.
  - apply terminates_provideNamespaceMemberCompletion.
  - apply terminates_provideScopeVariableCompletion.
Qed.

(** X24. The completion provider returns a list of items on every host,
    document, text and position: it never throws, and the traversals it
    starts come to an end. Without a workspace folder, and on a line outside
    the document, the list is empty. *)
Theorem completion_returns_a_list
    (h : Host) (document : TextDocument.t) (content : string)
    (position : Position.t) (visited : gset string) :
  exists items visited',
    provideCompletionItems h document content position visited
    = (Returned items, visited')
    /\ (TextDocument.workspaceFolder document = None -> items = [])
    /\ (TextDocument.lineAt document (Position.line position) = Thrown -> items = []).
Proof.
  pose proof (terminates_provideCompletionItems h document content position visited) as Ht.
  destruct (provideCompletionItems h document content position visited)
    as [o visited'] eqn:E.
  unfold provideCompletionItems in E. rewrite catch_outcome, bind_await in E.
  unfold getCompletionContext in E.
  destruct (TextDocument.lineAt document (Position.line position)) as [lineText| |] eqn:El.
  2:{ injection E as <- <-. exists [], visited. done. }
  2:{ exfalso. apply Ht. by injection E as <- _. }
  match type of E with
  | (match fst (?m visited) with _ => _ end) = _ =>
      destruct (m visited) as [[items| |] v1] eqn:Em; cbn [fst snd] in E
  end.
  3:{ exfalso. apply Ht. by injection E as <- _. }
  2:{ injection E as <- <-. exists [], v1. done. }
  injection E as <- <-. exists items, v1. split; [done|]. split; [|done].
  intros Hwf.
  destruct (completionContextOf _) as [[ns mx|ns f n|]|].
  - unfold provideMixinArgumentCompletion in Em. rewrite Hwf in Em. by injection Em as <- _.
  - unfold provideNamespaceMemberCompletion in Em. rewrite bind_await in Em.
    destruct (newPosition _ _); try done.
    destruct (UseResolver.findUseByNamespace content ns); [|by injection Em as <- _].
    destruct (startsWith "sass:" _); [by injection Em as <- _|].
    rewrite Hwf in Em. by injection Em as <- _.
  - unfold provideScopeVariableCompletion in Em. rewrite Hwf in Em. by injection Em as <- _.
  - rewrite bind_await in Em. by injection Em as <- _.
Qed.

Lemma span_cons_true p c s :
  p c = true -> span p (String c s) = (String c (fst (span p s)), snd (span p s)).
Proof. intros H. simpl. rewrite H. by destruct (span p s). Qed.

Lemma namespaceMemberPattern_shape s ns typed n :
  namespaceMemberPattern s = Some ((ns, typed), n) ->
  s = ns +:+ "." +:+ typed
  /\ ns <> EmptyString /\ allChars isNameChar ns = true
  /\ allChars isMemberChar typed = true.
Proof.
  unfold namespaceMemberPattern.
  pose proof (span_append isNameChar s) as Hs.
  pose proof (span_all isNameChar s) as Hall.
  destruct (span isNameChar s) as [ns' s1]. simpl in Hs, Hall.
  destruct (isEmpty ns') eqn:En; [done|].
  destruct s1 as [|dot s2]; [done|].
  destruct (isChar 46 dot) eqn:Edot; [|done].
  assert (dot = "."%char) as ->
    by (destruct dot as [[] [] [] [] [] [] [] []]; try discriminate Edot; reflexivity).
  assert (Hmember : forall r, allChars isNameChar r = true -> allChars isMemberChar r = true).
  { intros r. apply allChars_impl. intros c Hc. unfold isMemberChar. by rewrite Hc. }
  assert (Hrun : forall t, isEmpty (snd (span isNameChar t)) = true ->
                           fst (span isNameChar t) = t).
  { intros t Ht. pose proof (span_append isNameChar t) as Hse.
    destruct (span isNameChar t) as [r rest]. simpl in *. destruct rest; [|done].
    by rewrite append_empty_r in Hse. }
  set (withDollar := match s2 with
                     | String d s3 =>
                         if isChar 36 d
                         then let '(run, s4) := span isNameChar s3 in
                              if isEmpty s4 then Some (String d run) else None
                         else None
                     | EmptyString => None
                     end).
  assert (Hwd : forall t, withDollar = Some t -> t = s2 /\ allChars isMemberChar t = true).
  { unfold withDollar. intros t. destruct s2 as [|d s3]; [done|].
    destruct (isChar 36 d) eqn:Ed; [|done].
    pose proof (Hrun s3) as Hr. pose proof (span_all isNameChar s3) as Ha.
    destruct (span isNameChar s3) as [run s4]. simpl in Hr, Ha.
    destruct (isEmpty s4); [|done]. intros [= <-]. rewrite Hr in * by done.
    split; [done|]. cbn [allChars]. rewrite (Hmember _ Ha), andb_true_r.
    unfold isMemberChar. by rewrite Ed, orb_true_r. }
  destruct withDollar as [t|].
  - intros [= <- <- _]. destruct (Hwd t eq_refl) as [-> Ht].
    split; [done|]. split; [by destruct ns'|]. done.
  - pose proof (Hrun s2) as Hr. pose proof (span_all isNameChar s2) as Ha.
    destruct (span isNameChar s2) as [run s4]. simpl in Hr, Ha.
    destruct (isEmpty s4); [|done]. intros [= <- <- _]. rewrite Hr in * by done.
    split; [done|]. split; [by destruct ns'|]. split; [done|]. by apply Hmember.
Qed.

Lemma namespaceMemberPattern_extends c s r n :
  isNameChar c = true ->
  namespaceMemberPattern s = Some (r, n) ->
  namespaceMemberPattern (String c s) <> None.
Proof.
  intros Hc. unfold namespaceMemberPattern. rewrite (span_cons_true _ _ _ Hc).
  destruct (span isNameChar s) as [ns s1]. cbn [fst snd isEmpty].
  destruct (isEmpty ns); [done|].
  destruct s1 as [|dot s2]; [done|]. destruct (isChar 46 dot); [|done].
  destruct (match s2 with
            | String d s3 =>
                if isChar 36 d
                then let '(run, s4) := span isNameChar s3 in
                     if isEmpty s4 then Some (String d run) else None
                else None
            | EmptyString => None
            end); [done|].
  destruct (span isNameChar s2) as [run s4]. by destruct (isEmpty s4).
Qed.

Lemma drop_snoc_last before c rest :
  JS.drop (String.length before) (before +:+ String c rest) = String c rest.
Proof. apply drop_append. Qed.

Lemma last_inv s c :
  JS.last s = Some c -> exists pre, s = pre +:+ String c EmptyString.
Proof.
  induction s as [|x s IH]; [done|]. cbn [JS.last].
  destruct s as [|y s'].
  - intros [= ->]. by exists EmptyString.
  - intros H. destruct (IH H) as [pre Hpre]. exists (String x pre).
    by rewrite append_cons, <- Hpre.
Qed.

(** X25. A namespace-member context is read off the text before the
    cursor: that text ends with the namespace, a dot and what is typed
    behind the dot. The namespace is a non-empty word, the longest one that
    ends at the dot; the typed length is the length of what is typed, and a
    typed dollar sign selects the variables. The start of the range to
    replace lies on the line: its construction does not throw. *)
Theorem member_context_is_the_text_behind_the_dot
    (document : TextDocument.t) (position : Position.t) (namespace : string)
    (memberFilter : NamespaceMemberFilter) (typedLength : nat) :
  getCompletionContext document position
  = Returned (Some (NamespaceMemberContext namespace memberFilter typedLength)) ->
  exists lineText before typed,
    TextDocument.lineAt document (Position.line position) = Returned lineText
    /\ substring 0 (Position.character position) lineText
       = before +:+ namespace +:+ "." +:+ typed
    /\ String.length typed = typedLength
    /\ namespace <> EmptyString
    /\ allChars isNameChar namespace = true
    /\ allChars isMemberChar typed = true
    /\ (forall c, JS.last before = Some c -> isNameChar c = false)
    /\ (startsWith "$" typed = true -> memberFilter = FilterVariable)
    /\ String.length before + String.length namespace + 1 + typedLength
       <= Position.character position
    /\ newPosition (Position.line position)
         (Z.of_nat (Position.character position) - Z.of_nat typedLength)
       = Returned (Position.mk (Position.line position)
                     (Position.character position - typedLength)).
Proof.
  unfold getCompletionContext.
  destruct (TextDocument.lineAt document (Position.line position)) as [lineText| |];
    try done.
  set (text := substring 0 (Position.character position) lineText).
  assert (Hlen : String.length text <= Position.character position).
  { unfold text, substring. rewrite PathFacts.length_take. simpl. lia. }
  unfold completionContextOf.
  destruct (search mixinArgumentPattern text) as [[i0 [ns0 mx0]]|]; [done|].
  destruct (search namespaceMemberPattern text) as [[i [ns typed]]|] eqn:Es;
    [|by destruct (scopeVariableTest text)].
  intros [= <- <- <-].
  apply searchFrom_Some in Es as (_ & [n Hm] & Hleft). rewrite Nat.sub_0_r in *.
  pose proof (namespaceMemberPattern_shape _ _ _ _ Hm) as (Hshape & Hne & Hns & Htyped).
  pose proof (take_drop_append i text) as Htext. rewrite Hshape in Htext.
  exists lineText, (JS.take i text), typed.
  assert (Htotal : String.length (JS.take i text) + String.length ns + 1
                   + String.length typed = String.length text).
  { pose proof (f_equal String.length Htext) as Hl.
    rewrite !length_append in Hl. simpl in Hl. lia. }
  split; [done|]. split; [done|]. split; [done|]. split; [done|].
  split; [done|]. split; [done|]. split; [|split; [|split]].
  - intros c Hc. destruct (isNameChar c) eqn:Ec; [|done]. exfalso.
    apply last_inv in Hc as [pre Hpre].
    assert (Hi : String.length pre < i).
    { assert (String.length (JS.take i text) = String.length pre + 1)
        by (rewrite Hpre, length_append; simpl; lia).
      rewrite PathFacts.length_take in H. lia. }
    pose proof (Hleft _ Hi) as Hnone.
    assert (Hd : JS.drop (String.length pre) text
                 = String c (ns +:+ "." +:+ typed)).
    { rewrite <- Htext, Hpre. rewrite append_assoc. apply drop_append. }
    rewrite Hd in Hnone. rewrite <- Hshape in Hnone.
    by eapply namespaceMemberPattern_extends.
  - intros Hd. unfold determineMemberFilter. by rewrite Hd.
  - lia.
  - unfold newPosition.
    destruct (Z.ltb_spec (Z.of_nat (Position.character position)
                          - Z.of_nat (String.length typed)) 0); [lia|].
    do 2 f_equal. lia.
Qed.

Lemma member_context_is_the_text_behind_the_dot_witness :
  getCompletionContext
    (TextDocument.mk Scenario.main [ "a { color: x-theme.$pri }" ] (Some Scenario.root))
    (Position.mk 0 23)
  = Returned (Some (NamespaceMemberContext "x-theme" FilterVariable 4))
  /\ exists lineText before typed,
       TextDocument.lineAt
         (TextDocument.mk Scenario.main [ "a { color: x-theme.$pri }" ]
            (Some Scenario.root)) 0 = Returned lineText
       /\ substring 0 23 lineText = before +:+ "x-theme" +:+ "." +:+ typed
       /\ String.length typed = 4.
Proof.
  assert (H : getCompletionContext
                (TextDocument.mk Scenario.main [ "a { color: x-theme.$pri }" ]
                   (Some Scenario.root))
                (Position.mk 0 23)
              = Returned (Some (NamespaceMemberContext "x-theme" FilterVariable 4)))
    by (vm_compute; reflexivity).
  split; [exact H|].
  destruct (member_context_is_the_text_behind_the_dot _ _ _ _ _ H)
    as (lineText & before & typed & H1 & H2 & H3 & _).
  exists lineText, before, typed. auto.
Defined.

Lemma bind_withNewSet {A B} (m : Eff.M A) (k : A -> Eff.M B) s :
  Eff.bind (withNewSet m) k s =
  match fst (m ∅) with
  | Returned a => k a s
  | Thrown => (Thrown, s)
  | Exhausted => (Exhausted, s)
  end.
Proof. unfold Eff.bind, withNewSet. by destruct (fst (m ∅)). Qed.

Lemma startsWith_dollar_inv s :
  startsWith "$" s = true -> s = "$" +:+ ForwardResolver.nameWithoutDollar s.
Proof.
  intros H. unfold ForwardResolver.nameWithoutDollar. rewrite H.
  unfold startsWith in H. destruct s as [|c tl]; cbn [String.prefix] in H; [done|].
  destruct (ascii_dec "$"%char c) as [<-|]; [|done]. reflexivity.
Qed.

Lemma namespaceVariableItems_spec memberFilter replaceRange allVars :
  memberFilter <> FilterMixin ->
  Forall (wellSigiled KVariable) allVars ->
  forall seen,
    NoDup (map CompletionItem.label (namespaceVariableItems replaceRange allVars seen))
    /\ Forall (fun item =>
                 (CompletionItem.label item ∉ seen)
                 /\ CompletionItem.kind item = KindVariable
                 /\ namespaceItemSpec memberFilter replaceRange item)
              (namespaceVariableItems replaceRange allVars seen).
Proof.
  intros Hf Hall. induction Hall as [|v rest Hv _ IH]; intros seen.
  - split; constructor.
  - cbn [namespaceVariableItems]. cbv zeta.
    destruct (startsWith "_" _) eqn:Ep; [apply IH|].
    case_bool_decide as Hseen; [apply IH|].
    destruct v as [d|d]; [done|]. simpl in Hv.
    pose proof (startsWith_dollar_inv _ Hv) as Hname.
    change (memberName (VariableMember d)) with (VariableDefinition.name d) in *.
    rewrite <- Hname.
    destruct (IH ({[VariableDefinition.name d]} ∪ seen)) as [Hnd Hitems].
    split.
    + cbn [map CompletionItem.label]. apply NoDup_cons. split; [|done].
      rewrite list_elem_of_In, in_map_iff. intros (item & Heq & Hin).
      apply list_elem_of_In in Hin.
      rewrite Forall_forall in Hitems. destruct (Hitems _ Hin) as [Hnot _].
      apply Hnot. rewrite Heq. set_solver.
    + constructor.
      * split; [done|]. split; [done|]. unfold namespaceItemSpec. cbn.
        split; [done|]. split; [done|]. done.
      * eapply Forall_impl; [exact Hitems|]. intros item (Hnot & Hk & Hs).
        split; [set_solver | done].
Qed.

Lemma namespaceMixinItems_spec memberFilter replaceRange allMixins :
  memberFilter <> FilterVariable ->
  Forall (wellSigiled KMixin) allMixins ->
  forall seen,
    NoDup (map CompletionItem.label (namespaceMixinItems replaceRange allMixins seen))
    /\ Forall (fun item =>
                 (CompletionItem.label item ∉ seen)
                 /\ CompletionItem.kind item = KindFunction
                 /\ namespaceItemSpec memberFilter replaceRange item)
              (namespaceMixinItems replaceRange allMixins seen).
Proof.
  intros Hf Hall. induction Hall as [|m rest Hm _ IH]; intros seen.
  - split; constructor.
  - cbn [namespaceMixinItems].
    destruct (startsWith "_" _) eqn:Ep; [apply IH|].
    case_bool_decide as Hseen; [apply IH|].
    destruct m as [d|d]; [|done]. simpl in Hm.
    change (memberName (MixinMember d)) with (MixinDefinition.name d) in *.
    destruct (IH ({[MixinDefinition.name d]} ∪ seen)) as [Hnd Hitems].
    split.
    + cbn [map CompletionItem.label]. apply NoDup_cons. split; [|done].
      rewrite list_elem_of_In, in_map_iff. intros (item & Heq & Hin).
      apply list_elem_of_In in Hin.
      rewrite Forall_forall in Hitems. destruct (Hitems _ Hin) as [Hnot _].
      apply Hnot. rewrite Heq. set_solver.
    + constructor.
      * split; [done|]. split; [done|]. unfold namespaceItemSpec. cbn.
        split; [done|]. split.
        -- unfold ForwardResolver.nameWithoutDollar. by rewrite Hm.
        -- done.
      * eapply Forall_impl; [exact Hitems|]. intros item (Hnot & Hk & Hs).
        split; [set_solver | done].
Qed.

Lemma directVariables_wellSigiled content filePath :
  Forall (wellSigiled KVariable)
    (map VariableMember (SassParser.findAllVariableDefinitions content filePath)).
Proof.
  apply List.Forall_forall. intros m Hm.
  by apply (directMembers_wellSigiled KVariable content filePath).
Qed.

Lemma directMixins_wellSigiled content filePath :
  Forall (wellSigiled KMixin)
    (map MixinMember (SassParser.findAllMixinDefinitionsWithParams content filePath)).
Proof.
  apply List.Forall_forall. intros m Hm.
  by apply (directMembers_wellSigiled KMixin content filePath).
Qed.

Lemma newRange_of_replaceStart (position : Position.t) typedLength :
  typedLength <= Position.character position ->
  newRange (Position.mk (Position.line position)
              (Position.character position - typedLength)) position
  = Range.mk (Position.mk (Position.line position)
                (Position.character position - typedLength)) position.
Proof.
  intros Hle. unfold newRange, isBefore. cbn [Position.line Position.character].
  rewrite Nat.ltb_irrefl, Nat.eqb_refl. cbn [orb andb].
  destruct (Nat.ltb_spec (Position.character position - typedLength)
              (Position.character position)); [done|].
  destruct position as [l c]. cbn in *.
  by replace (c - typedLength) with c by lia.
Qed.

(** X26. What namespace completion returns has no label twice and no
    private member. A variable is offered under its name with the dollar
    sign and a mixin under its name without one, each only under a filter
    that admits it, and every item replaces the range from the typed text
    behind the dot to the cursor. *)
Theorem namespace_completion_offers_public_members_once
    (h : Host) (document : TextDocument.t) (content : string)
    (position : Position.t) (namespace : string)
    (memberFilter : NamespaceMemberFilter) (typedLength : nat)
    (visited : gset string) (items : list CompletionItem.t) :
  fst (provideNamespaceMemberCompletion h document content position namespace
         memberFilter typedLength visited) = Returned items ->
  typedLength <= Position.character position
  /\ NoDup (map CompletionItem.label items)
  /\ Forall (namespaceItemSpec memberFilter
               (Range.mk (Position.mk (Position.line position)
                            (Position.character position - typedLength)) position))
            items.
Proof.
  unfold provideNamespaceMemberCompletion. rewrite bind_await.
  unfold newPosition.
  destruct (Z.ltb_spec (Z.of_nat (Position.character position) - Z.of_nat typedLength) 0)
    as [|Hge]; [done|].
  assert (Hle : typedLength <= Position.character position) by lia.
  replace (Z.to_nat (Z.of_nat (Position.character position) - Z.of_nat typedLength))
    with (Position.character position - typedLength) by lia.
  rewrite (newRange_of_replaceStart position typedLength Hle).
  set (replaceRange := Range.mk _ position).
  assert (Hnil : forall s, fst (Eff.ret (A := list CompletionItem.t) [] s) = Returned items ->
            typedLength <= Position.character position
            /\ NoDup (map CompletionItem.label items)
            /\ Forall (namespaceItemSpec memberFilter replaceRange) items).
  { intros s [= <-]. split; [done|]. split; constructor. }
  destruct (UseResolver.findUseByNamespace content namespace) as [u|]; [|apply Hnil].
  destruct (startsWith "sass:" _); [apply Hnil|].
  destruct (TextDocument.workspaceFolder document) as [root|]; [|apply Hnil].
  rewrite bind_await.
  destruct (ModuleResolver.resolveModule h _ _ _) as [resolved| |]; try done.
  destruct (ModuleResolver.truthy resolved) as [moduleFilePath|]; [|apply Hnil].
  rewrite bind_await.
  destruct (readFile h moduleFilePath) as [moduleContent| |]; try done.
  rewrite bind_outcome.
  assert (Hvars : forall s vs,
    fst (match memberFilter with
         | FilterVariable | FilterBoth =>
             Eff.bind
               (withNewSet (findAllForwardedMembers h moduleContent moduleFilePath
                              root KVariable))
               (fun forwardedVars =>
                  Eff.ret (namespaceVariableItems replaceRange
                             (map VariableMember
                                (SassParser.findAllVariableDefinitions
                                   moduleContent moduleFilePath) ++ forwardedVars)%list ∅))
         | FilterMixin => Eff.ret []
         end s) = Returned vs ->
    NoDup (map CompletionItem.label vs)
    /\ Forall (fun item => CompletionItem.kind item = KindVariable
                           /\ namespaceItemSpec memberFilter replaceRange item) vs).
  { intros s vs.
    assert (Hgo : memberFilter <> FilterMixin ->
      fst (Eff.bind
             (withNewSet (findAllForwardedMembers h moduleContent moduleFilePath
                            root KVariable))
             (fun forwardedVars =>
                Eff.ret (namespaceVariableItems replaceRange
                           (map VariableMember
                              (SassParser.findAllVariableDefinitions
                                 moduleContent moduleFilePath) ++ forwardedVars)%list ∅))
             s) = Returned vs ->
      NoDup (map CompletionItem.label vs)
      /\ Forall (fun item => CompletionItem.kind item = KindVariable
                             /\ namespaceItemSpec memberFilter replaceRange item) vs).
    { intros Hf. rewrite bind_withNewSet.
      destruct (fst (findAllForwardedMembers h moduleContent moduleFilePath root
                       KVariable ∅)) as [fw| |] eqn:Efw; try done.
      intros [= <-].
      apply findAllForwardedMembersFuel_wellSigiled in Efw.
      destruct (namespaceVariableItems_spec memberFilter replaceRange _ Hf
                  (proj2 (Forall_app _ _ _)
                     (conj (directVariables_wellSigiled moduleContent moduleFilePath)
                        Efw)) ∅) as [Hnd Hit].
      split; [done|]. eapply Forall_impl; [exact Hit|]. by intros item (_ & ? & ?). }
    destruct memberFilter; [|by apply Hgo|by apply Hgo].
    intros [= <-]. split; constructor. }
  assert (Hmixins : forall s ms,
    fst (match memberFilter with
         | FilterMixin | FilterBoth =>
             Eff.bind
               (withNewSet (findAllForwardedMembers h moduleContent moduleFilePath
                              root KMixin))
               (fun forwardedMixins =>
                  Eff.ret (namespaceMixinItems replaceRange
                             (map MixinMember
                                (SassParser.findAllMixinDefinitionsWithParams
                                   moduleContent moduleFilePath) ++ forwardedMixins)%list ∅))
         | FilterVariable => Eff.ret []
         end s) = Returned ms ->
    NoDup (map CompletionItem.label ms)
    /\ Forall (fun item => CompletionItem.kind item = KindFunction
                           /\ namespaceItemSpec memberFilter replaceRange item) ms).
  { intros s ms.
    assert (Hgo : memberFilter <> FilterVariable ->
      fst (Eff.bind
             (withNewSet (findAllForwardedMembers h moduleContent moduleFilePath
                            root KMixin))
             (fun forwardedMixins =>
                Eff.ret (namespaceMixinItems replaceRange
                           (map MixinMember
                              (SassParser.findAllMixinDefinitionsWithParams
                                 moduleContent moduleFilePath) ++ forwardedMixins)%list ∅))
             s) = Returned ms ->
      NoDup (map CompletionItem.label ms)
      /\ Forall (fun item => CompletionItem.kind item = KindFunction
                             /\ namespaceItemSpec memberFilter replaceRange item) ms).
    { intros Hf. rewrite bind_withNewSet.
      destruct (fst (findAllForwardedMembers h moduleContent moduleFilePath root
                       KMixin ∅)) as [fw| |] eqn:Efw; try done.
      intros [= <-].
      apply findAllForwardedMembersFuel_wellSigiled in Efw.
      destruct (namespaceMixinItems_spec memberFilter replaceRange _ Hf
                  (proj2 (Forall_app _ _ _)
                     (conj (directMixins_wellSigiled moduleContent moduleFilePath)
                        Efw)) ∅) as [Hnd Hit].
      split; [done|]. eapply Forall_impl; [exact Hit|]. by intros item (_ & ? & ?). }
    destruct memberFilter; [by apply Hgo| |by apply Hgo].
    intros [= <-]. split; constructor. }
  match goal with
  | |- fst (match fst (?m visited) with _ => _ end) = _ -> _ =>
      pose proof (Hvars visited) as Hv;
      destruct (m visited) as [[vs| |] s1]; cbn [fst snd] in *; try done
  end.
  rewrite bind_outcome.
  match goal with
  | |- fst (match fst (?m s1) with _ => _ end) = _ -> _ =>
      pose proof (Hmixins s1) as Hm;
      destruct (m s1) as [[ms| |] s2]; cbn [fst snd] in *; try done
  end.
  intros [= <-].
  destruct (Hv vs eq_refl) as [Hnd1 Hit1]. destruct (Hm ms eq_refl) as [Hnd2 Hit2].
  split; [done|]. split.
  - rewrite map_app. apply NoDup_app. split; [done|]. split; [|done].
    intros l Hl1 Hl2.
    apply list_elem_of_In, in_map_iff in Hl1 as (i1 & <- & Hi1).
    apply list_elem_of_In, in_map_iff in Hl2 as (i2 & Heq & Hi2).
    apply list_elem_of_In in Hi1, Hi2.
    rewrite Forall_forall in Hit1, Hit2.
    destruct (Hit1 _ Hi1) as (Hk1 & _ & _ & Hs1).
    destruct (Hit2 _ Hi2) as (Hk2 & _ & _ & Hs2).
    rewrite Hk1 in Hs1. rewrite Hk2 in Hs2.
    destruct Hs1 as (_ & Hd1 & _). destruct Hs2 as (_ & Hd2 & _). congruence.
  - apply Forall_app. split; (eapply Forall_impl; [eassumption|]); by intros item [_ ?].
Qed.

Lemma namespace_completion_offers_public_members_once_witness :
  exists items,
    fst (provideNamespaceMemberCompletion Scenario.privateHost
           (Scenario.document Scenario.privateMain) (Scenario.text Scenario.privateMain)
           (Position.mk 1 18) "m" FilterBoth 2 ∅) = Returned items
    /\ map CompletionItem.label items = [ "$p-shown"; "p-shown" ]
    /\ NoDup (map CompletionItem.label items).
Proof.
  destruct (fst (provideNamespaceMemberCompletion Scenario.privateHost
                   (Scenario.document Scenario.privateMain)
                   (Scenario.text Scenario.privateMain)
                   (Position.mk 1 18) "m" FilterBoth 2 ∅)) as [items| |] eqn:E;
    [|exfalso; vm_compute in E; discriminate..].
  exists items. split; [reflexivity|].
  pose proof (namespace_completion_offers_public_members_once _ _ _ _ _ _ _ _ _ E)
    as (_ & Hnd & _).
  split; [|exact Hnd].
  vm_compute in E. injection E as <-. reflexivity.
Defined.

Lemma truthy_Some o s : ModuleResolver.truthy o = Some s -> o = Some s.
Proof. destruct o as [t|]; [|done]. simpl. by destruct (isEmpty t); intros [= ->]. Qed.

Lemma find_name_exists (parameters : list MixinParameter.t) p :
  In p parameters ->
  exists q, List.find (fun x => String.eqb (MixinParameter.name x) (MixinParameter.name p))
              parameters = Some q.
Proof.
  intros Hin.
  destruct (List.find _ parameters) as [q|] eqn:E; [eauto|].
  pose proof (List.find_none _ _ E p Hin) as Hn. simpl in Hn.
  by rewrite String.eqb_refl in Hn.
Qed.

(** X27. Completion and definition lookup agree on the arguments of a
    call: when the file system holds the text of the document, every
    argument that completion offers for a call of a namespaced mixin is a
    parameter, not yet entered on the line before the cursor, for which the
    definition lookup on that argument finds a location. *)
Theorem offered_argument_has_a_definition
    (h : Host) (document : TextDocument.t) (content : string) (position : Position.t)
    (namespace mixinName : string) (visited visited' : gset string)
    (items : list CompletionItem.t) (item : CompletionItem.t) :
  readFile h (TextDocument.fsPath document) = Returned content ->
  namespace <> EmptyString ->
  fst (provideMixinArgumentCompletion h document content position
         (Some namespace) mixinName visited) = Returned items ->
  In item items ->
  exists lineText name location,
    TextDocument.lineAt document (Position.line position) = Returned lineText
    /\ CompletionItem.label item = "$" +:+ name
    /\ CompletionItem.kind item = KindProperty
    /\ (name ∉ enteredArgs (substring 0 (Position.character position) lineText))
    /\ resolveArgumentDefinition h (IncludeContext.mk namespace mixinName name)
         document visited'
       = (Returned (Some location), ∅).
Proof.
  intros Hdisk Hns H Hin. unfold provideMixinArgumentCompletion in H.
  destruct (TextDocument.workspaceFolder document) as [root|] eqn:Ewf;
    [|injection H as <-; done].
  cbv zeta in H. rewrite (truthy_nonempty namespace Hns) in H.
  rewrite bind_outcome in H.
  destruct (UseResolver.findUseByNamespace content namespace) as [u|] eqn:Eu;
    [|injection H as <-; done].
  destruct (startsWith "sass:" (UseStatement.path u)); [injection H as <-; done|].
  rewrite bind_await in H.
  destruct (ModuleResolver.resolveModule h (UseStatement.path u)
              (TextDocument.fsPath document) root) as [resolved| |] eqn:Er; try done.
  destruct (ModuleResolver.truthy resolved) as [moduleFilePath|] eqn:Et;
    [|injection H as <-; done].
  apply truthy_Some in Et as ->.
  rewrite bind_await in H.
  destruct (readFile h moduleFilePath) as [moduleContent| |] eqn:Emc; try done.
  unfold clearVisitedFiles in H. rewrite bind_clear, bind_outcome in H.
  rewrite findForwardedMember_frame in H.
  destruct (fst (findForwardedMember h moduleContent mixinName moduleFilePath root ∅))
    as [forwardedResult| |] eqn:Ef; try done.
  cbn [Eff.ret fst snd] in H.
  set (targetFilePath := orElse (option_map ForwardedMember.filePath forwardedResult)
                           moduleFilePath) in *.
  set (targetMixinName := orElse (option_map ForwardedMember.originalName forwardedResult)
                            mixinName) in *.
  rewrite bind_await in H.
  destruct (readFile h targetFilePath) as [targetContent| |] eqn:Etc; try done.
  destruct (SassParser.findMixinDefinition targetContent targetMixinName targetFilePath)
    as [mixinDef|] eqn:Ed; [|injection H as <-; done].
  destruct (MixinDefinition.parameters mixinDef) as [[|p0 ps]|] eqn:Eps;
    [injection H as <-; done| |injection H as <-; done].
  rewrite bind_await in H.
  destruct (TextDocument.lineAt document (Position.line position)) as [lineText| |];
    try done.
  injection H as <-.
  change (In item
            (map argumentItem
               (List.filter
                  (fun param =>
                     negb (bool_decide
                             (MixinParameter.name param
                              ∈ enteredArgs
                                  (substring 0 (Position.character position) lineText))))
                  (p0 :: ps)))) in Hin.
  apply in_map_iff in Hin as (p & <- & Hp).
  apply filter_In in Hp as [Hp Hnot].
  apply negb_true_iff, bool_decide_eq_false in Hnot.
  destruct (find_name_exists (p0 :: ps) p Hp) as [q Hq].
  exists lineText, (MixinParameter.name p),
    (Location.mk targetFilePath (MixinParameter.line q) (MixinParameter.column q)).
  split; [done|]. split; [done|]. split; [done|]. split; [done|].
  unfold resolveArgumentDefinition. rewrite Ewf.
  cbn [IncludeContext.namespace IncludeContext.mixinName IncludeContext.argumentName].
  rewrite bind_await, Hdisk, Eu, bind_await, Er, bind_await, Emc.
  unfold clearVisitedFiles. rewrite bind_clear, bind_outcome, findForwardedMember_frame, Ef.
  cbv zeta. fold targetFilePath targetMixinName.
  rewrite bind_await, Etc, Ed, Eps, Hq. reflexivity.
Qed.

Lemma offered_argument_has_a_definition_witness :
  exists items,
    fst (provideMixinArgumentCompletion Scenario.paramsHost
           (Scenario.document Scenario.paramsMain) (Scenario.text Scenario.paramsMain)
           (Position.mk 1 37) (Some "m") "button" ∅) = Returned items
    /\ map CompletionItem.label items = [ "$variant" ]
    /\ forall item, In item items ->
         exists name location,
           CompletionItem.label item = "$" +:+ name
           /\ resolveArgumentDefinition Scenario.paramsHost
                (IncludeContext.mk "m" "button" name)
                (Scenario.document Scenario.paramsMain) ∅
              = (Returned (Some location), ∅).
Proof.
  destruct (fst (provideMixinArgumentCompletion Scenario.paramsHost
                   (Scenario.document Scenario.paramsMain)
                   (Scenario.text Scenario.paramsMain)
                   (Position.mk 1 37) (Some "m") "button" ∅)) as [items| |] eqn:E;
    [|exfalso; vm_compute in E; discriminate..].
  exists items. split; [reflexivity|]. split.
  - vm_compute in E. injection E as <-. reflexivity.
  - intros item Hin.
    assert (Hdisk : readFile Scenario.paramsHost
                      (TextDocument.fsPath (Scenario.document Scenario.paramsMain))
                    = Returned (Scenario.text Scenario.paramsMain))
      by (vm_compute; reflexivity).
    assert (Hns : "m" <> EmptyString) by discriminate.
    destruct (offered_argument_has_a_definition Scenario.paramsHost
                (Scenario.document Scenario.paramsMain)
                (Scenario.text Scenario.paramsMain) (Position.mk 1 37) "m" "button"
                ∅ ∅ items item Hdisk Hns E Hin)
      as (lineText & name & location & _ & Hl & _ & _ & Hr).
    exists name, location. split; [exact Hl | exact Hr].
Defined.

Lemma localVariableItems_spec localVars :
  forall seen items seen',
    localVariableItems localVars seen = (items, seen') ->
    NoDup (map CompletionItem.label items)
    /\ (forall l, l ∈ seen' <-> l ∈ seen \/ In l (map CompletionItem.label items))
    /\ (forall item, In item items ->
          (CompletionItem.label item ∉ seen)
          /\ CompletionItem.kind item = KindVariable
          /\ CompletionItem.range item = None
          /\ CompletionItem.filterText item = None
          /\ CompletionItem.insertText item
             = Some (PlainText (ForwardResolver.nameWithoutDollar
                                  (CompletionItem.label item)))
          /\ startsWith "_" (ForwardResolver.nameWithoutDollar
                               (CompletionItem.label item)) = false)
    /\ (forall v, In v localVars ->
          startsWith "_" (ForwardResolver.nameWithoutDollar (VariableDefinition.name v))
          = false ->
          VariableDefinition.name v ∈ seen').
Proof.
  induction localVars as [|v rest IH]; intros seen items seen'.
  - intros [= <- <-]. split; [constructor|]. split; [|split]; [|done|done].
    intros l. simpl. tauto.
  - cbn [localVariableItems]. cbv zeta.
    destruct (startsWith "_" _) eqn:Ep.
    { intros H. destruct (IH _ _ _ H) as (H1 & H2 & H3 & H4).
      split; [done|]. split; [done|]. split; [done|].
      intros w [<-|Hw] Hpub; [congruence | by apply H4]. }
    case_bool_decide as Hseen.
    { intros H. destruct (IH _ _ _ H) as (H1 & H2 & H3 & H4).
      split; [done|]. split; [done|]. split; [done|].
      intros w [<-|Hw] Hpub; [apply H2; by left | by apply H4]. }
    destruct (localVariableItems rest ({[VariableDefinition.name v]} ∪ seen))
      as [items0 seen0] eqn:E.
    intros [= <- <-]. destruct (IH _ _ _ E) as (H1 & H2 & H3 & H4).
    split; [|split; [|split]].
    + cbn [map CompletionItem.label]. apply NoDup_cons. split; [|done].
      rewrite list_elem_of_In, in_map_iff. intros (item & Heq & Hin).
      destruct (H3 _ Hin) as [Hnot _]. apply Hnot. rewrite Heq. set_solver.
    + intros l. rewrite H2. cbn [map CompletionItem.label In].
      rewrite elem_of_union, elem_of_singleton. intuition congruence.
    + intros item [<-|Hin].
      * cbn. repeat split; done.
      * destruct (H3 _ Hin) as (Hnot & Hrest). split; [set_solver | done].
    + intros w [<-|Hw] Hpub; [|by apply H4].
      apply H2. left. set_solver.
Qed.

Lemma moduleVariableItems_spec position namespace allVars :
  forall seen items seen',
    moduleVariableItems position namespace allVars seen = Returned (items, seen') ->
    NoDup (map CompletionItem.label items)
    /\ (forall l, l ∈ seen' <-> l ∈ seen \/ In l (map CompletionItem.label items))
    /\ (forall item, In item items ->
          (CompletionItem.label item ∉ seen) /\ scopeItemSpec position item).
Proof.
  induction allVars as [|v rest IH]; intros seen items seen'.
  - intros [= <- <-]. split; [constructor|]. split; [|done].
    intros l. simpl. tauto.
  - cbn [moduleVariableItems]. cbv zeta.
    destruct (startsWith "_" _) eqn:Ep; [apply IH|].
    case_bool_decide as Hseen; [apply IH|].
    unfold newPosition.
    destruct (Z.ltb_spec (Z.of_nat (Position.character position) - 1) 0) as [|Hge];
      [done|].
    set (label := namespace +:+ ".$"
                  +:+ ForwardResolver.nameWithoutDollar (memberName v)) in *.
    destruct (moduleVariableItems position namespace rest ({[label]} ∪ seen))
      as [[items0 seen0]| |] eqn:E; try done.
    intros [= <- <-]. destruct (IH _ _ _ E) as (H1 & H2 & H3).
    split; [|split].
    + cbn [map CompletionItem.label]. apply NoDup_cons. split; [|done].
      rewrite list_elem_of_In, in_map_iff. intros (item & Heq & Hin).
      destruct (H3 _ Hin) as [Hnot _]. apply Hnot. rewrite Heq. set_solver.
    + intros l. rewrite H2. cbn [map CompletionItem.label In].
      rewrite elem_of_union, elem_of_singleton. intuition congruence.
    + intros item [<-|Hin].
      * split; [done|]. split; [done|]. right.
        exists namespace, (ForwardResolver.nameWithoutDollar (memberName v)). cbn.
        split; [done|]. split; [done|]. split; [done|]. split; [done|].
        split; [lia|].
        replace (Z.to_nat (Z.of_nat (Position.character position) - 1))
          with (Position.character position - 1) by lia.
        by rewrite newRange_of_replaceStart by lia.
      * destruct (H3 _ Hin) as (Hnot & Hrest). split; [set_solver | done].
Qed.

Lemma useStatementItems_spec h position cur root useStatements :
  forall seen s items,
    fst (useStatementItems h position cur root useStatements seen s) = Returned items ->
    NoDup (map CompletionItem.label items)
    /\ (forall item, In item items ->
          (CompletionItem.label item ∉ seen) /\ scopeItemSpec position item).
Proof.
  induction useStatements as [|stmt rest IH]; intros seen s items;
    cbn [useStatementItems].
  - intros [= <-]. split; [constructor | done].
  - destruct (startsWith "sass:" _); [apply IH|].
    rewrite bind_await.
    destruct (ModuleResolver.resolveModule h _ _ _) as [resolved| |]; try done.
    destruct (ModuleResolver.truthy resolved) as [moduleFilePath|]; [|apply IH].
    rewrite bind_await.
    destruct (readFile h moduleFilePath) as [moduleContent| |]; try done.
    cbv zeta. rewrite bind_withNewSet.
    destruct (fst (findAllForwardedMembers h moduleContent moduleFilePath root
                     KVariable ∅)) as [forwardedVars| |]; try done.
    rewrite bind_await.
    destruct (moduleVariableItems position (UseStatement.namespace stmt) _ seen)
      as [[items1 seen1]| |] eqn:E1; try done.
    cbn [fst snd]. rewrite bind_outcome.
    destruct (fst (useStatementItems h position cur root rest seen1 s))
      as [items2| |] eqn:E2; try done.
    intros [= <-].
    destruct (moduleVariableItems_spec _ _ _ _ _ _ E1) as (H1 & H2 & H3).
    destruct (IH _ _ _ E2) as (H4 & H5).
    split.
    + rewrite map_app. apply NoDup_app. split; [done|]. split; [|done].
      intros l Hl1 Hl2.
      apply list_elem_of_In, in_map_iff in Hl2 as (i2 & <- & Hi2).
      destruct (H5 _ Hi2) as [Hnot _]. apply Hnot, H2. right.
      by apply list_elem_of_In.
    + intros item Hin. apply in_app_or in Hin as [Hin|Hin]; [by apply H3|].
      destruct (H5 _ Hin) as [Hnot Hspec]. split; [|done].
      intros Hs. apply Hnot, H2. by left.
Qed.

(** X28. What scope completion returns has no label twice and no private
    name: the variables of the document under their own names, then the
    variables of the imported modules under namespace, dot and name, these
    replacing the one character before the cursor. Every public variable
    that the document defines is offered. *)
Theorem scope_completion_offers_each_name_once
    (h : Host) (document : TextDocument.t) (content : string)
    (position : Position.t) (visited : gset string)
    (items : list CompletionItem.t) :
  fst (provideScopeVariableCompletion h document content position visited)
  = Returned items ->
  NoDup (map CompletionItem.label items)
  /\ Forall (scopeItemSpec position) items
  /\ (TextDocument.workspaceFolder document <> None ->
      forall v,
        In v (SassParser.findAllVariableDefinitions content
                (TextDocument.fsPath document)) ->
        startsWith "_" (ForwardResolver.nameWithoutDollar (VariableDefinition.name v))
        = false ->
        In (VariableDefinition.name v) (map CompletionItem.label items)).
Proof.
  unfold provideScopeVariableCompletion.
  destruct (TextDocument.workspaceFolder document) as [root|];
    [|intros [= <-]; split; [constructor|]; split; [constructor | done]].
  cbv zeta.
  destruct (localVariableItems _ ∅) as [localItems seen] eqn:El.
  rewrite bind_outcome.
  destruct (fst (useStatementItems h position (TextDocument.fsPath document) root
                   (UseResolver.parseUseStatements content) seen visited))
    as [moduleItems| |] eqn:Em; try done.
  intros [= <-].
  destruct (localVariableItems_spec _ _ _ _ El) as (H1 & H2 & H3 & H4).
  destruct (useStatementItems_spec _ _ _ _ _ _ _ _ Em) as (H5 & H6).
  split; [|split].
  - rewrite map_app. apply NoDup_app. split; [done|]. split; [|done].
    intros l Hl1 Hl2.
    apply list_elem_of_In, in_map_iff in Hl2 as (i2 & <- & Hi2).
    destruct (H6 _ Hi2) as [Hnot _]. apply Hnot, H2. right. by apply list_elem_of_In.
  - apply List.Forall_forall. intros item Hin.
    apply in_app_or in Hin as [Hin|Hin]; [|by apply H6].
    destruct (H3 _ Hin) as (_ & Hk & Hr & Hf & Hi & Hp).
    split; [done|]. left. done.
  - intros _ v Hv Hpub. rewrite map_app. apply in_or_app. left.
    specialize (H4 v Hv Hpub). apply H2 in H4 as [H4|H4]; [set_solver | done].
Qed.

Lemma scope_completion_offers_each_name_once_witness :
  exists items,
    fst (provideCompletionItems Scenario.privateHost (Scenario.document scopeLines)
           (Scenario.text scopeLines) (Position.mk 3 13) ∅) = Returned items
    /\ fst (provideScopeVariableCompletion Scenario.privateHost
              (Scenario.document scopeLines) (Scenario.text scopeLines)
              (Position.mk 3 13) ∅) = Returned items
    /\ map CompletionItem.label items = [ "$local"; "n.$shown" ]
    /\ NoDup (map CompletionItem.label items)
    /\ Forall (scopeItemSpec (Position.mk 3 13)) items.
Proof.
  destruct (fst (provideScopeVariableCompletion Scenario.privateHost
                   (Scenario.document scopeLines) (Scenario.text scopeLines)
                   (Position.mk 3 13) ∅)) as [items| |] eqn:E;
    [|exfalso; vm_compute in E; discriminate..].
  exists items.
  pose proof (scope_completion_offers_each_name_once _ _ _ _ _ _ E) as (Hnd & Hspec & _).
  vm_compute in E. injection E as <-.
  split; [vm_compute; reflexivity|]. split; [reflexivity|]. split; [reflexivity|].
  split; [exact Hnd | exact Hspec].
Defined.

Lemma useStatementItems_unreadable h position cur root stmt p useStatements :
  In stmt useStatements ->
  startsWith "sass:" (UseStatement.path stmt) = false ->
  ModuleResolver.resolveModule h (UseStatement.path stmt) cur root = Returned (Some p) ->
  readFile h p = Thrown ->
  forall seen s,
    fst (useStatementItems h position cur root useStatements seen s) = Thrown.
Proof.
  intros Hin Hsass Hres Hread.
  induction useStatements as [|st rest IH]; [done|]. intros seen s.
  cbn [useStatementItems].
  assert (Hhere : st = stmt ->
            fst (useStatementItems h position cur root (st :: rest) seen s) = Thrown).
  { intros ->. cbn [useStatementItems]. rewrite Hsass, bind_await, Hres.
    pose proof (resolveModule_nonempty _ _ _ _ _ Hres) as Hne.
    rewrite (truthy_nonempty p Hne), bind_await, Hread. reflexivity. }
  destruct Hin as [Heq|Hin]; [by apply Hhere|]. specialize (IH Hin).
  destruct (startsWith "sass:" (UseStatement.path st)); [apply IH|].
  rewrite bind_await.
  pose proof (resolveModule_not_exhausted h (UseStatement.path st) cur root) as Hr.
  destruct (ModuleResolver.resolveModule h (UseStatement.path st) cur root)
    as [resolved| |]; try done.
  destruct (ModuleResolver.truthy resolved) as [moduleFilePath|]; [|apply IH].
  rewrite bind_await.
  pose proof (readFile_not_exhausted h moduleFilePath) as Hf.
  destruct (readFile h moduleFilePath) as [moduleContent| |]; try done.
  cbv zeta. rewrite bind_withNewSet.
  pose proof (findAllForwardedMembers_total h moduleContent moduleFilePath root
                KVariable ∅) as Ha.
  destruct (fst (findAllForwardedMembers h moduleContent moduleFilePath root
                   KVariable ∅)) as [forwardedVars| |]; try done.
  rewrite bind_await.
  pose proof (moduleVariableItems_not_exhausted position (UseStatement.namespace st)
                (map VariableMember
                   (SassParser.findAllVariableDefinitions moduleContent moduleFilePath)
                 ++ forwardedVars)%list seen) as Hm.
  destruct (moduleVariableItems position (UseStatement.namespace st) _ seen)
    as [[items1 seen1]| |]; try done.
  cbn [fst snd]. rewrite bind_outcome. by rewrite IH.
Qed.

(** X29. One import that resolves to a path which cannot be read silences
    scope completion: the failure of the read leaves
    [provideScopeVariableCompletion] and the provider returns the empty
    list, whatever variables the document and its other imports define. *)
Theorem unreadable_import_silences_scope_completion
    (h : Host) (document : TextDocument.t) (content : string)
    (position : Position.t) (visited : gset string)
    (root : string) (stmt : UseStatement.t) (resolvedPath : string) :
  getCompletionContext document position = Returned (Some ScopeVariableContext) ->
  TextDocument.workspaceFolder document = Some root ->
  In stmt (UseResolver.parseUseStatements content) ->
  startsWith "sass:" (UseStatement.path stmt) = false ->
  ModuleResolver.resolveModule h (UseStatement.path stmt)
    (TextDocument.fsPath document) root = Returned (Some resolvedPath) ->
  readFile h resolvedPath = Thrown ->
  fst (provideScopeVariableCompletion h document content position visited) = Thrown
  /\ fst (provideCompletionItems h document content position visited) = Returned [].
Proof.
  intros Hctx Hwf Hin Hsass Hres Hread.
  assert (Hscope : fst (provideScopeVariableCompletion h document content position
                          visited) = Thrown).
  { unfold provideScopeVariableCompletion. rewrite Hwf. cbv zeta.
    destruct (localVariableItems _ ∅) as [localItems seen].
    rewrite bind_outcome.
    by rewrite (useStatementItems_unreadable _ _ _ _ _ _ _ Hin Hsass Hres Hread). }
  split; [done|].
  unfold provideCompletionItems. rewrite catch_outcome, bind_await, Hctx.
  by rewrite Hscope.
Qed.

Lemma unreadable_import_silences_scope_completion_witness :
  fst (provideCompletionItems Scenario.brokenHost (Scenario.document brokenLines)
         (Scenario.text brokenLines) (Position.mk 2 13) ∅) = Returned []
  /\ In (VariableDefinition.mk "$local" Scenario.main 1 0 (Some "1px"))
        (SassParser.findAllVariableDefinitions (Scenario.text brokenLines) Scenario.main).
Proof.
  split; [|vm_compute; auto].
  refine (proj2 (unreadable_import_silences_scope_completion Scenario.brokenHost
                   (Scenario.document brokenLines) (Scenario.text brokenLines)
                   (Position.mk 2 13) ∅ Scenario.root
                   (UseStatement.mk "./a" "m" 0) Scenario.fileA _ _ _ _ _ _));
    try (vm_compute; reflexivity).
  vm_compute. auto.
Defined.

Lemma enumerated_variable_has_a_match content filePath d :
  In d (SassParser.findAllVariableDefinitions content filePath) ->
  SassParser.variableMatches content (VariableDefinition.name d) <> [].
Proof.
  intros Hin. unfold SassParser.findAllVariableDefinitions, enumerate in Hin.
  apply variableLines_inv in Hin
    as (_ & (lineText & len & Hn & _ & _ & Hcomment & Hm) & _ & _).
  rewrite Nat.sub_0_r in Hn.
  apply matchAll_matches in Hm as [len' Hm].
  pose proof Hm as Hcol.
  apply VARIABLE_PATTERN_name in Hm as (x & Hx & _).
  assert (Hlt : VariableDefinition.column d <= String.length lineText).
  { unfold VARIABLE_PATTERN in Hcol.
    destruct (JS.drop (VariableDefinition.column d) lineText) eqn:E; [done|].
    apply drop_cons_length in E. lia. }
  destruct (scanFrom_first (variablePattern (VariableDefinition.name d)) lineText 0 _ _ Hx Hlt)
    as (j & a & rest & Hscan & Hj).
  assert (Hmem : In (VariableDefinition.line d, 0 + j)
                    (SassParser.variableMatches content (VariableDefinition.name d))).
  { unfold SassParser.variableMatches. apply in_flat_map.
    exists (VariableDefinition.line d, lineText). split.
    - by apply (enumerateFrom_In _ 0).
    - rewrite Hcomment. unfold matchAll. rewrite Hscan. by left. }
  intros Hnil. by rewrite Hnil in Hmem.
Qed.

Lemma namespaceVariableItems_In replaceRange allVars :
  forall seen item,
    In item (namespaceVariableItems replaceRange allVars seen) ->
    exists v, In v allVars
      /\ CompletionItem.label item
         = "$" +:+ ForwardResolver.nameWithoutDollar (memberName v).
Proof.
  induction allVars as [|v rest IH]; intros seen item; [done|].
  cbn [namespaceVariableItems]. cbv zeta.
  assert (Hrest : forall s, In item (namespaceVariableItems replaceRange rest s) ->
            exists w, In w (v :: rest)
              /\ CompletionItem.label item
                 = "$" +:+ ForwardResolver.nameWithoutDollar (memberName w)).
  { intros s Hs. destruct (IH _ _ Hs) as (w & Hw & Hl). exists w. split; [by right | done]. }
  destruct (startsWith "_" _); [apply Hrest|].
  case_bool_decide; [apply Hrest|].
  intros [<-|Hin]; [|by eapply Hrest].
  exists v. split; [by left | done].
Qed.

Lemma namespaceMixinItems_In replaceRange allMixins :
  forall seen item,
    In item (namespaceMixinItems replaceRange allMixins seen) ->
    exists m, In m allMixins /\ CompletionItem.label item = memberName m.
Proof.
  induction allMixins as [|m rest IH]; intros seen item; [done|].
  cbn [namespaceMixinItems].
  assert (Hrest : forall s, In item (namespaceMixinItems replaceRange rest s) ->
            exists w, In w (m :: rest) /\ CompletionItem.label item = memberName w).
  { intros s Hs. destruct (IH _ _ Hs) as (w & Hw & Hl). exists w. split; [by right | done]. }
  destruct (startsWith "_" _); [apply Hrest|].
  case_bool_decide; [apply Hrest|].
  intros [<-|Hin]; [|by eapply Hrest].
  exists m. split; [by left | done].
Qed.

Lemma enumerated_mixin_is_found content filePath d :
  In d (SassParser.findAllMixinDefinitionsWithParams content filePath) ->
  SassParser.findMixinDefinition content (MixinDefinition.name d) filePath <> None.
Proof.
  unfold SassParser.findAllMixinDefinitionsWithParams, SassParser.findMixinDefinition.
  rewrite in_map_iff. intros ([[l c] n] & <- & Hin). cbn [MixinDefinition.name].
  destruct (List.find _ _) as [[[l' c'] n']|] eqn:E; [done|].
  pose proof (List.find_none _ _ E _ Hin) as Hn. cbn in Hn.
  by rewrite String.eqb_refl in Hn.
Qed.

(** X30. Completion and definition lookup agree on a module without
    re-exports: when the file system holds the text of the document and the
    module that the namespace resolves to has no [@forward] statement, the
    definition lookup on every label that namespace completion offers finds
    a location, in that module. *)
Theorem offered_member_of_plain_module_has_a_definition
    (h : Host) (document : TextDocument.t) (content : string) (position : Position.t)
    (namespace token root moduleFilePath moduleContent : string)
    (useStatement : UseStatement.t)
    (memberFilter : NamespaceMemberFilter) (typedLength : nat)
    (visited visited' : gset string)
    (items : list CompletionItem.t) (item : CompletionItem.t) :
  readFile h (TextDocument.fsPath document) = Returned content ->
  TextDocument.workspaceFolder document = Some root ->
  UseResolver.findUseByNamespace content namespace = Some useStatement ->
  ModuleResolver.resolveModule h (UseStatement.path useStatement)
    (TextDocument.fsPath document) root = Returned (Some moduleFilePath) ->
  readFile h moduleFilePath = Returned moduleContent ->
  parseForwardStatements moduleContent = [] ->
  fst (provideNamespaceMemberCompletion h document content position namespace
         memberFilter typedLength visited) = Returned items ->
  In item items ->
  exists location,
    resolveDefinition h
      (ResolutionContext.mk token namespace (CompletionItem.label item)
         (TextDocument.fsPath document) root OnMember) visited'
    = (Returned (Some location), ∅)
    /\ Location.filePath location = moduleFilePath.
Proof.
  intros Hdisk Hwf Hu Hres Hmc Hfw H Hin.
  rewrite (resolveDefinition_on_member h _ content useStatement moduleFilePath
             moduleContent visited') by done.
  cbn [ResolutionContext.member ResolutionContext.workspaceRoot].
  rewrite findForwardedMember_no_statements by done. cbn [fst].
  unfold scanTarget. rewrite Hmc.
  unfold provideNamespaceMemberCompletion in H. rewrite bind_await in H.
  destruct (newPosition _ _) as [replaceStart| |]; try done.
  rewrite Hu, Hwf in H.
  destruct (startsWith "sass:" _); [injection H as <-; done|].
  rewrite bind_await, Hres in H.
  pose proof (resolveModule_nonempty _ _ _ _ _ Hres) as Hne.
  rewrite (truthy_nonempty moduleFilePath Hne), bind_await, Hmc in H.
  set (replaceRange := newRange replaceStart position) in *.
  assert (Hvariable : forall s,
    In item (namespaceVariableItems replaceRange
               (map VariableMember
                  (SassParser.findAllVariableDefinitions moduleContent moduleFilePath)
                ++ [])%list s) ->
    exists location,
      (Returned
         (if startsWith "$" (CompletionItem.label item)
          then option_map locationOfVariable
                 (SassParser.findVariableDefinition moduleContent
                    (CompletionItem.label item) moduleFilePath)
          else option_map locationOfMixin
                 (SassParser.findMixinDefinition moduleContent
                    (CompletionItem.label item) moduleFilePath)), ∅)
      = (Returned (Some location), (∅ : gset string))
      /\ Location.filePath location = moduleFilePath).
  { intros s Hi. apply namespaceVariableItems_In in Hi as (v & Hv & Hl).
    rewrite app_nil_r in Hv. apply in_map_iff in Hv as (d & <- & Hd).
    pose proof (directMembers_wellSigiled KVariable moduleContent moduleFilePath
                  (VariableMember d)) as Hs.
    cbn in Hs. specialize (Hs (in_map _ _ _ Hd)).
    cbn [memberName] in Hl. rewrite <- (startsWith_dollar_inv _ Hs) in Hl.
    rewrite Hl, Hs.
    pose proof (enumerated_variable_has_a_match _ _ _ Hd) as Hm.
    unfold SassParser.findVariableDefinition.
    destruct (SassParser.variableMatches moduleContent (VariableDefinition.name d))
      as [|[l c] tl]; [done|].
    eexists. split; reflexivity. }
  assert (Hmixin : forall s,
    In item (namespaceMixinItems replaceRange
               (map MixinMember
                  (SassParser.findAllMixinDefinitionsWithParams moduleContent
                     moduleFilePath) ++ [])%list s) ->
    exists location,
      (Returned
         (if startsWith "$" (CompletionItem.label item)
          then option_map locationOfVariable
                 (SassParser.findVariableDefinition moduleContent
                    (CompletionItem.label item) moduleFilePath)
          else option_map locationOfMixin
                 (SassParser.findMixinDefinition moduleContent
                    (CompletionItem.label item) moduleFilePath)), ∅)
      = (Returned (Some location), (∅ : gset string))
      /\ Location.filePath location = moduleFilePath).
  { intros s Hi. apply namespaceMixinItems_In in Hi as (m & Hm & Hl).
    rewrite app_nil_r in Hm. apply in_map_iff in Hm as (d & <- & Hd).
    pose proof (directMembers_wellSigiled KMixin moduleContent moduleFilePath
                  (MixinMember d)) as Hs.
    cbn in Hs. specialize (Hs (in_map _ _ _ Hd)).
    cbn [memberName] in Hl. rewrite Hl, Hs.
    pose proof (enumerated_mixin_is_found _ _ _ Hd) as Hf.
    destruct (SassParser.findMixinDefinition moduleContent (MixinDefinition.name d)
                moduleFilePath) as [d'|] eqn:Ed; [|done].
    apply findMixinDefinition_filePath in Ed as [Hfile _].
    eexists. split; [reflexivity|]. exact Hfile. }
  rewrite bind_outcome in H.
  destruct memberFilter.
  - cbn [Eff.ret fst snd] in H. rewrite bind_outcome, bind_withNewSet in H.
    rewrite (findAllForwardedMembers_no_statements h moduleContent moduleFilePath root
               KMixin ∅ Hfw) in H.
    cbn [Eff.ret fst snd] in H. injection H as <-. by eapply Hmixin.
  - rewrite bind_withNewSet in H.
    rewrite (findAllForwardedMembers_no_statements h moduleContent moduleFilePath root
               KVariable ∅ Hfw) in H.
    cbn [Eff.ret fst snd] in H. injection H as <-. rewrite app_nil_r in Hin.
    by eapply Hvariable.
  - rewrite bind_withNewSet in H.
    rewrite (findAllForwardedMembers_no_statements h moduleContent moduleFilePath root
               KVariable ∅ Hfw) in H.
    cbn [Eff.ret fst snd] in H. rewrite bind_outcome, bind_withNewSet in H.
    rewrite (findAllForwardedMembers_no_statements h moduleContent moduleFilePath root
               KMixin ∅ Hfw) in H.
    cbn [Eff.ret fst snd] in H. injection H as <-.
    apply in_app_or in Hin as [Hin|Hin]; [by eapply Hvariable | by eapply Hmixin].
Qed.

Lemma offered_member_of_plain_module_has_a_definition_witness :
  exists items,
    fst (provideNamespaceMemberCompletion Scenario.privateHost
           (Scenario.document Scenario.privateMain) (Scenario.text Scenario.privateMain)
           (Position.mk 3 17) "n" FilterBoth 0 ∅) = Returned items
    /\ map CompletionItem.label items = [ "$shown"; "shown" ]
    /\ forall item, In item items ->
         exists location,
           resolveDefinition Scenario.privateHost
             (ResolutionContext.mk "n." "n" (CompletionItem.label item)
                Scenario.main Scenario.root OnMember) ∅
           = (Returned (Some location), ∅)
           /\ Location.filePath location = Scenario.fileB.
Proof.
  destruct (fst (provideNamespaceMemberCompletion Scenario.privateHost
                   (Scenario.document Scenario.privateMain)
                   (Scenario.text Scenario.privateMain)
                   (Position.mk 3 17) "n" FilterBoth 0 ∅)) as [items| |] eqn:E;
    [|exfalso; vm_compute in E; discriminate..].
  exists items. split; [reflexivity|]. split.
  - vm_compute in E. injection E as <-. reflexivity.
  - intros item Hin.
    refine (offered_member_of_plain_module_has_a_definition Scenario.privateHost
              (Scenario.document Scenario.privateMain)
              (Scenario.text Scenario.privateMain) (Position.mk 3 17) "n" "n."
              Scenario.root Scenario.fileB (Scenario.text Scenario.privateB)
              (UseStatement.mk "./b" "n" 2) FilterBoth 0 ∅ ∅ items item
              _ _ _ _ _ _ E Hin);
      vm_compute; reflexivity.
Defined.

(** ** Privacy: what the lookup of one member reaches *)









